(* ===== verification/_CoqProject ===== *)
-Q . S2P
Prelude.v
Errors.v
Time.v
Clock.v
PortId.v
DataSet.v
Foreign.v
Stores.v
RecordMap.v
Wire.v
Message.v
Effects.v
Texts.v
Servo.v
E2e.v
Bmca.v
Profile.v
Handlers.v
PortState.v
PortSafety.v
Clocks.v
System.v
Election.v
Hearing.v
Behaviour.v
Exchange.v
Link.v
Recovery.v
Tracking.v
VirtualClock.v
Daemon.v
DaemonSafety.v
DaemonPanics.v
GrafanaDemo.v
BoundaryDemo.v
EmbeddedClocks.v
EmbeddedNet.v
Embedded.v
EmbeddedSafety.v
EmbeddedPanics.v
Witnesses.v
TestSupport.v
TestsValues.v
TestsRecords.v
TestsMechanisms.v
TestsWire.v
TestsStates.v
TestsDaemon.v
Conformance.v
