(* ===== verification/Prelude.v ===== *)
(** * A verification of rptp

    rptp is an IEEE 1588-2019 (PTP) clock written in Rust. This library models its portable core
    (crates/rptp under src/), the Tokio daemon around it (crates/rptp-daemon), the two-node demo on
    a loopback network (crates/grafana-prometheus-demo) and the bare-metal demo
    (crates/rptp-embedded-demo), and proves the properties that make them correct, or show where
    they are not. File names below are those of crates/rptp/src/ unless a crate is named.

    ** The program

    A clock ([OrdinaryClock], [BoundaryClock]) creates ports. A port is a state machine
    ([PortState]: INITIALIZING, LISTENING, PRE_MASTER, MASTER, UNCALIBRATED, SLAVE, PASSIVE,
    FAULTY) held by a [PortFsm]. Infrastructure drives it with datagrams, which [MessageIngress]
    validates, parses and routes by domain, and with system messages (timeouts, transmit
    timestamps, state decision events). A handler may return a [StateDecision], which the FSM
    applies at once. Each port keeps the foreign clocks it hears ([BestForeignRecord]); when its
    best one changes, it triggers the clock, which collects the best of every port and schedules
    the same state decision event on all of them; there the best master clock algorithm decides
    whether the port is to be master, slave or passive. A slave measures its offset with the
    end-to-end delay mechanism and feeds the samples to a servo that steps or slews the clock.

    The infrastructure is one of two. The daemon's [TokioPortsLoop] waits for datagrams on two
    sockets and for system messages on a channel that timer tasks and the timestamping adapter
    feed; several loops may share a boundary clock. The embedded program polls an Ethernet
    controller, a queue of timestamps and a fixed array of timer slots in one loop.

    ** The files

    - Prelude.v: panicking computations ([outcome]), machine integers, byte slices, orderings, runs
      and schedules of a system of events.
    - Errors.v (result.rs): the error families and the parsers' monad [PR].
    - Time.v (time.rs), Clock.v (clock.rs), PortId.v (port.rs, value types and
      [PortEnumeration]), DataSet.v (dataset.rs): the value types and the dataset comparison.
    - Foreign.v (foreign.rs): foreign clock records, qualification, the best record, against the
      interface [ForeignClockRecords]; Stores.v (infra.rs, heapless.rs): its implementations and
      the candidates shared by the ports of a boundary clock; RecordMap.v: both as a finite map.
    - Wire.v (wire.rs), Message.v (message.rs): validation, parsing and serialization.
    - Effects.v (port.rs, log.rs, timestamping.rs): a port's effects and the monad [M S]; Texts.v
      (result.rs, clock.rs, port.rs; rptp-daemon: log.rs, node.rs; rptp-embedded-demo: main.rs): how
      identities, errors and events are written.
    - Servo.v (servo.rs), E2e.v (e2e.rs), Bmca.v (bmca.rs).
    - Profile.v (profile.rs, and the constructors of the state modules), Handlers.v
      (initializing.rs, listening.rs, premaster.rs, master.rs, uncalibrated.rs, slave.rs,
      passive.rs, faulty.rs), PortState.v (portstate.rs, and the FSM, port map and ingress of
      port.rs and message.rs), Clocks.v (ordinary.rs, boundary.rs, infra.rs).
    - PortSafety.v, System.v, Election.v, Hearing.v, Behaviour.v, Tracking.v: theorems about one
      port, about the ports of a clock under any interleaving of deliveries, about the roles that a
      state decision event gives to ports and clocks, about what a port remembers of the Announces
      it heard, about what the states do, and about how a port follows its master. Exchange.v and
      Link.v: what each end of an exchange does with each input, and a master and its slave with
      their clocks at the two ends of a path ([Link], [link_step]); Recovery.v: one exchange on it.
    - VirtualClock.v (rptp-daemon: virtualclock.rs): the software clock, and the interface
      [SystemClock] with its laws, against which the daemon is proved.
    - Daemon.v (rptp-daemon: node.rs, timestamping.rs, ordinary.rs, boundary.rs, main.rs): timers,
      channel, loop, and the assembly of nodes; DaemonSafety.v, DaemonPanics.v: theorems about
      nodes.
    - GrafanaDemo.v (rptp-daemon: net.rs; grafana-prometheus-demo: node.rs, main.rs): loopback
      sockets and the two daemons they connect; BoundaryDemo.v (rptp-daemon:
      tests/two_port_boundary_clock.rs): a boundary clock between a grandmaster and a slave.
    - EmbeddedClocks.v and Embedded.v (rptp-embedded-demo: main.rs), EmbeddedNet.v
      (rptp-embedded-demo: net.rs): counters and clocks, the driver's frame transfer and the
      sockets' queues, and the program; EmbeddedSafety.v, EmbeddedPanics.v: theorems about its runs.
    - Witnesses.v: the theorems at concrete clocks, ports and messages.
    - TestSupport.v (test_support.rs): fixtures and fakes; TestsValues.v, TestsRecords.v,
      TestsMechanisms.v, TestsWire.v, TestsStates.v (the test modules of crates/rptp) and
      TestsDaemon.v (those of rptp-daemon: node.rs and virtualclock.rs): one definition per unit
      test, under its name;
      Conformance.v: the model passes them.

    ** How state and operations correspond

    A Rust struct is a Record, an enum an Inductive type, a trait a Class whose instances are the
    impls; [Type::method] is the definition [Type_method]. A method on [&mut self] takes the
    record and returns the updated one. An integer of width w is a [Z] with its range as a
    well-formedness predicate and its wrapping, saturating, checked or overflow-checked operation
    written out; a byte slice is a list of [Z]. [Cell]s and [RefCell]s that only one owner reaches
    are record fields. The state that the ports of one clock share (port enumeration, candidates,
    notification handles) is the [S] of the monad [M S], threaded through every step, so two ports
    see each other's updates in the order of the deliveries. The monad also threads a trace of
    effects (log entries, timeouts created and restarted, datagrams with their bytes, timestamp
    requests, clock steps and rate adjustments) in the order the code performs them.

    The daemon and the embedded program run a step of the core and then act on the effects it
    appended to the trace, in their order: a timeout is created or restarted, a clock stepped, a
    timestamp taken and queued. This order is the code's, which calls its collaborators in place,
    since nothing the core does depends on what they do, results of sends and the time scale
    apart, which [Env] answers. A timeout's handle is its creation index and first message; a
    handle that the port or the clock no longer owns has been dropped, which cancels its timer in
    the daemon and does nothing in the embedded program. The daemon's channel is a list, its tasks
    are the deadlines of its timeouts, and what happens next is an event ([NodeEvent]): theorems
    quantify over all sequences of events.

    [Panic] is a panic. Arithmetic is that of the checked build (overflow panics, and the
    source's [debug_assert!]s are checked), which is the stronger obligation: code that does not
    panic there computes the same in a release build. The recursions of the core are loops over
    lists and structural here, and every step is a function, so that the code returns a result is
    part of each functional theorem. Fuel appears in three places. The register loops of
    EmbeddedNet.v need a word per four bytes, as their theorems say; the loop that drains the
    embedded program's timestamps needs at most eight rounds, the queue's capacity
    ([demo_run_terminates]); and [run_until] of Prelude.v, which is a schedule and not code, has
    3000 events for each instant it stops at, more than any of the runs takes.
    Well-formed inputs are those a caller can construct: 48-bit seconds, bytes below 256,
    intervals that the constructors accept.

    What the code calls and does not define is a parameter. [Env] gives the results of sends and
    the clock's time scale as arbitrary functions of the trace so far; theorems hold for each.
    [MessageFlagsOps], [HeaplessVec] and [HeaplessDeque] stand for the [bitflags] type,
    [heapless::Vec] and [heapless::Deque], with their documented behaviour in [MessageFlagsLaws],
    [HeaplessVecLaws] and [HeaplessDequeLaws]; Message.v, Stores.v and Embedded.v instantiate them.
    What the network stack smoltcp delivers to a socket, the values of the hardware counters at
    each read and the host's answers to semihosting calls are arguments. A binary64 number is
    Stdlib's [spec_float] at precision 53 and exponent bound 1024, with its IEEE 754 operations.

    ** The theorems

    - Safety of the core: an ordinary or boundary clock processes any sequence of arbitrary bytes
      and system messages without a panic and keeps its invariant, with one exception which is
      exact, an announce receipt timeout delivered to a master (System.v). It rests on the state
      chart of portstate.rs ([transition]), which [PortState_apply] implements and whose domain
      the dispatchers respect (PortSafety.v).
    - Safety of the daemon: its loops never let that exception happen, because a dropped timeout is
      cancelled and a restarted one is due an interval later, as long as no message waits in the
      channel for a whole announce receipt interval (DaemonSafety.v, with a run that starves the
      loop and panics). Without that condition, the daemon around an ordinary clock panics exactly
      when its loop takes an announce receipt timeout out of the channel as a master
      (DaemonPanics.v). The loops are proved against the laws of [SystemClock], which
      VirtualClock.v discharges for rates that are not negative, and refutes for others.
    - The embedded program lacks that protection, as its timers outlive their handles. It panics
      exactly where the tick count, the timer slots or the timestamp queue run out, or a stale
      announce receipt timeout fires in a master (EmbeddedPanics.v); two runs in the company of
      another master do so (EmbeddedSafety.v). Every iteration ends, slots are never shared, and in
      a run on its own it serves time. Its clocks are exact or lag boundedly, and its driver
      transfers every byte of a frame (EmbeddedClocks.v, EmbeddedNet.v).
    - The master clock algorithm: a state decision event gives a port the role of the decision
      table, whatever its state; the ports of a clock settle on one slave (Election.v); a port
      remembers exactly the Announces it heard, the last state decision event its clock has scheduled
      carries the best of them, and the clocks of a network that announce themselves to each other
      elect one master by these events (Hearing.v). Below that the table itself, change detection,
      suppression of repeated decisions, qualification timeouts (Bmca.v); the dataset comparison as
      a lexicographic order where it is one, and a cycle where it is not (DataSet.v); qualification,
      pruning and the best record (Foreign.v); capacity, eviction and the collected candidates
      (Stores.v); the stores as implementations of a finite map, which alone decides the preferred
      master (RecordMap.v).
    - The wire: every datagram a clock sends is the image of a well-formed message (Behaviour.v),
      serialized messages parse back, the parsers are total on arbitrary bytes and return
      well-formed messages, the length check is exact (Message.v, Wire.v, DataSet.v).
    - Measurement and control: the offset computed from a two-step exchange in any order of arrival,
      totality of the sample (E2e.v), the servo against a pure specification (Servo.v), the exchange
      that steps the clock to its master's time and makes the port a slave, and a slave that tracks
      its master through any number of exchanges and is turned away by a stale delay measurement
      (Tracking.v), the closed loop of a master and a slave over a path that loses, repeats and
      reorders, whose clock is only ever set to the mean of what was measured (Link.v), and which
      one undisturbed exchange sets right from any state (Recovery.v), time arithmetic against
      integer nanoseconds (Time.v).
    - Networks of daemons: the loopback sockets between two daemons deliver what each port sent, once
      and in order, under any interleaving (GrafanaDemo.v); a grandmaster, a boundary clock and a
      slave on two links never panic and put only well-formed messages of their own clocks on them,
      under any interleaving in which no message waits for an announce receipt interval
      (BoundaryDemo.v). In the one run that handles everything when it comes, at the instants looked
      at, the two daemons are synchronized, also after a jump of the master, and time has passed
      through the boundary clock.
    - Behaviour of the states: Announce, Sync, FollowUp and DelayResp of a master with their
      contents, order and failures, silence of the other states, deafness to all but the parent,
      and a master that reinstates a vanished parent from a stale record (Behaviour.v).
    - Conformance: the model passes the 303 unit tests of crates/rptp, ten of the daemon's eleven
      and its integration test (Conformance.v). A test is a computation that panics when an
      assertion fails; its fakes are read off the trace of effects.
    - Ports: enumeration, its overflow at 65535 ports, and notification of every port (PortId.v,
      System.v). The theorems on n ports take 1 <= n < 65535 for that reason.

    ** Not modelled

    Real sockets ([MulticastSocket]), where a log line goes, the metrics server, register-level
    set-up of the microcontroller, and the construction of smoltcp's interface are I/O and
    third-party calls. The derived [Debug] texts, the blanket impls for references and boxes, and
    the run-time borrow checks of [RefCell] are left out (no borrow in the core outlives the call
    that takes it). Tokio's scheduler is abstracted to arbitrary interleavings;
    in the daemon a message is handled while nothing else runs, as the runtime is single-threaded.
    Of the tests, the one that measures the size of a type in memory is left out, and so are the
    end-to-end tests, which are container scenarios against another implementation. The tests in
    which time passes run under the schedule that handles what is due at once; those that read the
    real time take the instants of the reads.

    ** Plan

    What could follow: synchronization on the loopback network under every schedule that handles
    messages before the next interval, where GrafanaDemo.v has one and Recovery.v the exchange on its
    own; the PI servo's convergence in exact arithmetic and conditions under which it never asks for
    a negative rate; an election in which clocks come and go, where records grow stale. *)
From stdpp Require Export prelude.
From Stdlib Require Export ZArith Lia.

Open Scope Z_scope.

(** ** Panicking computations

    [outcome A] is the result of Rust code that may abort: [Done a] is a normal
    return, [Panic] a failed [assert!], an arithmetic overflow of the checked
    build profile, an out-of-range slice index or an explicit [panic!]. *)
Inductive outcome (A : Type) : Type :=
| Done (a : A)
| Panic.
Arguments Done {A} a.
Arguments Panic {A}.

#[export] Instance outcome_ret : MRet outcome := λ A a, Done a.
#[export] Instance outcome_bind : MBind outcome := λ A B f m,
  match m with Done a => f a | Panic => Panic end.
#[export] Instance outcome_fmap : FMap outcome := λ A B f m,
  match m with Done a => Done (f a) | Panic => Panic end.

(** [assert!(b)] and [debug_assert!(b)]. *)
Definition rassert (b : bool) : outcome unit := if b then Done tt else Panic.

(** [Option::unwrap]/[expect]. *)
Definition unwrap {A} (o : option A) : outcome A :=
  match o with Some a => Done a | None => Panic end.

Definition is_done {A} (m : outcome A) : Prop := ∃ a, m = Done a.

Lemma unwrap_inv {A} (o : option A) a : unwrap o = Done a → o = Some a.
Proof. destruct o; [by intros [= ->] | done]. Qed.

Lemma is_done_Done {A} (a : A) : is_done (Done a).
Proof. by exists a. Qed.

Lemma outcome_bind_Done {A B} (f : A → outcome B) a : (Done a ≫= f) = f a.
Proof. done. Qed.

Lemma outcome_bind_inv {A B} (f : A → outcome B) m b :
  (m ≫= f) = Done b → ∃ a, m = Done a ∧ f a = Done b.
Proof. destruct m as [a|]; [intros H; by exists a | done]. Qed.

Lemma is_done_bind {A B} (f : A → outcome B) m :
  is_done m → (∀ a, m = Done a → is_done (f a)) → is_done (m ≫= f).
Proof. intros [a ->] H. by apply H. Qed.

Lemma rassert_true b : b = true → rassert b = Done tt.
Proof. by intros ->. Qed.

(** ** Machine integers

    A Rust integer is a [Z]; these are the ranges of its type and the standard
    library's wrapping, checked and saturating views of a mathematical result. *)
Definition u_in (w z : Z) : bool := (0 <=? z) && (z <? 2 ^ w).
Definition i_in (w z : Z) : bool := (- 2 ^ (w - 1) <=? z) && (z <? 2 ^ (w - 1)).

(** An overflow-checked result: [a + b], [a - b], [a * b] of the checked profile. *)
Definition u_chk (w z : Z) : outcome Z := if u_in w z then Done z else Panic.
Definition i_chk (w z : Z) : outcome Z := if i_in w z then Done z else Panic.

(** [checked_add] and its kin. *)
Definition i_checked (w z : Z) : option Z := if i_in w z then Some z else None.

(** An [as] cast to an unsigned or signed type of width [w]. *)
Definition as_u (w z : Z) : Z := z mod 2 ^ w.
Definition as_i (w z : Z) : Z := (z + 2 ^ (w - 1)) mod 2 ^ w - 2 ^ (w - 1).

(** [wrapping_add] and [saturating_*] of an unsigned type, for a nonnegative result. *)
Definition u_wrap (w z : Z) : Z := z mod 2 ^ w.
Definition u_sat (w z : Z) : Z := Z.min z (2 ^ w - 1).

Lemma u_in_true w z : u_in w z = true ↔ 0 <= z < 2 ^ w.
Proof. unfold u_in. lia. Qed.

Lemma i_in_true w z : i_in w z = true ↔ - 2 ^ (w - 1) <= z < 2 ^ (w - 1).
Proof. unfold i_in. lia. Qed.

Lemma u_chk_Done w z : 0 <= z < 2 ^ w → u_chk w z = Done z.
Proof. intros H. unfold u_chk. by rewrite (proj2 (u_in_true w z) H). Qed.

Lemma i_chk_Done w z : - 2 ^ (w - 1) <= z < 2 ^ (w - 1) → i_chk w z = Done z.
Proof. intros H. unfold i_chk. by rewrite (proj2 (i_in_true w z) H). Qed.

Lemma i_checked_Some w z : - 2 ^ (w - 1) <= z < 2 ^ (w - 1) → i_checked w z = Some z.
Proof. intros H. unfold i_checked. by rewrite (proj2 (i_in_true w z) H). Qed.

Lemma as_u_small w z : 0 <= z < 2 ^ w → as_u w z = z.
Proof. intros H. unfold as_u. by apply Z.mod_small. Qed.

Lemma as_i_small w z : 0 < w → - 2 ^ (w - 1) <= z < 2 ^ (w - 1) → as_i w z = z.
Proof.
  intros Hw H. unfold as_i.
  assert (2 ^ w = 2 * 2 ^ (w - 1)) as E.
  { rewrite <- Z.pow_succ_r by lia. f_equal. lia. }
  rewrite Z.mod_small; lia.
Qed.

Lemma as_u_range w z : 0 <= w → 0 <= as_u w z < 2 ^ w.
Proof. intros Hw. unfold as_u. apply Z.mod_pos_bound. by apply Z.pow_pos_nonneg. Qed.

(** ** Bytes and big-endian encodings *)

Definition is_byte (b : Z) : Prop := 0 <= b < 256.

(** [to_be_bytes] of an [n]-byte integer and [from_be_bytes]. *)
Fixpoint to_be (n : nat) (z : Z) : list Z :=
  match n with
  | O => []
  | S n => to_be n (Z.shiftr z 8) ++ [Z.land z 255]
  end.

Definition from_be (l : list Z) : Z := fold_left (λ a b, a * 256 + b) l 0.

(** Disjoint bit ranges add up. *)
Lemma lor_shiftl k m l : 0 <= k → 0 <= l < 2 ^ k → Z.lor (Z.shiftl m k) l = m * 2 ^ k + l.
Proof.
  intros Hk H. rewrite <- Z.shiftl_mul_pow2 by lia.
  assert (∀ n, 0 <= n → Z.testbit (Z.shiftl m k) n && Z.testbit l n = false) as Hb.
  { intros n Hn. destruct (Z.ltb_spec n k); [by rewrite Z.shiftl_spec_low|].
    rewrite (Z.testbit_eqb l), (Z.div_small l) by
      (lia || (split; [lia|]; apply Z.lt_le_trans with (2 ^ k); [lia|apply Z.pow_le_mono_r; lia])).
    apply andb_false_r. }
  assert (Z.land (Z.shiftl m k) l = 0) as E.
  { apply Z.bits_inj'. intros n Hn. by rewrite Z.land_spec, Z.bits_0, Hb. }
  pose proof (Z.add_lor_land (Z.shiftl m k) l). lia.
Qed.

Lemma land_255 z : Z.land z 255 = z mod 256.
Proof. change 255 with (Z.ones 8). by rewrite Z.land_ones. Qed.

Lemma from_be_snoc l b : from_be (l ++ [b]) = from_be l * 256 + b.
Proof. unfold from_be. by rewrite fold_left_app. Qed.

Lemma length_to_be n z : length (to_be n z) = n.
Proof. revert z. induction n as [|n IH]; intros z; simpl; [done|]. rewrite length_app, IH. cbn [length]. lia. Qed.

Lemma to_be_bytes n z : Forall is_byte (to_be n z).
Proof.
  revert z. induction n as [|n IH]; intros z; simpl; [done|].
  apply Forall_app. split; [apply IH|]. constructor; [|done].
  unfold is_byte. rewrite land_255. apply Z.mod_pos_bound. lia.
Qed.

Lemma from_to_be n z : 0 <= z < 256 ^ Z.of_nat n → from_be (to_be n z) = z.
Proof.
  revert z. induction n as [|n IH]; intros z Hz; simpl.
  { change (256 ^ Z.of_nat 0) with 1 in Hz. unfold from_be; simpl. lia. }
  rewrite from_be_snoc, land_255, IH.
  - rewrite Z.shiftr_div_pow2 by lia. change (2 ^ 8) with 256.
    pose proof (Z.div_mod z 256). lia.
  - rewrite Z.shiftr_div_pow2 by lia. change (2 ^ 8) with 256.
    rewrite Nat2Z.inj_succ, Z.pow_succ_r in Hz by lia.
    split; [apply Z.div_pos; lia | apply Z.div_lt_upper_bound; lia].
Qed.

Lemma from_be_range l : Forall is_byte l → 0 <= from_be l < 256 ^ Z.of_nat (length l).
Proof.
  induction l as [|b l IH] using rev_ind; intros Hl; [by unfold from_be; simpl|].
  apply Forall_app in Hl as [Hl Hb]. rewrite Forall_singleton in Hb. specialize (IH Hl).
  rewrite from_be_snoc, length_app. cbn [length]. unfold is_byte in Hb.
  rewrite Nat2Z.inj_add, Z.pow_add_r by lia. change (256 ^ Z.of_nat 1) with 256.
  lia.
Qed.

Lemma to_from_be l : Forall is_byte l → to_be (length l) (from_be l) = l.
Proof.
  induction l as [|b l IH] using rev_ind; intros Hl; [done|].
  apply Forall_app in Hl as [Hl Hb]. rewrite Forall_singleton in Hb. unfold is_byte in Hb.
  rewrite length_app. simpl length. rewrite Nat.add_1_r. simpl.
  rewrite from_be_snoc, land_255, Z.shiftr_div_pow2 by lia. change (2 ^ 8) with 256.
  rewrite Z.div_add_l, Z.div_small, Z.add_0_r by lia.
  rewrite (Z.add_comm _ b), Z.mod_add, Z.mod_small by lia.
  by rewrite IH.
Qed.

(** ** Buffers: slices, indexing and [copy_from_slice] *)

(** [buf[lo..hi]] and [buf.get(lo..hi)]. *)
Definition slice (lo hi : nat) (buf : list Z) : list Z := take (hi - lo) (drop lo buf).

Definition get_range (lo hi : nat) (buf : list Z) : option (list Z) :=
  if (lo <=? hi)%nat && (hi <=? length buf)%nat then Some (slice lo hi buf) else None.

Definition index_range (lo hi : nat) (buf : list Z) : outcome (list Z) :=
  unwrap (get_range lo hi buf).

(** [buf[i]]. *)
Definition index (i : nat) (buf : list Z) : outcome Z := unwrap (buf !! i).

(** [buf[lo..hi].copy_from_slice(src)], which panics on a length mismatch. *)
Definition copy_from_slice (lo hi : nat) (src buf : list Z) : outcome (list Z) :=
  if (lo <=? hi)%nat && (hi <=? length buf)%nat && (length src =? hi - lo)%nat
  then Done (take lo buf ++ src ++ drop hi buf)
  else Panic.

(** [buf[i] = b]. *)
Definition set_index (i : nat) (b : Z) (buf : list Z) : outcome (list Z) :=
  if (i <? length buf)%nat then Done (<[i:=b]> buf) else Panic.

Lemma length_slice lo hi buf : (lo <= hi <= length buf)%nat → length (slice lo hi buf) = (hi - lo)%nat.
Proof. intros H. unfold slice. rewrite length_take, length_drop. lia. Qed.

Lemma index_range_Done lo hi buf :
  (lo <= hi <= length buf)%nat → index_range lo hi buf = Done (slice lo hi buf).
Proof.
  intros H. unfold index_range, get_range.
  rewrite (proj2 (Nat.leb_le lo hi)), (proj2 (Nat.leb_le hi _)) by lia. done.
Qed.

Lemma index_Done i buf : (i < length buf)%nat → ∃ b, index i buf = Done b ∧ buf !! i = Some b.
Proof.
  intros H. destruct (lookup_lt_is_Some_2 buf i H) as [b Hb]. exists b.
  unfold index. by rewrite Hb.
Qed.

Lemma Forall_slice (P : Z → Prop) lo hi buf : Forall P buf → Forall P (slice lo hi buf).
Proof. intros H. unfold slice. by apply Forall_take, Forall_drop. Qed.

(** ** Comparisons *)

(** [Ordering] is Stdlib's [comparison]; [then_with] chains the fields of a derived
    [Ord] on a struct or of a tuple. *)
Definition then_with (a b : comparison) : comparison :=
  match a with Eq => b | _ => a end.

(** [Ord] on byte arrays. *)
Fixpoint array_cmp (a b : list Z) : comparison :=
  match a, b with
  | [], [] => Eq
  | [], _ :: _ => Lt
  | _ :: _, [] => Gt
  | x :: a, y :: b => then_with (Z.compare x y) (array_cmp a b)
  end.

Lemma then_with_Eq a b : then_with a b = Eq ↔ a = Eq ∧ b = Eq.
Proof. destruct a, b; simpl; split; try done; by intros [??]. Qed.

(** A three-way comparison that is a strict total order up to [Eq]. *)
Class Comparator {A} (cmp : A → A → comparison) : Prop := {
  cmp_refl : ∀ x, cmp x x = Eq;
  cmp_antisym : ∀ x y, cmp y x = CompOpp (cmp x y);
  cmp_trans : ∀ x y z, cmp x y = Lt → cmp y z = Lt → cmp x z = Lt;
  cmp_eq_l : ∀ x y z, cmp x y = Eq → cmp x z = cmp y z;
}.

#[export] Instance Z_comparator : Comparator Z.compare.
Proof.
  split.
  - apply Z.compare_refl.
  - intros x y. apply Z.compare_antisym.
  - intros x y z. rewrite !Z.compare_lt_iff. lia.
  - intros x y z ->%Z.compare_eq. done.
Qed.

(** Comparison by the image of a function: a manual [impl Ord] that compares [as_u8]. *)
#[export] Instance on_comparator {A B} (f : A → B) (cmp : B → B → comparison) :
  Comparator cmp → Comparator (λ x y, cmp (f x) (f y)).
Proof.
  intros HC. split; intros x *.
  - apply cmp_refl.
  - apply cmp_antisym.
  - apply cmp_trans.
  - apply cmp_eq_l.
Qed.

Lemma cmp_eq_r {A} (cmp : A → A → comparison) `{!Comparator cmp} x y z :
  cmp y z = Eq → cmp x y = cmp x z.
Proof.
  intros H. rewrite (cmp_antisym y x), (cmp_antisym z x), (cmp_eq_l y z x); done.
Qed.

(** Lexicographic composition. *)
#[export] Instance then_comparator {A} (c1 c2 : A → A → comparison) :
  Comparator c1 → Comparator c2 → Comparator (λ x y, then_with (c1 x y) (c2 x y)).
Proof.
  intros H1 H2. split.
  - intros x. by rewrite !cmp_refl.
  - intros x y. rewrite (cmp_antisym (cmp := c1) x y), (cmp_antisym (cmp := c2) x y).
    by destruct (c1 x y).
  - intros x y z. destruct (c1 x y) eqn:E1; simpl; try done.
    + rewrite (cmp_eq_l x y z E1). destruct (c1 y z); simpl; [apply cmp_trans | done..].
    + intros _. destruct (c1 y z) eqn:E2; simpl; [|by rewrite (cmp_trans (cmp := c1) x y z E1 E2) | done].
      by rewrite <- (cmp_eq_r c1 x y z E2), E1.
  - intros x y z. rewrite then_with_Eq. intros [E1 E2].
    by rewrite (cmp_eq_l x y z E1), (cmp_eq_l x y z E2).
Qed.

#[export] Instance array_comparator : Comparator array_cmp.
Proof.
  split.
  - induction x as [|a x IH]; simpl; [done|]. by rewrite Z.compare_refl.
  - induction x as [|a x IH]; intros [|b y]; simpl; try done.
    rewrite (Z.compare_antisym a b), IH. by destruct (a ?= b).
  - induction x as [|a x IH]; intros [|b y] [|c z]; simpl; try done.
    destruct (a ?= b) eqn:E1; simpl; try done.
    + apply Z.compare_eq in E1 as ->. destruct (b ?= c); simpl; [apply IH | done..].
    + intros _. destruct (b ?= c) eqn:E2; simpl; try done.
      * apply Z.compare_eq in E2 as ->. by rewrite E1.
      * intros _. by rewrite (cmp_trans (cmp := Z.compare) a b c).
  - induction x as [|a x IH]; intros [|b y] z; simpl; try done.
    rewrite then_with_Eq. intros [->%Z.compare_eq E].
    destruct z as [|c z]; [done|]. by rewrite (IH y z E).
Qed.

Lemma array_cmp_eq a b : array_cmp a b = Eq → a = b.
Proof.
  revert b. induction a as [|x a IH]; intros [|y b]; simpl; try done.
  rewrite then_with_Eq. intros [->%Z.compare_eq E]. by rewrite (IH b E).
Qed.

Lemma not_Gt_trans {A} (cmp : A → A → comparison) `{!Comparator cmp} x y z :
  cmp x y ≠ Gt → cmp y z ≠ Gt → cmp x z ≠ Gt.
Proof.
  intros H1 H2. destruct (cmp x y) eqn:E1; [|clear H1|done].
  - by rewrite (cmp_eq_l x y z E1).
  - destruct (cmp y z) eqn:E2; [|clear H2|done].
    + rewrite <- (cmp_eq_r cmp x y z E2). congruence.
    + rewrite (cmp_trans x y z E1 E2). congruence.
Qed.

(** A scan that keeps the better of the best so far and the next candidate. *)
Definition keep_better {A} (better : A → A → bool) (best candidate : A) : A :=
  if better candidate best then candidate else best.

(** The best of a list, by whatever comparison, is the default or one of the list. *)
Lemma fold_keep_elem {A} (better : A → A → bool) (l : list A) (best : A) :
  fold_left (λ b c, if better c b then c else b) l best ∈ best :: l.
Proof.
  revert best. induction l as [|c l IH]; intros best; simpl; [by left|].
  destruct (better c best); [right; apply IH|].
  destruct (proj1 (elem_of_cons _ _ _) (IH best)) as [->|H]; [by left | by do 2 right].
Qed.

(** Where [better] is a strict order's "less than", the scan ends at a least element. *)
Lemma fold_keep_better {A} (cmp : A → A → comparison) `{!Comparator cmp}
    (better : A → A → bool) (all l : list A) (best : A) :
  (∀ x y, x ∈ all → y ∈ all → better x y = true ↔ cmp x y = Lt) →
  best ∈ all → (∀ x, x ∈ l → x ∈ all) →
  let b := fold_left (keep_better better) l best in
  b ∈ best :: l ∧ (∀ y, y ∈ best :: l → cmp b y ≠ Gt).
Proof.
  intros Hlt. revert best. induction l as [|c l IH]; intros best Hb Hl; simpl.
  { split; [left|]. intros y ->%list_elem_of_singleton. by rewrite cmp_refl. }
  assert (c ∈ all) as Hc by (apply Hl; left).
  assert (keep_better better best c ∈ all ∧ cmp (keep_better better best c) best ≠ Gt ∧
          cmp (keep_better better best c) c ≠ Gt) as (H1 & H2 & H3).
  { pose proof (Hlt c best Hc Hb) as Hiff. unfold keep_better.
    destruct (better c best).
    - by rewrite (proj1 Hiff eq_refl), (cmp_refl (cmp := cmp)).
    - rewrite (cmp_refl (cmp := cmp)), (cmp_antisym (cmp := cmp) c best). do 2 (split; [done|]).
      destruct (cmp c best); [done | | done]. discriminate (proj2 Hiff eq_refl). }
  destruct (IH (keep_better better best c)) as [H4 H5]; [done|intros; apply Hl; by right|].
  split.
  - apply elem_of_cons in H4 as [->|H4]; [|by do 2 right].
    unfold keep_better. case_match; [right; left | left].
  - intros y [->|[->|Hy]%elem_of_cons]%elem_of_cons.
    + by apply (not_Gt_trans cmp _ _ _ (H5 _ (list_elem_of_here _ _))).
    + by apply (not_Gt_trans cmp _ _ _ (H5 _ (list_elem_of_here _ _))).
    + apply H5. by right.
Qed.

(** ** Automation shared by the development *)

Create Rewrite HintDb len.
Create HintDb rptp discriminated.
#[export] Hint Constants Opaque : rptp.
#[export] Hint Resolve is_done_Done to_be_bytes Forall_slice : rptp.
#[export] Hint Rewrite @length_to_be @length_app @length_take @length_drop @length_replicate : len.

(** Split a hypothesis [m ≫= f = Done b] into its successful steps. *)
Ltac inv_done :=
  repeat match goal with
  | H : mbind _ _ = Done _ |- _ => apply outcome_bind_inv in H as (?a & ?Ha & H)
  | H : Done _ = Done _ |- _ => injection H as H; try subst
  | H : Panic = Done _ |- _ => discriminate H
  end.

(** Case on the innermost [match] or [if] of the goal. *)
Ltac case_goal :=
  match goal with
  | |- context [match ?x with _ => _ end] =>
      lazymatch x with
      | context [match _ with _ => _ end] => fail
      | _ => destruct x eqn:?
      end
  end.

(** Length side conditions on byte lists. *)
Ltac len := autorewrite with len in *; simpl in *; lia.

(** Well-formedness of a concrete value, by evaluation. *)
Ltac wf_concrete :=
  vm_compute; repeat first [ split | constructor | discriminate | intros ?; discriminate ].

(** The function a term applies. *)
Ltac head_of t := match t with ?f _ => head_of f | _ => t end.

(** ** Runs and schedules *)

(** A system with steps that can be impossible, panic or succeed, and a schedule that names the next
    event before an instant, [None] when there is none. *)
Section schedule.
  Context {St Ev : Type} (step : Ev → St → option (outcome St)) (next : Z → St → option Ev).

Fixpoint steps_run (es : list Ev) (s : St) : option (outcome St) :=
  match es with
  | [] => Some (Done s)
  | e :: es =>
      match step e s with
      | Some (Done s) => steps_run es s
      | r => r
      end
  end.

Fixpoint run_until (fuel : nat) (until : Z) (s : St) : option St :=
  match fuel with
  | O => None
  | S fuel =>
      match next until s with
      | None => Some s
      | Some e =>
          match step e s with
          | Some (Done s) => run_until fuel until s
          | _ => None
          end
      end
  end.

(** The events of that run. *)
Fixpoint run_events (fuel : nat) (until : Z) (s : St) : list Ev :=
  match fuel, next until s with
  | S fuel, Some e =>
      e :: match step e s with Some (Done s) => run_events fuel until s | _ => [] end
  | _, _ => []
  end.

(** The system at each of the given instants of one run. *)
Fixpoint run_checkpoints (fuel : nat) (instants : list Z) (s : St) : option (list St) :=
  match instants with
  | [] => Some []
  | until :: instants =>
      s ← run_until fuel until s;
      ss ← run_checkpoints fuel instants s;
      Some (s :: ss)
  end.

Lemma steps_run_app es es' s s' : steps_run es s = Some (Done s') →
  steps_run (es ++ es') s = steps_run es' s'.
Proof.
  revert s. induction es as [|e es IH]; intros s E; simpl in *; [by injection E as ->|].
  destruct (step e s) as [[s1|]|]; [by apply IH | done..].
Qed.

Lemma run_until_run fuel until : ∀ s s', run_until fuel until s = Some s' →
  ∃ es, steps_run es s = Some (Done s').
Proof.
  induction fuel as [|fuel IH]; intros s s' E; simpl in E; [done|].
  destruct (next until s) as [e|]; [|injection E as <-; by exists []].
  destruct (step e s) as [[s1|]|] eqn:E1; [|done..].
  destruct (IH s1 s' E) as [es Hes]. exists (e :: es). simpl. by rewrite E1.
Qed.

Lemma run_checkpoints_run fuel instants : ∀ s ss, run_checkpoints fuel instants s = Some ss →
  ∀ s', s' ∈ ss → ∃ es, steps_run es s = Some (Done s').
Proof.
  induction instants as [|until instants IH]; intros s ss E s' Hs; simpl in E.
  { injection E as <-. by apply elem_of_nil in Hs. }
  apply bind_Some in E as (s1 & E1 & E). apply bind_Some in E as (ss' & E2 & [= <-]).
  destruct (run_until_run _ _ _ _ E1) as [es Hes].
  apply elem_of_cons in Hs as [->|Hs]; [by exists es|].
  destruct (IH s1 ss' E2 s' Hs) as [es' Hes']. exists (es ++ es').
  by rewrite (steps_run_app _ _ _ _ Hes).
Qed.
End schedule.
