(* ===== verification/Errors.v ===== *)
(** * Errors (crates/rptp/src/result.rs)

    The two error families of the crate and the monad of its parsing paths: code that
    returns [Result<T>] and may also panic is a [PR T], an [outcome] of a [result]. *)

From S2P Require Import Prelude.
From stdpp Require Export strings.

Inductive result (A E : Type) : Type :=
| Ok (a : A)
| Err (e : E).
Arguments Ok {A E} a.
Arguments Err {A E} e.

Inductive ParseError :=
| HeaderTooShort (found : nat)
| LengthMismatch (declared actual : Z)
| PayloadTooShort (field : string) (expected found : nat).

Inductive ProtocolError :=
| UnsupportedPtpVersion (v : Z)
| DomainNotFound (domain : Z)
| InvalidTimestamp (nanos : Z)
| UnknownMessageType (t : Z).

Inductive Error :=
| Parse (e : ParseError)
| Protocol (e : ProtocolError).

#[export] Instance ParseError_eq_dec : EqDecision ParseError.
Proof. solve_decision. Defined.
#[export] Instance ProtocolError_eq_dec : EqDecision ProtocolError.
Proof. solve_decision. Defined.
#[export] Instance Error_eq_dec : EqDecision Error.
Proof. solve_decision. Defined.

(** [PR A]: a fallible, possibly panicking computation; [x ← m; k] is [let x = m?; k]. *)
Definition PR (A : Type) : Type := outcome (result A Error).

#[export] Instance PR_ret : MRet PR := λ A a, Done (Ok a).
#[export] Instance PR_bind : MBind PR := λ A B f m,
  match m with
  | Done (Ok a) => f a
  | Done (Err e) => Done (Err e)
  | Panic => Panic
  end.

Definition throw {A} (e : Error) : PR A := Done (Err e).

(** A panicking but infallible step inside a fallible computation. *)
Definition lift_outcome {A} (m : outcome A) : PR A :=
  match m with Done a => Done (Ok a) | Panic => Panic end.

(** [Option::ok_or]. *)
Definition ok_or {A} (o : option A) (e : Error) : PR A :=
  match o with Some a => Done (Ok a) | None => Done (Err e) end.

Lemma PR_bind_Ok {A B} (f : A → PR B) a : ((Done (Ok a) : PR A) ≫= f) = f a.
Proof. done. Qed.

Lemma is_done_PR_bind {A B} (f : A → PR B) (m : PR A) :
  is_done m → (∀ a, m = Done (Ok a) → is_done (f a)) → is_done (m ≫= f).
Proof.
  intros [[a|e] ->] H; [by apply H | exists (Err e); done].
Qed.

Lemma is_done_lift_outcome {A} (m : outcome A) : is_done m → is_done (lift_outcome m).
Proof. intros [a ->]. apply is_done_Done. Qed.

Lemma is_done_ok_or {A} (o : option A) e : is_done (ok_or o e).
Proof. destruct o; apply is_done_Done. Qed.

Lemma is_done_throw {A} e : is_done (throw (A := A) e).
Proof. apply is_done_Done. Qed.

#[export] Hint Resolve @is_done_PR_bind @is_done_lift_outcome @is_done_ok_or @is_done_throw : rptp.

(** ** Never panics, and a successful result satisfies [P] *)

Definition pr_ok {A} (P : A → Prop) (m : PR A) : Prop :=
  match m with
  | Done (Ok a) => P a
  | Done (Err _) => True
  | Panic => False
  end.

Lemma pr_ok_bind {A B} (P : A → Prop) (Q : B → Prop) (m : PR A) (f : A → PR B) :
  pr_ok P m → (∀ a, P a → pr_ok Q (f a)) → pr_ok Q (m ≫= f).
Proof. destruct m as [[a|e]|]; simpl; auto. Qed.

Lemma pr_ok_lift {A} (P : A → Prop) (m : outcome A) a :
  m = Done a → P a → pr_ok P (lift_outcome m).
Proof. by intros ->. Qed.

Lemma pr_ok_ok_or {A} (P : A → Prop) (o : option A) e :
  (∀ a, o = Some a → P a) → pr_ok P (ok_or o e).
Proof. destruct o; simpl; auto. Qed.

Lemma pr_ok_impl {A} (P Q : A → Prop) (m : PR A) : (∀ a, P a → Q a) → pr_ok P m → pr_ok Q m.
Proof. destruct m as [[a|e]|]; simpl; auto. Qed.
