(* ===== verification/Time.v ===== *)
(** * Time (crates/rptp/src/time.rs)

    [TimeStamp] (48-bit seconds, nanoseconds below 10^9), the signed [TimeInterval], the
    monotonic [Instant]/[Duration] and the log2 intervals, with their panicking constructors,
    checked, saturating and overflow-checked arithmetic at the widths of the source. *)

From S2P Require Import Prelude.

Definition NANOS_PER_SECOND : Z := 1000000000.
Definition MAX_SECONDS_EXCL : Z := Z.shiftl 1 48.

(** ** TimeStamp *)

Record TimeStamp := mkTimeStamp { ts_seconds : Z; ts_nanos : Z }.

(** ** TimeInterval *)

Record TimeInterval := mkTimeInterval { ti_seconds : Z; ti_nanos : Z }.

#[export] Instance TimeStamp_eq_dec : EqDecision TimeStamp.
Proof. solve_decision. Defined.
#[export] Instance TimeInterval_eq_dec : EqDecision TimeInterval.
Proof. solve_decision. Defined.

Definition TimeStamp_new (seconds nanos : Z) : outcome TimeStamp :=
  _ ← rassert (seconds <? MAX_SECONDS_EXCL);
  _ ← rassert (nanos <? 1000000000);
  Done (mkTimeStamp seconds nanos).

Definition TimeStamp_try_new_i64 (seconds nanos : Z) : option TimeStamp :=
  if ((0 <=? seconds) && (seconds <? as_i 64 MAX_SECONDS_EXCL)) && (nanos <? NANOS_PER_SECOND)
  then Some (mkTimeStamp (as_u 64 seconds) nanos)
  else None.

Definition TimeStamp_to_wire (self : TimeStamp) : outcome (list Z) :=
  let buf := replicate 10 0 in
  buf ← copy_from_slice 0 2 (to_be 2 (as_u 16 (Z.shiftr (ts_seconds self) 32))) buf;
  buf ← copy_from_slice 2 6 (to_be 4 (as_u 32 (ts_seconds self))) buf;
  copy_from_slice 6 10 (to_be 4 (ts_nanos self)) buf.

(** The inner option of [checked_add]/[checked_sub] is the Rust return value; the [outcome]
    is the overflow check of [self.nanos + rhs.nanos] and of the [i32] difference. *)
Definition TimeStamp_checked_add (self : TimeStamp) (rhs : TimeInterval)
  : outcome (option TimeStamp) :=
  match i_checked 64 (as_i 64 (ts_seconds self) + ti_seconds rhs) with
  | None => Done None
  | Some seconds =>
      nanos ← u_chk 32 (ts_nanos self + ti_nanos rhs);
      if NANOS_PER_SECOND <=? nanos then
        nanos ← u_chk 32 (nanos - NANOS_PER_SECOND);
        match i_checked 64 (seconds + 1) with
        | None => Done None
        | Some seconds => Done (TimeStamp_try_new_i64 seconds nanos)
        end
      else Done (TimeStamp_try_new_i64 seconds nanos)
  end.

Definition TimeStamp_checked_sub (self : TimeStamp) (rhs : TimeInterval)
  : outcome (option TimeStamp) :=
  match i_checked 64 (as_i 64 (ts_seconds self) - ti_seconds rhs) with
  | None => Done None
  | Some seconds =>
      nanos ← i_chk 32 (as_i 32 (ts_nanos self) - as_i 32 (ti_nanos rhs));
      if nanos <? 0 then
        match i_checked 64 (seconds - 1) with
        | None => Done None
        | Some seconds =>
            nanos ← i_chk 32 (nanos + 1000000000);
            Done (TimeStamp_try_new_i64 seconds (as_u 32 nanos))
        end
      else Done (TimeStamp_try_new_i64 seconds (as_u 32 nanos))
  end.

Definition TimeInterval_ZERO : TimeInterval := mkTimeInterval 0 0.

Definition i64_MIN : Z := - 2 ^ 63.
Definition i64_MAX : Z := 2 ^ 63 - 1.

Definition TimeInterval_new (seconds nanos : Z) : outcome TimeInterval :=
  _ ← rassert (negb (seconds =? i64_MIN) || (0 <? nanos));
  _ ← rassert (nanos <? 1000000000);
  Done (mkTimeInterval seconds nanos).

(** [impl Sub for TimeStamp]. *)
Definition TimeStamp_sub (self rhs : TimeStamp) : outcome TimeInterval :=
  delta_seconds ← i_chk 64 (as_i 64 (ts_seconds self) - as_i 64 (ts_seconds rhs));
  delta_nanos ← i_chk 32 (as_i 32 (ts_nanos self) - as_i 32 (ts_nanos rhs));
  if delta_nanos <? 0 then
    delta_seconds ← i_chk 64 (delta_seconds - 1);
    delta_nanos ← i_chk 32 (delta_nanos + 1000000000);
    TimeInterval_new delta_seconds (as_u 32 delta_nanos)
  else TimeInterval_new delta_seconds (as_u 32 delta_nanos).

Definition TimeInterval_from_u64_nanos (nanos : Z) : outcome TimeInterval :=
  let seconds := as_i 64 (Z.quot nanos 1000000000) in
  let nanos := as_u 32 (Z.rem nanos 1000000000) in
  TimeInterval_new seconds nanos.

(** [i128] arithmetic. *)
Definition TimeInterval_total_nanos (self : TimeInterval) : outcome Z :=
  p ← i_chk 128 (ti_seconds self * 1000000000);
  i_chk 128 (p + ti_nanos self).

Definition TimeInterval_from_total_nanos (total : Z) : outcome TimeInterval :=
  let seconds := Z.div total 1000000000 in
  let nanos := Z.modulo total 1000000000 in
  _ ← rassert ((i64_MIN <=? seconds) && (seconds <=? i64_MAX));
  TimeInterval_new (as_i 64 seconds) (as_u 32 nanos).

Definition TimeInterval_half (self : TimeInterval) : outcome TimeInterval :=
  total ← TimeInterval_total_nanos self;
  TimeInterval_from_total_nanos (Z.quot total 2).

Definition TimeInterval_abs (self : TimeInterval) : outcome TimeInterval :=
  if ti_seconds self <? 0 then
    if ti_nanos self =? 0 then
      s ← i_chk 64 (- ti_seconds self);
      TimeInterval_new s 0
    else
      secs ← i_chk 64 (ti_seconds self + 1);
      s ← i_chk 64 (- secs);
      n ← u_chk 32 (1000000000 - ti_nanos self);
      TimeInterval_new s n
  else Done self.

(** [impl Sub for TimeInterval]. *)
Definition TimeInterval_sub (self rhs : TimeInterval) : outcome TimeInterval :=
  delta_seconds ← i_chk 64 (ti_seconds self - ti_seconds rhs);
  delta_nanos ← i_chk 32 (as_i 32 (ti_nanos self) - as_i 32 (ti_nanos rhs));
  if delta_nanos <? 0 then
    delta_seconds ← i_chk 64 (delta_seconds - 1);
    delta_nanos ← i_chk 32 (delta_nanos + 1000000000);
    TimeInterval_new delta_seconds (as_u 32 delta_nanos)
  else TimeInterval_new delta_seconds (as_u 32 delta_nanos).

(** The derived [Ord]s: seconds, then nanoseconds. *)
Definition TimeStamp_cmp (a b : TimeStamp) : comparison :=
  then_with (ts_seconds a ?= ts_seconds b) (ts_nanos a ?= ts_nanos b).
Definition TimeStamp_leb (a b : TimeStamp) : bool :=
  match TimeStamp_cmp a b with Gt => false | _ => true end.

Definition TimeInterval_cmp (a b : TimeInterval) : comparison :=
  then_with (ti_seconds a ?= ti_seconds b) (ti_nanos a ?= ti_nanos b).
Definition TimeInterval_ltb (a b : TimeInterval) : bool :=
  match TimeInterval_cmp a b with Lt => true | _ => false end.
Definition TimeInterval_leb (a b : TimeInterval) : bool :=
  match TimeInterval_cmp a b with Gt => false | _ => true end.

(** ** Instant and Duration *)

Record Duration := mkDuration { d_nanos : Z }.
Record Instant := mkInstant { i_nanos : Z }.

#[export] Instance Duration_eq_dec : EqDecision Duration.
Proof. solve_decision. Defined.
#[export] Instance Instant_eq_dec : EqDecision Instant.
Proof. solve_decision. Defined.

Definition Instant_zero : Instant := mkInstant 0.
Definition Instant_from_nanos (nanos : Z) : Instant := mkInstant nanos.
Definition Instant_from_secs (secs : Z) : outcome Instant :=
  n ← u_chk 64 (secs * 1000000000); Done (mkInstant n).
Definition Instant_saturating_add (self : Instant) (rhs : Duration) : Instant :=
  mkInstant (u_sat 64 (i_nanos self + d_nanos rhs)).
Definition Instant_checked_sub (self rhs : Instant) : option Duration :=
  if i_nanos rhs <=? i_nanos self
  then Some (mkDuration (i_nanos self - i_nanos rhs))
  else None.

Definition Duration_from_secs (secs : Z) : outcome Duration :=
  n ← u_chk 64 (secs * 1000000000); Done (mkDuration n).
Definition Duration_from_millis (millis : Z) : outcome Duration :=
  n ← u_chk 64 (millis * 1000000); Done (mkDuration n).
Definition Duration_from_nanos (nanos : Z) : Duration := mkDuration nanos.
Definition Duration_saturating_mul (self : Duration) (rhs : Z) : Duration :=
  mkDuration (u_sat 64 (d_nanos self * rhs)).
Definition Duration_as_u64_nanos (self : Duration) : Z := d_nanos self.
Definition Duration_leb (a b : Duration) : bool := d_nanos a <=? d_nanos b.

(** ** Log2 intervals *)

Definition MIN_LOG_VALUE : Z := -20.
Definition MAX_LOG_VALUE : Z := 20.

Record LogInterval := mkLogInterval { log_value : Z }.
Record LogMessageInterval := mkLogMessageInterval { lmi_value : Z }.

#[export] Instance LogInterval_eq_dec : EqDecision LogInterval.
Proof. solve_decision. Defined.
#[export] Instance LogMessageInterval_eq_dec : EqDecision LogMessageInterval.
Proof. solve_decision. Defined.

Definition LogInterval_new (v : Z) : outcome LogInterval :=
  _ ← rassert ((MIN_LOG_VALUE <=? v) && (v <=? MAX_LOG_VALUE));
  Done (mkLogInterval v).

Definition LogMessageInterval_new (value : Z) : LogMessageInterval := mkLogMessageInterval value.
Definition LogMessageInterval_unspecified : LogMessageInterval := mkLogMessageInterval 127.

(** The panic of the inner [LogInterval::new] is in the [outcome]. *)
Definition LogMessageInterval_log_interval (self : LogMessageInterval)
  : outcome (option LogInterval) :=
  if (MIN_LOG_VALUE <=? lmi_value self) && (lmi_value self <=? MAX_LOG_VALUE)
  then l ← LogInterval_new (lmi_value self); Done (Some l)
  else Done None.

Definition LogMessageInterval_as_u8 (self : LogMessageInterval) : Z := as_u 8 (lmi_value self).

Definition clamp (v lo hi : Z) : Z := if v <? lo then lo else if hi <? v then hi else v.

Definition LogInterval_duration (self : LogInterval) : Duration :=
  let e := clamp (log_value self) MIN_LOG_VALUE MAX_LOG_VALUE in
  if 0 <=? e then
    let secs := Z.shiftl 1 e in
    Duration_from_nanos (u_sat 64 (secs * 1000000000))
  else
    let div := Z.shiftl 1 (- e) in
    Duration_from_nanos (Z.quot 1000000000 div).

Definition LogInterval_log_message_interval (self : LogInterval) : LogMessageInterval :=
  LogMessageInterval_new (log_value self).

(** ** Type invariants and the exact meaning in nanoseconds *)

Definition TimeStamp_wf (t : TimeStamp) : Prop :=
  0 <= ts_seconds t < 2 ^ 48 ∧ 0 <= ts_nanos t < NANOS_PER_SECOND.

Definition TimeInterval_wf (i : TimeInterval) : Prop :=
  - 2 ^ 63 <= ti_seconds i < 2 ^ 63 ∧ 0 <= ti_nanos i < NANOS_PER_SECOND ∧
  (ti_seconds i = - 2 ^ 63 → 0 < ti_nanos i).

Definition ts_ns (t : TimeStamp) : Z := ts_seconds t * NANOS_PER_SECOND + ts_nanos t.
Definition ti_ns (i : TimeInterval) : Z := ti_seconds i * NANOS_PER_SECOND + ti_nanos i.

(** The reference conversions from a nanosecond count. *)
Definition ts_of_ns (n : Z) : option TimeStamp :=
  if (0 <=? n) && (n <? 2 ^ 48 * NANOS_PER_SECOND)
  then Some (mkTimeStamp (n / NANOS_PER_SECOND) (n mod NANOS_PER_SECOND))
  else None.
Definition ti_of_ns (n : Z) : TimeInterval :=
  mkTimeInterval (n / NANOS_PER_SECOND) (n mod NANOS_PER_SECOND).

(** Nanosecond counts whose interval is representable. *)
Definition ti_ns_ok (n : Z) : Prop :=
  - 2 ^ 63 * NANOS_PER_SECOND < n < 2 ^ 63 * NANOS_PER_SECOND.

(** Differences and half-differences of timestamps stay this small. *)
Definition ti_small (i : TimeInterval) : Prop :=
  TimeInterval_wf i ∧ Z.abs (ti_ns i) <= 2 ^ 50 * NANOS_PER_SECOND.

Definition LogInterval_wf (l : LogInterval) : Prop := -20 <= log_value l <= 20.

Lemma div_mod_ns s n :
  0 <= n < NANOS_PER_SECOND →
  (s * NANOS_PER_SECOND + n) / NANOS_PER_SECOND = s ∧
  (s * NANOS_PER_SECOND + n) mod NANOS_PER_SECOND = n.
Proof.
  unfold NANOS_PER_SECOND. intros H.
  assert ((s * 1000000000 + n) / 1000000000 = s) as E
    by (symmetry; apply (Z.div_unique _ _ s n); lia).
  split; [done|]. rewrite Z.mod_eq by lia. lia.
Qed.

Lemma ti_of_ns_eq s n : 0 <= n < NANOS_PER_SECOND →
  ti_of_ns (s * NANOS_PER_SECOND + n) = mkTimeInterval s n.
Proof. intros H. unfold ti_of_ns. by destruct (div_mod_ns s n H) as [-> ->]. Qed.

Lemma ti_of_ns_ti_ns i : TimeInterval_wf i → ti_of_ns (ti_ns i) = i.
Proof. destruct i as [s n]. intros (_ & H & _). by apply ti_of_ns_eq. Qed.

Lemma ti_ns_of_ns n : ti_ns (ti_of_ns n) = n.
Proof.
  unfold ti_ns, ti_of_ns; simpl. unfold NANOS_PER_SECOND.
  pose proof (Z.div_mod n 1000000000). lia.
Qed.

Lemma ti_of_ns_wf n : ti_ns_ok n → TimeInterval_wf (ti_of_ns n).
Proof.
  unfold ti_ns_ok, TimeInterval_wf, ti_of_ns, NANOS_PER_SECOND; simpl. intros H.
  pose proof (Z.div_mod n 1000000000). pose proof (Z.mod_pos_bound n 1000000000).
  lia.
Qed.

Lemma ti_wf_ns_ok i : TimeInterval_wf i → ti_ns_ok (ti_ns i).
Proof.
  unfold TimeInterval_wf, ti_ns_ok, ti_ns, NANOS_PER_SECOND. lia.
Qed.

Lemma ts_ns_range t : TimeStamp_wf t → 0 <= ts_ns t < 2 ^ 48 * NANOS_PER_SECOND.
Proof. unfold TimeStamp_wf, ts_ns, NANOS_PER_SECOND. lia. Qed.

Lemma ts_of_ns_eq s n : 0 <= n < NANOS_PER_SECOND →
  ts_of_ns (s * NANOS_PER_SECOND + n)
  = if (0 <=? s) && (s <? 2 ^ 48) then Some (mkTimeStamp s n) else None.
Proof.
  intros H. unfold ts_of_ns. destruct (div_mod_ns s n H) as [-> ->].
  unfold NANOS_PER_SECOND in *.
  replace (_ && _) with ((0 <=? s) && (s <? 2 ^ 48)); [done|].
  apply eq_true_iff_eq. rewrite !andb_true_iff, !Z.leb_le, !Z.ltb_lt. lia.
Qed.

Lemma ts_of_ns_ts_ns t : TimeStamp_wf t → ts_of_ns (ts_ns t) = Some t.
Proof.
  destruct t as [s n]. intros [Hs Hn]. unfold ts_ns; simpl in *. rewrite ts_of_ns_eq by done.
  by rewrite (proj2 (Z.leb_le 0 s)), (proj2 (Z.ltb_lt s _)) by lia.
Qed.

Lemma ts_of_ns_Some n t : ts_of_ns n = Some t → TimeStamp_wf t ∧ ts_ns t = n.
Proof.
  unfold ts_of_ns. destruct (_ && _) eqn:E; [|done]. intros [= <-].
  unfold TimeStamp_wf, ts_ns, NANOS_PER_SECOND in *; simpl.
  pose proof (Z.div_mod n 1000000000). pose proof (Z.mod_pos_bound n 1000000000).
  lia.
Qed.

Lemma TimeInterval_new_Done s n :
  0 <= n < NANOS_PER_SECOND → (s = - 2 ^ 63 → 0 < n) →
  TimeInterval_new s n = Done (mkTimeInterval s n).
Proof.
  unfold TimeInterval_new, NANOS_PER_SECOND, i64_MIN. intros H1 H2.
  rewrite !rassert_true by lia. done.
Qed.

Lemma try_new_i64_eq s n : 0 <= n < NANOS_PER_SECOND →
  TimeStamp_try_new_i64 s n = ts_of_ns (s * NANOS_PER_SECOND + n).
Proof.
  intros H. rewrite ts_of_ns_eq by done. unfold TimeStamp_try_new_i64.
  change (as_i 64 MAX_SECONDS_EXCL) with (2 ^ 48).
  rewrite (proj2 (Z.ltb_lt n _)) by lia. rewrite andb_true_r.
  destruct (_ && _) eqn:E; [|done]. by rewrite as_u_small by lia.
Qed.

(** Evaluate overflow checks and casts whose operands are in range. *)
Ltac in_range :=
  repeat first
    [ rewrite i_chk_Done by lia
    | rewrite u_chk_Done by lia
    | rewrite i_checked_Some by lia
    | rewrite as_i_small by lia
    | rewrite as_u_small by lia
    | rewrite outcome_bind_Done ].

(** The borrow step shared by the two [Sub] instances. *)
Lemma borrow_eq ds dn :
  - 2 ^ 63 < ds < 2 ^ 63 → - NANOS_PER_SECOND < dn < NANOS_PER_SECOND →
  (ds = - 2 ^ 63 + 1 → 0 <= dn ) →
  (if dn <? 0 then
     ds' ← i_chk 64 (ds - 1);
     dn' ← i_chk 32 (dn + 1000000000);
     TimeInterval_new ds' (as_u 32 dn')
   else TimeInterval_new ds (as_u 32 dn))
  = Done (ti_of_ns (ds * NANOS_PER_SECOND + dn)).
Proof.
  intros H1 H2 H3. unfold NANOS_PER_SECOND in *. destruct (Z.ltb_spec dn 0).
  - in_range. rewrite TimeInterval_new_Done by (unfold NANOS_PER_SECOND; lia).
    rewrite <- (ti_of_ns_eq (ds - 1) (dn + 1000000000)) by (unfold NANOS_PER_SECOND; lia).
    do 2 f_equal. unfold NANOS_PER_SECOND. lia.
  - in_range. rewrite TimeInterval_new_Done by (unfold NANOS_PER_SECOND; lia).
    by rewrite <- ti_of_ns_eq by (unfold NANOS_PER_SECOND; lia).
Qed.

Lemma TimeStamp_sub_eq a b : TimeStamp_wf a → TimeStamp_wf b →
  TimeStamp_sub a b = Done (ti_of_ns (ts_ns a - ts_ns b)).
Proof.
  destruct a as [sa na], b as [sb nb]. unfold TimeStamp_wf, NANOS_PER_SECOND; simpl. intros Ha Hb.
  unfold TimeStamp_sub; simpl. rewrite !as_i_small by lia. rewrite (i_chk_Done 64 (_ - _)), outcome_bind_Done, (i_chk_Done 32 (_ - _)), outcome_bind_Done by lia.
  rewrite borrow_eq by (unfold NANOS_PER_SECOND; lia).
  do 2 f_equal. unfold ts_ns, NANOS_PER_SECOND; simpl. lia.
Qed.

Lemma TimeInterval_sub_eq a b : TimeInterval_wf a → TimeInterval_wf b →
  - 2 ^ 63 + 1 < ti_seconds a - ti_seconds b < 2 ^ 63 →
  TimeInterval_sub a b = Done (ti_of_ns (ti_ns a - ti_ns b)).
Proof.
  destruct a as [sa na], b as [sb nb]. unfold TimeInterval_wf, NANOS_PER_SECOND; simpl.
  intros Ha Hb Hd. unfold TimeInterval_sub; simpl.
  rewrite !as_i_small by lia. rewrite (i_chk_Done 64 (_ - _)), outcome_bind_Done, (i_chk_Done 32 (_ - _)), outcome_bind_Done by lia.
  rewrite borrow_eq by (unfold NANOS_PER_SECOND; lia).
  do 2 f_equal. unfold ti_ns, NANOS_PER_SECOND; simpl. lia.
Qed.

Lemma ti_small_of_ns n : Z.abs n <= 2 ^ 50 * NANOS_PER_SECOND → ti_small (ti_of_ns n).
Proof.
  intros H. split; [|by rewrite ti_ns_of_ns].
  apply ti_of_ns_wf. unfold ti_ns_ok, NANOS_PER_SECOND in *. lia.
Qed.

Lemma ti_small_seconds i : ti_small i → - 2 ^ 50 <= ti_seconds i <= 2 ^ 50.
Proof.
  intros [(H1 & H2 & _) H3]. unfold ti_ns, NANOS_PER_SECOND in *. lia.
Qed.

Lemma TimeInterval_sub_small a b : ti_small a → ti_small b →
  TimeInterval_sub a b = Done (ti_of_ns (ti_ns a - ti_ns b)).
Proof.
  intros Ha Hb. pose proof (ti_small_seconds a Ha). pose proof (ti_small_seconds b Hb).
  destruct Ha, Hb. apply TimeInterval_sub_eq; [done..|]. lia.
Qed.

Lemma TimeInterval_half_eq i : TimeInterval_wf i →
  TimeInterval_half i = Done (ti_of_ns (Z.quot (ti_ns i) 2)).
Proof.
  intros Hi. pose proof (ti_wf_ns_ok i Hi) as Hok.
  unfold TimeInterval_half, TimeInterval_total_nanos.
  unfold ti_ns_ok, TimeInterval_wf, ti_ns, NANOS_PER_SECOND in *.
  in_range. set (t := ti_seconds i * 1000000000 + ti_nanos i) in *.
  unfold TimeInterval_from_total_nanos, ti_of_ns, i64_MIN, i64_MAX, NANOS_PER_SECOND.
  assert (- 9223372036854775808 * 1000000000 < Z.quot t 2 < 9223372036854775808 * 1000000000) as Hq.
  { pose proof (Z.quot_rem t 2). pose proof (Z.rem_bound_abs t 2). lia. }
  pose proof (Z.div_mod (Z.quot t 2) 1000000000).
  pose proof (Z.mod_pos_bound (Z.quot t 2) 1000000000).
  rewrite rassert_true by lia. in_range.
  rewrite TimeInterval_new_Done by (unfold NANOS_PER_SECOND; lia). done.
Qed.

Lemma TimeInterval_abs_eq i : TimeInterval_wf i →
  TimeInterval_abs i = Done (ti_of_ns (Z.abs (ti_ns i))).
Proof.
  destruct i as [s n]. intros Hi.
  unfold TimeInterval_wf, TimeInterval_abs, ti_ns, NANOS_PER_SECOND in *; simpl in *.
  destruct (Z.ltb_spec s 0) as [Hs|Hs].
  - rewrite Z.abs_neq by lia. destruct (Z.eqb_spec n 0) as [->|Hn].
    + in_range. rewrite TimeInterval_new_Done by (unfold NANOS_PER_SECOND; lia).
      rewrite <- (ti_of_ns_eq (- s) 0) by (unfold NANOS_PER_SECOND; lia).
      do 2 f_equal. unfold NANOS_PER_SECOND. lia.
    + in_range. rewrite TimeInterval_new_Done by (unfold NANOS_PER_SECOND; lia).
      rewrite <- (ti_of_ns_eq (- (s + 1))) by (unfold NANOS_PER_SECOND; lia).
      do 2 f_equal. unfold NANOS_PER_SECOND. lia.
  - rewrite Z.abs_eq by lia. f_equal. symmetry. apply (ti_of_ns_eq s n). unfold NANOS_PER_SECOND. lia.
Qed.

Lemma TimeStamp_checked_add_eq t i : TimeStamp_wf t → TimeInterval_wf i →
  TimeStamp_checked_add t i = Done (ts_of_ns (ts_ns t + ti_ns i)).
Proof.
  destruct t as [s n], i as [si ni]. unfold TimeStamp_wf, TimeInterval_wf, NANOS_PER_SECOND; simpl.
  intros Ht Hi. unfold TimeStamp_checked_add, ts_ns, ti_ns; simpl.
  rewrite as_i_small by lia. unfold i_checked at 1.
  destruct (i_in 64 (s + si)) eqn:E.
  - apply i_in_true in E. in_range. unfold NANOS_PER_SECOND at 1 2. case_match eqn:Hc.
    + in_range. unfold i_checked. destruct (i_in 64 (s + si + 1)) eqn:E2.
      * rewrite try_new_i64_eq by (unfold NANOS_PER_SECOND; lia).
        do 2 f_equal. unfold NANOS_PER_SECOND. lia.
      * f_equal. symmetry. unfold ts_of_ns, i_in, NANOS_PER_SECOND in *.
        by rewrite (proj2 (Z.ltb_ge _ (2 ^ 48 * 1000000000))), andb_false_r by lia.
    + rewrite try_new_i64_eq by (unfold NANOS_PER_SECOND; lia).
      do 2 f_equal. unfold NANOS_PER_SECOND. lia.
  - f_equal. symmetry. unfold ts_of_ns, i_in, NANOS_PER_SECOND in *.
    by rewrite (proj2 (Z.ltb_ge _ (2 ^ 48 * 1000000000))), andb_false_r by lia.
Qed.

Lemma TimeStamp_checked_sub_eq t i : TimeStamp_wf t → TimeInterval_wf i →
  TimeStamp_checked_sub t i = Done (ts_of_ns (ts_ns t - ti_ns i)).
Proof.
  destruct t as [s n], i as [si ni]. unfold TimeStamp_wf, TimeInterval_wf, NANOS_PER_SECOND; simpl.
  intros Ht Hi. unfold TimeStamp_checked_sub, ts_ns, ti_ns; simpl.
  rewrite as_i_small by lia. unfold i_checked at 1.
  destruct (i_in 64 (s - si)) eqn:E.
  - apply i_in_true in E. in_range. case_match eqn:Hc.
    + rewrite try_new_i64_eq by (unfold NANOS_PER_SECOND; lia).
      do 2 f_equal. unfold NANOS_PER_SECOND. lia.
    + in_range. rewrite try_new_i64_eq by (unfold NANOS_PER_SECOND; lia).
      do 2 f_equal. unfold NANOS_PER_SECOND. lia.
  - f_equal. symmetry. unfold ts_of_ns, i_in, NANOS_PER_SECOND in *.
    destruct (Z.ltb_spec si 0).
    + by rewrite (proj2 (Z.ltb_ge _ (2 ^ 48 * 1000000000))), andb_false_r by lia.
    + by rewrite (proj2 (Z.leb_gt 0 _)) by lia.
Qed.

#[export] Hint Resolve ti_of_ns_wf ti_small_of_ns : rptp.

(** ** Log2 intervals *)

Lemma LogMessageInterval_log_interval_eq m :
  LogMessageInterval_log_interval m
  = Done (if (-20 <=? lmi_value m) && (lmi_value m <=? 20)
          then Some (mkLogInterval (lmi_value m)) else None).
Proof.
  unfold LogMessageInterval_log_interval, LogInterval_new, MIN_LOG_VALUE, MAX_LOG_VALUE.
  destruct (_ && _) eqn:E; [|done]. by rewrite rassert_true.
Qed.

Lemma LogInterval_duration_bound l :
  0 <= d_nanos (LogInterval_duration l) <= 2 ^ 20 * 1000000000.
Proof.
  unfold LogInterval_duration, clamp, MIN_LOG_VALUE, MAX_LOG_VALUE.
  set (e := if log_value l <? -20 then -20 else if 20 <? log_value l then 20 else log_value l).
  assert (-20 <= e <= 20) as He by (unfold e; repeat case_match; lia).
  destruct (Z.leb_spec 0 e) as [H|H]; simpl.
  - rewrite Z.shiftl_1_l. unfold u_sat.
    pose proof (Z.pow_le_mono_r 2 e 20). pose proof (Z.pow_nonneg 2 e). lia.
  - rewrite Z.shiftl_1_l. pose proof (Z.pow_pos_nonneg 2 (- e)).
    split; [apply Z.quot_pos; lia|].
    etransitivity; [apply Z.quot_le_upper_bound with (q := 1000000000); nia | lia].
Qed.

(** [duration] is the exact [floor (10^9 * 2^e)], never saturated. *)
Lemma LogInterval_duration_eq l : LogInterval_wf l →
  d_nanos (LogInterval_duration l)
  = if 0 <=? log_value l then 1000000000 * 2 ^ log_value l
    else 1000000000 / 2 ^ (- log_value l).
Proof.
  unfold LogInterval_wf, LogInterval_duration, clamp, MIN_LOG_VALUE, MAX_LOG_VALUE. intros H.
  rewrite (proj2 (Z.ltb_ge (log_value l) (-20))), (proj2 (Z.ltb_ge 20 (log_value l))) by lia.
  destruct (Z.leb_spec 0 (log_value l)); simpl; rewrite Z.shiftl_1_l.
  - unfold u_sat. pose proof (Z.pow_le_mono_r 2 (log_value l) 20).
    pose proof (Z.pow_nonneg 2 (log_value l)). lia.
  - apply Z.quot_div_nonneg; [lia|]. apply Z.pow_pos_nonneg; lia.
Qed.

(** ** Properties *)

(** C40: Timestamp subtraction, checked addition and checked subtraction agree with integer
    arithmetic on nanoseconds, with None exactly outside the 48-bit range and no overflow panic,
    and adding the difference of two timestamps back gives the first. *)
Theorem timestamp_arithmetic_exact a b i : TimeStamp_wf a → TimeStamp_wf b → TimeInterval_wf i →
  TimeStamp_sub a b = Done (ti_of_ns (ts_ns a - ts_ns b)) ∧
  TimeInterval_wf (ti_of_ns (ts_ns a - ts_ns b)) ∧
  TimeStamp_checked_add a i = Done (ts_of_ns (ts_ns a + ti_ns i)) ∧
  TimeStamp_checked_sub a i = Done (ts_of_ns (ts_ns a - ti_ns i)) ∧
  TimeStamp_checked_add b (ti_of_ns (ts_ns a - ts_ns b)) = Done (Some a).
Proof.
  intros Ha Hb Hi. pose proof (ts_ns_range a Ha). pose proof (ts_ns_range b Hb).
  assert (TimeInterval_wf (ti_of_ns (ts_ns a - ts_ns b))) as Hd.
  { apply ti_of_ns_wf. unfold ti_ns_ok, NANOS_PER_SECOND in *. lia. }
  split; [by apply TimeStamp_sub_eq|]. split; [done|].
  split; [by apply TimeStamp_checked_add_eq|]. split; [by apply TimeStamp_checked_sub_eq|].
  rewrite TimeStamp_checked_add_eq, ti_ns_of_ns by done.
  replace (ts_ns b + (ts_ns a - ts_ns b)) with (ts_ns a) by lia. by rewrite ts_of_ns_ts_ns.
Qed.

Lemma timestamp_arithmetic_exact_witness :
  TimeStamp_sub (mkTimeStamp 5 100) (mkTimeStamp 7 900000000)
  = Done (mkTimeInterval (-3) 100000100).
Proof.
  apply (timestamp_arithmetic_exact (mkTimeStamp 5 100) (mkTimeStamp 7 900000000)
           (mkTimeInterval 0 0));
    unfold TimeStamp_wf, TimeInterval_wf, NANOS_PER_SECOND; simpl; lia.
Defined.

(** Halving (truncating towards zero), absolute value, in-range subtraction and the derived
    order of time intervals agree with integer arithmetic on nanoseconds for every representable
    interval. *)
Theorem interval_arithmetic_exact i j : TimeInterval_wf i → TimeInterval_wf j →
  TimeInterval_half i = Done (ti_of_ns (Z.quot (ti_ns i) 2)) ∧
  TimeInterval_abs i = Done (ti_of_ns (Z.abs (ti_ns i))) ∧
  (- 2 ^ 63 + 1 < ti_seconds i - ti_seconds j < 2 ^ 63 →
   TimeInterval_sub i j = Done (ti_of_ns (ti_ns i - ti_ns j))) ∧
  (TimeInterval_ltb i j = true ↔ ti_ns i < ti_ns j).
Proof.
  intros Hi Hj. split; [by apply TimeInterval_half_eq|]. split; [by apply TimeInterval_abs_eq|].
  split; [by apply TimeInterval_sub_eq|].
  destruct i as [s n], j as [s' n'], Hi as (_ & Hn & _), Hj as (_ & Hn' & _).
  unfold TimeInterval_ltb, TimeInterval_cmp, ti_ns, NANOS_PER_SECOND in *; simpl in *.
  destruct (Z.compare_spec s s'); simpl; [|split; [intros _; nia | done] | split; [done | nia]].
  subst. destruct (Z.compare_spec n n'); (split; [intros Hc; done || lia | intros; done || lia]).
Qed.

Lemma interval_arithmetic_exact_witness :
  TimeInterval_half (mkTimeInterval (-3) 100000100) = Done (mkTimeInterval (-2) 550000050).
Proof.
  refine (proj1 (interval_arithmetic_exact (mkTimeInterval (-3) 100000100) (mkTimeInterval 0 0) _ _));
    unfold TimeInterval_wf, NANOS_PER_SECOND; simpl; lia.
Defined.

(** A wire log interval is usable exactly from -20 to 20, where its duration is floor(10^9 *
    2^v) nanoseconds, positive and unsaturated, and converts back to the same wire value. *)
Theorem log_interval_exact (v : Z) : -128 <= v < 128 →
  let m := LogMessageInterval_new v in
  LogMessageInterval_log_interval m
    = Done (if (-20 <=? v) && (v <=? 20) then Some (mkLogInterval v) else None) ∧
  (-20 <= v <= 20 →
     LogInterval_duration (mkLogInterval v)
       = mkDuration (if 0 <=? v then 1000000000 * 2 ^ v else 1000000000 / 2 ^ (- v)) ∧
     0 < d_nanos (LogInterval_duration (mkLogInterval v)) ∧
     LogInterval_log_message_interval (mkLogInterval v) = m).
Proof.
  intros Hv m. split; [apply LogMessageInterval_log_interval_eq|]. intros Hr.
  pose proof (LogInterval_duration_eq (mkLogInterval v) Hr) as E. simpl log_value in E.
  split; [|split; [|done]].
  - destruct (LogInterval_duration _). simpl in E. by rewrite E.
  - rewrite E. destruct (Z.leb_spec 0 v).
    + pose proof (Z.pow_pos_nonneg 2 v). lia.
    + pose proof (Z.pow_le_mono_r 2 (- v) 20). pose proof (Z.pow_pos_nonneg 2 (- v)).
      apply Z.div_str_pos. lia.
Qed.

Lemma log_interval_exact_witness :
  LogMessageInterval_log_interval (LogMessageInterval_new 127) = Done None ∧
  LogInterval_duration (mkLogInterval (-3)) = mkDuration 125000000.
Proof.
  split; [apply (log_interval_exact 127); lia|].
  refine (proj1 (proj2 (log_interval_exact (-3) _) _)); lia.
Defined.
