(* ===== verification/Clock.v ===== *)
(** * Clock identity and quality (crates/rptp/src/clock.rs)

    [ClockIdentity], the [ClockClass] and [ClockAccuracy] enumerations with their raw-byte
    encodings and their by-value ordering, and [ClockQuality]. The [Clock] and
    [SynchronizableClock] traits are the environment of the port model (Effects.v). *)

From S2P Require Import Prelude.

Record ClockIdentity := mkClockIdentity { ci_id : list Z }.

#[export] Instance ClockIdentity_eq_dec : EqDecision ClockIdentity.
Proof. solve_decision. Defined.

Definition ClockIdentity_new (id : list Z) : ClockIdentity := mkClockIdentity id.
Definition ClockIdentity_as_bytes (self : ClockIdentity) : list Z := ci_id self.

(** The derived [Ord] on [[u8; 8]]. *)
Definition ClockIdentity_cmp (a b : ClockIdentity) : comparison := array_cmp (ci_id a) (ci_id b).

Inductive TimeScale := Ptp | Arb.

#[export] Instance TimeScale_eq_dec : EqDecision TimeScale.
Proof. solve_decision. Defined.

Inductive TimeScalePolicy := Mandatory (s : TimeScale) | Any.

Inductive ClockClass :=
| CC_Reserved (v : Z)
| CC_PrimaryReference
| CC_PrimaryHoldover
| CC_ApplicationSpecific
| CC_ApplicationHoldover
| CC_PrimaryHoldoverDegradedA
| CC_ApplicationHoldoverDegradedA
| CC_PrimaryHoldoverDegradedB
| CC_ApplicationHoldoverDegradedB
| CC_Default
| CC_V1Compatibility
| CC_SlaveOnly
| CC_AlternateProfile (v : Z).

#[export] Instance ClockClass_eq_dec : EqDecision ClockClass.
Proof. solve_decision. Defined.

(** A range pattern [lo..=hi]. *)
Definition within (lo hi v : Z) : bool := (lo <=? v) && (v <=? hi).

Definition ClockClass_new (value : Z) : ClockClass :=
  if value =? 6 then CC_PrimaryReference
  else if value =? 7 then CC_PrimaryHoldover
  else if value =? 13 then CC_ApplicationSpecific
  else if value =? 14 then CC_ApplicationHoldover
  else if value =? 52 then CC_PrimaryHoldoverDegradedA
  else if value =? 58 then CC_ApplicationHoldoverDegradedA
  else if within 68 122 value || within 133 170 value || within 216 232 value
    then CC_AlternateProfile value
  else if value =? 187 then CC_PrimaryHoldoverDegradedB
  else if value =? 193 then CC_ApplicationHoldoverDegradedB
  else if value =? 248 then CC_Default
  else if value =? 251 then CC_V1Compatibility
  else if value =? 255 then CC_SlaveOnly
  else CC_Reserved value.

Definition ClockClass_as_u8 (self : ClockClass) : Z :=
  match self with
  | CC_Reserved v | CC_AlternateProfile v => v
  | CC_PrimaryReference => 6
  | CC_PrimaryHoldover => 7
  | CC_ApplicationSpecific => 13
  | CC_ApplicationHoldover => 14
  | CC_PrimaryHoldoverDegradedA => 52
  | CC_ApplicationHoldoverDegradedA => 58
  | CC_PrimaryHoldoverDegradedB => 187
  | CC_ApplicationHoldoverDegradedB => 193
  | CC_Default => 248
  | CC_V1Compatibility => 251
  | CC_SlaveOnly => 255
  end.

Definition ClockClass_time_scale_policy (self : ClockClass) : TimeScalePolicy :=
  match self with
  | CC_PrimaryReference | CC_PrimaryHoldover
  | CC_PrimaryHoldoverDegradedA | CC_PrimaryHoldoverDegradedB => Mandatory Ptp
  | CC_ApplicationSpecific | CC_ApplicationHoldover
  | CC_ApplicationHoldoverDegradedA | CC_ApplicationHoldoverDegradedB => Mandatory Arb
  | CC_Default | CC_V1Compatibility | CC_SlaveOnly
  | CC_Reserved _ | CC_AlternateProfile _ => Any
  end.

Definition ClockClass_is_authoritative (self : ClockClass) : bool :=
  within 1 127 (ClockClass_as_u8 self).

Definition ClockClass_cmp (a b : ClockClass) : comparison :=
  ClockClass_as_u8 a ?= ClockClass_as_u8 b.

Inductive ClockAccuracy :=
| CA_Reserved (v : Z)
| CA_Within25ns
| CA_Within100ns
| CA_Within250ns
| CA_Within1us
| CA_Within2_5us
| CA_Within10us
| CA_Within25us
| CA_Within100us
| CA_Within250us
| CA_Within1ms
| CA_Within2_5ms
| CA_Within10ms
| CA_Within25ms
| CA_Within100ms
| CA_Within250ms
| CA_Within1s
| CA_Within10s
| CA_GreaterThan10s
| CA_AlternateProfile (v : Z)
| CA_Unknown.

#[export] Instance ClockAccuracy_eq_dec : EqDecision ClockAccuracy.
Proof. solve_decision. Defined.

(** The match is exhaustive over [u8]; the last arm is [0xFF]. *)
Definition ClockAccuracy_new (value : Z) : ClockAccuracy :=
  if within 0 31 value then CA_Reserved value
  else if value =? 32 then CA_Within25ns
  else if value =? 33 then CA_Within100ns
  else if value =? 34 then CA_Within250ns
  else if value =? 35 then CA_Within1us
  else if value =? 36 then CA_Within2_5us
  else if value =? 37 then CA_Within10us
  else if value =? 38 then CA_Within25us
  else if value =? 39 then CA_Within100us
  else if value =? 40 then CA_Within250us
  else if value =? 41 then CA_Within1ms
  else if value =? 42 then CA_Within2_5ms
  else if value =? 43 then CA_Within10ms
  else if value =? 44 then CA_Within25ms
  else if value =? 45 then CA_Within100ms
  else if value =? 46 then CA_Within250ms
  else if value =? 47 then CA_Within1s
  else if value =? 48 then CA_Within10s
  else if value =? 49 then CA_GreaterThan10s
  else if within 50 127 value then CA_Reserved value
  else if within 128 253 value then CA_AlternateProfile value
  else if value =? 254 then CA_Unknown
  else CA_Reserved value.

Definition ClockAccuracy_as_u8 (self : ClockAccuracy) : Z :=
  match self with
  | CA_Reserved v | CA_AlternateProfile v => v
  | CA_Within25ns => 32
  | CA_Within100ns => 33
  | CA_Within250ns => 34
  | CA_Within1us => 35
  | CA_Within2_5us => 36
  | CA_Within10us => 37
  | CA_Within25us => 38
  | CA_Within100us => 39
  | CA_Within250us => 40
  | CA_Within1ms => 41
  | CA_Within2_5ms => 42
  | CA_Within10ms => 43
  | CA_Within25ms => 44
  | CA_Within100ms => 45
  | CA_Within250ms => 46
  | CA_Within1s => 47
  | CA_Within10s => 48
  | CA_GreaterThan10s => 49
  | CA_Unknown => 254
  end.

Definition ClockAccuracy_cmp (a b : ClockAccuracy) : comparison :=
  ClockAccuracy_as_u8 a ?= ClockAccuracy_as_u8 b.

Record ClockQuality := mkClockQuality {
  cq_clock_class : ClockClass;
  cq_clock_accuracy : ClockAccuracy;
  cq_offset_scaled_log_variance : Z;
}.

#[export] Instance ClockQuality_eq_dec : EqDecision ClockQuality.
Proof. solve_decision. Defined.

Definition ClockQuality_new (c : ClockClass) (a : ClockAccuracy) (v : Z) : ClockQuality :=
  mkClockQuality c a v.

Definition ClockQuality_is_authoritative (self : ClockQuality) : bool :=
  ClockClass_is_authoritative (cq_clock_class self).

Definition ClockQuality_from_wire (buf : list Z) : outcome ClockQuality :=
  c ← index 0 buf;
  a ← index 1 buf;
  hi ← index 2 buf;
  lo ← index 3 buf;
  Done (mkClockQuality (ClockClass_new c) (ClockAccuracy_new a) (from_be [hi; lo])).

Definition ClockQuality_to_wire (self : ClockQuality) : outcome (list Z) :=
  let bytes := replicate 4 0 in
  bytes ← set_index 0 (ClockClass_as_u8 (cq_clock_class self)) bytes;
  bytes ← set_index 1 (ClockAccuracy_as_u8 (cq_clock_accuracy self)) bytes;
  copy_from_slice 2 4 (to_be 2 (cq_offset_scaled_log_variance self)) bytes.

(** Tuple comparison of (class, accuracy, variance). *)
Definition ClockQuality_cmp (a b : ClockQuality) : comparison :=
  then_with (ClockClass_cmp (cq_clock_class a) (cq_clock_class b))
    (then_with (ClockAccuracy_cmp (cq_clock_accuracy a) (cq_clock_accuracy b))
      (cq_offset_scaled_log_variance a ?= cq_offset_scaled_log_variance b)).

(** ** Invariants and lemmas *)

(** A value the raw-byte constructor can build: the enumerations also admit [Reserved(6)],
    which has the bytes of [PrimaryReference] without being equal to it. *)
Definition ClockClass_canonical (c : ClockClass) : Prop :=
  is_byte (ClockClass_as_u8 c) ∧ ClockClass_new (ClockClass_as_u8 c) = c.
Definition ClockAccuracy_canonical (a : ClockAccuracy) : Prop :=
  is_byte (ClockAccuracy_as_u8 a) ∧ ClockAccuracy_new (ClockAccuracy_as_u8 a) = a.

Definition ClockIdentity_wf (c : ClockIdentity) : Prop :=
  length (ci_id c) = 8%nat ∧ Forall is_byte (ci_id c).

Definition ClockQuality_wf (q : ClockQuality) : Prop :=
  ClockClass_canonical (cq_clock_class q) ∧ ClockAccuracy_canonical (cq_clock_accuracy q) ∧
  0 <= cq_offset_scaled_log_variance q < 2 ^ 16.

Lemma ClockClass_as_u8_new v : ClockClass_as_u8 (ClockClass_new v) = v.
Proof. unfold ClockClass_new. repeat case_match; simpl; lia. Qed.

Lemma ClockAccuracy_as_u8_new v : ClockAccuracy_as_u8 (ClockAccuracy_new v) = v.
Proof. unfold ClockAccuracy_new. repeat case_match; simpl; lia. Qed.

Lemma ClockClass_new_canonical v : is_byte v → ClockClass_canonical (ClockClass_new v).
Proof. intros H. split; by rewrite ClockClass_as_u8_new. Qed.

Lemma ClockAccuracy_new_canonical v : is_byte v → ClockAccuracy_canonical (ClockAccuracy_new v).
Proof. intros H. split; by rewrite ClockAccuracy_as_u8_new. Qed.

#[export] Instance ClockIdentity_comparator : Comparator ClockIdentity_cmp.
Proof. apply (on_comparator ci_id array_cmp _). Qed.
#[export] Instance ClockClass_comparator : Comparator ClockClass_cmp.
Proof. apply (on_comparator ClockClass_as_u8 Z.compare _). Qed.
#[export] Instance ClockAccuracy_comparator : Comparator ClockAccuracy_cmp.
Proof. apply (on_comparator ClockAccuracy_as_u8 Z.compare _). Qed.
#[export] Instance ClockQuality_comparator : Comparator ClockQuality_cmp.
Proof.
  apply (then_comparator (λ a b, ClockClass_cmp (cq_clock_class a) (cq_clock_class b)));
    [apply (on_comparator _ _ _)|].
  apply (then_comparator (λ a b, ClockAccuracy_cmp (cq_clock_accuracy a) (cq_clock_accuracy b)));
    [apply (on_comparator _ _ _)|].
  apply (on_comparator cq_offset_scaled_log_variance Z.compare _).
Qed.

Lemma ClockIdentity_cmp_eq a b : ClockIdentity_cmp a b = Eq ↔ a = b.
Proof.
  split; [|intros ->; apply cmp_refl].
  destruct a, b. unfold ClockIdentity_cmp; simpl. by intros ->%array_cmp_eq.
Qed.

Lemma ClockQuality_to_wire_eq q :
  ClockQuality_to_wire q
  = Done ([ClockClass_as_u8 (cq_clock_class q); ClockAccuracy_as_u8 (cq_clock_accuracy q)]
          ++ to_be 2 (cq_offset_scaled_log_variance q)).
Proof. unfold ClockQuality_to_wire. by cbn. Qed.
