(* ===== verification/PortId.v ===== *)
(** * Port identities (crates/rptp/src/port.rs, the value types)

    [PortNumber], [DomainNumber], [PortIdentity], [ParentPortIdentity] and the
    [PortEnumeration] a clock hands its ports out with. *)

From S2P Require Import Prelude Clock.

Record PortNumber := mkPortNumber { pn_value : Z }.
Record DomainNumber := mkDomainNumber { dn_value : Z }.

#[export] Instance PortNumber_eq_dec : EqDecision PortNumber.
Proof. solve_decision. Defined.
#[export] Instance DomainNumber_eq_dec : EqDecision DomainNumber.
Proof. solve_decision. Defined.

Definition PortNumber_new (n : Z) : PortNumber := mkPortNumber n.
Definition PortNumber_to_be_bytes (self : PortNumber) : list Z := to_be 2 (pn_value self).
Definition PortNumber_from_be_bytes (bytes : list Z) : PortNumber := mkPortNumber (from_be bytes).
Definition PortNumber_cmp (a b : PortNumber) : comparison := pn_value a ?= pn_value b.

Definition DomainNumber_new (n : Z) : DomainNumber := mkDomainNumber n.
Definition DomainNumber_as_u8 (self : DomainNumber) : Z := dn_value self.

(** [next] is a [Cell<u16>]: each call returns the enumeration it leaves behind. *)
Record PortEnumeration := mkPortEnumeration { pe_count : Z; pe_next : Z }.

Definition PortEnumeration_sequential (n : Z) : outcome PortEnumeration :=
  _ ← rassert (1 <=? n);
  Done (mkPortEnumeration n 1).

Definition PortEnumeration_single : outcome PortEnumeration := PortEnumeration_sequential 1.

Definition PortEnumeration_next (self : PortEnumeration)
  : outcome (option PortNumber * PortEnumeration) :=
  let n := pe_next self in
  if n <=? pe_count self then
    n' ← u_chk 16 (n + 1);
    Done (Some (PortNumber_new n), mkPortEnumeration (pe_count self) n')
  else Done (None, self).

Record PortIdentity := mkPortIdentity {
  pi_clock_identity : ClockIdentity;
  pi_port_number : PortNumber;
}.

#[export] Instance PortIdentity_eq_dec : EqDecision PortIdentity.
Proof. solve_decision. Defined.

Definition PortIdentity_new (c : ClockIdentity) (p : PortNumber) : PortIdentity :=
  mkPortIdentity c p.
Definition PortIdentity_port_number (self : PortIdentity) : PortNumber := pi_port_number self.
Definition PortIdentity_compare_by_port_number (self other : PortIdentity) : comparison :=
  PortNumber_cmp (pi_port_number self) (pi_port_number other).

(** The derived [Ord]: clock identity, then port number. *)
Definition PortIdentity_cmp (a b : PortIdentity) : comparison :=
  then_with (ClockIdentity_cmp (pi_clock_identity a) (pi_clock_identity b))
    (PortNumber_cmp (pi_port_number a) (pi_port_number b)).

Definition PortIdentity_from_wire (buf : list Z) : outcome PortIdentity :=
  b0 ← index 0 buf; b1 ← index 1 buf; b2 ← index 2 buf; b3 ← index 3 buf;
  b4 ← index 4 buf; b5 ← index 5 buf; b6 ← index 6 buf; b7 ← index 7 buf;
  p0 ← index 8 buf; p1 ← index 9 buf;
  Done (mkPortIdentity (ClockIdentity_new [b0; b1; b2; b3; b4; b5; b6; b7])
          (PortNumber_from_be_bytes [p0; p1])).

Definition PortIdentity_to_wire (self : PortIdentity) : outcome (list Z) :=
  let bytes := replicate 10 0 in
  bytes ← copy_from_slice 0 8 (ClockIdentity_as_bytes (pi_clock_identity self)) bytes;
  copy_from_slice 8 10 (PortNumber_to_be_bytes (pi_port_number self)) bytes.

Record ParentPortIdentity := mkParentPortIdentity { ppi_identity : PortIdentity }.

#[export] Instance ParentPortIdentity_eq_dec : EqDecision ParentPortIdentity.
Proof. solve_decision. Defined.

Definition ParentPortIdentity_new (p : PortIdentity) : ParentPortIdentity := mkParentPortIdentity p.
Definition ParentPortIdentity_matches (self : ParentPortIdentity) (source : PortIdentity) : bool :=
  bool_decide (ppi_identity self = source).

(** ** Lemmas *)

Definition PortNumber_wf (p : PortNumber) : Prop := 0 <= pn_value p < 2 ^ 16.
Definition PortIdentity_wf (p : PortIdentity) : Prop :=
  ClockIdentity_wf (pi_clock_identity p) ∧ PortNumber_wf (pi_port_number p).

#[export] Instance PortNumber_comparator : Comparator PortNumber_cmp.
Proof. apply (on_comparator pn_value Z.compare _). Qed.
#[export] Instance PortIdentity_comparator : Comparator PortIdentity_cmp.
Proof.
  apply (then_comparator (λ a b, ClockIdentity_cmp (pi_clock_identity a) (pi_clock_identity b)));
    apply (on_comparator _ _ _).
Qed.

Lemma PortIdentity_cmp_eq a b : PortIdentity_cmp a b = Eq ↔ a = b.
Proof.
  split; [|intros ->; apply cmp_refl].
  destruct a as [c [p]], b as [c' [p']]. unfold PortIdentity_cmp, PortNumber_cmp; simpl.
  rewrite then_with_Eq, ClockIdentity_cmp_eq. by intros [-> ->%Z.compare_eq].
Qed.

Lemma PortIdentity_to_wire_eq p : ClockIdentity_wf (pi_clock_identity p) →
  PortIdentity_to_wire p
  = Done (ci_id (pi_clock_identity p) ++ to_be 2 (pn_value (pi_port_number p))).
Proof.
  destruct p as [[id] [n]]. intros [Hl _]; simpl in *.
  unfold PortIdentity_to_wire, copy_from_slice, ClockIdentity_as_bytes, PortNumber_to_be_bytes.
  simpl pi_clock_identity. simpl pi_port_number. cbn [ci_id pn_value].
  rewrite Hl. simpl (_ && _). cbn iota.
  do 9 (destruct id as [|? id]; try discriminate Hl). done.
Qed.

(** Parsing is total on ten bytes, and inverts serialization. *)
Lemma PortIdentity_from_wire_Done buf : length buf = 10%nat →
  PortIdentity_from_wire buf
  = Done (mkPortIdentity (mkClockIdentity (take 8 buf)) (mkPortNumber (from_be (drop 8 buf)))).
Proof. intros H. do 11 (destruct buf as [|? buf]; try discriminate H). done. Qed.

(** ** Properties *)

(** The answers of [k] successive calls. *)
Fixpoint PortEnumeration_take (k : nat) (e : PortEnumeration)
    : outcome (list (option PortNumber) * PortEnumeration) :=
  match k with
  | O => Done ([], e)
  | S k =>
      '(p, e) ← PortEnumeration_next e;
      '(ps, e) ← PortEnumeration_take k e;
      Done (p :: ps, e)
  end.

Lemma exhausted_none count k : ∀ i, count + 1 <= i →
  ((λ j, if j <=? count then Some (PortNumber_new j) else None) <$> seqZ i (Z.of_nat k))
  = replicate k None.
Proof.
  induction k as [|k IH]; intros i Hi; [done|].
  rewrite seqZ_cons by lia. rewrite fmap_cons. rewrite (proj2 (Z.leb_gt i count)) by lia.
  replace (Z.pred (Z.of_nat (S k))) with (Z.of_nat k) by lia. by rewrite IH by lia.
Qed.

Lemma PortEnumeration_take_eq count k : ∀ i, count < 2 ^ 16 - 1 → 1 <= i → i <= count + 1 →
  PortEnumeration_take k (mkPortEnumeration count i)
  = Done ((λ j, if j <=? count then Some (PortNumber_new j) else None)
            <$> seqZ i (Z.of_nat k),
          mkPortEnumeration count (Z.min (i + Z.of_nat k) (count + 1))).
Proof.
  induction k as [|k IH]; intros i Hc Hi Hic.
  - simpl. do 3 f_equal. lia.
  - simpl PortEnumeration_take. unfold PortEnumeration_next. cbn [pe_next pe_count].
    rewrite seqZ_cons by lia. rewrite fmap_cons. destruct (Z.leb_spec i count).
    + rewrite u_chk_Done by lia. cbn [mbind outcome_bind]. rewrite IH by lia.
      cbn [mbind outcome_bind].
      replace (Z.pred (Z.of_nat (S k))) with (Z.of_nat k) by lia.
      replace (Z.succ i) with (i + 1) by lia.
      do 3 f_equal. lia.
    + cbn [mbind outcome_bind]. rewrite IH by lia. cbn [mbind outcome_bind].
      replace (Z.pred (Z.of_nat (S k))) with (Z.of_nat k) by lia.
      assert (i = count + 1) as -> by lia.
      rewrite !exhausted_none by lia. do 3 f_equal. lia.
Qed.

(** An enumeration of n ports (1 <= n < 65535) yields the numbers 1..n once each, in order,
    and then nothing however often it is asked. *)
Theorem port_enumeration_exhaustive n k : 1 <= n < 2 ^ 16 - 1 →
  ∃ e e', PortEnumeration_sequential n = Done e ∧
    PortEnumeration_take (Z.to_nat n + k) e
    = Done ((Some <$> (PortNumber_new <$> seqZ 1 n)) ++ replicate k None, e').
Proof.
  intros Hn. exists (mkPortEnumeration n 1). eexists. split.
  { unfold PortEnumeration_sequential. by rewrite rassert_true by (apply Z.leb_le; lia). }
  rewrite PortEnumeration_take_eq by lia. f_equal. f_equal.
  rewrite Nat2Z.inj_add, Z2Nat.id, seqZ_app, fmap_app by lia. f_equal.
  - rewrite <- list_fmap_compose. apply list_fmap_ext. intros i x Hx%lookup_seqZ.
    by rewrite (proj2 (Z.leb_le x n)) by lia.
  - apply exhausted_none. lia.
Qed.

Lemma port_enumeration_exhaustive_witness :
  ∃ e e', PortEnumeration_sequential 2 = Done e ∧
    PortEnumeration_take 3 e
    = Done ([Some (mkPortNumber 1); Some (mkPortNumber 2); None], e').
Proof.
  refine (port_enumeration_exhaustive 2 1 _). lia.
Defined.

Lemma PortEnumeration_take_within count k : ∀ i,
  1 <= i → i + Z.of_nat k <= count + 1 → i + Z.of_nat k < 2 ^ 16 →
  PortEnumeration_take k (mkPortEnumeration count i)
  = Done (Some <$> (PortNumber_new <$> seqZ i (Z.of_nat k)),
          mkPortEnumeration count (i + Z.of_nat k)).
Proof.
  induction k as [|k IH]; intros i Hi Hc Hn.
  - simpl. by rewrite Z.add_0_r.
  - simpl PortEnumeration_take. unfold PortEnumeration_next. cbn [pe_next pe_count].
    rewrite (proj2 (Z.leb_le i count)), u_chk_Done by lia. cbn [mbind outcome_bind].
    rewrite IH by lia. cbn [mbind outcome_bind]. rewrite (seqZ_cons i) by lia. rewrite !fmap_cons.
    replace (Z.pred (Z.of_nat (S k))) with (Z.of_nat k) by lia.
    replace (Z.succ i) with (i + 1) by lia. do 3 f_equal. lia.
Qed.

(** An enumeration of 65535 ports yields 1..65534 and then panics on the increment instead of
    yielding its last port. *)
Theorem port_enumeration_overflows :
  ∃ e e', PortEnumeration_sequential 65535 = Done e ∧
    PortEnumeration_take (Z.to_nat 65534) e
    = Done (Some <$> (PortNumber_new <$> seqZ 1 65534), e') ∧
    PortEnumeration_next e' = Panic.
Proof.
  exists (mkPortEnumeration 65535 1), (mkPortEnumeration 65535 65535). split; [reflexivity|].
  split; [|reflexivity].
  assert (∀ n, 0 <= n → n < 65535 →
    PortEnumeration_take (Z.to_nat n) (mkPortEnumeration 65535 1)
    = Done (Some <$> (PortNumber_new <$> seqZ 1 n), mkPortEnumeration 65535 (1 + n))) as Hn.
  { intros n H0 H1. by rewrite PortEnumeration_take_within, Z2Nat.id by lia. }
  by apply Hn.
Qed.
