(* ===== verification/DataSet.v ===== *)
(** * BMCA comparison data set (crates/rptp/src/dataset.rs)

    [ClockDS] with its 16-byte wire tuple, the dataset comparison of IEEE 1588 Fig. 34
    ([ClockDS_compare]) and the stepsRemoved/topology tie-break of Fig. 35
    ([StepsRemoved_compare], [Topology_compare]). The [unreachable!] arm of the source is
    discharged by a proof inside [ClockDS_compare], so the comparison is a total function. *)

From S2P Require Import Prelude Clock PortId.

Record Priority1 := mkPriority1 { p1_value : Z }.
Record Priority2 := mkPriority2 { p2_value : Z }.
Record StepsRemoved := mkStepsRemoved { sr_value : Z }.

#[export] Instance Priority1_eq_dec : EqDecision Priority1.
Proof. solve_decision. Defined.
#[export] Instance Priority2_eq_dec : EqDecision Priority2.
Proof. solve_decision. Defined.
#[export] Instance StepsRemoved_eq_dec : EqDecision StepsRemoved.
Proof. solve_decision. Defined.

Definition Priority1_new (v : Z) : Priority1 := mkPriority1 v.
Definition Priority1_as_u8 (self : Priority1) : Z := p1_value self.
Definition Priority2_new (v : Z) : Priority2 := mkPriority2 v.
Definition Priority2_as_u8 (self : Priority2) : Z := p2_value self.

Record TopologyComparison := mkTopologyComparison { tc_steps_removed_ordering : comparison }.

Inductive ClockDSComparisonResult :=
| CDS_Better
| CDS_Worse
| CDS_TopologyTieBreak (t : TopologyComparison).

Inductive TopologyOrdering :=
| TO_Better | TO_BetterByTopology | TO_Worse | TO_WorseByTopology | TO_Error1 | TO_Error2.

Definition TopologyOrdering_is_better_or_better_by_topology (self : TopologyOrdering) : bool :=
  match self with TO_Better | TO_BetterByTopology => true | _ => false end.
Definition TopologyOrdering_is_better_by_topology (self : TopologyOrdering) : bool :=
  match self with TO_BetterByTopology => true | _ => false end.

Definition StepsRemoved_new (v : Z) : StepsRemoved := mkStepsRemoved v.
Definition StepsRemoved_incremented (self : StepsRemoved) : StepsRemoved :=
  mkStepsRemoved (u_sat 16 (sr_value self + 1)).
Definition StepsRemoved_as_u16 (self : StepsRemoved) : Z := sr_value self.
Definition StepsRemoved_to_be_bytes (self : StepsRemoved) : list Z := to_be 2 (sr_value self).

Definition StepsRemoved_compare (self other : StepsRemoved) : ClockDSComparisonResult :=
  if u_sat 16 (sr_value self + 1) <? sr_value other then CDS_Better
  else if u_sat 16 (sr_value other + 1) <? sr_value self then CDS_Worse
  else CDS_TopologyTieBreak (mkTopologyComparison (sr_value self ?= sr_value other)).

(** ** The topology tuple *)

Record Topology := mkTopology { topo_sender : PortIdentity; topo_receiver : PortIdentity }.

Definition Topology_local (local_topo_id : PortIdentity) : Topology :=
  mkTopology local_topo_id local_topo_id.
Definition Topology_foreign (sender receiver : PortIdentity) : Topology :=
  mkTopology sender receiver.

Definition Topology_compare (self : Topology) (steps_removed_ordering : comparison)
    (other : Topology) : TopologyOrdering :=
  let sender_a := topo_sender self in
  let receiver_a := topo_receiver self in
  let sender_b := topo_sender other in
  let receiver_b := topo_receiver other in
  match steps_removed_ordering with
  | Lt =>
      match PortIdentity_cmp receiver_b sender_b with
      | Lt => TO_Better
      | Gt => TO_BetterByTopology
      | Eq => TO_Error1
      end
  | Gt =>
      match PortIdentity_cmp receiver_a sender_a with
      | Lt => TO_Worse
      | Gt => TO_WorseByTopology
      | Eq => TO_Error1
      end
  | Eq =>
      match PortIdentity_cmp sender_a sender_b with
      | Lt => TO_BetterByTopology
      | Gt => TO_WorseByTopology
      | Eq =>
          match PortIdentity_compare_by_port_number receiver_a receiver_b with
          | Lt => TO_BetterByTopology
          | Gt => TO_WorseByTopology
          | Eq => TO_Error2
          end
      end
  end.

Definition TopologyComparison_compare (self : TopologyComparison) (a b : Topology)
    : TopologyOrdering :=
  Topology_compare a (tc_steps_removed_ordering self) b.

(** ** ClockDS *)

Record ClockDS := mkClockDS {
  cds_identity : ClockIdentity;
  cds_priority1 : Priority1;
  cds_priority2 : Priority2;
  cds_quality : ClockQuality;
  cds_steps_removed : StepsRemoved;
}.

#[export] Instance ClockDS_eq_dec : EqDecision ClockDS.
Proof. solve_decision. Defined.

Definition ClockDS_new (identity : ClockIdentity) (priority1 : Priority1) (priority2 : Priority2)
    (quality : ClockQuality) (steps_removed : StepsRemoved) : ClockDS :=
  mkClockDS identity priority1 priority2 quality steps_removed.

Definition ClockDS_with_added_step (self : ClockDS) : ClockDS :=
  mkClockDS (cds_identity self) (cds_priority1 self) (cds_priority2 self) (cds_quality self)
    (StepsRemoved_incremented (cds_steps_removed self)).

Definition ClockDS_is_authoritative (self : ClockDS) : bool :=
  ClockQuality_is_authoritative (cds_quality self).

Definition ClockDS_from_wire (buf : list Z) : outcome ClockDS :=
  b0 ← index 6 buf; b1 ← index 7 buf; b2 ← index 8 buf; b3 ← index 9 buf;
  b4 ← index 10 buf; b5 ← index 11 buf; b6 ← index 12 buf; b7 ← index 13 buf;
  p1 ← index 0 buf;
  p2 ← index 5 buf;
  q0 ← index 1 buf; q1 ← index 2 buf; q2 ← index 3 buf; q3 ← index 4 buf;
  quality ← ClockQuality_from_wire [q0; q1; q2; q3];
  s0 ← index 14 buf; s1 ← index 15 buf;
  Done (mkClockDS (ClockIdentity_new [b0; b1; b2; b3; b4; b5; b6; b7])
          (Priority1_new p1) (Priority2_new p2) quality (StepsRemoved_new (from_be [s0; s1]))).

Definition ClockDS_to_wire (self : ClockDS) : outcome (list Z) :=
  let bytes := replicate 16 0 in
  bytes ← set_index 0 (Priority1_as_u8 (cds_priority1 self)) bytes;
  q ← ClockQuality_to_wire (cds_quality self);
  bytes ← copy_from_slice 1 5 q bytes;
  bytes ← set_index 5 (Priority2_as_u8 (cds_priority2 self)) bytes;
  bytes ← copy_from_slice 6 14 (ClockIdentity_as_bytes (cds_identity self)) bytes;
  copy_from_slice 14 16 (StepsRemoved_to_be_bytes (cds_steps_removed self)) bytes.

(** The tuple (priority1, quality, priority2, identity) under the derived [Ord]. *)
Definition ClockDS_tuple_cmp (a b : ClockDS) : comparison :=
  then_with (p1_value (cds_priority1 a) ?= p1_value (cds_priority1 b))
    (then_with (ClockQuality_cmp (cds_quality a) (cds_quality b))
      (then_with (p2_value (cds_priority2 a) ?= p2_value (cds_priority2 b))
        (ClockIdentity_cmp (cds_identity a) (cds_identity b)))).

(** "datasets should at least differ in identity": the [unreachable!] arm. *)
Lemma ClockDS_compare_unreachable a b :
  cds_identity a ≠ cds_identity b → ClockDS_tuple_cmp a b = Eq → False.
Proof.
  unfold ClockDS_tuple_cmp. rewrite !then_with_Eq, ClockIdentity_cmp_eq.
  intros Hne (_ & _ & _ & E). by apply Hne.
Qed.

Definition ClockDS_compare (self other : ClockDS) : ClockDSComparisonResult :=
  match decide (cds_identity self = cds_identity other) with
  | left _ => StepsRemoved_compare (cds_steps_removed self) (cds_steps_removed other)
  | right ne =>
      match ClockDS_tuple_cmp self other as c
        return ClockDS_tuple_cmp self other = c → ClockDSComparisonResult with
      | Lt => λ _, CDS_Better
      | Gt => λ _, CDS_Worse
      | Eq => λ E, False_rect _ (ClockDS_compare_unreachable self other ne E)
      end eq_refl
  end.

(** ** A dataset bound to its topology tuple *)

Record TopologyDS := mkTopologyDS { tds_ds : ClockDS; tds_topo : Topology }.

Definition TopologyDS_local (ds : ClockDS) (local_topo_id : PortIdentity) : TopologyDS :=
  mkTopologyDS ds (Topology_local local_topo_id).
Definition TopologyDS_foreign (ds : ClockDS) (sender receiver : PortIdentity) : TopologyDS :=
  mkTopologyDS ds (Topology_foreign sender receiver).

Definition TopologyDS_is_better_or_better_by_topology (self other : TopologyDS) : bool :=
  match ClockDS_compare (tds_ds self) (tds_ds other) with
  | CDS_Better => true
  | CDS_Worse => false
  | CDS_TopologyTieBreak tiebreak =>
      TopologyOrdering_is_better_or_better_by_topology
        (TopologyComparison_compare tiebreak (tds_topo self) (tds_topo other))
  end.

Definition TopologyDS_is_better_by_topology (self other : TopologyDS) : bool :=
  match ClockDS_compare (tds_ds self) (tds_ds other) with
  | CDS_Better | CDS_Worse => false
  | CDS_TopologyTieBreak tiebreak =>
      TopologyOrdering_is_better_by_topology
        (TopologyComparison_compare tiebreak (tds_topo self) (tds_topo other))
  end.

(** ** Invariants *)

Definition StepsRemoved_wf (s : StepsRemoved) : Prop := 0 <= sr_value s < 2 ^ 16.

Definition ClockDS_wf (d : ClockDS) : Prop :=
  ClockIdentity_wf (cds_identity d) ∧ is_byte (p1_value (cds_priority1 d)) ∧
  is_byte (p2_value (cds_priority2 d)) ∧ ClockQuality_wf (cds_quality d) ∧
  StepsRemoved_wf (cds_steps_removed d).

(** ** The comparison, unfolded *)

Lemma ClockDS_compare_same a b : cds_identity a = cds_identity b →
  ClockDS_compare a b = StepsRemoved_compare (cds_steps_removed a) (cds_steps_removed b).
Proof. intros H. unfold ClockDS_compare. by destruct (decide _). Qed.

Lemma ClockDS_compare_diff a b : cds_identity a ≠ cds_identity b →
  ClockDS_compare a b
  = match ClockDS_tuple_cmp a b with Lt => CDS_Better | _ => CDS_Worse end.
Proof.
  intros H. unfold ClockDS_compare. destruct (decide _) as [|ne]; [done|].
  generalize (ClockDS_compare_unreachable a b ne). by destruct (ClockDS_tuple_cmp a b).
Qed.

#[export] Instance ClockDS_tuple_comparator : Comparator ClockDS_tuple_cmp.
Proof.
  apply (then_comparator (λ a b, p1_value (cds_priority1 a) ?= p1_value (cds_priority1 b)));
    [apply (on_comparator (λ a, p1_value (cds_priority1 a)) Z.compare _)|].
  apply (then_comparator (λ a b, ClockQuality_cmp (cds_quality a) (cds_quality b)));
    [apply (on_comparator _ _ _)|].
  apply (then_comparator (λ a b, p2_value (cds_priority2 a) ?= p2_value (cds_priority2 b)));
    [apply (on_comparator (λ a, p2_value (cds_priority2 a)) Z.compare _)|].
  apply (on_comparator _ _ _).
Qed.

(** Swapping the operands of the stepsRemoved comparison. *)
Lemma StepsRemoved_compare_flip a b : StepsRemoved_wf a → StepsRemoved_wf b →
  StepsRemoved_compare b a
  = match StepsRemoved_compare a b with
    | CDS_Better => CDS_Worse
    | CDS_Worse => CDS_Better
    | CDS_TopologyTieBreak t =>
        CDS_TopologyTieBreak (mkTopologyComparison (CompOpp (tc_steps_removed_ordering t)))
    end.
Proof.
  unfold StepsRemoved_wf, StepsRemoved_compare, u_sat. intros Ha Hb.
  destruct (Z.ltb_spec (Z.min (sr_value a + 1) (2 ^ 16 - 1)) (sr_value b)) as [H1|H1],
    (Z.ltb_spec (Z.min (sr_value b + 1) (2 ^ 16 - 1)) (sr_value a)) as [H2|H2]; simpl; try done; try lia.
  by rewrite Z.compare_antisym.
Qed.

(** Better never holds both ways, whatever the topologies. *)
Lemma TopologyDS_better_asym a b :
  StepsRemoved_wf (cds_steps_removed (tds_ds a)) →
  StepsRemoved_wf (cds_steps_removed (tds_ds b)) →
  TopologyDS_is_better_or_better_by_topology a b = true →
  TopologyDS_is_better_or_better_by_topology b a = false.
Proof.
  destruct a as [da [sa ra]], b as [db [sb rb]]; simpl. intros Ha Hb.
  unfold TopologyDS_is_better_or_better_by_topology; simpl.
  destruct (decide (cds_identity da = cds_identity db)) as [E|E].
  - rewrite !ClockDS_compare_same by done. rewrite StepsRemoved_compare_flip by done.
    destruct (StepsRemoved_compare _ _) as [| |[o]]; try done.
    unfold TopologyComparison_compare, Topology_compare; simpl.
    destruct o; simpl.
    + rewrite (cmp_antisym (cmp := PortIdentity_cmp) sa sb).
      destruct (PortIdentity_cmp sa sb); simpl; try done.
      unfold PortIdentity_compare_by_port_number.
      rewrite (cmp_antisym (cmp := PortNumber_cmp) (pi_port_number ra)).
      destruct (PortNumber_cmp _ _); simpl; done.
    + destruct (PortIdentity_cmp ra sa); simpl; done.
    + destruct (PortIdentity_cmp rb sb); simpl; done.
  - rewrite !ClockDS_compare_diff by done. rewrite (cmp_antisym (cmp := ClockDS_tuple_cmp) da db).
    destruct (ClockDS_tuple_cmp da db); simpl; done.
Qed.

(** ** One receiving port: a lexicographic rank

    On one port, for senders other than the port itself, the pairwise comparison is the
    rank below; it is a total order once datasets of one grandmaster agree on the fields
    that precede stepsRemoved. *)
Definition rank_cmp (a b : ClockDS * PortIdentity) : comparison :=
  then_with (ClockDS_tuple_cmp a.1 b.1)
    (then_with (sr_value (cds_steps_removed a.1) ?= sr_value (cds_steps_removed b.1))
      (PortIdentity_cmp a.2 b.2)).

#[export] Instance rank_comparator : Comparator rank_cmp.
Proof.
  apply (then_comparator (λ a b : ClockDS * PortIdentity, ClockDS_tuple_cmp a.1 b.1));
    [apply (on_comparator fst ClockDS_tuple_cmp _)|].
  apply (then_comparator (λ a b : ClockDS * PortIdentity,
    sr_value (cds_steps_removed a.1) ?= sr_value (cds_steps_removed b.1)));
    [apply (on_comparator (λ a : ClockDS * PortIdentity, sr_value (cds_steps_removed a.1)) Z.compare _)|].
  apply (on_comparator snd PortIdentity_cmp _).
Qed.

(** Datasets of one grandmaster agree on the fields compared before the identity. *)
Definition same_gm_consistent (a b : ClockDS) : Prop :=
  cds_identity a = cds_identity b → ClockDS_tuple_cmp a b = Eq.

(** Across the ports of one clock the receiving port's number breaks the last tie. *)
Definition port_rank_cmp (a b : ClockDS * PortIdentity * PortIdentity) : comparison :=
  then_with (rank_cmp a.1 b.1) (PortIdentity_compare_by_port_number a.2 b.2).

#[export] Instance port_rank_comparator : Comparator port_rank_cmp.
Proof.
  apply (then_comparator (λ a b : ClockDS * PortIdentity * PortIdentity, rank_cmp a.1 b.1)).
  - apply (on_comparator fst rank_cmp _).
  - apply (on_comparator (λ a : ClockDS * PortIdentity * PortIdentity, pi_port_number a.2) _ _).
Qed.

Lemma TopologyDS_better_port_rank da sa ra db sb rb :
  StepsRemoved_wf (cds_steps_removed da) → StepsRemoved_wf (cds_steps_removed db) →
  ra ≠ sa → rb ≠ sb → same_gm_consistent da db →
  TopologyDS_is_better_or_better_by_topology
    (TopologyDS_foreign da sa ra) (TopologyDS_foreign db sb rb) = true
  ↔ port_rank_cmp (da, sa, ra) (db, sb, rb) = Lt.
Proof.
  intros Ha Hb Hra Hrb Hgm.
  unfold TopologyDS_is_better_or_better_by_topology, port_rank_cmp, rank_cmp; simpl.
  destruct (decide (cds_identity da = cds_identity db)) as [E|E].
  - rewrite ClockDS_compare_same, (Hgm E) by done; simpl.
    unfold StepsRemoved_compare, StepsRemoved_wf, u_sat in *.
    set (x := sr_value (cds_steps_removed da)) in *. set (y := sr_value (cds_steps_removed db)) in *.
    assert (PortIdentity_cmp rb sb ≠ Eq) by (by rewrite PortIdentity_cmp_eq).
    assert (PortIdentity_cmp ra sa ≠ Eq) by (by rewrite PortIdentity_cmp_eq).
    destruct (Z.ltb_spec (Z.min (x + 1) (2 ^ 16 - 1)) y) as [H1|H1].
    { by rewrite (proj2 (Z.compare_lt_iff x y)) by lia. }
    destruct (Z.ltb_spec (Z.min (y + 1) (2 ^ 16 - 1)) x) as [H2|H2].
    { by rewrite (proj2 (Z.compare_gt_iff x y)) by lia. }
    unfold TopologyComparison_compare, Topology_compare; simpl.
    destruct (x ?= y); simpl.
    + destruct (PortIdentity_cmp sa sb); simpl; try done.
      by destruct (PortIdentity_compare_by_port_number ra rb).
    + by destruct (PortIdentity_cmp rb sb).
    + by destruct (PortIdentity_cmp ra sa).
  - rewrite ClockDS_compare_diff by done.
    destruct (ClockDS_tuple_cmp da db) eqn:Ec; simpl; try done.
    exfalso. by eapply ClockDS_compare_unreachable.
Qed.

Lemma TopologyDS_better_rank da sa db sb r :
  StepsRemoved_wf (cds_steps_removed da) → StepsRemoved_wf (cds_steps_removed db) →
  r ≠ sa → r ≠ sb → same_gm_consistent da db →
  TopologyDS_is_better_or_better_by_topology
    (TopologyDS_foreign da sa r) (TopologyDS_foreign db sb r) = true
  ↔ rank_cmp (da, sa) (db, sb) = Lt.
Proof.
  intros. rewrite TopologyDS_better_port_rank by done. unfold port_rank_cmp; simpl.
  unfold PortIdentity_compare_by_port_number. rewrite (cmp_refl (cmp := PortNumber_cmp)).
  by destruct (rank_cmp _ _).
Qed.

(** ** The wire tuple *)

Definition ClockDS_image (d : ClockDS) : list Z :=
  p1_value (cds_priority1 d) ::
  [ClockClass_as_u8 (cq_clock_class (cds_quality d));
   ClockAccuracy_as_u8 (cq_clock_accuracy (cds_quality d))] ++
  to_be 2 (cq_offset_scaled_log_variance (cds_quality d)) ++
  p2_value (cds_priority2 d) :: ci_id (cds_identity d) ++
  to_be 2 (sr_value (cds_steps_removed d)).

Lemma ClockDS_to_wire_eq d : ClockIdentity_wf (cds_identity d) →
  ClockDS_to_wire d = Done (ClockDS_image d).
Proof.
  destruct d as [[id] [p1] [p2] q [sr]]. intros [Hl _]; simpl in Hl.
  unfold ClockDS_to_wire. rewrite ClockQuality_to_wire_eq.
  unfold copy_from_slice, ClockIdentity_as_bytes, StepsRemoved_to_be_bytes; cbn [cds_identity ci_id].
  do 9 (destruct id as [|? id]; try discriminate Hl). done.
Qed.

Lemma ClockDS_image_bytes d : ClockDS_wf d → Forall is_byte (ClockDS_image d).
Proof.
  intros ([_ Hb] & H1 & H2 & ([Hc _] & [Ha _] & _) & _).
  unfold ClockDS_image. constructor; [done|]. constructor; [done|]. constructor; [done|].
  apply Forall_app_2; [apply to_be_bytes|]. constructor; [done|].
  apply Forall_app_2; [done | apply to_be_bytes].
Qed.

Lemma ClockDS_from_wire_image d : ClockDS_wf d → ClockDS_from_wire (ClockDS_image d) = Done d.
Proof.
  destruct d as [[id] [p1] [p2] [c a v] [sr]].
  intros ([Hl Hb] & H1 & H2 & ([_ Hc] & [_ Ha] & Hv) & Hs); unfold StepsRemoved_wf in *; simpl in *.
  do 9 (destruct id as [|? id]; try discriminate Hl).
  assert (from_be (to_be 2 v) = v) as Ev by (apply from_to_be; lia).
  assert (from_be (to_be 2 sr) = sr) as Es by (apply from_to_be; lia).
  cbn in Ev, Es |- *. unfold ClockIdentity_new, Priority1_new, Priority2_new, StepsRemoved_new.
  cbn. by rewrite Hc, Ha, Ev, Es.
Qed.

Lemma ClockDS_from_wire_Done buf : length buf = 16%nat → Forall is_byte buf →
  ∃ d, ClockDS_from_wire buf = Done d ∧ ClockDS_wf d.
Proof.
  intros H HF. do 17 (destruct buf as [|? buf]; try discriminate H).
  rewrite !Forall_cons in HF. destruct_and!.
  eexists. split; [reflexivity|]. repeat split; simpl.
  all: try done.
  all: try (by rewrite ?ClockClass_as_u8_new, ?ClockAccuracy_as_u8_new).
  all: rewrite ?Forall_cons.
  all: unfold is_byte, from_be in *; rewrite ?ClockClass_as_u8_new, ?ClockAccuracy_as_u8_new;
    cbn [fold_left]; repeat split; try apply Forall_nil_2; lia.
Qed.

Lemma ClockDS_with_added_step_wf d : ClockDS_wf d → ClockDS_wf (ClockDS_with_added_step d).
Proof.
  intros (H1 & H2 & H3 & H4 & H). do 4 (split; [done|]).
  unfold StepsRemoved_wf, u_sat in *. cbn [ClockDS_with_added_step cds_steps_removed StepsRemoved_incremented sr_value].
  unfold u_sat. lia.
Qed.

(** ** Sample identities and datasets, for the witnesses *)

Definition sample_port (c n : Z) : PortIdentity :=
  mkPortIdentity (mkClockIdentity [0; 0; 0; 0; 0; 0; 0; c]) (mkPortNumber n).

Definition sample_ds (c priority1 steps : Z) : ClockDS :=
  mkClockDS (mkClockIdentity [0; 0; 0; 0; 0; 0; 0; c]) (mkPriority1 priority1) (mkPriority2 128)
    (mkClockQuality CC_Default CA_Within1us 65535) (mkStepsRemoved steps).

(** ** Properties *)

(** C39: For candidates of a clock's own ports, not sent by the port itself and consistent about
    their grandmaster, the pairwise dataset comparison is the lexicographic order on dataset
    tuple, steps removed, sender and receiving port number; it is asymmetric, and neither is
    better only if they agree on all of these. *)
Theorem dataset_comparison_is_lexicographic da sa ra db sb rb :
  StepsRemoved_wf (cds_steps_removed da) → StepsRemoved_wf (cds_steps_removed db) →
  ra ≠ sa → rb ≠ sb → same_gm_consistent da db →
  let a := TopologyDS_foreign da sa ra in
  let b := TopologyDS_foreign db sb rb in
  (TopologyDS_is_better_or_better_by_topology a b = true ↔
   port_rank_cmp (da, sa, ra) (db, sb, rb) = Lt) ∧
  (TopologyDS_is_better_or_better_by_topology a b = true →
   TopologyDS_is_better_or_better_by_topology b a = false) ∧
  (TopologyDS_is_better_or_better_by_topology a b = false →
   TopologyDS_is_better_or_better_by_topology b a = false →
   ClockDS_tuple_cmp da db = Eq ∧ cds_steps_removed da = cds_steps_removed db ∧ sa = sb ∧
   pi_port_number ra = pi_port_number rb).
Proof.
  intros Ha Hb Hra Hrb Hgm a b.
  assert (same_gm_consistent db da) as Hgm'.
  { intros E. rewrite (cmp_antisym (cmp := ClockDS_tuple_cmp) da db). by rewrite (Hgm (eq_sym E)). }
  pose proof (TopologyDS_better_port_rank da sa ra db sb rb Ha Hb Hra Hrb Hgm) as Hab.
  pose proof (TopologyDS_better_port_rank db sb rb da sa ra Hb Ha Hrb Hra Hgm') as Hba.
  split; [exact Hab|]. split; [by apply TopologyDS_better_asym|].
  intros Hn1 Hn2. fold a b in Hab, Hba. rewrite Hn1 in Hab. rewrite Hn2 in Hba.
  assert (port_rank_cmp (da, sa, ra) (db, sb, rb) = Eq) as E.
  { rewrite (cmp_antisym (cmp := port_rank_cmp) (da, sa, ra) (db, sb, rb)) in Hba.
    destruct (port_rank_cmp (da, sa, ra) (db, sb, rb)); [done| |].
    - discriminate (proj2 Hab eq_refl).
    - discriminate (proj2 Hba eq_refl). }
  unfold port_rank_cmp, rank_cmp in E; simpl in E. rewrite !then_with_Eq in E.
  destruct E as [(Et & Es & Esnd) Ep]. split; [done|].
  apply Z.compare_eq in Es. split.
  { destruct (cds_steps_removed da), (cds_steps_removed db). simpl in Es. by f_equal. }
  split; [by apply PortIdentity_cmp_eq|].
  unfold PortIdentity_compare_by_port_number, PortNumber_cmp in Ep.
  apply Z.compare_eq in Ep. destruct (pi_port_number ra), (pi_port_number rb). simpl in Ep. by f_equal.
Qed.

Lemma dataset_comparison_is_lexicographic_witness :
  TopologyDS_is_better_or_better_by_topology
    (TopologyDS_foreign (sample_ds 2 10 1) (sample_port 3 1) (sample_port 9 1))
    (TopologyDS_foreign (sample_ds 2 10 1) (sample_port 4 1) (sample_port 9 2)) = true.
Proof.
  refine (proj2 (proj1 (dataset_comparison_is_lexicographic (sample_ds 2 10 1) (sample_port 3 1)
    (sample_port 9 1) (sample_ds 2 10 1) (sample_port 4 1) (sample_port 9 2) _ _ _ _ _)) _).
  - unfold StepsRemoved_wf; simpl; lia.
  - unfold StepsRemoved_wf; simpl; lia.
  - discriminate.
  - discriminate.
  - intros _. reflexivity.
  - reflexivity.
Defined.

(** Without that consistency the comparison is not an order: three received datasets, two of
    them announcing different priorities for one grandmaster, each beat the next in a cycle. *)
Theorem dataset_comparison_can_cycle :
  let better a b := TopologyDS_is_better_or_better_by_topology
    (TopologyDS_foreign (fst a) (snd a) (sample_port 9 1))
    (TopologyDS_foreign (fst b) (snd b) (sample_port 9 1)) in
  let near := (sample_ds 2 30 1, sample_port 3 1) in
  let far := (sample_ds 2 10 5, sample_port 4 1) in
  let other := (sample_ds 5 20 1, sample_port 5 1) in
  better near far = true ∧ better far other = true ∧ better other near = true.
Proof. repeat split. Qed.

(** A well-formed clock dataset serializes to 16 bytes that parse back to it. *)
Theorem dataset_wire_roundtrip d : ClockDS_wf d →
  ∃ buf, ClockDS_to_wire d = Done buf ∧ length buf = 16%nat ∧ Forall is_byte buf ∧
    ClockDS_from_wire buf = Done d.
Proof.
  intros Hd. exists (ClockDS_image d). split; [apply ClockDS_to_wire_eq, Hd|].
  split; [|split; [by apply ClockDS_image_bytes | by apply ClockDS_from_wire_image]].
  destruct Hd as ([Hl _] & _). unfold ClockDS_image. simpl. by rewrite length_app, Hl.
Qed.

Lemma dataset_wire_roundtrip_witness :
  ∃ buf, ClockDS_to_wire (sample_ds 7 100 3) = Done buf ∧ length buf = 16%nat ∧
    Forall is_byte buf ∧ ClockDS_from_wire buf = Done (sample_ds 7 100 3).
Proof.
  apply (dataset_wire_roundtrip (sample_ds 7 100 3)).
  wf_concrete.
Defined.
