(* ===== verification/Foreign.v ===== *)
(** * Foreign master tracking (crates/rptp/src/foreign.rs)

    Records of foreign clocks with their sliding-window qualification, the snapshot of the
    best qualified one, and the two storage interfaces of the source as classes:
    [ForeignClockRecords] (one port's store; implementations in Stores.v) and
    [ForeignGrandMasterCandidates] (across ports). [BestForeignRecord] is proved against the
    laws of the first one. *)

From S2P Require Import Prelude Time Clock PortId DataSet.

(** ** The sliding window *)

Record SlidingWindowQualification := mkSlidingWindowQualification {
  sw_last : Instant;
  sw_prev : option Instant;
  sw_window : Duration;
}.

#[export] Instance SlidingWindowQualification_eq_dec : EqDecision SlidingWindowQualification.
Proof. solve_decision. Defined.

Definition SlidingWindowQualification_new_unqualified (first : Instant) (window : Duration)
    : SlidingWindowQualification :=
  mkSlidingWindowQualification first None window.

Definition SlidingWindowQualification_qualify (now : Instant) (window : Duration)
    (self : SlidingWindowQualification) : SlidingWindowQualification :=
  mkSlidingWindowQualification now (Some (sw_last self)) window.

Definition SlidingWindowQualification_is_qualified (self : SlidingWindowQualification) : bool :=
  let delta :=
    match sw_prev self with
    | Some prev => Instant_checked_sub (sw_last self) prev
    | None => None
    end in
  match delta with
  | Some delta => Duration_leb delta (sw_window self)
  | None => false
  end.

Definition SlidingWindowQualification_is_stale (now : Instant)
    (self : SlidingWindowQualification) : bool :=
  match Instant_checked_sub now (sw_last self) with
  | Some delta => negb (Duration_leb delta (sw_window self))
  | None => true
  end.

Definition ForeignMasterTimeWindow_duration (log_announce_interval : LogInterval) : Duration :=
  Duration_saturating_mul (LogInterval_duration log_announce_interval) 4.

(** ** Records *)

Record ForeignClockRecord := mkForeignClockRecord {
  fr_source_port_identity : PortIdentity;
  fr_foreign_clock_ds : ClockDS;
  fr_qualification : SlidingWindowQualification;
}.

#[export] Instance ForeignClockRecord_eq_dec : EqDecision ForeignClockRecord.
Proof. solve_decision. Defined.

Inductive ForeignClockStatus := FCS_Unchanged | FCS_Updated.

Definition ForeignClockRecord_new (source_port_identity : PortIdentity)
    (foreign_clock_ds : ClockDS) (log_announce_interval : LogInterval) (now : Instant)
    : ForeignClockRecord :=
  let window := ForeignMasterTimeWindow_duration log_announce_interval in
  mkForeignClockRecord source_port_identity foreign_clock_ds
    (SlidingWindowQualification_new_unqualified now window).

Definition ForeignClockRecord_same_source_as (self : ForeignClockRecord)
    (source_port_identity : PortIdentity) : bool :=
  bool_decide (fr_source_port_identity self = source_port_identity).

Definition ForeignClockRecord_is_better_than (self other : ForeignClockRecord)
    (receiver : PortIdentity) : bool :=
  TopologyDS_is_better_or_better_by_topology
    (TopologyDS_foreign (fr_foreign_clock_ds self) (fr_source_port_identity self) receiver)
    (TopologyDS_foreign (fr_foreign_clock_ds other) (fr_source_port_identity other) receiver).

Definition ForeignClockRecord_update_from (record self : ForeignClockRecord)
    : outcome (ForeignClockStatus * ForeignClockRecord) :=
  _ ← rassert (bool_decide (fr_source_port_identity self = fr_source_port_identity record));
  let was_qualified := SlidingWindowQualification_is_qualified (fr_qualification self) in
  let q := SlidingWindowQualification_qualify (sw_last (fr_qualification record))
             (sw_window (fr_qualification record)) (fr_qualification self) in
  let is_qualified := SlidingWindowQualification_is_qualified q in
  let data_set_changed :=
    negb (bool_decide (fr_foreign_clock_ds self = fr_foreign_clock_ds record)) in
  let ds := if data_set_changed then fr_foreign_clock_ds record else fr_foreign_clock_ds self in
  let self := mkForeignClockRecord (fr_source_port_identity self) ds q in
  Done (if negb (bool_decide (was_qualified = is_qualified)) || (is_qualified && data_set_changed)
        then FCS_Updated else FCS_Unchanged, self).

Definition ForeignClockRecord_is_stale (now : Instant) (self : ForeignClockRecord) : bool :=
  SlidingWindowQualification_is_stale now (fr_qualification self).

(** A qualified record: its dataset and source. *)
Record QualifiedForeignClockRecord := mkQualifiedForeignClockRecord {
  qr_dataset : ClockDS;
  qr_source_port_identity : PortIdentity;
}.

Definition ForeignClockRecord_qualified (self : ForeignClockRecord)
    : option QualifiedForeignClockRecord :=
  if SlidingWindowQualification_is_qualified (fr_qualification self)
  then Some (mkQualifiedForeignClockRecord (fr_foreign_clock_ds self)
               (fr_source_port_identity self))
  else None.

Definition QualifiedForeignClockRecord_is_better_than (self other : QualifiedForeignClockRecord)
    (receiver : PortIdentity) : bool :=
  TopologyDS_is_better_or_better_by_topology
    (TopologyDS_foreign (qr_dataset self) (qr_source_port_identity self) receiver)
    (TopologyDS_foreign (qr_dataset other) (qr_source_port_identity other) receiver).

(** ** Snapshots *)

Inductive BestForeignSnapshot :=
| Qualified (ds : ClockDS) (source_port_identity receiver : PortIdentity)
| Empty.

#[export] Instance BestForeignSnapshot_eq_dec : EqDecision BestForeignSnapshot.
Proof. solve_decision. Defined.

Definition QualifiedForeignClockRecord_snapshot (receiver : PortIdentity)
    (self : QualifiedForeignClockRecord) : BestForeignSnapshot :=
  Qualified (qr_dataset self) (qr_source_port_identity self) receiver.

Definition BestForeignSnapshot_is_better_or_better_by_topology
    (self other : BestForeignSnapshot) : bool :=
  match self, other with
  | Qualified ds1 sender1 receiver1, Qualified ds2 sender2 receiver2 =>
      TopologyDS_is_better_or_better_by_topology
        (TopologyDS_foreign ds1 sender1 receiver1) (TopologyDS_foreign ds2 sender2 receiver2)
  | Qualified _ _ _, Empty => true
  | Empty, Qualified _ _ _ => false
  | Empty, Empty => false
  end.

Record QualifiedForeignSnapshot := mkQualifiedForeignSnapshot {
  qs_dataset : ClockDS;
  qs_source_port_identity : PortIdentity;
  qs_receiver : PortIdentity;
}.

Definition QualifiedForeignSnapshot_is_better_by_topology (self : QualifiedForeignSnapshot)
    (other : BestForeignSnapshot) : bool :=
  match other with
  | Qualified ds2 other_sender other_receiver =>
      TopologyDS_is_better_by_topology
        (TopologyDS_foreign (qs_dataset self) (qs_source_port_identity self) (qs_receiver self))
        (TopologyDS_foreign ds2 other_sender other_receiver)
  | Empty => false
  end.

Definition QualifiedForeignSnapshot_parent_if_received_on_port
    (self : QualifiedForeignSnapshot) (port : PortNumber) : option ParentPortIdentity :=
  if bool_decide (PortIdentity_port_number (qs_receiver self) = port)
  then Some (ParentPortIdentity_new (qs_source_port_identity self))
  else None.

Definition QualifiedForeignSnapshot_into_grandmaster_ds (self : QualifiedForeignSnapshot)
    : ClockDS :=
  ClockDS_with_added_step (qs_dataset self).

(** ** The storage interfaces *)

Class ForeignClockRecords (R : Type) := {
  fcr_remember : ForeignClockRecord → R → outcome R;
  fcr_iter : R → list ForeignClockRecord;
  fcr_prune_stale : Instant → R → R * bool;
}.

Class ForeignGrandMasterCandidates (F : Type) := {
  fgc_remember : PortNumber → BestForeignSnapshot → F → outcome F;
  fgc_best : F → BestForeignSnapshot;
}.

(** [Cell<BestForeignSnapshot>], the single-port implementation. *)
#[export] Instance Cell_ForeignGrandMasterCandidates
    : ForeignGrandMasterCandidates BestForeignSnapshot := {
  fgc_remember port snapshot _ :=
    _ ← rassert (bool_decide (port = PortNumber_new 1));
    _ ← rassert (match snapshot with
                 | Qualified _ _ receiver =>
                     bool_decide (PortIdentity_port_number receiver = PortNumber_new 1)
                 | Empty => true
                 end);
    Done snapshot;
  fgc_best self := self;
}.

(** ** Best foreign record *)

Record BestForeignRecord (R : Type) := mkBestForeignRecord {
  bf_receiver : PortIdentity;
  bf_foreign_clock_records : R;
}.
Arguments mkBestForeignRecord {R}.
Arguments bf_receiver {R}.
Arguments bf_foreign_clock_records {R}.

(** [Iterator::reduce]. *)
Definition reduce {A} (f : A → A → A) (l : list A) : option A :=
  match l with [] => None | x :: l => Some (fold_left f l x) end.

Definition BestForeignRecord_consider `{ForeignClockRecords R}
    (source_port_identity : PortIdentity) (foreign_clock_ds : ClockDS)
    (log_announce_interval : LogInterval) (now : Instant) (self : BestForeignRecord R)
    : outcome (BestForeignRecord R) :=
  let '(records, _) := fcr_prune_stale now (bf_foreign_clock_records self) in
  records ← fcr_remember
    (ForeignClockRecord_new source_port_identity foreign_clock_ds log_announce_interval now)
    records;
  Done (mkBestForeignRecord (bf_receiver self) records).

(** [snapshot] over the list of records. *)
Definition best_of (receiver : PortIdentity) (records : list ForeignClockRecord)
    : BestForeignSnapshot :=
  match reduce (λ best candidate,
           if QualifiedForeignClockRecord_is_better_than candidate best receiver
           then candidate else best)
         (omap ForeignClockRecord_qualified records) with
  | Some qualified => QualifiedForeignClockRecord_snapshot receiver qualified
  | None => Empty
  end.

Definition BestForeignRecord_snapshot `{ForeignClockRecords R} (self : BestForeignRecord R)
    : BestForeignSnapshot :=
  best_of (bf_receiver self) (fcr_iter (bf_foreign_clock_records self)).

(** ** Qualification, exactly *)

Definition Instant_wf (t : Instant) : Prop := 0 <= i_nanos t < 2 ^ 64.

Lemma window_nonneg li : 0 <= d_nanos (ForeignMasterTimeWindow_duration li).
Proof.
  unfold ForeignMasterTimeWindow_duration, Duration_saturating_mul, u_sat; simpl d_nanos.
  pose proof (LogInterval_duration_bound li). lia.
Qed.

Lemma is_stale_false now q :
  SlidingWindowQualification_is_stale now q = false
  ↔ i_nanos (sw_last q) <= i_nanos now <= i_nanos (sw_last q) + d_nanos (sw_window q).
Proof.
  unfold SlidingWindowQualification_is_stale, Instant_checked_sub, Duration_leb.
  destruct (Z.leb_spec (i_nanos (sw_last q)) (i_nanos now)); simpl; [|split; [done|lia]].
  rewrite negb_false_iff, Z.leb_le. lia.
Qed.

Lemma is_qualified_true q :
  SlidingWindowQualification_is_qualified q = true
  ↔ ∃ prev, sw_prev q = Some prev ∧
      i_nanos prev <= i_nanos (sw_last q) <= i_nanos prev + d_nanos (sw_window q).
Proof.
  unfold SlidingWindowQualification_is_qualified, Instant_checked_sub, Duration_leb.
  destruct (sw_prev q) as [prev|]; [|split; [done | by intros (? & ? & ?)]].
  destruct (Z.leb_spec (i_nanos prev) (i_nanos (sw_last q))); simpl.
  - rewrite Z.leb_le. split; [intros; exists prev; split; [done|lia] | intros (? & [= <-] & ?); lia].
  - split; [done | intros (? & [= <-] & ?); lia].
Qed.

(** The record [update_from] leaves. *)
Definition updated (record old : ForeignClockRecord) : ForeignClockRecord :=
  mkForeignClockRecord (fr_source_port_identity old) (fr_foreign_clock_ds record)
    (SlidingWindowQualification_qualify (sw_last (fr_qualification record))
       (sw_window (fr_qualification record)) (fr_qualification old)).

Lemma ForeignClockRecord_update_from_eq record old :
  fr_source_port_identity old = fr_source_port_identity record →
  ∃ s, ForeignClockRecord_update_from record old = Done (s, updated record old).
Proof.
  intros E. unfold ForeignClockRecord_update_from, updated.
  rewrite rassert_true by (by apply bool_decide_eq_true). cbn [mbind outcome_bind].
  eexists. do 3 f_equal.
  destruct (decide (fr_foreign_clock_ds old = fr_foreign_clock_ds record)) as [->|ne].
  - by rewrite bool_decide_eq_true_2.
  - by rewrite bool_decide_eq_false_2.
Qed.

(** A snapshot with a well-formed dataset. *)
Definition snapshot_wf (s : BestForeignSnapshot) : Prop :=
  match s with Qualified ds src r => ClockDS_wf ds | Empty => True end.

(** ** What a store promises *)

Definition sources (l : list ForeignClockRecord) : list PortIdentity :=
  fr_source_port_identity <$> l.

(** [inv] is the store's own invariant. A remembered record either updates the record of its
    source in place, or only ever adds itself (a bounded store may drop it, or drop another). *)
Class ForeignClockRecordsLaws (R : Type) `{!ForeignClockRecords R} (inv : R → Prop) : Prop := {
  fcr_inv_sources : ∀ r, inv r → NoDup (sources (fcr_iter r));
  fcr_prune_inv : ∀ now r, inv r → inv (fcr_prune_stale now r).1;
  fcr_prune_iter : ∀ now r, inv r →
    fcr_iter (fcr_prune_stale now r).1
    = filter (λ x, ForeignClockRecord_is_stale now x = false) (fcr_iter r);
  fcr_remember_known : ∀ record r, inv r →
    fr_source_port_identity record ∈ sources (fcr_iter r) →
    ∃ r', fcr_remember record r = Done r' ∧ inv r' ∧
      fcr_iter r' = ((λ x, if ForeignClockRecord_same_source_as x (fr_source_port_identity record)
                           then updated record x else x) <$> fcr_iter r);
  fcr_remember_new : ∀ record r, inv r →
    fr_source_port_identity record ∉ sources (fcr_iter r) →
    ∃ r', fcr_remember record r = Done r' ∧ inv r' ∧
      ∀ x, x ∈ fcr_iter r' → x = record ∨ x ∈ fcr_iter r;
}.

(** ** Selection *)

Definition qrank (x : QualifiedForeignClockRecord) : ClockDS * PortIdentity :=
  (qr_dataset x, qr_source_port_identity x).

(** Qualified candidates one port can compare: in range, not sent by the port itself, and
    consistent about each grandmaster. *)
Definition comparable (receiver : PortIdentity) (l : list QualifiedForeignClockRecord) : Prop :=
  (∀ x, x ∈ l → StepsRemoved_wf (cds_steps_removed (qr_dataset x)) ∧
                receiver ≠ qr_source_port_identity x) ∧
  (∀ x y, x ∈ l → y ∈ l → same_gm_consistent (qr_dataset x) (qr_dataset y)).

#[export] Instance qrank_comparator : Comparator (λ a b, rank_cmp (qrank a) (qrank b)).
Proof. apply (on_comparator qrank rank_cmp _). Qed.

Lemma better_rank receiver l : comparable receiver l →
  ∀ x y, x ∈ l → y ∈ l →
    QualifiedForeignClockRecord_is_better_than x y receiver = true ↔
    rank_cmp (qrank x) (qrank y) = Lt.
Proof.
  intros [Hwf Hgm] x y Hx Hy. destruct (Hwf x Hx), (Hwf y Hy).
  by apply TopologyDS_better_rank; [..|apply Hgm].
Qed.

(** The selected snapshot is a least qualified candidate of the rank. *)
Lemma best_of_least receiver records q :
  comparable receiver (omap ForeignClockRecord_qualified records) →
  q ∈ omap ForeignClockRecord_qualified records →
  ∃ b, best_of receiver records = QualifiedForeignClockRecord_snapshot receiver b ∧
    b ∈ omap ForeignClockRecord_qualified records ∧
    ∀ y, y ∈ omap ForeignClockRecord_qualified records → rank_cmp (qrank b) (qrank y) ≠ Gt.
Proof.
  intros Hall Hq. unfold best_of.
  destruct (omap _ records) as [|x l]; [by apply elem_of_nil in Hq|]. simpl reduce.
  destruct (fold_keep_better (λ a b, rank_cmp (qrank a) (qrank b))
    (λ c b, QualifiedForeignClockRecord_is_better_than c b receiver) (x :: l) l x) as [H1 H2];
    [by apply better_rank | left | intros; by right |].
  eexists. split; [reflexivity|]. by split.
Qed.

Lemma best_of_Empty receiver records :
  best_of receiver records = Empty ↔ omap ForeignClockRecord_qualified records = [].
Proof. unfold best_of. by destruct (omap _ records). Qed.

(** The selected snapshot is one of the qualified candidates, comparable or not. *)
Lemma best_of_elem receiver records ds s r : best_of receiver records = Qualified ds s r →
  r = receiver ∧ mkQualifiedForeignClockRecord ds s ∈ omap ForeignClockRecord_qualified records.
Proof.
  unfold best_of. destruct (omap _ records) as [|x l]; [done|]. simpl reduce.
  pose proof (fold_keep_elem (λ c b, QualifiedForeignClockRecord_is_better_than c b receiver) l x)
    as H. destruct (fold_left _ l x) as [d p]. intros [= <- <- <-]. by split.
Qed.

(** The snapshot carries the dataset of one of the records. *)
Lemma best_of_wf receiver records :
  Forall (λ x, ClockDS_wf (fr_foreign_clock_ds x)) records → snapshot_wf (best_of receiver records).
Proof.
  intros Hr. unfold best_of.
  assert (Forall (λ q, ClockDS_wf (qr_dataset q)) (omap ForeignClockRecord_qualified records)) as Hq.
  { apply Forall_forall. intros q (x & Hx & E)%list_elem_of_omap.
    rewrite Forall_forall in Hr. specialize (Hr x Hx).
    unfold ForeignClockRecord_qualified in E. case_match; [by injection E as <-|done]. }
  destruct (omap _ records) as [|q l]; simpl; [done|].
  apply Forall_cons in Hq as [Hq Hl]. revert q Hq.
  induction l as [|q' l IH]; intros q Hq; simpl; [done|].
  apply Forall_cons in Hl as [Hq' Hl]. apply IH; [done|]. by case_match.
Qed.

(** Candidates of equal rank have one source. *)
Lemma rank_Eq_source a b : rank_cmp (qrank a) (qrank b) = Eq →
  qr_source_port_identity a = qr_source_port_identity b.
Proof.
  unfold rank_cmp, qrank; simpl. rewrite !then_with_Eq.
  by intros (_ & _ & ->%PortIdentity_cmp_eq).
Qed.

Section with_store.
  Context `{HR : ForeignClockRecords R} (inv : R → Prop) {HL : ForeignClockRecordsLaws R inv}.

(** The records [consider] leaves, in the two cases of the store's contract. *)
Lemma consider_cases s ds li now (b : BestForeignRecord R) :
  let record := ForeignClockRecord_new s ds li now in
  let fresh := filter (λ x, ForeignClockRecord_is_stale now x = false)
                 (fcr_iter (bf_foreign_clock_records b)) in
  inv (bf_foreign_clock_records b) →
  ∃ b', BestForeignRecord_consider s ds li now b = Done b' ∧
    bf_receiver b' = bf_receiver b ∧ inv (bf_foreign_clock_records b') ∧
    ((s ∈ sources fresh ∧ fcr_iter (bf_foreign_clock_records b')
       = ((λ x, if ForeignClockRecord_same_source_as x s then updated record x else x) <$> fresh)) ∨
     ((s ∉ sources fresh) ∧
     (∀ x, x ∈ fcr_iter (bf_foreign_clock_records b') → x = record ∨ x ∈ fresh))).
Proof.
  intros record fresh Hb. unfold BestForeignRecord_consider.
  pose proof (fcr_prune_inv now _ Hb) as Hp. pose proof (fcr_prune_iter now _ Hb) as Hi.
  destruct (fcr_prune_stale now (bf_foreign_clock_records b)) as [r ch]. cbn [fst] in *.
  change (ForeignClockRecord_new s ds li now) with record.
  destruct (decide (fr_source_port_identity record ∈ sources (fcr_iter r))) as [Hin|Hin].
  - destruct (fcr_remember_known record r Hp Hin) as (r' & E & Hr' & Hit). rewrite E.
    eexists. split; [reflexivity|]. do 2 (split; [done|]). left. unfold fresh. rewrite <- Hi. by split.
  - destruct (fcr_remember_new record r Hp Hin) as (r' & E & Hr' & Hit). rewrite E.
    eexists. split; [reflexivity|]. do 2 (split; [done|]). right. unfold fresh. rewrite <- Hi. by split.
Qed.

Lemma last_now_not_stale now li q :
  sw_last q = now → sw_window q = ForeignMasterTimeWindow_duration li →
  SlidingWindowQualification_is_stale now q = false.
Proof. intros E1 E2. apply is_stale_false. rewrite E1, E2. pose proof (window_nonneg li). lia. Qed.

Lemma new_not_stale s ds li now :
  ForeignClockRecord_is_stale now (ForeignClockRecord_new s ds li now) = false.
Proof. by apply (last_now_not_stale now li). Qed.

Lemma updated_not_stale s ds li now x :
  ForeignClockRecord_is_stale now (updated (ForeignClockRecord_new s ds li now) x) = false.
Proof. by apply (last_now_not_stale now li). Qed.

(** A source has one record. *)
Lemma sources_inj l x y : NoDup (sources l) → x ∈ l → y ∈ l →
  fr_source_port_identity x = fr_source_port_identity y → x = y.
Proof.
  intros Hn [i Hi]%list_elem_of_lookup [j Hj]%list_elem_of_lookup E.
  assert (i = j) as <-; [|by simplify_eq].
  eapply NoDup_lookup; [exact Hn|..]; unfold sources; rewrite list_lookup_fmap; [by rewrite Hi|].
  by rewrite Hj, E.
Qed.

(** A second Announce qualifies a record within four announce intervals of the first. *)
Lemma updated_qualified s ds li now x : ForeignClockRecord_is_stale now x = false →
  is_Some (ForeignClockRecord_qualified (updated (ForeignClockRecord_new s ds li now) x)) ↔
  i_nanos now - i_nanos (sw_last (fr_qualification x)) <= d_nanos (ForeignMasterTimeWindow_duration li).
Proof.
  intros Hst. pose proof (proj1 (is_stale_false now (fr_qualification x)) Hst) as Hle.
  unfold ForeignClockRecord_qualified, updated; cbn [fr_qualification].
  destruct (SlidingWindowQualification_is_qualified _) eqn:Eq.
  - split; [intros _|by eexists].
    apply is_qualified_true in Eq as (p & [= <-] & Hp).
    unfold SlidingWindowQualification_qualify in Hp; cbn in Hp |- *. simpl in *. lia.
  - split; [by intros []|]. intros Hw. exfalso. apply not_true_iff_false in Eq. apply Eq.
    apply is_qualified_true. eexists. split; [reflexivity|]. cbn. simpl in *. lia.
Qed.

(** An Announce leaves no stale record behind. *)
Lemma consider_drops_stale_eq s ds li now (b b' : BestForeignRecord R) :
  inv (bf_foreign_clock_records b) → BestForeignRecord_consider s ds li now b = Done b' →
  Forall (λ x, ForeignClockRecord_is_stale now x = false) (fcr_iter (bf_foreign_clock_records b')).
Proof.
  intros Hb E. destruct (consider_cases s ds li now b Hb) as (b'' & E' & _ & _ & H).
  rewrite E in E'. injection E' as <-. apply Forall_forall. intros x Hx.
  destruct H as [[_ H]|[_ H]].
  - rewrite H in Hx. apply list_elem_of_fmap in Hx as (y & -> & Hy).
    apply list_elem_of_filter in Hy as [Hy _]. case_match; [apply updated_not_stale | done].
  - destruct (H x Hx) as [->|Hy]; [apply new_not_stale|].
    by apply list_elem_of_filter in Hy as [Hy _].
Qed.
End with_store.

(** ** Properties *)

(** C33: The snapshot of a port's records is empty exactly when no record is qualified, and
    otherwise one of the qualified records, whatever they are. Where the qualified datasets are
    comparable, those of one grandmaster agreeing on what is compared before its identity, none of
    them sent by the receiving port itself and their step counts in range, it is the best of them:
    every qualified record of another source ranks below it, and loses to it in the code's own
    comparison. *)
Theorem snapshot_is_best `{ForeignClockRecords R} (b : BestForeignRecord R) :
  let quals := omap ForeignClockRecord_qualified (fcr_iter (bf_foreign_clock_records b)) in
  (BestForeignRecord_snapshot b = Empty ↔ quals = []) ∧
  (∀ ds s r, BestForeignRecord_snapshot b = Qualified ds s r →
     r = bf_receiver b ∧ mkQualifiedForeignClockRecord ds s ∈ quals) ∧
  (comparable (bf_receiver b) quals →
   ∀ ds s r y, BestForeignRecord_snapshot b = Qualified ds s r → y ∈ quals →
     qr_source_port_identity y ≠ s →
     rank_cmp (ds, s) (qr_dataset y, qr_source_port_identity y) = Lt ∧
     QualifiedForeignClockRecord_is_better_than (mkQualifiedForeignClockRecord ds s) y
       (bf_receiver b) = true).
Proof.
  intros quals. split; [apply best_of_Empty|].
  assert (∀ ds s r, BestForeignRecord_snapshot b = Qualified ds s r →
    r = bf_receiver b ∧ mkQualifiedForeignClockRecord ds s ∈ quals) as Hin
    by (intros; by eapply best_of_elem).
  split; [exact Hin|]. intros Hall ds s r y E Hy Hne. destruct (Hin ds s r E) as [-> Hs].
  unfold BestForeignRecord_snapshot in E.
  destruct (best_of_least _ _ y Hall Hy) as ([ds' s'] & E' & Hx & Hmin).
  rewrite E in E'. injection E' as <- <-.
  assert (rank_cmp (ds, s) (qr_dataset y, qr_source_port_identity y) = Lt) as Hlt.
  { specialize (Hmin y Hy). destruct (rank_cmp (ds, s) _) eqn:E2; [|done|done].
    by apply (rank_Eq_source (mkQualifiedForeignClockRecord ds s) y) in E2; simplify_eq/=. }
  split; [exact Hlt|]. by apply (better_rank _ _ Hall).
Qed.

(** After considering an Announce no stored record is stale: every record's last Announce
    lies within its own window before now. *)
Theorem consider_drops_stale `{ForeignClockRecords R} (inv : R → Prop)
    `{!ForeignClockRecordsLaws R inv} s ds li now (b : BestForeignRecord R) :
  inv (bf_foreign_clock_records b) →
  ∃ b', BestForeignRecord_consider s ds li now b = Done b' ∧
    inv (bf_foreign_clock_records b') ∧
    Forall (λ x, i_nanos (sw_last (fr_qualification x)) <= i_nanos now ∧
                 i_nanos now - i_nanos (sw_last (fr_qualification x))
                 <= d_nanos (sw_window (fr_qualification x)))
      (fcr_iter (bf_foreign_clock_records b')).
Proof.
  intros Hb. destruct (consider_cases inv s ds li now b Hb) as (b' & E & _ & Hb' & _).
  exists b'. do 2 (split; [done|]).
  eapply Forall_impl; [exact (consider_drops_stale_eq inv s ds li now b b' Hb E)|].
  simpl. intros x Hx%is_stale_false. lia.
Qed.

(** C25: A foreign master qualifies by its second Announce within four announce intervals, and by
    nothing else. After an Announce is considered, a source that was known by a fresh record still
    has one; the record of the announcing source holds the dataset announced and is qualified exactly
    when an earlier Announce of that source was on record, not stale, and at most four announce
    intervals old; and every other record left is as it was, and not stale. *)
Theorem qualified_after_two_announces `{ForeignClockRecords R} (inv : R → Prop)
    `{!ForeignClockRecordsLaws R inv} s ds li now (b : BestForeignRecord R) :
  inv (bf_foreign_clock_records b) →
  let records := fcr_iter (bf_foreign_clock_records b) in
  ∃ b', BestForeignRecord_consider s ds li now b = Done b' ∧
    let records' := fcr_iter (bf_foreign_clock_records b') in
    (∀ old, old ∈ records → fr_source_port_identity old = s →
       ForeignClockRecord_is_stale now old = false → s ∈ sources records') ∧
    ∀ x, x ∈ records' →
      if decide (fr_source_port_identity x = s) then
        fr_foreign_clock_ds x = ds ∧
        (is_Some (ForeignClockRecord_qualified x) ↔
         ∃ old, old ∈ records ∧ fr_source_port_identity old = s ∧
           ForeignClockRecord_is_stale now old = false ∧
           i_nanos now - i_nanos (sw_last (fr_qualification old))
           <= d_nanos (ForeignMasterTimeWindow_duration li))
      else x ∈ records ∧ ForeignClockRecord_is_stale now x = false.
Proof.
  intros Hb. destruct (consider_cases inv s ds li now b Hb) as (b' & E & _ & _ & Hc).
  exists b'. split; [done|].
  destruct Hc as [[Hin Hi]|[Hn Hi]].
  - split.
    + intros old Hold Es Hst. rewrite Hi. apply list_elem_of_fmap in Hin as (o & -> & Ho).
      apply list_elem_of_fmap. exists (updated (ForeignClockRecord_new (fr_source_port_identity o) ds li now) o).
      split; [done|]. apply list_elem_of_fmap. exists o. split; [|done].
      unfold ForeignClockRecord_same_source_as. by rewrite bool_decide_eq_true_2.
    + rewrite Hi. intros x (o & -> & [Hst Ho]%list_elem_of_filter)%list_elem_of_fmap.
      unfold ForeignClockRecord_same_source_as. case_bool_decide as Es.
      * rewrite decide_True by done. split; [done|]. rewrite updated_qualified by done. split.
        { intros Hw. by exists o. }
        intros (o' & Ho' & Es' & Hst' & Hw).
        assert (o' = o) as ->; [|done].
        apply (sources_inj (fcr_iter (bf_foreign_clock_records b))); [|done..|congruence].
        by apply (fcr_inv_sources (inv := inv)).
      * by rewrite decide_False.
  - split.
    + intros old Hold Es Hst. destruct Hn. apply list_elem_of_fmap. exists old. split; [done|].
      by apply list_elem_of_filter.
    + intros x Hx. destruct (Hi x Hx) as [->|Hf].
      * rewrite decide_True by done. split; [done|]. split; [by intros []|].
        intros (o & Ho & Es & Hst & _). destruct Hn. apply list_elem_of_fmap. exists o.
        split; [done|]. by apply list_elem_of_filter.
      * rewrite decide_False by (intros <-; apply Hn, list_elem_of_fmap; by exists x).
        by apply list_elem_of_filter in Hf as [? ?].
Qed.
