(* ===== verification/Stores.v ===== *)
(** * Foreign record stores (crates/rptp/src/heapless.rs and infra.rs)

    The implementations of the two interfaces of Foreign.v: the growable
    [ForeignClockRecordsVec], the bounded [HeaplessForeignClockRecords] with its removal policy
    (over the third-party [heapless::Vec], a class of operations with its documented laws), and
    [MultiPortForeignCandidates] over an ordered map. Each discharges the laws its clients use. *)

From Stdlib Require Import Sorting.Sorted.
From S2P Require Import Prelude Time Clock PortId DataSet Foreign.

(** ** The shared update: [iter_mut().find(..)], then [update_from] through the reference *)

Definition find_source (source : PortIdentity) (l : list ForeignClockRecord)
    : option (nat * ForeignClockRecord) :=
  list_find (λ r, ForeignClockRecord_same_source_as r source = true) l.

(** ** The growable store *)

Record ForeignClockRecordsVec := mkForeignClockRecordsVec { fv_records : list ForeignClockRecord }.

Definition ForeignClockRecordsVec_new : ForeignClockRecordsVec := mkForeignClockRecordsVec [].

Definition ForeignClockRecordsVec_remember (record : ForeignClockRecord)
    (self : ForeignClockRecordsVec) : outcome ForeignClockRecordsVec :=
  match find_source (fr_source_port_identity record) (fv_records self) with
  | Some (i, existing) =>
      '(_, existing) ← ForeignClockRecord_update_from record existing;
      Done (mkForeignClockRecordsVec (<[i:=existing]> (fv_records self)))
  | None => Done (mkForeignClockRecordsVec (fv_records self ++ [record]))
  end.

Definition ForeignClockRecordsVec_prune_stale (now : Instant) (self : ForeignClockRecordsVec)
    : ForeignClockRecordsVec * bool :=
  let before := length (fv_records self) in
  let records := filter (λ record, negb (ForeignClockRecord_is_stale now record) = true)
                   (fv_records self) in
  (mkForeignClockRecordsVec records, negb (length records =? before)%nat).

#[export] Instance Vec_ForeignClockRecords : ForeignClockRecords ForeignClockRecordsVec := {
  fcr_remember := ForeignClockRecordsVec_remember;
  fcr_iter := fv_records;
  fcr_prune_stale := ForeignClockRecordsVec_prune_stale;
}.

(** ** The bounded store *)

(** [heapless::Vec<ForeignClockRecord, N>]: the operations the crate uses. [hv_write] is an
    assignment through an [iter_mut] reference; [hv_push] returns [None] for [Err(item)]. *)
Class HeaplessVec (N : nat) (V : Type) := {
  hv_new : V;
  hv_as_slice : V → list ForeignClockRecord;
  hv_write : nat → ForeignClockRecord → V → V;
  hv_push : ForeignClockRecord → V → option V;
  hv_remove : nat → V → outcome V;
  hv_retain : (ForeignClockRecord → bool) → V → V;
}.

(** Its documented behaviour. *)
Class HeaplessVecLaws (N : nat) (V : Type) `{!HeaplessVec N V} : Prop := {
  hv_new_slice : hv_as_slice hv_new = [];
  hv_capacity : ∀ v, (length (hv_as_slice v) <= N)%nat;
  hv_write_slice : ∀ i x v, (i < length (hv_as_slice v))%nat →
    hv_as_slice (hv_write i x v) = <[i:=x]> (hv_as_slice v);
  hv_push_ok : ∀ x v, (length (hv_as_slice v) < N)%nat →
    ∃ v', hv_push x v = Some v' ∧ hv_as_slice v' = hv_as_slice v ++ [x];
  hv_push_full : ∀ x v, length (hv_as_slice v) = N → hv_push x v = None;
  hv_remove_slice : ∀ i v, (i < length (hv_as_slice v))%nat →
    ∃ v', hv_remove i v = Done v' ∧ hv_as_slice v' = delete i (hv_as_slice v);
  hv_retain_slice : ∀ f v, hv_as_slice (hv_retain f v) = filter (λ x, f x = true) (hv_as_slice v);
}.

(** The loop of [RemovalPolicy::candidate_index]; [current[w]] indexes the whole slice. *)
Fixpoint candidate_index_from (current : list ForeignClockRecord) (candidate : ForeignClockRecord)
    (receiver : PortIdentity) (i : nat) (rest : list ForeignClockRecord)
    (worst_index : option nat) : outcome (option nat) :=
  match rest with
  | [] => Done worst_index
  | record :: rest =>
      worst_index ←
        if ForeignClockRecord_is_better_than candidate record receiver then
          match worst_index with
          | None => Done (Some i)
          | Some w =>
              worst ← unwrap (current !! w);
              if ForeignClockRecord_is_better_than record worst receiver
              then Done (Some w) else Done (Some i)
          end
        else Done worst_index;
      candidate_index_from current candidate receiver (S i) rest worst_index
  end.

Definition RemovalPolicy_candidate_index (current : list ForeignClockRecord)
    (candidate : ForeignClockRecord) (receiver : PortIdentity) : outcome (option nat) :=
  candidate_index_from current candidate receiver 0 current None.

Record HeaplessForeignClockRecords (V : Type) := mkHeaplessForeignClockRecords {
  hr_records : V;
  hr_receiver : PortIdentity;
}.
Arguments mkHeaplessForeignClockRecords {V}.
Arguments hr_records {V}.
Arguments hr_receiver {V}.

Section heapless.
  Context (N : nat) (V : Type) `{HV : !HeaplessVec N V}.

Definition HeaplessForeignClockRecords_new (receiver : PortIdentity)
    : HeaplessForeignClockRecords V :=
  mkHeaplessForeignClockRecords hv_new receiver.

Definition HeaplessForeignClockRecords_remember (record : ForeignClockRecord)
    (self : HeaplessForeignClockRecords V) : outcome (HeaplessForeignClockRecords V) :=
  match find_source (fr_source_port_identity record) (hv_as_slice (hr_records self)) with
  | Some (i, existing) =>
      '(_, existing) ← ForeignClockRecord_update_from record existing;
      Done (mkHeaplessForeignClockRecords (hv_write i existing (hr_records self)) (hr_receiver self))
  | None =>
      match hv_push record (hr_records self) with
      | Some records => Done (mkHeaplessForeignClockRecords records (hr_receiver self))
      | None =>
          index ← RemovalPolicy_candidate_index (hv_as_slice (hr_records self)) record
                    (hr_receiver self);
          match index with
          | Some index =>
              records ← hv_remove index (hr_records self);
              records ← unwrap (hv_push record records);
              Done (mkHeaplessForeignClockRecords records (hr_receiver self))
          | None => Done self
          end
      end
  end.

Definition HeaplessForeignClockRecords_prune_stale (now : Instant)
    (self : HeaplessForeignClockRecords V) : HeaplessForeignClockRecords V * bool :=
  let before := length (hv_as_slice (hr_records self)) in
  let records := hv_retain (λ record, negb (ForeignClockRecord_is_stale now record))
                   (hr_records self) in
  (mkHeaplessForeignClockRecords records (hr_receiver self),
   negb (length (hv_as_slice records) =? before)%nat).

#[export] Instance Heapless_ForeignClockRecords
    : ForeignClockRecords (HeaplessForeignClockRecords V) := {
  fcr_remember := HeaplessForeignClockRecords_remember;
  fcr_iter self := hv_as_slice (hr_records self);
  fcr_prune_stale := HeaplessForeignClockRecords_prune_stale;
}.
End heapless.

(** ** Candidates across the ports of a boundary clock *)

(** [BTreeMap<PortNumber, _>]: an association list in increasing key order. *)
Fixpoint btree_insert {A} (k : PortNumber) (a : A) (m : list (PortNumber * A))
    : list (PortNumber * A) :=
  match m with
  | [] => [(k, a)]
  | (k', a') :: m' =>
      match PortNumber_cmp k k' with
      | Lt => (k, a) :: m
      | Eq => (k, a) :: m'
      | Gt => (k', a') :: btree_insert k a m'
      end
  end.

Fixpoint btree_remove {A} (k : PortNumber) (m : list (PortNumber * A))
    : list (PortNumber * A) :=
  match m with
  | [] => []
  | (k', a) :: m =>
      if bool_decide (k' = k) then btree_remove k m else (k', a) :: btree_remove k m
  end.

Record MultiPortForeignCandidates := mkMultiPortForeignCandidates {
  mp_by_port : list (PortNumber * BestForeignSnapshot);
}.

Definition MultiPortForeignCandidates_new : MultiPortForeignCandidates :=
  mkMultiPortForeignCandidates [].

Definition MultiPortForeignCandidates_remember (port : PortNumber)
    (snapshot : BestForeignSnapshot) (self : MultiPortForeignCandidates)
    : MultiPortForeignCandidates :=
  match snapshot with
  | Qualified _ _ _ =>
      mkMultiPortForeignCandidates (btree_insert port snapshot (mp_by_port self))
  | Empty => mkMultiPortForeignCandidates (btree_remove port (mp_by_port self))
  end.

Definition MultiPortForeignCandidates_best (self : MultiPortForeignCandidates)
    : BestForeignSnapshot :=
  fold_left (λ best_snapshot snapshot,
      if BestForeignSnapshot_is_better_or_better_by_topology snapshot best_snapshot
      then snapshot else best_snapshot)
    (snd <$> mp_by_port self) Empty.

#[export] Instance MultiPort_ForeignGrandMasterCandidates
    : ForeignGrandMasterCandidates MultiPortForeignCandidates := {
  fgc_remember port snapshot self := Done (MultiPortForeignCandidates_remember port snapshot self);
  fgc_best := MultiPortForeignCandidates_best;
}.

(** ** Updating one record in place *)

Lemma same_source_true x s :
  ForeignClockRecord_same_source_as x s = true ↔ fr_source_port_identity x = s.
Proof. unfold ForeignClockRecord_same_source_as. apply bool_decide_eq_true. Qed.

Lemma find_source_Some s l i e :
  find_source s l = Some (i, e) → l !! i = Some e ∧ fr_source_port_identity e = s.
Proof. by intros (? & ?%same_source_true & _)%list_find_Some. Qed.

Lemma find_source_None s l : find_source s l = None → s ∉ sources l.
Proof.
  intros H%list_find_None Hin. apply list_elem_of_fmap in Hin as (x & -> & Hx).
  rewrite Forall_forall in H. apply (H x Hx). by apply same_source_true.
Qed.

Lemma find_source_in s l : s ∈ sources l → ∃ i e, find_source s l = Some (i, e).
Proof.
  intros H. destruct (find_source s l) as [[i e]|] eqn:E; [by exists i, e|].
  by apply find_source_None in E.
Qed.

(** With one record per source, the in-place write is the map over the store. *)
Lemma insert_updated record l i e :
  NoDup (sources l) → l !! i = Some e →
  fr_source_port_identity e = fr_source_port_identity record →
  <[i:=updated record e]> l
  = (λ x, if ForeignClockRecord_same_source_as x (fr_source_port_identity record)
          then updated record x else x) <$> l.
Proof.
  intros Hnd Hi He. apply list_eq. intros j. rewrite list_lookup_fmap.
  destruct (decide (i = j)) as [<-|Hij].
  - rewrite list_lookup_insert_eq by (by apply lookup_lt_Some in Hi). rewrite Hi; simpl.
    by rewrite (proj2 (same_source_true _ _) He).
  - rewrite list_lookup_insert_ne by done. destruct (l !! j) as [y|] eqn:Hj; [simpl|done].
    destruct (ForeignClockRecord_same_source_as y _) eqn:Ey; [|done].
    apply same_source_true in Ey. destruct Hij.
    apply (NoDup_lookup _ i j (fr_source_port_identity e) Hnd); unfold sources;
      rewrite list_lookup_fmap, ?Hi, ?Hj; simpl; congruence.
Qed.

Lemma sources_map_updated record l :
  sources ((λ x, if ForeignClockRecord_same_source_as x (fr_source_port_identity record)
                 then updated record x else x) <$> l) = sources l.
Proof.
  unfold sources. rewrite <- list_fmap_compose. apply list_fmap_ext. intros _ x _.
  unfold compose. by case_match.
Qed.

Lemma sources_filter_NoDup (P : ForeignClockRecord → Prop) `{!∀ x, Decision (P x)} l :
  NoDup (sources l) → NoDup (sources (filter P l)).
Proof.
  unfold sources. induction l as [|x l IH]; simpl; [done|].
  intros [Hx Hl]%NoDup_cons. rewrite filter_cons. case_decide; [|by apply IH].
  simpl. apply NoDup_cons. split; [|by apply IH].
  intros (y & E & [_ Hy]%list_elem_of_filter)%list_elem_of_fmap.
  apply Hx. rewrite E. by apply list_elem_of_fmap_2.
Qed.

Lemma filter_negb (f : ForeignClockRecord → bool) (l : list ForeignClockRecord) :
  filter (λ x, negb (f x) = true) l = filter (λ x, f x = false) l.
Proof. apply list_filter_iff. intros x. by rewrite negb_true_iff. Qed.

Lemma sources_snoc l x : sources (l ++ [x]) = sources l ++ [fr_source_port_identity x].
Proof. unfold sources. by rewrite fmap_app. Qed.

Lemma NoDup_snoc_source l x :
  NoDup (sources l) → fr_source_port_identity x ∉ sources l → NoDup (sources (l ++ [x])).
Proof.
  intros H1 H2. rewrite sources_snoc. apply NoDup_app. split; [done|]. split.
  - intros y Hy E%list_elem_of_singleton. by rewrite E in Hy.
  - apply NoDup_singleton.
Qed.

(** ** The growable store keeps its promises *)

Definition Vec_inv (v : ForeignClockRecordsVec) : Prop := NoDup (sources (fv_records v)).

#[export] Instance Vec_laws : ForeignClockRecordsLaws ForeignClockRecordsVec Vec_inv.
Proof.
  split; simpl.
  - done.
  - intros now r Hr. by apply sources_filter_NoDup.
  - intros now r Hr. apply filter_negb.
  - intros record [l] Hr Hin; unfold Vec_inv in *; simpl in *.
    unfold ForeignClockRecordsVec_remember; simpl.
    destruct (find_source_in _ l Hin) as (i & e & E). rewrite E.
    apply find_source_Some in E as [Hi He].
    destruct (ForeignClockRecord_update_from_eq record e He) as [s ->]; simpl.
    eexists. split; [done|]. simpl. rewrite (insert_updated record l i e Hr Hi He).
    by rewrite sources_map_updated.
  - intros record [l] Hr Hin; unfold Vec_inv in *; simpl in *.
    unfold ForeignClockRecordsVec_remember; simpl.
    destruct (find_source _ l) as [[i e]|] eqn:E.
    { apply find_source_Some in E as [Hi He]. destruct Hin. rewrite <- He.
      by apply list_elem_of_fmap_2, (list_elem_of_lookup_2 l i). }
    eexists. split; [done|]. simpl. split; [by apply NoDup_snoc_source|].
    intros x [Hx|Hx%list_elem_of_singleton]%elem_of_app; auto.
Qed.

(** ** The removal policy picks the worst record the candidate beats *)

Definition as_qualified (x : ForeignClockRecord) : QualifiedForeignClockRecord :=
  mkQualifiedForeignClockRecord (fr_foreign_clock_ds x) (fr_source_port_identity x).

Definition record_rank (x : ForeignClockRecord) : ClockDS * PortIdentity := qrank (as_qualified x).

(** What the scan knows after the records before index [i]. *)
Definition worst_ok (current : list ForeignClockRecord) (candidate : ForeignClockRecord)
    (receiver : PortIdentity) (i : nat) (worst : option nat) : Prop :=
  match worst with
  | None => ∀ j x, (j < i)%nat → current !! j = Some x →
      ForeignClockRecord_is_better_than candidate x receiver = false
  | Some w => ∃ y, current !! w = Some y ∧
      ForeignClockRecord_is_better_than candidate y receiver = true ∧
      (comparable receiver (as_qualified <$> current) →
       ∀ j x, (j < i)%nat → current !! j = Some x →
         ForeignClockRecord_is_better_than candidate x receiver = true →
         rank_cmp (record_rank x) (record_rank y) ≠ Gt)
  end.

Lemma worst_ok_skip current candidate receiver i worst record :
  worst_ok current candidate receiver i worst → current !! i = Some record →
  ForeignClockRecord_is_better_than candidate record receiver = false →
  worst_ok current candidate receiver (S i) worst.
Proof.
  intros Hw Hi Hb. destruct worst as [w|]; simpl in *.
  - destruct Hw as (y & Hy & Hby & Hmax). exists y. do 2 (split; [done|]).
    intros Hc j x Hj Hx Hbx. destruct (decide (j = i)) as [->|]; [congruence|].
    apply (Hmax Hc j x); [lia|done..].
  - intros j x Hj Hx. destruct (decide (j = i)) as [->|]; [congruence|].
    apply (Hw j x); [lia|done].
Qed.

Lemma candidate_index_from_ok current candidate receiver rest i worst :
  drop i current = rest → worst_ok current candidate receiver i worst →
  ∃ r, candidate_index_from current candidate receiver i rest worst = Done r ∧
    worst_ok current candidate receiver (length current) r.
Proof.
  revert i worst. induction rest as [|record rest IH]; intros i worst Hrest Hw; simpl.
  { exists worst. split; [done|]. apply (f_equal length) in Hrest.
    rewrite length_drop in Hrest; simpl in Hrest. destruct worst as [w|]; simpl in *.
    - destruct Hw as (y & Hy & Hby & Hmax). exists y. do 2 (split; [done|]).
      intros Hc j x Hj. apply (Hmax Hc). lia.
    - intros j x Hj. apply Hw. lia. }
  assert (current !! i = Some record) as Hi.
  { rewrite <- (Nat.add_0_r i), <- lookup_drop, Hrest. done. }
  assert (drop (S i) current = rest) as Hrest'.
  { rewrite <- (Nat.add_1_r i), <- drop_drop, Hrest. done. }
  destruct (ForeignClockRecord_is_better_than candidate record receiver) eqn:Eb; simpl;
    [|apply (IH (S i) worst Hrest'); by eapply worst_ok_skip].
  destruct worst as [w|]; simpl in *.
  - destruct Hw as (y & Hy & Hby & Hmax). rewrite Hy; simpl.
    destruct (ForeignClockRecord_is_better_than record y receiver) eqn:Ey; simpl;
      apply (IH (S i) _ Hrest'); simpl; [exists y | exists record]; do 2 (split; [done|]);
      intros Hc j x Hj Hx Hbx.
    all: assert (ForeignClockRecord_is_better_than record y receiver = true ↔
                 rank_cmp (record_rank record) (record_rank y) = Lt) as Hiff
        by (apply (better_rank receiver _ Hc (as_qualified record) (as_qualified y));
            eapply list_elem_of_fmap_2, list_elem_of_lookup_2; done).
    + destruct (decide (j = i)) as [->|]; [|apply (Hmax Hc j x); [lia|done..]].
      rewrite Hi in Hx. injection Hx as <-. by rewrite (proj1 Hiff Ey).
    + destruct (decide (j = i)) as [->|].
      { rewrite Hi in Hx. injection Hx as <-. by rewrite (cmp_refl (cmp := rank_cmp)). }
      apply (not_Gt_trans rank_cmp _ (record_rank y)); [apply (Hmax Hc j x); [lia|done..]|].
      rewrite (cmp_antisym (cmp := rank_cmp) (record_rank record)).
      rewrite Ey in Hiff. destruct (rank_cmp (record_rank record) _); simpl; [done| |done].
      discriminate (proj2 Hiff eq_refl).
  - apply (IH (S i) _ Hrest'). simpl. exists record. do 2 (split; [done|]).
    intros Hc j x Hj Hx Hbx. destruct (decide (j = i)) as [->|].
    + rewrite Hi in Hx. injection Hx as <-. by rewrite (cmp_refl (cmp := rank_cmp)).
    + exfalso. rewrite (Hw j x) in Hbx by (done || lia). done.
Qed.

Lemma candidate_index_ok current candidate receiver :
  ∃ r, RemovalPolicy_candidate_index current candidate receiver = Done r ∧
    worst_ok current candidate receiver (length current) r.
Proof. apply candidate_index_from_ok; [done|]. simpl. intros j x Hj. lia. Qed.

(** ** The bounded store keeps its promises *)

Section heapless_laws.
  Context (N : nat) (V : Type) `{HV : !HeaplessVec N V} `{HVL : !HeaplessVecLaws N V}.

Definition Heapless_inv (v : HeaplessForeignClockRecords V) : Prop :=
  NoDup (sources (hv_as_slice (hr_records v))).

(** Remembering a new source in a store with room appends it; in a full one it replaces the
    record the policy names, or is dropped. *)
Lemma Heapless_remember_new record v :
  Heapless_inv v →
  fr_source_port_identity record ∉ sources (hv_as_slice (hr_records v)) →
  ∃ v', HeaplessForeignClockRecords_remember N V record v = Done v' ∧
    hr_receiver v' = hr_receiver v ∧
    let l := hv_as_slice (hr_records v) in
    let l' := hv_as_slice (hr_records v') in
    if (length l <? N)%nat then l' = l ++ [record]
    else (l' = l ∧ Forall (λ x, ForeignClockRecord_is_better_than record x (hr_receiver v) = false) l)
         ∨ ∃ w, worst_ok l record (hr_receiver v) (length l) (Some w) ∧ l' = delete w l ++ [record].
Proof.
  intros Hv Hin. unfold HeaplessForeignClockRecords_remember.
  destruct (find_source _ _) as [[i e]|] eqn:E.
  { apply find_source_Some in E as [Hi He]. destruct Hin. rewrite <- He.
    by apply list_elem_of_fmap_2, (list_elem_of_lookup_2 _ i). }
  destruct (Nat.ltb_spec (length (hv_as_slice (hr_records v))) N) as [Hlen|Hlen].
  { destruct (hv_push_ok record (hr_records v) Hlen) as (r & -> & Hr).
    eexists. split; [reflexivity|]. done. }
  assert (length (hv_as_slice (hr_records v)) = N) as Hfull
    by (pose proof (hv_capacity (hr_records v)); lia).
  rewrite hv_push_full by done.
  destruct (candidate_index_ok (hv_as_slice (hr_records v)) record (hr_receiver v))
    as (r & -> & Hr); simpl. destruct r as [w|]; simpl.
  - pose proof Hr as (y & Hy & _). apply lookup_lt_Some in Hy.
    destruct (hv_remove_slice w (hr_records v) Hy) as (v1 & -> & Hv1); simpl.
    destruct (hv_push_ok record v1) as (v2 & -> & Hv2).
    { rewrite Hv1, length_delete by (by apply lookup_lt_is_Some_2). lia. }
    eexists. split; [reflexivity|]. split; [done|]. right. exists w. split; [done|].
    simpl. by rewrite Hv2, Hv1.
  - eexists. split; [reflexivity|]. split; [done|]. left. split; [done|].
    apply Forall_lookup. intros j x Hx. apply (Hr j x); [|done]. by apply lookup_lt_Some in Hx.
Qed.

#[export] Instance Heapless_laws :
  ForeignClockRecordsLaws (HeaplessForeignClockRecords V) Heapless_inv.
Proof.
  split; simpl.
  - done.
  - intros now r Hr. unfold Heapless_inv; simpl. rewrite hv_retain_slice.
    by apply sources_filter_NoDup.
  - intros now r Hr. rewrite hv_retain_slice. apply filter_negb.
  - intros record v Hr Hin; unfold Heapless_inv in *.
    unfold HeaplessForeignClockRecords_remember.
    destruct (find_source_in _ _ Hin) as (i & e & E). rewrite E.
    apply find_source_Some in E as [Hi He].
    destruct (ForeignClockRecord_update_from_eq record e He) as [s ->]; simpl.
    eexists. split; [done|]. simpl. rewrite hv_write_slice by (by apply lookup_lt_Some in Hi).
    rewrite (insert_updated record _ i e Hr Hi He). by rewrite sources_map_updated.
  - intros record v Hr Hin.
    destruct (Heapless_remember_new record v Hr Hin) as (v' & E & _ & H). exists v'.
    split; [done|]. unfold Heapless_inv in *. destruct (_ <? _)%nat.
    + rewrite H. split; [by apply NoDup_snoc_source|].
      intros x [Hx|Hx%list_elem_of_singleton]%elem_of_app; auto.
    + destruct H as [[-> _]|(w & _ & ->)]; [by auto|]. split.
      * apply NoDup_snoc_source.
        -- eapply sublist_NoDup; [exact Hr | apply fmap_sublist, sublist_delete].
        -- unfold sources. rewrite list_fmap_delete. by intros ?%list_elem_of_delete_inv.
      * intros x [Hx%list_elem_of_delete_inv|Hx%list_elem_of_singleton]%elem_of_app; auto.
Qed.
End heapless_laws.

(** ** The multi-port candidates *)

(** Snapshots ordered best first, the empty one last. *)
Definition snapshot_cmp (a b : BestForeignSnapshot) : comparison :=
  match a, b with
  | Qualified d1 s1 r1, Qualified d2 s2 r2 => port_rank_cmp (d1, s1, r1) (d2, s2, r2)
  | Qualified _ _ _, Empty => Lt
  | Empty, Qualified _ _ _ => Gt
  | Empty, Empty => Eq
  end.

#[export] Instance snapshot_comparator : Comparator snapshot_cmp.
Proof.
  split.
  - intros [d s r|]; simpl; [apply (cmp_refl (cmp := port_rank_cmp)) | done].
  - intros [d s r|] [d' s' r'|]; simpl; [apply (cmp_antisym (cmp := port_rank_cmp)) | done..].
  - intros [d s r|] [d' s' r'|] [d'' s'' r''|]; simpl; try done.
    apply (cmp_trans (cmp := port_rank_cmp)).
  - intros [d s r|] [d' s' r'|] [d'' s'' r''|]; simpl; try done.
    apply (cmp_eq_l (cmp := port_rank_cmp)).
Qed.

Definition snapshot_ds (s : BestForeignSnapshot) : option ClockDS :=
  match s with Qualified ds _ _ => Some ds | Empty => None end.

(** Snapshots the ports of one clock can compare. *)
Definition comparable_snapshots (l : list BestForeignSnapshot) : Prop :=
  (∀ d s r, Qualified d s r ∈ l → StepsRemoved_wf (cds_steps_removed d) ∧ r ≠ s) ∧
  (∀ x y d e, x ∈ l → y ∈ l → snapshot_ds x = Some d → snapshot_ds y = Some e →
     same_gm_consistent d e).

Lemma snapshot_better_rank l : comparable_snapshots l →
  ∀ x y, x ∈ Empty :: l → y ∈ Empty :: l →
    BestForeignSnapshot_is_better_or_better_by_topology x y = true ↔ snapshot_cmp x y = Lt.
Proof.
  intros [Hwf Hgm] [d s r|] [d' s' r'|] Hx Hy; simpl; try done.
  apply elem_of_cons in Hx as [|Hx]; [done|]. apply elem_of_cons in Hy as [|Hy]; [done|].
  destruct (Hwf _ _ _ Hx), (Hwf _ _ _ Hy).
  apply TopologyDS_better_port_rank; try done. exact (Hgm _ _ _ _ Hx Hy eq_refl eq_refl).
Qed.

Definition MultiPort_inv (m : MultiPortForeignCandidates) : Prop :=
  StronglySorted (λ a b, PortNumber_cmp a.1 b.1 = Lt) (mp_by_port m) ∧
  Forall (λ ka, ka.2 ≠ Empty) (mp_by_port m).

(** [BTreeMap::get]. *)
Fixpoint btree_get {A} (k : PortNumber) (m : list (PortNumber * A)) : option A :=
  match m with
  | [] => None
  | (k', a) :: m => if bool_decide (k = k') then Some a else btree_get k m
  end.

Lemma PortNumber_cmp_eq a b : PortNumber_cmp a b = Eq → a = b.
Proof. destruct a, b. unfold PortNumber_cmp; simpl. by intros ->%Z.compare_eq. Qed.

Lemma btree_insert_elem {A} k (a : A) m x :
  x ∈ btree_insert k a m → x = (k, a) ∨ x ∈ m.
Proof.
  induction m as [|[k' a'] m IH]; simpl.
  - intros ->%list_elem_of_singleton. by left.
  - destruct (PortNumber_cmp k k').
    + intros [->|H]%elem_of_cons; [by left | right; by right].
    + intros [->|H]%elem_of_cons; [by left | by right].
    + intros [->|H]%elem_of_cons; [right; left|]. destruct (IH H); [by left | right; by right].
Qed.

Lemma btree_insert_sorted {A} k (a : A) m :
  StronglySorted (λ a b, PortNumber_cmp a.1 b.1 = Lt) m →
  StronglySorted (λ a b, PortNumber_cmp a.1 b.1 = Lt) (btree_insert k a m).
Proof.
  induction 1 as [|[k' a'] m Hm IH Hlt]; simpl; [repeat constructor|].
  rewrite Forall_forall in Hlt; simpl in Hlt.
  destruct (PortNumber_cmp k k') eqn:E.
  - apply PortNumber_cmp_eq in E as ->. constructor; [done|]. by apply Forall_forall.
  - constructor; [constructor; [done|by apply Forall_forall]|]. constructor; [done|].
    apply Forall_forall. intros x Hx. simpl.
    apply (cmp_trans (cmp := PortNumber_cmp) k k' x.1); [done|by apply Hlt].
  - constructor; [done|]. apply Forall_forall. intros x [->|Hx]%btree_insert_elem; simpl.
    + by rewrite (cmp_antisym (cmp := PortNumber_cmp) k k'), E.
    + by apply Hlt.
Qed.

Lemma btree_get_insert {A} k k' (a : A) m :
  btree_get k' (btree_insert k a m) = if bool_decide (k' = k) then Some a else btree_get k' m.
Proof.
  induction m as [|[k1 a1] m IH]; simpl; [done|].
  destruct (PortNumber_cmp k k1) eqn:E; simpl.
  - apply PortNumber_cmp_eq in E as <-. by destruct (bool_decide (k' = k)).
  - by destruct (bool_decide (k' = k)).
  - rewrite IH. destruct (bool_decide (k' = k1)) eqn:E1; [|done].
    apply bool_decide_eq_true in E1 as ->.
    rewrite bool_decide_eq_false_2; [done|]. intros ->.
    by rewrite (cmp_refl (cmp := PortNumber_cmp)) in E.
Qed.

Lemma btree_get_remove {A} k k' (m : list (PortNumber * A)) :
  btree_get k' (btree_remove k m) = if bool_decide (k' = k) then None else btree_get k' m.
Proof.
  induction m as [|[k1 a1] m IH]; simpl; [by case_match|].
  destruct (decide (k1 = k)) as [->|Hk].
  - rewrite (bool_decide_eq_true_2 (k = k)), IH by done. by case_match.
  - rewrite (bool_decide_eq_false_2 (k1 = k)) by done. simpl. rewrite IH.
    destruct (decide (k' = k1)) as [->|]; [|by rewrite !(bool_decide_eq_false_2 (k' = k1))].
    by rewrite (bool_decide_eq_true_2 (k1 = k1)), (bool_decide_eq_false_2 (k1 = k)) by done.
Qed.

Lemma btree_remove_elem {A} k (m : list (PortNumber * A)) x : x ∈ btree_remove k m → x ∈ m.
Proof.
  induction m as [|[k' a] m IH]; simpl; [done|]. case_match; intros Hx; [right; by apply IH|].
  apply elem_of_cons in Hx as [->|Hx]; [left | right; by apply IH].
Qed.

Lemma MultiPort_remember_inv port s m :
  MultiPort_inv m → MultiPort_inv (MultiPortForeignCandidates_remember port s m).
Proof.
  intros [Hs Hq]. destruct s as [d sr r|]; split; simpl.
  - by apply btree_insert_sorted.
  - apply Forall_forall. rewrite Forall_forall in Hq.
    by intros x [->|Hx]%btree_insert_elem; [|apply Hq].
  - clear Hq. induction Hs as [|[k a] l Hl IH Hx]; simpl; [constructor|].
    case_match; [done|]. constructor; [done|].
    rewrite Forall_forall in *. intros y Hy%btree_remove_elem. by apply Hx.
  - apply Forall_forall. rewrite Forall_forall in Hq.
    intros x Hx%btree_remove_elem. by apply Hq.
Qed.

Lemma MultiPort_best_elem m : MultiPortForeignCandidates_best m ∈ Empty :: (snd <$> mp_by_port m).
Proof. apply fold_keep_elem. Qed.

Lemma MultiPort_best_least m :
  comparable_snapshots (snd <$> mp_by_port m) →
  let best := MultiPortForeignCandidates_best m in
  best ∈ Empty :: (snd <$> mp_by_port m) ∧
  ∀ y, y ∈ snd <$> mp_by_port m → snapshot_cmp best y ≠ Gt.
Proof.
  intros Hc. set (l := snd <$> mp_by_port m) in *.
  destruct (fold_keep_better snapshot_cmp BestForeignSnapshot_is_better_or_better_by_topology
    (Empty :: l) l Empty) as [H1 H2];
    [by apply snapshot_better_rank | left | intros; by right |].
  split; [exact H1|]. intros y Hy. apply H2. by right.
Qed.

(** ** A concrete bounded vector *)

Record bounded (N : nat) := mkBounded {
  bv_list : list ForeignClockRecord;
  bv_ok : (length bv_list <=? N)%nat = true;
}.
Arguments mkBounded {N}.
Arguments bv_list {N}.

Definition bounded_of (N : nat) (l : list ForeignClockRecord) : option (bounded N) :=
  match decide ((length l <=? N)%nat = true) with
  | left H => Some (mkBounded l H)
  | right _ => None
  end.

Definition bounded_or {N} (v : bounded N) (l : list ForeignClockRecord) : bounded N :=
  match bounded_of N l with Some v' => v' | None => v end.

#[export] Instance bounded_HeaplessVec (N : nat) : HeaplessVec N (bounded N) := {
  hv_new := mkBounded [] eq_refl;
  hv_as_slice := bv_list;
  hv_write i x v := bounded_or v (<[i:=x]> (bv_list v));
  hv_push x v := bounded_of N (bv_list v ++ [x]);
  hv_remove i v := if (i <? length (bv_list v))%nat then Done (bounded_or v (delete i (bv_list v)))
                   else Panic;
  hv_retain f v := bounded_or v (filter (λ x, f x = true) (bv_list v));
}.

Lemma bounded_of_ok N l : (length l <= N)%nat → ∃ v, bounded_of N l = Some v ∧ bv_list v = l.
Proof.
  intros H. unfold bounded_of. destruct (decide _) as [|n]; [by eexists|].
  by destruct n; apply Nat.leb_le.
Qed.

Lemma bounded_of_full N l : (N < length l)%nat → bounded_of N l = None.
Proof.
  intros H. unfold bounded_of. destruct (decide _) as [E|]; [|done].
  exfalso. apply Nat.leb_le in E. lia.
Qed.

Lemma bounded_or_list {N} (v : bounded N) l : (length l <= N)%nat → bv_list (bounded_or v l) = l.
Proof. intros H. unfold bounded_or. by destruct (bounded_of_ok N l H) as (v' & -> & ?). Qed.

Lemma bounded_length {N} (v : bounded N) : (length (bv_list v) <= N)%nat.
Proof. destruct v as [l H]; simpl. by apply Nat.leb_le. Qed.

#[export] Instance bounded_HeaplessVecLaws (N : nat) : HeaplessVecLaws N (bounded N).
Proof.
  split; simpl.
  - done.
  - apply bounded_length.
  - intros i x v H. apply bounded_or_list. rewrite length_insert. apply bounded_length.
  - intros x v H. apply bounded_of_ok. rewrite length_app; simpl. lia.
  - intros x v H. apply bounded_of_full. rewrite length_app; simpl. lia.
  - intros i v H. rewrite (proj2 (Nat.ltb_lt _ _) H). eexists. split; [done|].
    apply bounded_or_list. rewrite length_delete by (by apply lookup_lt_is_Some_2).
    pose proof (bounded_length v). lia.
  - intros f v. apply bounded_or_list. etrans; [apply length_filter | apply bounded_length].
Qed.

(** ** Properties *)

(** C34: A full bounded store with one record per source, given a new source, keeps its contents
    when the newcomer beats none of them, and otherwise replaces one of those it beats. Where the
    records are comparable, those of one grandmaster agreeing on what is compared before its
    identity, none of them sent by the receiving port itself and their step counts in range, it
    replaces the worst of those the newcomer beats. *)
Theorem heapless_full_evicts_worst (N : nat) (V : Type) `{!HeaplessVec N V}
    `{!HeaplessVecLaws N V} record (v : HeaplessForeignClockRecords V) :
  let l := hv_as_slice (hr_records v) in
  let beats x := ForeignClockRecord_is_better_than record x (hr_receiver v) in
  NoDup (sources l) → fr_source_port_identity record ∉ sources l → length l = N →
  ∃ v', HeaplessForeignClockRecords_remember N V record v = Done v' ∧
    ((Forall (λ x, beats x = false) l ∧ hv_as_slice (hr_records v') = l) ∨
     ∃ w worst, l !! w = Some worst ∧ beats worst = true ∧
       (comparable (hr_receiver v) (as_qualified <$> l) →
        ∀ x, x ∈ l → beats x = true → rank_cmp (record_rank x) (record_rank worst) ≠ Gt) ∧
       hv_as_slice (hr_records v') = delete w l ++ [record]).
Proof.
  intros l beats Hnd Hin Hlen.
  destruct (Heapless_remember_new N V record v Hnd Hin) as (v' & E & _ & H).
  exists v'. split; [done|]. cbv zeta in H. fold l in H. rewrite (proj2 (Nat.ltb_ge (length l) N)) in H by lia.
  destruct H as [[H1 H2]|(w & (y & Hy & Hb & Hmax) & H2)]; [by left|right].
  exists w, y. do 2 (split; [done|]). split; [|done].
  intros Hc x [j Hj]%list_elem_of_lookup Hx. apply (Hmax Hc j x); [|done..].
  by apply lookup_lt_Some in Hj.
Qed.

Definition w_receiver := sample_port 1 1.
Definition w_record (c p1 t : Z) : ForeignClockRecord :=
  ForeignClockRecord_new (sample_port c 1) (sample_ds c p1 1) (mkLogInterval 0) (mkInstant t).

Definition w_bounded : HeaplessForeignClockRecords (bounded 2) :=
  mkHeaplessForeignClockRecords (mkBounded (N := 2) [w_record 2 10 0; w_record 3 20 0] eq_refl)
    w_receiver.

Lemma w_bounded_comparable :
  comparable w_receiver (as_qualified <$> hv_as_slice (hr_records w_bounded)).
Proof.
  split.
  - intros x Hx. apply elem_of_cons in Hx as [->|Hx%list_elem_of_singleton]; [|subst x];
      (split; [unfold StepsRemoved_wf; simpl; lia | discriminate]).
  - intros x y Hx Hy. apply elem_of_cons in Hx as [->|Hx%list_elem_of_singleton]; [|subst x];
      (apply elem_of_cons in Hy as [->|Hy%list_elem_of_singleton]; [|subst y]);
      intros E; try reflexivity; discriminate E.
Qed.

Lemma heapless_full_evicts_worst_witness :
  ∃ v', HeaplessForeignClockRecords_remember 2 (bounded 2) (w_record 4 15 5) w_bounded = Done v' ∧
    ((Forall (λ x, ForeignClockRecord_is_better_than (w_record 4 15 5) x w_receiver = false)
        (hv_as_slice (hr_records w_bounded)) ∧ hv_as_slice (hr_records v') = hv_as_slice (hr_records w_bounded)) ∨
     ∃ w worst, hv_as_slice (hr_records w_bounded) !! w = Some worst ∧
       ForeignClockRecord_is_better_than (w_record 4 15 5) worst w_receiver = true ∧
       (∀ x, x ∈ hv_as_slice (hr_records w_bounded) →
          ForeignClockRecord_is_better_than (w_record 4 15 5) x w_receiver = true →
          rank_cmp (record_rank x) (record_rank worst) ≠ Gt) ∧
       hv_as_slice (hr_records v') = delete w (hv_as_slice (hr_records w_bounded)) ++ [w_record 4 15 5]).
Proof.
  destruct (heapless_full_evicts_worst 2 (bounded 2) (w_record 4 15 5) w_bounded)
    as (v' & E & [H|(w & worst & Hl & Hb & Hmax & Hd)]).
  - apply (bool_decide_unpack _); vm_compute; exact I.
  - apply (bool_decide_unpack _); vm_compute; exact I.
  - reflexivity.
  - exists v'. split; [exact E|]. by left.
  - exists v'. split; [exact E|]. right. exists w, worst. split_and!; [exact Hl | exact Hb | | exact Hd].
    apply Hmax, w_bounded_comparable.
Defined.

(** The operations a port performs on its store. *)
Inductive StoreOp := Remember (record : ForeignClockRecord) | PruneStale (now : Instant).

Definition store_step `{ForeignClockRecords R} (r : outcome R) (op : StoreOp) : outcome R :=
  r ← r;
  match op with
  | Remember record => fcr_remember record r
  | PruneStale now => Done (fcr_prune_stale now r).1
  end.

(** Under any sequence of insertions and prunings the bounded store never panics, never
    exceeds its capacity and never holds two records of one source. *)
Theorem heapless_store_safe (N : nat) (V : Type) `{!HeaplessVec N V} `{!HeaplessVecLaws N V}
    receiver (ops : list StoreOp) :
  ∃ v, fold_left store_step ops (Done (HeaplessForeignClockRecords_new N V receiver)) = Done v ∧
    NoDup (sources (fcr_iter v)) ∧ (length (fcr_iter v) <= N)%nat.
Proof.
  assert (∀ r, Heapless_inv N V r →
    ∃ v, fold_left store_step ops (Done r) = Done v ∧ Heapless_inv N V v) as Hrun.
  { induction ops as [|op ops IH]; intros r Hr; simpl; [by exists r|].
    destruct op as [record|now]; simpl.
    - destruct (decide (fr_source_port_identity record ∈ sources (fcr_iter r))) as [Hin|Hin].
      + destruct (fcr_remember_known record r Hr Hin) as (r' & E & Hr' & _). simpl in E. rewrite E.
        by apply IH.
      + destruct (fcr_remember_new record r Hr Hin) as (r' & E & Hr' & _). simpl in E. rewrite E.
        by apply IH.
    - apply IH. exact (fcr_prune_inv now r Hr). }
  destruct (Hrun (HeaplessForeignClockRecords_new N V receiver)) as (v & E & Hv).
  { unfold Heapless_inv; simpl. rewrite hv_new_slice. constructor. }
  exists v. split; [done|]. split; [exact Hv | apply hv_capacity].
Qed.

Lemma heapless_store_safe_witness :
  ∃ v, fold_left store_step [Remember (w_record 2 10 0); Remember (w_record 3 20 0);
         Remember (w_record 4 15 5); PruneStale (mkInstant 6)]
         (Done (HeaplessForeignClockRecords_new 2 (bounded 2) w_receiver)) = Done v ∧
    NoDup (sources (fcr_iter v)) ∧ (length (fcr_iter v) <= 2)%nat.
Proof. apply (heapless_store_safe 2 (bounded 2)). Defined.

(** The candidates after a sequence of reports, each port's latest one first in [reverse]. *)
Definition report_all (ports : list (PortNumber * BestForeignSnapshot))
    : MultiPortForeignCandidates :=
  fold_left (λ m p, MultiPortForeignCandidates_remember p.1 p.2 m) ports
    MultiPortForeignCandidates_new.

Lemma report_all_ok ports :
  MultiPort_inv (report_all ports) ∧
  ∀ p, default Empty (btree_get p (mp_by_port (report_all ports)))
       = default Empty (btree_get p (reverse ports)).
Proof.
  unfold report_all. induction ports as [|[p s] ports [Hm Hget]] using rev_ind.
  { split; [split; constructor | done]. }
  rewrite fold_left_app, reverse_app. simpl. split; [by apply MultiPort_remember_inv|].
  intros q. specialize (Hget q). destruct s as [d sr r|]; simpl.
  - rewrite btree_get_insert. by destruct (bool_decide (q = p)).
  - rewrite btree_get_remove. by destruct (bool_decide (q = p)).
Qed.

Lemma btree_get_elem {A} p (a : A) m : btree_get p m = Some a → a ∈ snd <$> m.
Proof.
  induction m as [|[k b] m IH]; simpl; [done|].
  case_match; [intros [= ->]; left | intros H1; right; by apply IH].
Qed.

(** The multi-port candidates hold each port's latest report, an Empty report removing the
    port's entry, and best is one of them that no other beats, Empty exactly when none is held. *)
Theorem multi_port_candidates (ports : list (PortNumber * BestForeignSnapshot)) :
  let m := report_all ports in
  comparable_snapshots (snd <$> mp_by_port m) →
  (∀ p, default Empty (btree_get p (mp_by_port m)) = default Empty (btree_get p (reverse ports))) ∧
  (MultiPortForeignCandidates_best m = Empty ↔ mp_by_port m = []) ∧
  (∀ p s, btree_get p (mp_by_port m) = Some s →
     snapshot_cmp (MultiPortForeignCandidates_best m) s ≠ Gt) ∧
  (MultiPortForeignCandidates_best m ≠ Empty →
     MultiPortForeignCandidates_best m ∈ snd <$> mp_by_port m).
Proof.
  intros m Hc. destruct (report_all_ok ports) as [[_ Hq] Hget]. fold m in Hq, Hget.
  destruct (MultiPort_best_least m Hc) as [H1 H2].
  split; [exact Hget|]. split; [split|split].
  - intros E. rewrite E in H2. destruct (mp_by_port m) as [|[k s] l]; [done|].
    apply Forall_cons in Hq as [Hs _]. destruct s as [d sr r|]; [|done].
    by destruct (H2 (Qualified d sr r)); [left|].
  - intros E. unfold MultiPortForeignCandidates_best. by rewrite E.
  - intros p s Hs. by apply H2, (btree_get_elem p).
  - intros Hne. by apply elem_of_cons in H1 as [|].
Qed.

Definition w_reports : list (PortNumber * BestForeignSnapshot) :=
  [(mkPortNumber 2, Qualified (sample_ds 3 20 1) (sample_port 3 1) (sample_port 1 2));
   (mkPortNumber 1, Qualified (sample_ds 2 10 1) (sample_port 2 1) (sample_port 1 1));
   (mkPortNumber 3, Empty)].

Lemma multi_port_candidates_witness :
  MultiPortForeignCandidates_best (report_all w_reports)
    = Qualified (sample_ds 2 10 1) (sample_port 2 1) (sample_port 1 1) ∧
  (∀ p, default Empty (btree_get p (mp_by_port (report_all w_reports)))
        = default Empty (btree_get p (reverse w_reports))).
Proof.
  split; [reflexivity|]. refine (proj1 (multi_port_candidates w_reports _)).
  change (snd <$> mp_by_port (report_all w_reports)) with
    [Qualified (sample_ds 2 10 1) (sample_port 2 1) (sample_port 1 1);
     Qualified (sample_ds 3 20 1) (sample_port 3 1) (sample_port 1 2)].
  split.
  - intros d s r H. apply elem_of_cons in H as [H|H%list_elem_of_singleton]; injection H as -> -> ->;
      (split; [unfold StepsRemoved_wf; simpl; lia | discriminate]).
  - intros x y d e Hx Hy. apply elem_of_cons in Hx as [->|Hx%list_elem_of_singleton]; [|subst x];
      (apply elem_of_cons in Hy as [->|Hy%list_elem_of_singleton]; [|subst y]);
      intros [= <-] [= <-] E; try reflexivity; discriminate E.
Defined.

(** ** Witnesses of the properties of Foreign.v, over the growable store *)

Definition w_qualified (c p1 t1 t2 : Z) : ForeignClockRecord :=
  updated (w_record c p1 t2) (w_record c p1 t1).

Definition w_best : BestForeignRecord ForeignClockRecordsVec :=
  mkBestForeignRecord w_receiver
    (mkForeignClockRecordsVec
       [w_qualified 3 20 0 1000; w_qualified 2 10 500 1500; w_record 4 5 1600]).

Lemma w_best_comparable :
  comparable w_receiver (omap ForeignClockRecord_qualified (fcr_iter (bf_foreign_clock_records w_best))).
Proof.
  change (omap ForeignClockRecord_qualified (fcr_iter (bf_foreign_clock_records w_best))) with
    [mkQualifiedForeignClockRecord (sample_ds 3 20 1) (sample_port 3 1);
     mkQualifiedForeignClockRecord (sample_ds 2 10 1) (sample_port 2 1)].
  split.
  - intros x Hx. apply elem_of_cons in Hx as [->|Hx%list_elem_of_singleton]; [|subst x];
      (split; [unfold StepsRemoved_wf; simpl; lia | discriminate]).
  - intros x y Hx Hy. apply elem_of_cons in Hx as [->|Hx%list_elem_of_singleton]; [|subst x];
      (apply elem_of_cons in Hy as [->|Hy%list_elem_of_singleton]; [|subst y]);
      intros E; try reflexivity; discriminate E.
Qed.

Lemma snapshot_is_best_witness :
  BestForeignRecord_snapshot w_best = Qualified (sample_ds 2 10 1) (sample_port 2 1) w_receiver ∧
  QualifiedForeignClockRecord_is_better_than
    (mkQualifiedForeignClockRecord (sample_ds 2 10 1) (sample_port 2 1))
    (mkQualifiedForeignClockRecord (sample_ds 3 20 1) (sample_port 3 1)) w_receiver = true.
Proof.
  split; [reflexivity|].
  apply (proj2 (proj2 (snapshot_is_best w_best)) w_best_comparable (sample_ds 2 10 1) (sample_port 2 1)
    w_receiver (mkQualifiedForeignClockRecord (sample_ds 3 20 1) (sample_port 3 1)) eq_refl);
    [left | discriminate].
Defined.

Lemma w_best_inv : Vec_inv (bf_foreign_clock_records w_best).
Proof. apply (bool_decide_unpack _); vm_compute; exact I. Qed.

Lemma consider_drops_stale_witness :
  ∃ b', BestForeignRecord_consider (sample_port 4 1) (sample_ds 4 5 1) (mkLogInterval 0)
          (mkInstant 10000000000) w_best = Done b' ∧
    Vec_inv (bf_foreign_clock_records b') ∧
    Forall (λ x, i_nanos (sw_last (fr_qualification x)) <= 10000000000 ∧
                 10000000000 - i_nanos (sw_last (fr_qualification x))
                 <= d_nanos (sw_window (fr_qualification x)))
      (fcr_iter (bf_foreign_clock_records b')).
Proof.
  apply (consider_drops_stale Vec_inv (sample_port 4 1) (sample_ds 4 5 1) (mkLogInterval 0)
    (mkInstant 10000000000) w_best w_best_inv).
Defined.

Lemma qualified_after_two_announces_witness :
  ∃ b', BestForeignRecord_consider (sample_port 4 1) (sample_ds 4 6 1) (mkLogInterval 0)
          (mkInstant 1000001600) w_best = Done b' ∧
    sample_port 4 1 ∈ sources (fcr_iter (bf_foreign_clock_records b')) ∧
    ∀ x, x ∈ fcr_iter (bf_foreign_clock_records b') → fr_source_port_identity x = sample_port 4 1 →
      fr_foreign_clock_ds x = sample_ds 4 6 1 ∧ is_Some (ForeignClockRecord_qualified x).
Proof.
  destruct (qualified_after_two_announces Vec_inv (sample_port 4 1) (sample_ds 4 6 1) (mkLogInterval 0)
    (mkInstant 1000001600) w_best w_best_inv) as (b' & E & Hk & Hx).
  exists b'. split; [exact E|]. split; [apply (Hk (w_record 4 5 1600)); [|reflexivity..]; do 2 right; left|].
  intros x Hin Es. specialize (Hx x Hin). rewrite decide_True in Hx by exact Es.
  destruct Hx as [Hd Hq]. split; [exact Hd|]. apply Hq. exists (w_record 4 5 1600).
  split; [do 2 right; left|]. split; [reflexivity|]. split; [reflexivity|]. vm_compute. discriminate.
Defined.
