(* ===== verification/RecordMap.v ===== *)
(** * The record stores as a finite map (crates/rptp/src/foreign.rs, infra.rs, heapless.rs)

    What a port keeps of the masters it hears, said without lists: a map from port identities to
    records. The growable store implements it, and so does the bounded one as long as it has room;
    which of two stores a port has then makes no difference to the master it prefers. *)

From stdpp Require Import gmap.
From S2P Require Import Prelude Time Clock PortId DataSet Foreign Stores.

Open Scope Z_scope.

#[export] Instance PortIdentity_countable : Countable PortIdentity.
Proof.
  refine (inj_countable' (λ p, (ci_id (pi_clock_identity p), pn_value (pi_port_number p)))
            (λ x, mkPortIdentity (mkClockIdentity x.1) (mkPortNumber x.2)) _).
  by intros [[] []].
Defined.

(** ** The map *)

Abbreviation Records := (gmap PortIdentity ForeignClockRecord).

Definition records_map (l : list ForeignClockRecord) : Records :=
  list_to_map ((λ x, (fr_source_port_identity x, x)) <$> l).

(** An Announce as [BestForeignRecord::consider] gets it. *)
Record Heard := mkHeard {
  hd_source : PortIdentity;
  hd_dataset : ClockDS;
  hd_interval : LogInterval;
  hd_now : Instant;
}.

Definition heard_record (h : Heard) : ForeignClockRecord :=
  ForeignClockRecord_new (hd_source h) (hd_dataset h) (hd_interval h) (hd_now h).

(** Masters unheard for their window are forgotten, then the sender's record is made or updated. *)
Definition unforgotten (now : Instant) (m : Records) : Records :=
  filter (λ kx, ForeignClockRecord_is_stale now kx.2 = false) m.
Definition map_consider (h : Heard) (m : Records) : Records :=
  let fresh := unforgotten (hd_now h) m in
  <[hd_source h := from_option (updated (heard_record h)) (heard_record h) (fresh !! hd_source h)]> fresh.

Definition map_considers (hs : list Heard) (m : Records) : Records := fold_left (flip map_consider) hs m.

(** There is room for the new sources among the Announces. *)
Fixpoint fits (room : nat → Prop) (hs : list Heard) (m : Records) : Prop :=
  match hs with
  | [] => True
  | h :: hs =>
      let fresh := unforgotten (hd_now h) m in
      (fresh !! hd_source h = None → room (size fresh)) ∧ fits room hs (map_consider h m)
  end.

(** What the port does with the Announces. *)
Fixpoint considers `{ForeignClockRecords R} (hs : list Heard) (b : BestForeignRecord R)
    : outcome (BestForeignRecord R) :=
  match hs with
  | [] => Done b
  | h :: hs =>
      b ← BestForeignRecord_consider (hd_source h) (hd_dataset h) (hd_interval h) (hd_now h) b;
      considers hs b
  end.

(** ** Lists of records with one record for each source *)

Lemma records_keys l : ((λ x, (fr_source_port_identity x, x)) <$> l).*1 = sources l.
Proof. unfold sources. rewrite <- list_fmap_compose. by apply list_fmap_ext. Qed.

Lemma records_map_lookup l s x : NoDup (sources l) →
  records_map l !! s = Some x ↔ x ∈ l ∧ fr_source_port_identity x = s.
Proof.
  intros Hl. unfold records_map. rewrite <- elem_of_list_to_map by by rewrite records_keys.
  rewrite list_elem_of_fmap. split.
  - by intros (y & [= -> ->] & Hy).
  - intros [Hx <-]. by exists x.
Qed.

Lemma records_map_None l s : records_map l !! s = None ↔ s ∉ sources l.
Proof. unfold records_map. by rewrite <- not_elem_of_list_to_map, records_keys. Qed.

Lemma records_map_size l : NoDup (sources l) → size (records_map l) = length l.
Proof.
  intros Hl. unfold records_map. rewrite map_size_list_to_map by by rewrite records_keys.
  by rewrite length_fmap.
Qed.

Lemma records_map_filter now l : NoDup (sources l) →
  records_map (filter (λ x, ForeignClockRecord_is_stale now x = false) l) = unforgotten now (records_map l).
Proof.
  intros Hl. apply map_eq. intros s. apply option_eq. intros x. unfold unforgotten.
  rewrite map_lookup_filter_Some, !records_map_lookup, list_elem_of_filter by
    (done || by apply sources_filter_NoDup). simpl. tauto.
Qed.

Lemma records_map_snoc l x : fr_source_port_identity x ∉ sources l →
  records_map (l ++ [x]) = <[fr_source_port_identity x := x]> (records_map l).
Proof.
  intros Hx. unfold records_map. rewrite fmap_app, list_to_map_app. simpl. rewrite insert_empty.
  symmetry. rewrite insert_union_singleton_l. apply map_union_comm.
  apply map_disjoint_singleton_l. by apply records_map_None.
Qed.

Lemma records_map_update record l : NoDup (sources l) →
  fr_source_port_identity record ∈ sources l →
  records_map ((λ x, if ForeignClockRecord_same_source_as x (fr_source_port_identity record)
                     then updated record x else x) <$> l)
  = <[fr_source_port_identity record :=
        from_option (updated record) record (records_map l !! fr_source_port_identity record)]> (records_map l).
Proof.
  intros Hl (e & Ee & He)%list_elem_of_fmap.
  assert (records_map l !! fr_source_port_identity record = Some e) as -> by by apply records_map_lookup.
  apply map_eq. intros s. apply option_eq. intros x.
  rewrite records_map_lookup, lookup_insert_Some, list_elem_of_fmap, records_map_lookup by
    (done || by rewrite sources_map_updated). simpl. split.
  - intros [(y & -> & Hy) <-]. destruct (ForeignClockRecord_same_source_as y _) eqn:Ey.
    + left. apply same_source_true in Ey. simpl. split; [done|]. f_equal.
      assert (Some y = Some e) as [= ->]; [|done].
      rewrite <- (proj2 (records_map_lookup l (fr_source_port_identity record) y Hl)) by done.
      by apply records_map_lookup.
    + right. split; [|done]. intros E. rewrite (proj2 (same_source_true _ _) (eq_sym E)) in Ey. done.
  - intros [[<- <-]|(Hne & Hx & <-)].
    + split; [|done]. exists e. by rewrite (proj2 (same_source_true e _) (eq_sym Ee)).
    + split; [|done]. exists x. split; [|done].
      destruct (ForeignClockRecord_same_source_as x _) eqn:E; [|done].
      by apply same_source_true in E.
Qed.

(** ** Stores that keep every record they have room for *)

Class KeepsRecords (R : Type) `{!ForeignClockRecords R} (inv : R → Prop) (room : nat → Prop) : Prop :=
  kr_appends : ∀ record r, inv r → fr_source_port_identity record ∉ sources (fcr_iter r) →
    room (length (fcr_iter r)) →
    ∃ r', fcr_remember record r = Done r' ∧ inv r' ∧ fcr_iter r' = fcr_iter r ++ [record].

#[export] Instance Vec_keeps : KeepsRecords ForeignClockRecordsVec Vec_inv (λ _, True).
Proof.
  intros record [l] Hl Hs _. simpl in *. unfold ForeignClockRecordsVec_remember. simpl.
  destruct (find_source _ l) as [[i e]|] eqn:E.
  { apply find_source_Some in E as [Hi He]. destruct Hs. rewrite <- He.
    by apply list_elem_of_fmap_2, (list_elem_of_lookup_2 l i). }
  eexists. split; [done|]. by split; [apply NoDup_snoc_source|].
Qed.

#[export] Instance Heapless_keeps (N : nat) (V : Type) `{HV : !HeaplessVec N V} `{!HeaplessVecLaws N V} :
  KeepsRecords (HeaplessForeignClockRecords V) (Heapless_inv N V) (λ n, (n < N)%nat).
Proof.
  intros record v Hv Hs Hroom. destruct (Heapless_remember_new N V record v Hv Hs) as (v' & E & _ & H).
  exists v'. simpl in *. rewrite (proj2 (Nat.ltb_lt _ _) Hroom) in H. split; [exact E|]. split; [|exact H].
  unfold Heapless_inv. rewrite H. by apply NoDup_snoc_source.
Qed.

Section store.
  Context {R : Type} `{HR : !ForeignClockRecords R} (inv : R → Prop) (room : nat → Prop).
  Context `{HL : !ForeignClockRecordsLaws R inv} `{HK : !KeepsRecords R inv room}.

(** The store's content is the map. *)
Definition implements (b : BestForeignRecord R) (m : Records) : Prop :=
  inv (bf_foreign_clock_records b) ∧ records_map (fcr_iter (bf_foreign_clock_records b)) = m.

Lemma consider_implements h b m : implements b m →
  (unforgotten (hd_now h) m !! hd_source h = None → room (size (unforgotten (hd_now h) m))) →
  ∃ b', BestForeignRecord_consider (hd_source h) (hd_dataset h) (hd_interval h) (hd_now h) b = Done b' ∧
    bf_receiver b' = bf_receiver b ∧ implements b' (map_consider h m).
Proof.
  intros [Hb <-] Hroom. unfold BestForeignRecord_consider.
  pose proof (fcr_prune_inv (hd_now h) _ Hb) as Hp. pose proof (fcr_prune_iter (hd_now h) _ Hb) as Hi.
  pose proof (fcr_inv_sources _ Hb) as Hnd. destruct (fcr_prune_stale _ _) as [r ch]. cbn [fst] in *.
  unfold map_consider. rewrite <- records_map_filter, <- Hi in Hroom |- * by done.
  pose proof (fcr_inv_sources _ Hp) as Hnd'. fold (heard_record h).
  change (hd_source h) with (fr_source_port_identity (heard_record h)) in *.
  destruct (decide (fr_source_port_identity (heard_record h) ∈ sources (fcr_iter r))) as [Hin|Hin].
  - destruct (fcr_remember_known _ r Hp Hin) as (r' & -> & Hr' & Hit).
    eexists. split; [reflexivity|]. split; [done|]. split; [done|].
    cbn [bf_foreign_clock_records]. rewrite Hit. by apply records_map_update.
  - pose proof (proj2 (records_map_None _ _) Hin) as Hnone.
    specialize (Hroom Hnone). rewrite records_map_size in Hroom by done.
    destruct (kr_appends (heard_record h) r Hp Hin Hroom) as (r' & -> & Hr' & Hit).
    eexists. split; [reflexivity|]. split; [done|]. split; [done|].
    cbn [bf_foreign_clock_records]. rewrite Hit, Hnone. by apply records_map_snoc.
Qed.

Lemma considers_implement hs : ∀ b m, implements b m → fits room hs m →
  ∃ b', considers hs b = Done b' ∧ bf_receiver b' = bf_receiver b ∧ implements b' (map_considers hs m).
Proof.
  induction hs as [|h hs IH]; intros b m Hb Hfits; [by exists b|]. destruct Hfits as [Hroom Hfits].
  destruct (consider_implements h b m Hb Hroom) as (b1 & E1 & Er & Hb1).
  destruct (IH b1 (map_consider h m) Hb1 Hfits) as (b' & E & Er' & Hb').
  exists b'. simpl. rewrite E1, outcome_bind_Done. split; [exact E|]. split; [congruence | exact Hb'].
Qed.
End store.

(** A growable store has room for everything. *)
Lemma fits_always hs m : fits (λ _, True) hs m.
Proof. revert m. induction hs as [|h hs IH]; intros m; [done|]. by split; [|apply IH]. Qed.

(** ** The preferred master *)

(** The qualified candidates of equal content are the same, in some order. *)
Lemma same_map_perm l l' : NoDup (sources l) → NoDup (sources l') → records_map l = records_map l' →
  l ≡ₚ l'.
Proof.
  intros Hl Hl' E. apply NoDup_Permutation; [by eapply NoDup_fmap_1 | by eapply NoDup_fmap_1|].
  intros x. split; intros Hx.
  - apply (records_map_lookup l' (fr_source_port_identity x) x); [done|].
    rewrite <- E. by apply records_map_lookup.
  - apply (records_map_lookup l (fr_source_port_identity x) x); [done|].
    rewrite E. by apply records_map_lookup.
Qed.

Lemma qualified_source x q : ForeignClockRecord_qualified x = Some q →
  qr_source_port_identity q = fr_source_port_identity x ∧ qr_dataset q = fr_foreign_clock_ds x.
Proof. unfold ForeignClockRecord_qualified. case_match; [|done]. by intros [= <-]. Qed.

Lemma best_of_perm receiver l l' : NoDup (sources l) → l ≡ₚ l' →
  comparable receiver (omap ForeignClockRecord_qualified l) → best_of receiver l = best_of receiver l'.
Proof.
  intros Hnd Hp Hc. pose proof (omap_Permutation ForeignClockRecord_qualified _ _ Hp) as Hq.
  destruct (omap ForeignClockRecord_qualified l) as [|q qs] eqn:E.
  - symmetry in Hq. apply Permutation_nil_r in Hq.
    rewrite (proj2 (best_of_Empty receiver l)), (proj2 (best_of_Empty receiver l')); done.
  - assert (comparable receiver (omap ForeignClockRecord_qualified l')) as Hc'.
    { destruct Hc as [H1 H2]. split; intros *; rewrite <- !Hq; auto. }
    assert (q ∈ omap ForeignClockRecord_qualified l) as Hin by (rewrite E; left).
    rewrite <- E in *.
    destruct (best_of_least receiver l q Hc Hin) as (a & -> & Ha & Hmin).
    rewrite Hq in Hin. destruct (best_of_least receiver l' q Hc' Hin) as (b & -> & Hb & Hmin').
    rewrite <- Hq in Hb. f_equal.
    assert (rank_cmp (qrank a) (qrank b) = Eq) as Es%rank_Eq_source.
    { pose proof (Hmin b Hb) as H1. rewrite Hq in Ha. pose proof (Hmin' a Ha) as H2.
      rewrite (cmp_antisym (cmp := rank_cmp)) in H2. by destruct (rank_cmp (qrank a) (qrank b)). }
    apply list_elem_of_omap in Ha as (x & Hx & Ex), Hb as (y & Hy & Ey).
    pose proof (qualified_source _ _ Ex) as [S1 D1]. pose proof (qualified_source _ _ Ey) as [S2 D2].
    assert (Some x = Some y) as [= ->]; [|congruence].
    rewrite <- (proj2 (records_map_lookup l (fr_source_port_identity x) x Hnd)) by done.
    apply records_map_lookup; [done|]. split; [done|]. congruence.
Qed.

(** ** Property *)

(** C9: The record stores implement a finite map. Whatever Announces a port hears, its growable
    store never panics and holds, as a map from port identities, what forgetting the masters
    unheard for their window and then adding or updating the sender's record makes of the empty
    map. The bounded store of any capacity holds the same as long as it has room for each new
    sender, and then prefers the same master, when the candidates can be ranked. *)
Theorem stores_implement_map receiver hs :
  ∃ v, considers hs (mkBestForeignRecord receiver ForeignClockRecordsVec_new) = Done v ∧
    records_map (fcr_iter (bf_foreign_clock_records v)) = map_considers hs ∅ ∧
    ∀ N V (HV : HeaplessVec N V), HeaplessVecLaws N V → fits (λ n, (n < N)%nat) hs ∅ →
      ∃ h, considers hs (mkBestForeignRecord receiver (HeaplessForeignClockRecords_new N V receiver))
           = Done h ∧
        records_map (fcr_iter (bf_foreign_clock_records h)) = map_considers hs ∅ ∧
        (comparable receiver (omap ForeignClockRecord_qualified (fcr_iter (bf_foreign_clock_records v))) →
         BestForeignRecord_snapshot v = BestForeignRecord_snapshot h).
Proof.
  destruct (considers_implement Vec_inv (λ _, True) hs
    (mkBestForeignRecord receiver ForeignClockRecordsVec_new) ∅) as (v & Ev & Rv & Hv & Mv);
    [by split; [constructor|] | apply fits_always|].
  exists v. split; [exact Ev|]. split; [exact Mv|]. intros N V HV HVL Hfits.
  destruct (considers_implement (Heapless_inv N V) (λ n, (n < N)%nat) hs
    (mkBestForeignRecord receiver (HeaplessForeignClockRecords_new N V receiver)) ∅)
    as (h & Eh & Rh & Hh & Mh); [|exact Hfits|].
  { split; [unfold Heapless_inv|]; simpl; rewrite hv_new_slice; [constructor | done]. }
  exists h. split; [exact Eh|]. split; [exact Mh|]. intros Hc.
  pose proof (fcr_inv_sources _ Hv) as Nv. pose proof (fcr_inv_sources _ Hh) as Nh.
  unfold BestForeignRecord_snapshot. rewrite Rv, Rh. simpl. apply best_of_perm; [done| |done].
  apply same_map_perm; [done..|]. exact (eq_trans Mv (eq_sym Mh)).
Qed.

(** Two masters and a bounded store for two: the second is heard again within its window. *)
Definition w_heard : list Heard :=
  (λ '(c, p1, t), mkHeard (sample_port c 1) (sample_ds c p1 1) (mkLogInterval 0) (mkInstant t))
  <$> [(2, 10, 0); (3, 5, 100000000); (3, 5, 900000000)].

Example w_heard_fits : fits (λ n, (n < 2)%nat) w_heard ∅.
Proof. vm_compute. repeat split; intros; first [lia | discriminate]. Qed.

Lemma stores_implement_map_witness :
  ∃ h, considers w_heard (mkBestForeignRecord w_receiver (HeaplessForeignClockRecords_new 2 (bounded 2) w_receiver))
       = Done h ∧
    records_map (fcr_iter (bf_foreign_clock_records h)) = map_considers w_heard ∅ ∧
    size (map_considers w_heard ∅) = 2%nat.
Proof.
  destruct (stores_implement_map w_receiver w_heard) as (v & _ & _ & H).
  destruct (H 2%nat (bounded 2) _ _ w_heard_fits) as (h & Eh & Mh & _).
  exists h. split; [exact Eh|]. split; [exact Mh|]. vm_compute. reflexivity.
Defined.
