(* ===== verification/Wire.v ===== *)
(** * Wire format (crates/rptp/src/wire.rs)

    Header validation and field accessors over a received byte buffer, the payload parsers,
    and the typestate chain of buffers ([MessageBuffer] to [FinalizedBuffer]) that serializes a
    message. Slices that the source indexes unchecked are [outcome]s; parse failures are
    [Error] values. [MessageFlags] is generated by the third-party [bitflags!] macro: a class
    of the operations used, with their documented laws. *)

From S2P Require Import Prelude Errors Time Clock PortId DataSet.

Open Scope Z_scope.

(** ** MessageFlags *)

Definition TWO_STEP_bits : Z := 512.
Definition PTP_TIMESCALE_bits : Z := 8.

(** [mf_const] is a flag declared in the [bitflags!] block. *)
Class MessageFlagsOps (F : Type) := {
  mf_empty : F;
  mf_const : Z → F;
  mf_bits : F → Z;
  mf_from_bits_truncate : Z → F;
  mf_contains : F → F → bool;
}.

Definition MessageFlags_TWO_STEP `{MessageFlagsOps F} : F := mf_const TWO_STEP_bits.
Definition MessageFlags_PTP_TIMESCALE `{MessageFlagsOps F} : F := mf_const PTP_TIMESCALE_bits.

Class MessageFlagsLaws (F : Type) `{!MessageFlagsOps F} : Prop := {
  mf_empty_bits : mf_bits mf_empty = 0;
  mf_TWO_STEP_bits : mf_bits MessageFlags_TWO_STEP = TWO_STEP_bits;
  mf_PTP_TIMESCALE_bits : mf_bits MessageFlags_PTP_TIMESCALE = PTP_TIMESCALE_bits;
  mf_truncate_bits : ∀ b, 0 <= b < 2 ^ 16 →
    mf_bits (mf_from_bits_truncate b) = Z.land b (Z.lor TWO_STEP_bits PTP_TIMESCALE_bits);
  mf_contains_bits : ∀ f g, mf_contains f g = (Z.land (mf_bits f) (mf_bits g) =? mf_bits g);
}.

(** ** Message types *)

Inductive MessageType := MT_Sync | MT_DelayRequest | MT_FollowUp | MT_DelayResponse | MT_Announce.

Definition MessageType_to_nibble (self : MessageType) : Z :=
  Z.land
    match self with
    | MT_Sync => 0 | MT_DelayRequest => 1 | MT_FollowUp => 8 | MT_DelayResponse => 9
    | MT_Announce => 11
    end 15.

Definition MessageType_from_nibble (n : Z) : PR MessageType :=
  if n =? 0 then mret MT_Sync
  else if n =? 1 then mret MT_DelayRequest
  else if n =? 8 then mret MT_FollowUp
  else if n =? 9 then mret MT_DelayResponse
  else if n =? 11 then mret MT_Announce
  else throw (Protocol (UnknownMessageType n)).

Inductive ControlField :=
| CF_Sync | CF_DelayRequest | CF_FollowUp | CF_DelayResponse | CF_Management | CF_Other.

Definition ControlField_as_u8 (self : ControlField) : Z :=
  match self with
  | CF_Sync => 0 | CF_DelayRequest => 1 | CF_FollowUp => 2 | CF_DelayResponse => 3
  | CF_Management => 4 | CF_Other => 5
  end.

(** ** Sequence identifiers (message.rs, used by the header) *)

Record SequenceId := mkSequenceId { seq_id : Z }.

#[export] Instance SequenceId_eq_dec : EqDecision SequenceId.
Proof. solve_decision. Defined.

Definition SequenceId_new (id : Z) : SequenceId := mkSequenceId id.
Definition SequenceId_next (self : SequenceId) : SequenceId :=
  mkSequenceId (u_wrap 16 (seq_id self + 1)).
Definition SequenceId_to_be_bytes (self : SequenceId) : list Z := to_be 2 (seq_id self).

(** ** Header validation *)

Definition PTP_HEADER_LEN : nat := 34.
Definition PTP_PAYLOAD_OFFSET : nat := 34.
Definition PtpVersion_V2 : Z := 2.
Definition PtpVersion_as_u8 (v : Z) : Z := Z.land v 15.

(** [<&[u8] as TryInto<[u8; n]>>::try_into]. *)
Definition try_into (n : nat) (l : list Z) : option (list Z) :=
  if (length l =? n)%nat then Some l else None.

Definition length_checked_v2 (buf : list Z) : PR (list Z) :=
  if (length buf <? PTP_HEADER_LEN)%nat then throw (Parse (HeaderTooShort (length buf)))
  else
    b ← lift_outcome (index 1 buf);
    let v := Z.land b 15 in
    if negb (v =? PtpVersion_V2) then
      throw (Protocol (UnsupportedPtpVersion (PtpVersion_as_u8 v)))
    else
      s ← lift_outcome (index_range 2 4 buf);
      bytes ← ok_or (try_into 2 s) (Parse (PayloadTooShort "PTP length header" 2 (length s)));
      let expected := from_be bytes in
      let found := Z.of_nat (length buf) in
      if negb (expected =? found) then throw (Parse (LengthMismatch expected found))
      else mret buf.

(** ** Header accessors *)

Definition MessageHeader_message_type (buf : list Z) : PR MessageType :=
  b ← lift_outcome (index 0 buf);
  MessageType_from_nibble (Z.land b 15).

Definition MessageHeader_domain_number (buf : list Z) : outcome DomainNumber :=
  b ← index 4 buf; Done (DomainNumber_new b).

Definition MessageHeader_sequence_id (buf : list Z) : outcome SequenceId :=
  s ← index_range 30 32 buf;
  bytes ← unwrap (try_into 2 s);
  Done (SequenceId_new (from_be bytes)).

Definition MessageHeader_flags `{MessageFlagsOps F} (buf : list Z) : outcome F :=
  s ← index_range 6 8 buf;
  bytes ← unwrap (try_into 2 s);
  Done (mf_from_bits_truncate (from_be bytes)).

Definition MessageHeader_source_port_identity (buf : list Z) : outcome PortIdentity :=
  s ← index_range 20 30 buf;
  bytes ← unwrap (try_into 10 s);
  PortIdentity_from_wire bytes.

Definition MessageHeader_log_message_interval (buf : list Z) : outcome LogMessageInterval :=
  b ← index 33 buf; Done (LogMessageInterval_new (as_i 8 b)).

Definition MessageHeader_payload (buf : list Z) : outcome (list Z) :=
  index_range PTP_PAYLOAD_OFFSET (length buf) buf.

(** ** Payloads *)

Definition AnnouncePayload_foreign_clock_ds (payload : list Z) : PR ClockDS :=
  fc_bytes ← ok_or (get_range 13 29 payload)
    (Parse (PayloadTooShort "Announce.foreign_clock_ds" 16 (length payload - 13)));
  bytes ← ok_or (try_into 16 fc_bytes)
    (Parse (PayloadTooShort "Announce.foreign_clock_ds" 16 (length fc_bytes)));
  lift_outcome (ClockDS_from_wire bytes).

Definition WireTimeStamp_timestamp (buf : list Z) : PR TimeStamp :=
  s ← lift_outcome (index_range 0 2 buf);
  msb ← ok_or (try_into 2 s) (Parse (PayloadTooShort "WireTimeStamp.seconds_msb" 2 2));
  s ← lift_outcome (index_range 2 6 buf);
  lsb ← ok_or (try_into 4 s) (Parse (PayloadTooShort "WireTimeStamp.seconds_lsb" 4 4));
  let seconds := Z.lor (as_u 64 (Z.shiftl (from_be msb) 32)) (from_be lsb) in
  s ← lift_outcome (index_range 6 10 buf);
  n ← ok_or (try_into 4 s) (Parse (PayloadTooShort "WireTimeStamp.nanos" 4 4));
  let nanos := from_be n in
  if nanos <? 1000000000 then lift_outcome (TimeStamp_new seconds nanos)
  else throw (Protocol (InvalidTimestamp nanos)).

(** The three timestamp payloads differ in the field name their errors carry. *)
Definition payload_timestamp (field : string) (payload : list Z) : PR TimeStamp :=
  ts_bytes ← ok_or (get_range 0 10 payload) (Parse (PayloadTooShort field 10 (length payload)));
  bytes ← ok_or (try_into 10 ts_bytes) (Parse (PayloadTooShort field 10 (length ts_bytes)));
  WireTimeStamp_timestamp bytes.

Definition SyncPayload_origin_timestamp : list Z → PR TimeStamp :=
  payload_timestamp "Sync.origin_timestamp".
Definition FollowUpPayload_precise_origin_timestamp : list Z → PR TimeStamp :=
  payload_timestamp "FollowUp.precise_origin_timestamp".
Definition DelayResponsePayload_receive_timestamp : list Z → PR TimeStamp :=
  payload_timestamp "DelayResponse.receive_timestamp".

Definition DelayResponsePayload_requesting_port_identity (payload : list Z) : PR PortIdentity :=
  pi_bytes ← ok_or (get_range 10 20 payload)
    (Parse (PayloadTooShort "DelayResponse.requesting_port_identity" 10 (length payload - 10)));
  bytes ← ok_or (try_into 10 pi_bytes)
    (Parse (PayloadTooShort "DelayResponse.requesting_port_identity" 10 (length pi_bytes)));
  lift_outcome (PortIdentity_from_wire bytes).

(** ** Serialization *)

Definition TransportSpecific_to_wire : Z := 0.

Definition MessageBuffer_new (version : Z) (domain_number : DomainNumber)
    (source_port_identity : PortIdentity) : outcome (list Z) :=
  let buf := replicate 2048 0 in
  buf ← set_index 0 (as_u 8 (Z.shiftl (Z.land TransportSpecific_to_wire 15) 4)) buf;
  buf ← set_index 1 (Z.land (PtpVersion_as_u8 version) 15) buf;
  buf ← set_index 4 (DomainNumber_as_u8 domain_number) buf;
  src ← PortIdentity_to_wire source_port_identity;
  copy_from_slice 20 30 src buf.

Definition with_message_type (msg_type : MessageType) (control : ControlField) (buf : list Z)
    : outcome (list Z) :=
  b ← index 0 buf;
  buf ← set_index 0 (Z.lor (Z.land b 240) (MessageType_to_nibble msg_type)) buf;
  set_index 32 (ControlField_as_u8 control) buf.

Definition with_flags `{MessageFlagsOps F} (flags : F) (buf : list Z) : outcome (list Z) :=
  copy_from_slice 6 8 (to_be 2 (mf_bits flags)) buf.

Definition with_sequence_id (sequence_id : SequenceId) (buf : list Z) : outcome (list Z) :=
  copy_from_slice 30 32 (SequenceId_to_be_bytes sequence_id) buf.

Definition with_log_message_interval (log_message_interval : LogMessageInterval) (buf : list Z)
    : outcome (list Z) :=
  set_index 33 (LogMessageInterval_as_u8 log_message_interval) buf.

(** [payload.buf()[lo..hi].copy_from_slice(src)]: [buf()] is the tail from the payload offset. *)
Definition payload_copy (lo hi : nat) (src buf : list Z) : outcome (list Z) :=
  payload_buf ← index_range PTP_PAYLOAD_OFFSET (length buf) buf;
  payload_buf ← copy_from_slice lo hi src payload_buf;
  Done (take PTP_PAYLOAD_OFFSET buf ++ payload_buf).

Definition finalize (payload_len : nat) (buf : list Z) : outcome (list Z) :=
  let total_len := as_u 16 (Z.of_nat (PTP_PAYLOAD_OFFSET + payload_len)) in
  buf ← copy_from_slice 2 4 (to_be 2 total_len) buf;
  index_range 0 (Z.to_nat total_len) buf.

(** ** Well-formed field values *)

Definition SequenceId_wf (s : SequenceId) : Prop := 0 <= seq_id s < 2 ^ 16.
Definition DomainNumber_wf (d : DomainNumber) : Prop := is_byte (dn_value d).
Definition LogMessageInterval_wf (l : LogMessageInterval) : Prop := -128 <= lmi_value l < 128.

Lemma SequenceId_next_wf s : SequenceId_wf s → SequenceId_wf (SequenceId_next s).
Proof. intros _. unfold SequenceId_wf, u_wrap; simpl. apply Z.mod_pos_bound. lia. Qed.

(** ** Timestamps on the wire *)

Lemma lor_shiftl_32 m l : 0 <= l < 2 ^ 32 → Z.lor (Z.shiftl m 32) l = m * 2 ^ 32 + l.
Proof. by apply lor_shiftl. Qed.

Definition ts_image (t : TimeStamp) : list Z :=
  to_be 2 (as_u 16 (Z.shiftr (ts_seconds t) 32)) ++ to_be 4 (as_u 32 (ts_seconds t)) ++
  to_be 4 (ts_nanos t).

Lemma TimeStamp_to_wire_eq t : TimeStamp_to_wire t = Done (ts_image t).
Proof. reflexivity. Qed.

Lemma length_ts_image t : length (ts_image t) = 10%nat.
Proof. reflexivity. Qed.

Lemma ts_image_bytes t : Forall is_byte (ts_image t).
Proof. unfold ts_image. rewrite !Forall_app. auto using to_be_bytes. Qed.

(** The parser on ten bytes, on both branches. *)
Lemma WireTimeStamp_timestamp_eq buf : length buf = 10%nat → Forall is_byte buf →
  WireTimeStamp_timestamp buf
  = let n := from_be (drop 6 buf) in
    if n <? 1000000000
    then Done (Ok (mkTimeStamp (from_be (take 2 buf) * 2 ^ 32 + from_be (take 4 (drop 2 buf))) n))
    else Done (Err (Protocol (InvalidTimestamp n))).
Proof.
  intros Hl Hb. pose proof (from_be_range (take 2 buf)) as H1.
  pose proof (from_be_range (take 4 (drop 2 buf))) as H2.
  specialize (H1 (Forall_take _ _ _ Hb)). specialize (H2 (Forall_take _ _ _ (Forall_drop _ _ _ Hb))).
  rewrite length_take, Hl in H1. rewrite length_take, length_drop, Hl in H2.
  change (256 ^ Z.of_nat (2 `min` 10)) with (2 ^ 16) in H1.
  change (256 ^ Z.of_nat (4 `min` (10 - 2))) with (2 ^ 32) in H2.
  do 11 (destruct buf as [|? buf]; try discriminate Hl).
  unfold WireTimeStamp_timestamp. cbn -[from_be as_u Z.shiftl Z.lor Z.ltb TimeStamp_new Z.pow Z.mul Z.add].
  case_match; [|done]. cbn -[from_be Z.pow Z.mul Z.add] in H1, H2.
  rewrite as_u_small by (rewrite Z.shiftl_mul_pow2 by lia; lia).
  rewrite lor_shiftl_32 by lia. unfold TimeStamp_new.
  rewrite !rassert_true by (unfold MAX_SECONDS_EXCL; rewrite ?Z.shiftl_mul_pow2; lia). done.
Qed.

Lemma WireTimeStamp_timestamp_wf buf : length buf = 10%nat → Forall is_byte buf →
  pr_ok TimeStamp_wf (WireTimeStamp_timestamp buf).
Proof.
  intros Hl Hb. rewrite WireTimeStamp_timestamp_eq by done. cbv zeta.
  destruct (Z.ltb_spec (from_be (drop 6 buf)) 1000000000); [|done]. simpl.
  pose proof (from_be_range (take 2 buf)) as H1. pose proof (from_be_range (drop 6 buf)) as H3.
  pose proof (from_be_range (take 4 (drop 2 buf))) as H2.
  specialize (H1 (Forall_take _ _ _ Hb)). specialize (H2 (Forall_take _ _ _ (Forall_drop _ _ _ Hb))).
  specialize (H3 (Forall_drop _ _ _ Hb)).
  rewrite length_take, Hl in H1. rewrite length_take, length_drop, Hl in H2.
  rewrite length_drop, Hl in H3.
  change (256 ^ Z.of_nat (2 `min` 10)) with (2 ^ 16) in H1.
  change (256 ^ Z.of_nat (4 `min` (10 - 2))) with (2 ^ 32) in H2.
  unfold TimeStamp_wf, NANOS_PER_SECOND; cbn [ts_seconds ts_nanos]. lia.
Qed.

Lemma WireTimeStamp_timestamp_image t : TimeStamp_wf t →
  WireTimeStamp_timestamp (ts_image t) = Done (Ok t).
Proof.
  destruct t as [s n]. unfold TimeStamp_wf, NANOS_PER_SECOND; cbn [ts_seconds ts_nanos].
  intros [Hs Hn]. rewrite WireTimeStamp_timestamp_eq by (done || apply ts_image_bytes). cbv zeta.
  change (drop 6 (ts_image _)) with (to_be 4 n).
  change (take 2 (ts_image _)) with (to_be 2 (as_u 16 (Z.shiftr s 32))).
  change (take 4 (drop 2 (ts_image _))) with (to_be 4 (as_u 32 s)).
  assert (Z.shiftr s 32 = s / 2 ^ 32) as E by (by rewrite Z.shiftr_div_pow2).
  rewrite E, (from_to_be 4 n) by lia.
  assert (0 <= s / 2 ^ 32 < 2 ^ 16) by (split; [apply Z.div_pos; lia | apply Z.div_lt_upper_bound; lia]).
  rewrite (as_u_small 16) by done. rewrite (from_to_be 2) by done.
  rewrite from_to_be by (apply as_u_range; lia).
  rewrite (proj2 (Z.ltb_lt n _)) by lia. unfold as_u. do 2 f_equal. f_equal.
  pose proof (Z.div_mod s (2 ^ 32)). lia.
Qed.

(** ** Parsing never panics past the length check *)

Lemma get_range_Some lo hi p s : get_range lo hi p = Some s →
  s = slice lo hi p ∧ (lo <= hi <= length p)%nat.
Proof.
  unfold get_range. destruct (_ && _) eqn:E; [|done]. intros [= <-]. split; [done|].
  apply andb_true_iff in E as [E1%Nat.leb_le E2%Nat.leb_le]. done.
Qed.

Lemma try_into_Some n l l' : try_into n l = Some l' → l' = l ∧ length l = n.
Proof.
  unfold try_into. destruct (_ =? _)%nat eqn:E; [|done]. intros [= <-]. split; [done|].
  by apply Nat.eqb_eq.
Qed.

Lemma try_into_slice n lo hi buf : (lo <= hi <= length buf)%nat → (hi - lo)%nat = n →
  try_into n (slice lo hi buf) = Some (slice lo hi buf).
Proof.
  intros H1 H2. unfold try_into. rewrite length_slice by lia.
  by rewrite (proj2 (Nat.eqb_eq _ _) H2).
Qed.

(** A field read by [get] and [try_into], then converted. *)
Lemma field_ok {A} (P : A → Prop) lo hi n p e e' (k : list Z → PR A) :
  Forall is_byte p →
  (∀ s, Forall is_byte s → length s = n → pr_ok P (k s)) →
  pr_ok P (s ← ok_or (get_range lo hi p) e; b ← ok_or (try_into n s) (e' s); k b).
Proof.
  intros Hp Hk.
  apply (pr_ok_bind (Forall is_byte)).
  { apply pr_ok_ok_or. intros s [-> _]%get_range_Some. by apply Forall_slice. }
  intros s Hs. apply (pr_ok_bind (λ b, Forall is_byte b ∧ length b = n)).
  { apply pr_ok_ok_or. intros b [-> Hl]%try_into_Some. done. }
  intros b [Hb Hl]. by apply Hk.
Qed.

Lemma payload_timestamp_ok field p : Forall is_byte p → pr_ok TimeStamp_wf (payload_timestamp field p).
Proof.
  intros Hp. unfold payload_timestamp.
  apply (field_ok _ 0 10 10 p _ (λ ts_bytes, Parse (PayloadTooShort field 10 (length ts_bytes)))); [done|].
  intros s Hs Hl. by apply WireTimeStamp_timestamp_wf.
Qed.

Lemma PortIdentity_from_wire_wf buf : length buf = 10%nat → Forall is_byte buf →
  ∃ p, PortIdentity_from_wire buf = Done p ∧ PortIdentity_wf p.
Proof.
  intros Hl Hb. rewrite PortIdentity_from_wire_Done by done. eexists. split; [done|].
  split; [split|]; cbn [pi_clock_identity ci_id].
  - rewrite length_take. lia.
  - by apply Forall_take.
  - unfold PortNumber_wf; cbn [pi_port_number pn_value].
    pose proof (from_be_range (drop 8 buf) (Forall_drop _ _ _ Hb)) as H.
    by rewrite length_drop, Hl in H.
Qed.

Lemma requesting_port_identity_ok p : Forall is_byte p →
  pr_ok PortIdentity_wf (DelayResponsePayload_requesting_port_identity p).
Proof.
  intros Hp. unfold DelayResponsePayload_requesting_port_identity.
  apply (field_ok _ 10 20 10 p _ (λ s, Parse
    (PayloadTooShort "DelayResponse.requesting_port_identity" 10 (length s)))); [done|].
  intros s Hs Hl. destruct (PortIdentity_from_wire_wf s Hl Hs) as (q & -> & Hq). done.
Qed.

Lemma foreign_clock_ds_ok p : Forall is_byte p → pr_ok ClockDS_wf (AnnouncePayload_foreign_clock_ds p).
Proof.
  intros Hp. unfold AnnouncePayload_foreign_clock_ds.
  apply (field_ok _ 13 29 16 p _ (λ s, Parse
    (PayloadTooShort "Announce.foreign_clock_ds" 16 (length s)))); [done|].
  intros s Hs Hl. destruct (ClockDS_from_wire_Done s Hl Hs) as (d & -> & Hd). done.
Qed.

(** The header accessors are total on a buffer of at least a header's length. *)
Section header.
  Context (buf : list Z) (Hl : (34 <= length buf)%nat) (Hb : Forall is_byte buf).

Lemma header_index i : (i < 34)%nat → ∃ b, index i buf = Done b ∧ is_byte b.
Proof.
  intros Hi. destruct (index_Done i buf) as (b & E & Hbi); [lia|]. exists b. split; [done|].
  rewrite Forall_lookup in Hb. by apply (Hb i).
Qed.

Lemma header_range lo hi n : (lo <= hi <= 34)%nat → (hi - lo)%nat = n →
  (s ← index_range lo hi buf; unwrap (try_into n s)) = Done (slice lo hi buf).
Proof.
  intros H1 H2. rewrite index_range_Done by lia. cbn [mbind outcome_bind].
  rewrite try_into_slice by lia. done.
Qed.

Lemma header_domain_number_ok :
  ∃ d, MessageHeader_domain_number buf = Done d ∧ DomainNumber_wf d.
Proof.
  destruct (header_index 4) as (b & E & Hbb); [lia|]. exists (DomainNumber_new b).
  unfold MessageHeader_domain_number. by rewrite E.
Qed.

Lemma header_sequence_id_ok : ∃ s, MessageHeader_sequence_id buf = Done s ∧ SequenceId_wf s.
Proof.
  exists (SequenceId_new (from_be (slice 30 32 buf))). unfold MessageHeader_sequence_id.
  rewrite index_range_Done by lia. cbn [mbind outcome_bind].
  rewrite try_into_slice by lia. split; [done|]. unfold SequenceId_wf; cbn [seq_id SequenceId_new].
  pose proof (from_be_range (slice 30 32 buf) (Forall_slice _ _ _ _ Hb)) as H.
  by rewrite length_slice in H by lia.
Qed.

Lemma header_flags_ok `{MessageFlagsOps F} :
  MessageHeader_flags (F := F) buf = Done (mf_from_bits_truncate (from_be (slice 6 8 buf))).
Proof.
  unfold MessageHeader_flags. rewrite index_range_Done by lia. cbn [mbind outcome_bind].
  by rewrite try_into_slice by lia.
Qed.

Lemma header_source_port_identity_ok :
  ∃ p, MessageHeader_source_port_identity buf = Done p ∧ PortIdentity_wf p.
Proof.
  unfold MessageHeader_source_port_identity. rewrite index_range_Done by lia.
  cbn [mbind outcome_bind]. rewrite try_into_slice by lia. cbn [unwrap mbind outcome_bind].
  apply PortIdentity_from_wire_wf; [by rewrite length_slice by lia | by apply Forall_slice].
Qed.

Lemma header_log_message_interval_ok :
  ∃ l, MessageHeader_log_message_interval buf = Done l ∧ LogMessageInterval_wf l.
Proof.
  destruct (header_index 33) as (b & E & Hbb); [lia|]. exists (LogMessageInterval_new (as_i 8 b)).
  unfold MessageHeader_log_message_interval. rewrite E. split; [done|].
  unfold LogMessageInterval_wf, as_i; cbn [lmi_value LogMessageInterval_new].
  pose proof (Z.mod_pos_bound (b + 2 ^ (8 - 1)) (2 ^ 8)). lia.
Qed.

Lemma header_payload_ok : ∃ p, MessageHeader_payload buf = Done p ∧ Forall is_byte p.
Proof.
  unfold MessageHeader_payload, PTP_PAYLOAD_OFFSET. rewrite index_range_Done by lia.
  eexists. split; [done|]. by apply Forall_slice.
Qed.

Lemma header_message_type_ok : pr_ok (λ _, True) (MessageHeader_message_type buf).
Proof.
  unfold MessageHeader_message_type. destruct (header_index 0) as (b & E & Hbb); [lia|].
  rewrite E. cbn [lift_outcome mbind PR_bind]. unfold MessageType_from_nibble.
  by repeat case_match.
Qed.
End header.

(** The length check, on every branch. *)
Lemma length_checked_v2_eq buf : (34 <= length buf)%nat →
  length_checked_v2 buf
  = let v := Z.land (default 0 (buf !! 1%nat)) 15 in
    let declared := from_be (slice 2 4 buf) in
    if negb (v =? 2) then Done (Err (Protocol (UnsupportedPtpVersion v)))
    else if negb (declared =? Z.of_nat (length buf))
    then Done (Err (Parse (LengthMismatch declared (Z.of_nat (length buf)))))
    else Done (Ok buf).
Proof.
  intros Hl. unfold length_checked_v2, PTP_HEADER_LEN.
  rewrite (proj2 (Nat.ltb_ge _ _) Hl).
  destruct (index_Done 1 buf) as (b & E & Hbi); [lia|]. rewrite E, Hbi.
  change (default 0 (Some b)) with b.
  cbn [lift_outcome mbind PR_bind]. unfold PtpVersion_V2, PtpVersion_as_u8. cbv zeta.
  case_match.
  - by rewrite <- Z.land_assoc.
  - rewrite index_range_Done by lia. cbn [lift_outcome mbind PR_bind].
    rewrite try_into_slice by lia. cbn [ok_or mbind PR_bind]. done.
Qed.

(** The length check rejects, in this order, a datagram shorter than the 34-byte header, a
    version other than 2, and a declared length that is not the datagram's, each with its error
    and the offending values, and accepts everything else unchanged. *)
Theorem length_check_exact (buf : list Z) : Forall is_byte buf →
  length_checked_v2 buf
  = if (length buf <? 34)%nat then Done (Err (Parse (HeaderTooShort (length buf))))
    else
      let version := Z.land (default 0 (buf !! 1%nat)) 15 in
      let declared := default 0 (buf !! 2%nat) * 256 + default 0 (buf !! 3%nat) in
      if negb (version =? 2) then Done (Err (Protocol (UnsupportedPtpVersion version)))
      else if negb (declared =? Z.of_nat (length buf))
      then Done (Err (Parse (LengthMismatch declared (Z.of_nat (length buf)))))
      else Done (Ok buf).
Proof.
  intros Hb. destruct (Nat.ltb_spec (length buf) 34) as [Hl|Hl].
  - unfold length_checked_v2, PTP_HEADER_LEN. by rewrite (proj2 (Nat.ltb_lt _ _) Hl).
  - rewrite length_checked_v2_eq by done. cbv zeta.
    do 4 (destruct buf as [|? buf]; [simpl in Hl; lia|]). done.
Qed.

Definition w_short : list Z := replicate 33 0.
Definition w_mismatch : list Z := [0; 18; 0; 44] ++ replicate 31 0.

Lemma length_check_exact_witness :
  length_checked_v2 w_short = Done (Err (Parse (HeaderTooShort 33))) ∧
  length_checked_v2 w_mismatch = Done (Err (Parse (LengthMismatch 44 35))).
Proof.
  split; (rewrite length_check_exact; [reflexivity | wf_concrete]).
Defined.
