(* ===== verification/Message.v ===== *)
(** * Domain messages (crates/rptp/src/message.rs)

    The six message kinds with their constructors, offset arithmetic, parsing from a header's
    fields ([EventMessage_new], [GeneralMessage_new]) and serialization, and the system messages
    the infrastructure delivers. [MessageIngress] is in PortState.v. *)

From S2P Require Import Prelude Errors Time Clock PortId DataSet Foreign Wire.

Open Scope Z_scope.

(** ** Data *)

Record AnnounceMessage := mkAnnounceMessage {
  an_sequence_id : SequenceId;
  an_log_message_interval : LogMessageInterval;
  an_foreign_clock_ds : ClockDS;
  an_ptp_timescale : TimeScale;
}.

Record OneStepSyncMessage := mkOneStepSyncMessage {
  os_sequence_id : SequenceId;
  os_log_message_interval : LogMessageInterval;
  os_origin_timestamp : TimeStamp;
}.

Record TwoStepSyncMessage := mkTwoStepSyncMessage {
  tw_sequence_id : SequenceId;
  tw_log_message_interval : LogMessageInterval;
}.

Record FollowUpMessage := mkFollowUpMessage {
  fu_sequence_id : SequenceId;
  fu_log_message_interval : LogMessageInterval;
  fu_precise_origin_timestamp : TimeStamp;
}.

Record DelayRequestMessage := mkDelayRequestMessage { dr_sequence_id : SequenceId }.

Record DelayResponseMessage := mkDelayResponseMessage {
  ds_sequence_id : SequenceId;
  ds_log_message_interval : LogMessageInterval;
  ds_receive_timestamp : TimeStamp;
  ds_requesting_port_identity : PortIdentity;
}.

Inductive EventMessage :=
| DelayReq (m : DelayRequestMessage)
| OneStepSync (m : OneStepSyncMessage)
| TwoStepSync (m : TwoStepSyncMessage).

Inductive GeneralMessage :=
| Announce (m : AnnounceMessage)
| DelayResp (m : DelayResponseMessage)
| FollowUp (m : FollowUpMessage).

Record TimestampMessage := mkTimestampMessage {
  tm_event_msg : EventMessage;
  tm_egress_timestamp : TimeStamp;
}.

Record StateDecisionSnapshot := mkStateDecisionSnapshot {
  sds_d_0 : ClockDS;
  sds_e_best : BestForeignSnapshot;
}.

Inductive SystemMessage :=
| SM_AnnounceSendTimeout
| SM_DelayRequestTimeout
| SM_SyncTimeout
| SM_Timestamp (m : TimestampMessage)
| SM_Initialized
| SM_FaultCleared
| SM_AnnounceReceiptTimeout
| SM_QualificationTimeout
| SM_StateDecisionEvent (s : StateDecisionSnapshot).

#[export] Instance DelayRequestMessage_eq_dec : EqDecision DelayRequestMessage.
Proof. solve_decision. Defined.
#[export] Instance TwoStepSyncMessage_eq_dec : EqDecision TwoStepSyncMessage.
Proof. solve_decision. Defined.

(** ** Offsets *)

Definition OneStepSyncMessage_master_slave_offset (self : OneStepSyncMessage)
    (ingress_timestamp : TimeStamp) : outcome TimeInterval :=
  TimeStamp_sub ingress_timestamp (os_origin_timestamp self).

Definition FollowUpMessage_master_slave_offset (self : FollowUpMessage)
    (sync : TwoStepSyncMessage) (sync_ingress_timestamp : TimeStamp)
    : outcome (option TimeInterval) :=
  if bool_decide (fu_sequence_id self = tw_sequence_id sync)
  then d ← TimeStamp_sub sync_ingress_timestamp (fu_precise_origin_timestamp self); Done (Some d)
  else Done None.

Definition DelayResponseMessage_slave_master_offset (self : DelayResponseMessage)
    (delay_req : DelayRequestMessage) (delay_req_egress_timestamp : TimeStamp)
    : outcome (option TimeInterval) :=
  if bool_decide (ds_sequence_id self = dr_sequence_id delay_req)
  then d ← TimeStamp_sub (ds_receive_timestamp self) delay_req_egress_timestamp; Done (Some d)
  else Done None.

Definition TwoStepSyncMessage_follow_up (precise_origin_timestamp : TimeStamp)
    (self : TwoStepSyncMessage) : FollowUpMessage :=
  mkFollowUpMessage (tw_sequence_id self) (tw_log_message_interval self) precise_origin_timestamp.

Definition DelayRequestMessage_response (log_message_interval : LogMessageInterval)
    (receive_timestamp : TimeStamp) (requesting_port_identity : PortIdentity)
    (self : DelayRequestMessage) : DelayResponseMessage :=
  mkDelayResponseMessage (dr_sequence_id self) log_message_interval receive_timestamp
    requesting_port_identity.

Section flags.
  Context {F : Type} `{HF : !MessageFlagsOps F}.

(** ** Parsing from the header's fields *)

Definition EventMessage_new (msg_type : MessageType) (sequence_id : SequenceId) (flags : F)
    (log_message_interval : LogMessageInterval) (payload : list Z) : PR EventMessage :=
  match msg_type with
  | MT_Sync =>
      if mf_contains flags MessageFlags_TWO_STEP then
        mret (TwoStepSync (mkTwoStepSyncMessage sequence_id log_message_interval))
      else
        origin_timestamp ← SyncPayload_origin_timestamp payload;
        mret (OneStepSync
          (mkOneStepSyncMessage sequence_id log_message_interval origin_timestamp))
  | MT_DelayRequest => mret (DelayReq (mkDelayRequestMessage sequence_id))
  | _ => throw (Protocol (UnknownMessageType (MessageType_to_nibble msg_type)))
  end.

Definition GeneralMessage_new (msg_type : MessageType) (sequence_id : SequenceId) (flags : F)
    (log_message_interval : LogMessageInterval) (payload : list Z) : PR GeneralMessage :=
  match msg_type with
  | MT_Announce =>
      foreign_clock_ds ← AnnouncePayload_foreign_clock_ds payload;
      mret (Announce (mkAnnounceMessage sequence_id log_message_interval foreign_clock_ds
        (if mf_contains flags MessageFlags_PTP_TIMESCALE then Ptp else Arb)))
  | MT_FollowUp =>
      precise_origin_timestamp ← FollowUpPayload_precise_origin_timestamp payload;
      mret (FollowUp
        (mkFollowUpMessage sequence_id log_message_interval precise_origin_timestamp))
  | MT_DelayResponse =>
      receive_timestamp ← DelayResponsePayload_receive_timestamp payload;
      requesting_port_identity ← DelayResponsePayload_requesting_port_identity payload;
      mret (DelayResp (mkDelayResponseMessage sequence_id log_message_interval receive_timestamp
        requesting_port_identity))
  | _ => throw (Protocol (UnknownMessageType (MessageType_to_nibble msg_type)))
  end.

(** ** Serialization *)

Definition AnnounceMessage_to_wire (self : AnnounceMessage) (buf : list Z) : outcome (list Z) :=
  let ptp_timescale_flag :=
    match an_ptp_timescale self with Ptp => MessageFlags_PTP_TIMESCALE | Arb => mf_empty end in
  buf ← with_message_type MT_Announce CF_Other buf;
  buf ← with_flags ptp_timescale_flag buf;
  buf ← with_sequence_id (an_sequence_id self) buf;
  buf ← with_log_message_interval (an_log_message_interval self) buf;
  ds ← ClockDS_to_wire (an_foreign_clock_ds self);
  buf ← payload_copy 13 29 ds buf;
  finalize 30 buf.

Definition OneStepSyncMessage_to_wire (self : OneStepSyncMessage) (buf : list Z)
    : outcome (list Z) :=
  buf ← with_message_type MT_Sync CF_Sync buf;
  buf ← with_flags mf_empty buf;
  buf ← with_sequence_id (os_sequence_id self) buf;
  buf ← with_log_message_interval (os_log_message_interval self) buf;
  ts ← TimeStamp_to_wire (os_origin_timestamp self);
  buf ← payload_copy 0 10 ts buf;
  finalize 10 buf.

Definition TwoStepSyncMessage_to_wire (self : TwoStepSyncMessage) (buf : list Z)
    : outcome (list Z) :=
  buf ← with_message_type MT_Sync CF_Sync buf;
  buf ← with_flags MessageFlags_TWO_STEP buf;
  buf ← with_sequence_id (tw_sequence_id self) buf;
  buf ← with_log_message_interval (tw_log_message_interval self) buf;
  finalize 10 buf.

Definition FollowUpMessage_to_wire (self : FollowUpMessage) (buf : list Z) : outcome (list Z) :=
  buf ← with_message_type MT_FollowUp CF_FollowUp buf;
  buf ← with_flags mf_empty buf;
  buf ← with_sequence_id (fu_sequence_id self) buf;
  buf ← with_log_message_interval (fu_log_message_interval self) buf;
  ts ← TimeStamp_to_wire (fu_precise_origin_timestamp self);
  buf ← payload_copy 0 10 ts buf;
  finalize 10 buf.

Definition DelayRequestMessage_to_wire (self : DelayRequestMessage) (buf : list Z)
    : outcome (list Z) :=
  buf ← with_message_type MT_DelayRequest CF_DelayRequest buf;
  buf ← with_flags mf_empty buf;
  buf ← with_sequence_id (dr_sequence_id self) buf;
  buf ← with_log_message_interval LogMessageInterval_unspecified buf;
  finalize 10 buf.

Definition DelayResponseMessage_to_wire (self : DelayResponseMessage) (buf : list Z)
    : outcome (list Z) :=
  buf ← with_message_type MT_DelayResponse CF_DelayResponse buf;
  buf ← with_flags mf_empty buf;
  buf ← with_sequence_id (ds_sequence_id self) buf;
  buf ← with_log_message_interval (ds_log_message_interval self) buf;
  ts ← TimeStamp_to_wire (ds_receive_timestamp self);
  buf ← payload_copy 0 10 ts buf;
  pid ← PortIdentity_to_wire (ds_requesting_port_identity self);
  buf ← payload_copy 10 20 pid buf;
  finalize 20 buf.

Definition EventMessage_to_wire (self : EventMessage) (buf : list Z) : outcome (list Z) :=
  match self with
  | DelayReq msg => DelayRequestMessage_to_wire msg buf
  | OneStepSync msg => OneStepSyncMessage_to_wire msg buf
  | TwoStepSync msg => TwoStepSyncMessage_to_wire msg buf
  end.

Definition GeneralMessage_to_wire (self : GeneralMessage) (buf : list Z) : outcome (list Z) :=
  match self with
  | Announce msg => AnnounceMessage_to_wire msg buf
  | DelayResp msg => DelayResponseMessage_to_wire msg buf
  | FollowUp msg => FollowUpMessage_to_wire msg buf
  end.

(** ** A received datagram as a message: header fields, then the payload

    The part of [DomainMessage::dispatch_*] that precedes the port's handler, once the domain
    has been looked up. *)
Definition parse_event (buf : list Z) : PR (PortIdentity * EventMessage) :=
  source_port_identity ← lift_outcome (MessageHeader_source_port_identity buf);
  msg_type ← MessageHeader_message_type buf;
  sequence_id ← lift_outcome (MessageHeader_sequence_id buf);
  flags ← lift_outcome (MessageHeader_flags buf);
  log_message_interval ← lift_outcome (MessageHeader_log_message_interval buf);
  payload ← lift_outcome (MessageHeader_payload buf);
  msg ← EventMessage_new msg_type sequence_id flags log_message_interval payload;
  mret (source_port_identity, msg).

Definition parse_general (buf : list Z) : PR (PortIdentity * GeneralMessage) :=
  source_port_identity ← lift_outcome (MessageHeader_source_port_identity buf);
  msg_type ← MessageHeader_message_type buf;
  sequence_id ← lift_outcome (MessageHeader_sequence_id buf);
  flags ← lift_outcome (MessageHeader_flags buf);
  log_message_interval ← lift_outcome (MessageHeader_log_message_interval buf);
  payload ← lift_outcome (MessageHeader_payload buf);
  msg ← GeneralMessage_new msg_type sequence_id flags log_message_interval payload;
  mret (source_port_identity, msg).
End flags.

(** ** Well-formed messages *)

Definition AnnounceMessage_wf (m : AnnounceMessage) : Prop :=
  SequenceId_wf (an_sequence_id m) ∧ LogMessageInterval_wf (an_log_message_interval m) ∧
  ClockDS_wf (an_foreign_clock_ds m).
Definition OneStepSyncMessage_wf (m : OneStepSyncMessage) : Prop :=
  SequenceId_wf (os_sequence_id m) ∧ LogMessageInterval_wf (os_log_message_interval m) ∧
  TimeStamp_wf (os_origin_timestamp m).
Definition TwoStepSyncMessage_wf (m : TwoStepSyncMessage) : Prop :=
  SequenceId_wf (tw_sequence_id m) ∧ LogMessageInterval_wf (tw_log_message_interval m).
Definition FollowUpMessage_wf (m : FollowUpMessage) : Prop :=
  SequenceId_wf (fu_sequence_id m) ∧ LogMessageInterval_wf (fu_log_message_interval m) ∧
  TimeStamp_wf (fu_precise_origin_timestamp m).
Definition DelayRequestMessage_wf (m : DelayRequestMessage) : Prop :=
  SequenceId_wf (dr_sequence_id m).
Definition DelayResponseMessage_wf (m : DelayResponseMessage) : Prop :=
  SequenceId_wf (ds_sequence_id m) ∧ LogMessageInterval_wf (ds_log_message_interval m) ∧
  TimeStamp_wf (ds_receive_timestamp m) ∧ PortIdentity_wf (ds_requesting_port_identity m).

Definition EventMessage_wf (m : EventMessage) : Prop :=
  match m with
  | DelayReq m => DelayRequestMessage_wf m
  | OneStepSync m => OneStepSyncMessage_wf m
  | TwoStepSync m => TwoStepSyncMessage_wf m
  end.

Definition GeneralMessage_wf (m : GeneralMessage) : Prop :=
  match m with
  | Announce m => AnnounceMessage_wf m
  | DelayResp m => DelayResponseMessage_wf m
  | FollowUp m => FollowUpMessage_wf m
  end.

Definition SystemMessage_wf (m : SystemMessage) : Prop :=
  match m with
  | SM_Timestamp m => EventMessage_wf (tm_event_msg m) ∧ TimeStamp_wf (tm_egress_timestamp m)
  | SM_StateDecisionEvent s => ClockDS_wf (sds_d_0 s) ∧ snapshot_wf (sds_e_best s)
  | _ => True
  end.

(** ** Parsing is total and yields well-formed messages *)

Section parse_ok.
  Context `{HF : MessageFlagsOps F}.

Lemma EventMessage_new_ok mt s (f : F) l p :
  SequenceId_wf s → LogMessageInterval_wf l → Forall is_byte p →
  pr_ok EventMessage_wf (EventMessage_new mt s f l p).
Proof.
  intros Hs Hl Hp. destruct mt; simpl; try done. case_match; simpl; [done|].
  eapply pr_ok_bind; [by apply payload_timestamp_ok|]. done.
Qed.

Lemma GeneralMessage_new_ok mt s (f : F) l p :
  SequenceId_wf s → LogMessageInterval_wf l → Forall is_byte p →
  pr_ok GeneralMessage_wf (GeneralMessage_new mt s f l p).
Proof.
  intros Hs Hl Hp. destruct mt; simpl; try done.
  - eapply pr_ok_bind; [by apply payload_timestamp_ok|]. done.
  - eapply pr_ok_bind; [by apply payload_timestamp_ok|]. intros t Ht.
    eapply pr_ok_bind; [by apply requesting_port_identity_ok|]. done.
  - eapply pr_ok_bind; [by apply foreign_clock_ds_ok|]. done.
Qed.

(** The header prefix shared by the two entry points. *)
Lemma parse_header_ok {A} (P : A → Prop) (buf : list Z)
    (k : PortIdentity → MessageType → SequenceId → F → LogMessageInterval → list Z → PR A) :
  (34 <= length buf)%nat → Forall is_byte buf →
  (∀ src mt s f l p, PortIdentity_wf src → SequenceId_wf s → LogMessageInterval_wf l →
     Forall is_byte p → pr_ok P (k src mt s f l p)) →
  pr_ok P
    (src ← lift_outcome (MessageHeader_source_port_identity buf);
     mt ← MessageHeader_message_type buf;
     s ← lift_outcome (MessageHeader_sequence_id buf);
     f ← lift_outcome (MessageHeader_flags buf);
     l ← lift_outcome (MessageHeader_log_message_interval buf);
     p ← lift_outcome (MessageHeader_payload buf);
     k src mt s f l p).
Proof.
  intros Hl Hb Hk.
  destruct (header_source_port_identity_ok buf Hl Hb) as (src & -> & Hsrc). cbn [lift_outcome mbind PR_bind].
  eapply pr_ok_bind; [by apply header_message_type_ok|]. intros mt _.
  destruct (header_sequence_id_ok buf Hl Hb) as (s & -> & Hs). cbn [lift_outcome mbind PR_bind].
  rewrite (header_flags_ok buf Hl). cbn [lift_outcome mbind PR_bind].
  destruct (header_log_message_interval_ok buf Hl Hb) as (l & -> & Hlm). cbn [lift_outcome mbind PR_bind].
  destruct (header_payload_ok buf Hl Hb) as (p & -> & Hp). cbn [lift_outcome mbind PR_bind].
  by apply Hk.
Qed.

Lemma parse_event_ok buf : (34 <= length buf)%nat → Forall is_byte buf →
  pr_ok (λ r, PortIdentity_wf r.1 ∧ EventMessage_wf r.2) (parse_event (F := F) buf).
Proof.
  intros Hl Hb. apply parse_header_ok; [done..|]. intros src mt s f l p Hsrc Hs Hlm Hp.
  eapply pr_ok_bind; [by apply EventMessage_new_ok|]. done.
Qed.

Lemma parse_general_ok buf : (34 <= length buf)%nat → Forall is_byte buf →
  pr_ok (λ r, PortIdentity_wf r.1 ∧ GeneralMessage_wf r.2) (parse_general (F := F) buf).
Proof.
  intros Hl Hb. apply parse_header_ok; [done..|]. intros src mt s f l p Hsrc Hs Hlm Hp.
  eapply pr_ok_bind; [by apply GeneralMessage_new_ok|]. done.
Qed.
End parse_ok.

(** ** The byte image of each message *)

Definition header_image (len : Z) (mt : MessageType) (dom : DomainNumber) (flags : Z)
    (src : PortIdentity) (seq : SequenceId) (ctl : ControlField) (lmi : LogMessageInterval)
    : list Z :=
  [MessageType_to_nibble mt; 2] ++ to_be 2 len ++ [dn_value dom; 0] ++ to_be 2 flags ++
  replicate 12 0 ++ ci_id (pi_clock_identity src) ++ to_be 2 (pn_value (pi_port_number src)) ++
  to_be 2 (seq_id seq) ++ [ControlField_as_u8 ctl; LogMessageInterval_as_u8 lmi].

Ltac split_list id Hl := repeat (destruct id as [|? id]; try discriminate Hl).

(** Replace a timestamp's image by ten arbitrary bytes. *)
Ltac generalize_ts :=
  match goal with
  | |- context [ts_image ?t] =>
      let l := fresh "l" in let E := fresh "E" in
      pose proof (length_ts_image t) as E; revert E; generalize (ts_image t); intros l E;
      split_list l E; clear E
  end.

Section images.
  Context `{HF : MessageFlagsOps F}.

Definition event_image (dom : DomainNumber) (src : PortIdentity) (m : EventMessage) : list Z :=
  match m with
  | DelayReq m =>
      header_image 44 MT_DelayRequest dom (mf_bits (F := F) mf_empty) src (dr_sequence_id m)
        CF_DelayRequest LogMessageInterval_unspecified ++ replicate 10 0
  | OneStepSync m =>
      header_image 44 MT_Sync dom (mf_bits (F := F) mf_empty) src (os_sequence_id m)
        CF_Sync (os_log_message_interval m) ++ ts_image (os_origin_timestamp m)
  | TwoStepSync m =>
      header_image 44 MT_Sync dom (mf_bits (F := F) MessageFlags_TWO_STEP) src (tw_sequence_id m)
        CF_Sync (tw_log_message_interval m) ++ replicate 10 0
  end.

Definition timescale_flag (s : TimeScale) : F :=
  match s with Ptp => MessageFlags_PTP_TIMESCALE | Arb => mf_empty end.

Definition general_image (dom : DomainNumber) (src : PortIdentity) (m : GeneralMessage) : list Z :=
  match m with
  | Announce m =>
      header_image 64 MT_Announce dom (mf_bits (timescale_flag (an_ptp_timescale m))) src
        (an_sequence_id m) CF_Other (an_log_message_interval m) ++
      replicate 13 0 ++ ClockDS_image (an_foreign_clock_ds m) ++ [0]
  | DelayResp m =>
      header_image 54 MT_DelayResponse dom (mf_bits (F := F) mf_empty) src (ds_sequence_id m)
        CF_DelayResponse (ds_log_message_interval m) ++
      ts_image (ds_receive_timestamp m) ++
      ci_id (pi_clock_identity (ds_requesting_port_identity m)) ++
      to_be 2 (pn_value (pi_port_number (ds_requesting_port_identity m)))
  | FollowUp m =>
      header_image 44 MT_FollowUp dom (mf_bits (F := F) mf_empty) src (fu_sequence_id m)
        CF_FollowUp (fu_log_message_interval m) ++ ts_image (fu_precise_origin_timestamp m)
  end.

(** The images are bytes. *)
Lemma zeros_bytes n : Forall is_byte (replicate n 0).
Proof. apply Forall_replicate. unfold is_byte; lia. Qed.

Lemma header_image_bytes len mt dom flags src seq ctl lmi : is_byte (dn_value dom) →
  PortIdentity_wf src → Forall is_byte (header_image len mt dom flags src seq ctl lmi).
Proof.
  intros Hd [[_ Hs] _]. unfold header_image. rewrite !Forall_app.
  split_and!; try apply to_be_bytes; try apply zeros_bytes; try done;
    rewrite !Forall_cons; (split; [|split; [|done]]); try done.
  - by destruct mt.
  - by destruct ctl.
  - apply (as_u_range 8). lia.
Qed.

Lemma event_image_bytes dom src m : is_byte (dn_value dom) → PortIdentity_wf src →
  Forall is_byte (event_image dom src m).
Proof.
  intros Hd Hs. destruct m as [m|m|m]; apply Forall_app_2;
    auto using header_image_bytes, zeros_bytes, ts_image_bytes.
Qed.

Lemma general_image_bytes dom src m : is_byte (dn_value dom) → PortIdentity_wf src →
  GeneralMessage_wf m → Forall is_byte (general_image dom src m).
Proof.
  intros Hd Hs Hm. destruct m as [m|m|m]; apply Forall_app_2; auto using header_image_bytes.
  - apply Forall_app_2; [apply zeros_bytes|]. apply Forall_app_2; [|apply (zeros_bytes 1)].
    apply ClockDS_image_bytes, Hm.
  - apply Forall_app_2; [apply ts_image_bytes|]. apply Forall_app_2; [apply Hm | apply to_be_bytes].
  - apply ts_image_bytes.
Qed.

Lemma EventMessage_to_wire_eq (m : EventMessage) dom src :
  ClockIdentity_wf (pi_clock_identity src) →
  (MessageBuffer_new 2 dom src ≫= EventMessage_to_wire (F := F) m) = Done (event_image dom src m).
Proof.
  destruct src as [[id] [p]], dom as [dom]. intros [Hl _]; simpl in Hl.
  split_list id Hl. clear Hl. destruct m as [[[seq]]|[[seq] [l] t]|[[seq] [l]]].
  - vm_compute. reflexivity.
  - unfold EventMessage_to_wire, OneStepSyncMessage_to_wire, event_image.
    cbn [os_origin_timestamp]. rewrite TimeStamp_to_wire_eq. generalize_ts.
    vm_compute. reflexivity.
  - vm_compute. reflexivity.
Qed.

Lemma GeneralMessage_to_wire_eq (m : GeneralMessage) dom src :
  ClockIdentity_wf (pi_clock_identity src) → GeneralMessage_wf m →
  (MessageBuffer_new 2 dom src ≫= GeneralMessage_to_wire (F := F) m)
  = Done (general_image dom src m).
Proof.
  destruct src as [[id] [p]], dom as [dom]. intros [Hl _]; simpl in Hl. split_list id Hl.
  clear Hl.
  destruct m as [[[seq] [l] ds sc]|[[seq] [l] t [[id2] [p2]]]|[[seq] [l] t]]; intros Hwf.
  - destruct Hwf as (_ & _ & Hds & _). simpl in Hds.
    unfold GeneralMessage_to_wire, AnnounceMessage_to_wire.
    cbn [an_foreign_clock_ds]. rewrite ClockDS_to_wire_eq by done.
    destruct ds as [[id2] [p1] [p2] q [sr]]. destruct Hds as [Hl2 _]; simpl in Hl2.
    split_list id2 Hl2. clear Hl2. vm_compute. reflexivity.
  - destruct Hwf as (_ & _ & _ & [Hl2 _] & _). simpl in Hl2. split_list id2 Hl2. clear Hl2.
    unfold GeneralMessage_to_wire, DelayResponseMessage_to_wire, general_image.
    cbn [ds_receive_timestamp]. rewrite TimeStamp_to_wire_eq. generalize_ts.
    vm_compute. reflexivity.
  - clear Hwf. unfold GeneralMessage_to_wire, FollowUpMessage_to_wire, general_image.
    cbn [fu_precise_origin_timestamp]. rewrite TimeStamp_to_wire_eq. generalize_ts.
    vm_compute. reflexivity.
Qed.
End images.

(** ** Round trips *)

Lemma to_be_2 z : 0 <= z < 2 ^ 16 → ∃ a b, to_be 2 z = [a; b] ∧ from_be [a; b] = z.
Proof.
  intros H. pose proof (from_to_be 2 z H) as E. pose proof (length_to_be 2 z) as Hl.
  destruct (to_be 2 z) as [|a [|b [|c l]]]; try discriminate Hl. by exists a, b.
Qed.

Lemma MessageType_roundtrip mt :
  MessageType_from_nibble (Z.land (MessageType_to_nibble mt) 15) = Done (Ok mt).
Proof. by destruct mt. Qed.

Lemma LogMessageInterval_roundtrip l : LogMessageInterval_wf l →
  LogMessageInterval_new (as_i 8 (LogMessageInterval_as_u8 l)) = l.
Proof.
  destruct l as [v]. unfold LogMessageInterval_wf, LogMessageInterval_as_u8, LogMessageInterval_new,
    as_i, as_u; cbn [lmi_value]. intros H. f_equal.
  rewrite Z.add_mod_idemp_l by lia. rewrite Z.mod_small by lia. lia.
Qed.

Section roundtrip.
  Context `{HF : MessageFlagsOps F} `{HFL : !MessageFlagsLaws F}.

(** Every accessor reads back its field from a header image. *)
Lemma header_image_fields len mt dom fl src seq ctl lmi payload :
  len = Z.of_nat (34 + length payload) → len < 2 ^ 16 → 0 <= fl < 2 ^ 16 →
  PortIdentity_wf src → SequenceId_wf seq → LogMessageInterval_wf lmi →
  let buf := header_image len mt dom fl src seq ctl lmi ++ payload in
  length buf = (34 + length payload)%nat ∧
  length_checked_v2 buf = Done (Ok buf) ∧
  MessageHeader_domain_number buf = Done dom ∧
  MessageHeader_source_port_identity buf = Done src ∧
  MessageHeader_message_type buf = Done (Ok mt) ∧
  MessageHeader_sequence_id buf = Done seq ∧
  MessageHeader_flags (F := F) buf = Done (mf_from_bits_truncate fl) ∧
  MessageHeader_log_message_interval buf = Done lmi ∧
  MessageHeader_payload buf = Done payload.
Proof.
  destruct dom as [dom], src as [[id] [p]], seq as [seq].
  intros Hlen Hlt Hfl [[Hid _] Hp] Hseq Hlmi. simpl in Hid. split_list id Hid. clear Hid.
  destruct (to_be_2 len) as (l1 & l2 & El & Fl); [lia|].
  destruct (to_be_2 fl) as (f1 & f2 & Ef & Ff); [lia|].
  destruct (to_be_2 p) as (p1 & p2 & Ep & Fp); [exact Hp|].
  destruct (to_be_2 seq) as (s1 & s2 & Es & Fs); [exact Hseq|].
  unfold header_image. cbn [ci_id pi_clock_identity pi_port_number pn_value seq_id dn_value].
  rewrite El, Ef, Ep, Es. cbn [app replicate].
  set (buf := _ :: _).
  assert (length buf = (34 + length payload)%nat) as Hb by reflexivity.
  split; [done|]. split.
  { rewrite length_checked_v2_eq by lia. rewrite Hb.
    change (default 0 (buf !! 1%nat)) with 2. change (slice 2 4 buf) with [l1; l2]. cbv zeta.
    rewrite Fl, <- Hlen, (Z.eqb_refl len). done. }
  split; [done|]. split.
  { unfold MessageHeader_source_port_identity. rewrite index_range_Done by lia.
    cbn [mbind outcome_bind]. rewrite try_into_slice by lia. cbn [unwrap mbind outcome_bind].
    rewrite PortIdentity_from_wire_Done by (by rewrite length_slice by lia).
    change (drop 8 (slice 20 30 buf)) with [p1; p2]. by rewrite Fp. }
  split; [apply (MessageType_roundtrip mt)|]. split.
  { unfold MessageHeader_sequence_id. rewrite index_range_Done by lia.
    cbn [mbind outcome_bind]. rewrite try_into_slice by lia. cbn [unwrap mbind outcome_bind].
    change (slice 30 32 buf) with [s1; s2]. by rewrite Fs. }
  split.
  { rewrite header_flags_ok by lia. change (slice 6 8 buf) with [f1; f2]. by rewrite Ff. }
  split.
  { unfold MessageHeader_log_message_interval. change (index 33 buf) with (Done (LogMessageInterval_as_u8 lmi)).
    cbn [mbind outcome_bind]. by rewrite LogMessageInterval_roundtrip. }
  unfold MessageHeader_payload. rewrite index_range_Done by (unfold PTP_PAYLOAD_OFFSET; lia).
  unfold slice. rewrite Hb. change (drop PTP_PAYLOAD_OFFSET buf) with payload.
  rewrite take_ge; [done|]. unfold PTP_PAYLOAD_OFFSET. lia.
Qed.

Lemma contains_const b c : 0 <= b < 2 ^ 16 →
  mf_bits (mf_const (F := F) c) = c →
  mf_contains (mf_from_bits_truncate b) (mf_const (F := F) c)
  = (Z.land (Z.land b (Z.lor TWO_STEP_bits PTP_TIMESCALE_bits)) c =? c).
Proof. intros Hb Hc. rewrite mf_contains_bits, Hc, mf_truncate_bits by done. done. Qed.

Lemma payload_timestamp_image field t : TimeStamp_wf t →
  ∀ rest, payload_timestamp field (ts_image t ++ rest) = Done (Ok t).
Proof.
  intros Ht rest. unfold payload_timestamp, get_range.
  rewrite length_app, length_ts_image.
  rewrite (proj2 (Nat.leb_le 10 _)) by lia. cbn [Nat.leb andb ok_or mbind PR_bind].
  assert (slice 0 10 (ts_image t ++ rest) = ts_image t) as -> by reflexivity.
  change (try_into 10 (ts_image t)) with (Some (ts_image t)). cbn [ok_or mbind PR_bind].
  by rewrite (WireTimeStamp_timestamp_image t Ht).
Qed.

Lemma flags_empty_bits : mf_bits (mf_empty (F := F)) = 0.
Proof. apply mf_empty_bits. Qed.

Lemma timescale_flag_bits s : 0 <= mf_bits (timescale_flag (F := F) s) < 2 ^ 16.
Proof.
  destruct s; simpl; [rewrite mf_PTP_TIMESCALE_bits; done | rewrite mf_empty_bits; done].
Qed.

Lemma EventMessage_roundtrip_eq dom src m :
  PortIdentity_wf src → EventMessage_wf m →
  let buf := event_image (F := F) dom src m in
  length buf = 44%nat ∧ length_checked_v2 buf = Done (Ok buf) ∧
  MessageHeader_domain_number buf = Done dom ∧
  parse_event (F := F) buf = Done (Ok (src, m)).
Proof.
  intros Hsrc Hwf. cbv zeta. unfold parse_event.
  destruct m as [[seq]|[seq l t]|[seq l]]; cbn [event_image dr_sequence_id os_sequence_id
    tw_sequence_id os_log_message_interval tw_log_message_interval os_origin_timestamp].
  - destruct (header_image_fields 44 MT_DelayRequest dom (mf_bits (F := F) mf_empty) src seq
      CF_DelayRequest LogMessageInterval_unspecified (replicate 10 0))
      as (Hl & Hc & Hd & Hs & Ht & Hq & Hf & Hm & Hp);
      [done | done | by rewrite mf_empty_bits | done | done | by unfold LogMessageInterval_wf |].
    do 3 (split; [done|]). by rewrite Hs, Ht, Hq, Hf, Hm, Hp.
  - destruct Hwf as (Hseq & Hlm & Hts).
    destruct (header_image_fields 44 MT_Sync dom (mf_bits (F := F) mf_empty) src seq
      CF_Sync l (ts_image t))
      as (Hl & Hc & Hd & Hs & Ht & Hq & Hf & Hm & Hp);
      [done | done | by rewrite mf_empty_bits | done | done | done |].
    do 3 (split; [done|]). rewrite Hs, Ht, Hq, Hf, Hm, Hp.
    cbn [lift_outcome mbind PR_bind]. rewrite mf_empty_bits.
    unfold EventMessage_new, MessageFlags_TWO_STEP.
    rewrite contains_const by (done || apply mf_TWO_STEP_bits).
    unfold SyncPayload_origin_timestamp.
    rewrite <- (app_nil_r (ts_image t)), payload_timestamp_image by done. done.
  - destruct Hwf as (Hseq & Hlm).
    destruct (header_image_fields 44 MT_Sync dom (mf_bits (F := F) MessageFlags_TWO_STEP) src seq
      CF_Sync l (replicate 10 0))
      as (Hl & Hc & Hd & Hs & Ht & Hq & Hf & Hm & Hp);
      [done | done | by rewrite mf_TWO_STEP_bits | done | done | done |].
    do 3 (split; [done|]). rewrite Hs, Ht, Hq, Hf, Hm, Hp.
    cbn [lift_outcome mbind PR_bind]. rewrite mf_TWO_STEP_bits.
    unfold EventMessage_new, MessageFlags_TWO_STEP.
    rewrite contains_const by (done || apply mf_TWO_STEP_bits). done.
Qed.
End roundtrip.

Section general_roundtrip.
  Context `{HF : MessageFlagsOps F} `{HFL : !MessageFlagsLaws F}.

Lemma timescale_of_flag s :
  (if mf_contains (mf_from_bits_truncate (mf_bits (timescale_flag (F := F) s)))
        MessageFlags_PTP_TIMESCALE then Ptp else Arb) = s.
Proof.
  unfold MessageFlags_PTP_TIMESCALE.
  rewrite contains_const by (apply timescale_flag_bits || apply mf_PTP_TIMESCALE_bits).
  destruct s; simpl; [rewrite mf_PTP_TIMESCALE_bits | rewrite mf_empty_bits]; done.
Qed.

Lemma length_ClockDS_image d : ClockDS_wf d → length (ClockDS_image d) = 16%nat.
Proof.
  destruct d as [[id] p1 p2 q sr]. intros ([Hl _] & _); simpl in Hl. split_list id Hl. done.
Qed.

Lemma foreign_clock_ds_image d rest : ClockDS_wf d →
  AnnouncePayload_foreign_clock_ds (replicate 13 0 ++ ClockDS_image d ++ rest) = Done (Ok d).
Proof.
  intros Hd. unfold AnnouncePayload_foreign_clock_ds, get_range.
  pose proof (length_ClockDS_image d Hd) as Hl.
  rewrite !length_app, Hl. rewrite (proj2 (Nat.leb_le 29 _)) by (simpl; lia).
  cbn [Nat.leb andb ok_or mbind PR_bind].
  assert (slice 13 29 (replicate 13 0 ++ ClockDS_image d ++ rest) = ClockDS_image d) as ->.
  { unfold slice. rewrite drop_app_length' by done. rewrite take_app_length' by done. done. }
  unfold try_into. rewrite Hl. cbn [Nat.eqb ok_or mbind PR_bind].
  by rewrite ClockDS_from_wire_image.
Qed.

Lemma requesting_port_identity_image t pid : PortIdentity_wf pid →
  DelayResponsePayload_requesting_port_identity
    (ts_image t ++ ci_id (pi_clock_identity pid) ++ to_be 2 (pn_value (pi_port_number pid)))
  = Done (Ok pid).
Proof.
  destruct pid as [[id] [p]]. intros [[Hl _] Hp]; simpl in Hl. split_list id Hl. clear Hl.
  destruct (to_be_2 p) as (p1 & p2 & Ep & Fp); [exact Hp|].
  cbn [ci_id pi_clock_identity pi_port_number pn_value]. rewrite Ep.
  pose proof (length_ts_image t) as E. revert E. generalize (ts_image t). intros l E.
  split_list l E. clear E. unfold DelayResponsePayload_requesting_port_identity.
  cbn -[from_be PortIdentity_from_wire]. rewrite PortIdentity_from_wire_Done by done.
  cbn -[from_be]. by rewrite Fp.
Qed.

Lemma GeneralMessage_roundtrip_eq dom src m :
  PortIdentity_wf src → GeneralMessage_wf m →
  let buf := general_image (F := F) dom src m in
  length buf = match m with Announce _ => 64 | DelayResp _ => 54 | FollowUp _ => 44 end%nat ∧
  length_checked_v2 buf = Done (Ok buf) ∧
  MessageHeader_domain_number buf = Done dom ∧
  parse_general (F := F) buf = Done (Ok (src, m)).
Proof.
  intros Hsrc Hwf. cbv zeta. unfold parse_general.
  destruct m as [[seq l ds sc]|[seq l t pid]|[seq l t]]; cbn [general_image an_sequence_id
    an_log_message_interval an_foreign_clock_ds an_ptp_timescale ds_sequence_id
    ds_log_message_interval ds_receive_timestamp ds_requesting_port_identity
    fu_sequence_id fu_log_message_interval fu_precise_origin_timestamp].
  - destruct Hwf as (Hseq & Hlm & Hds).
    destruct (header_image_fields 64 MT_Announce dom (mf_bits (timescale_flag (F := F) sc)) src seq
      CF_Other l (replicate 13 0 ++ ClockDS_image ds ++ [0]))
      as (Hl & Hc & Hd & Hs & Ht & Hq & Hf & Hm & Hp);
      [ | done | apply timescale_flag_bits | done | done | done |].
    { by rewrite !length_app, length_ClockDS_image. }
    split; [by rewrite Hl, !length_app, length_ClockDS_image|].
    do 2 (split; [done|]). rewrite Hs, Ht, Hq, Hf, Hm, Hp.
    cbn [lift_outcome mbind PR_bind GeneralMessage_new].
    rewrite foreign_clock_ds_image by done. cbn [mbind PR_bind].
    by rewrite timescale_of_flag.
  - destruct Hwf as (Hseq & Hlm & Hts & Hpid).
    cbn [ds_requesting_port_identity ds_receive_timestamp ds_sequence_id ds_log_message_interval]
      in Hpid, Hseq, Hlm, Hts.
    destruct (header_image_fields 54 MT_DelayResponse dom (mf_bits (F := F) mf_empty) src seq
      CF_DelayResponse l (ts_image t ++ ci_id (pi_clock_identity pid) ++
                          to_be 2 (pn_value (pi_port_number pid))))
      as (Hl & Hc & Hd & Hs & Ht & Hq & Hf & Hm & Hp);
      [ | done | by rewrite mf_empty_bits | done | done | done |].
    { destruct Hpid as [[Hid _] _]. rewrite !length_app, Hid, length_ts_image. done. }
    split. { rewrite Hl. destruct Hpid as [[Hid _] _].
      rewrite !length_app, Hid, length_ts_image. done. }
    do 2 (split; [done|]). rewrite Hs, Ht, Hq, Hf, Hm, Hp.
    cbn [lift_outcome mbind PR_bind GeneralMessage_new].
    unfold DelayResponsePayload_receive_timestamp. rewrite payload_timestamp_image by done.
    cbn [mbind PR_bind]. by rewrite requesting_port_identity_image.
  - destruct Hwf as (Hseq & Hlm & Hts).
    destruct (header_image_fields 44 MT_FollowUp dom (mf_bits (F := F) mf_empty) src seq
      CF_FollowUp l (ts_image t))
      as (Hl & Hc & Hd & Hs & Ht & Hq & Hf & Hm & Hp);
      [done | done | by rewrite mf_empty_bits | done | done | done |].
    do 3 (split; [done|]). rewrite Hs, Ht, Hq, Hf, Hm, Hp.
    cbn [lift_outcome mbind PR_bind GeneralMessage_new].
    unfold FollowUpPayload_precise_origin_timestamp.
    rewrite <- (app_nil_r (ts_image t)), payload_timestamp_image by done. done.
Qed.
End general_roundtrip.

(** ** A concrete flag set *)

(** The bits themselves. *)
Definition FlagBits : Type := Z.

#[export] Instance FlagBits_ops : MessageFlagsOps FlagBits := {
  mf_empty := 0;
  mf_const b := b;
  mf_bits f := f;
  mf_from_bits_truncate b := Z.land b (Z.lor TWO_STEP_bits PTP_TIMESCALE_bits);
  mf_contains f g := Z.land f g =? g;
}.

#[export] Instance FlagBits_laws : MessageFlagsLaws FlagBits.
Proof. split; done. Qed.

(** ** Properties *)

(** C22: Serializing any well-formed event message yields a 44-byte datagram that passes the
    length check and parses back to the same message, sender and domain. *)
Theorem event_message_roundtrip `{MessageFlagsOps F} `{!MessageFlagsLaws F} dom src m :
  PortIdentity_wf src → EventMessage_wf m →
  ∃ buf, (MessageBuffer_new PtpVersion_V2 dom src ≫= EventMessage_to_wire (F := F) m) = Done buf ∧
    length buf = 44%nat ∧ length_checked_v2 buf = Done (Ok buf) ∧
    MessageHeader_domain_number buf = Done dom ∧
    parse_event (F := F) buf = Done (Ok (src, m)).
Proof.
  intros Hsrc Hm. exists (event_image (F := F) dom src m).
  split; [apply EventMessage_to_wire_eq, Hsrc | by apply EventMessage_roundtrip_eq].
Qed.

(** C21: Serializing any well-formed general message yields a datagram of the exact length for its
    type that passes the length check and parses back to the same message, sender and domain. *)
Theorem general_message_roundtrip `{MessageFlagsOps F} `{!MessageFlagsLaws F} dom src m :
  PortIdentity_wf src → GeneralMessage_wf m →
  ∃ buf, (MessageBuffer_new PtpVersion_V2 dom src ≫= GeneralMessage_to_wire (F := F) m) = Done buf ∧
    length buf = match m with Announce _ => 64 | DelayResp _ => 54 | FollowUp _ => 44 end%nat ∧
    length_checked_v2 buf = Done (Ok buf) ∧
    MessageHeader_domain_number buf = Done dom ∧
    parse_general (F := F) buf = Done (Ok (src, m)).
Proof.
  intros Hsrc Hm. exists (general_image (F := F) dom src m).
  split; [apply GeneralMessage_to_wire_eq; [apply Hsrc|done] | by apply GeneralMessage_roundtrip_eq].
Qed.

(** C23: On arbitrary bytes the length check and both parsers return a message or an error and
    never panic, and a parsed message satisfies the type invariants (48-bit seconds, nanoseconds
    below 10^9, canonical enumerations). *)
Theorem parsing_never_panics `{MessageFlagsOps F} (buf : list Z) : Forall is_byte buf →
  pr_ok (λ b, b = buf ∧
           pr_ok (λ r, PortIdentity_wf r.1 ∧ EventMessage_wf r.2) (parse_event (F := F) b) ∧
           pr_ok (λ r, PortIdentity_wf r.1 ∧ GeneralMessage_wf r.2) (parse_general (F := F) b) ∧
           ∃ d, MessageHeader_domain_number b = Done d ∧ DomainNumber_wf d)
    (length_checked_v2 buf).
Proof.
  intros Hb. destruct (Nat.ltb_spec (length buf) 34) as [Hl|Hl].
  - unfold length_checked_v2, PTP_HEADER_LEN. by rewrite (proj2 (Nat.ltb_lt _ _) Hl).
  - rewrite length_checked_v2_eq by done. cbv zeta. do 2 (case_match; [done|]). simpl.
    auto using parse_event_ok, parse_general_ok, header_domain_number_ok.
Qed.

(** ** Witnesses *)

Definition w_dom := mkDomainNumber 3.
Definition w_src := sample_port 7 2.
Definition w_ts := mkTimeStamp 1700000000 999999999.

Lemma event_message_roundtrip_witness :
  ∃ buf, (MessageBuffer_new PtpVersion_V2 w_dom w_src ≫=
          EventMessage_to_wire (F := FlagBits)
            (OneStepSync (mkOneStepSyncMessage (mkSequenceId 65535) (mkLogMessageInterval (-3)) w_ts)))
         = Done buf ∧
    length buf = 44%nat ∧ length_checked_v2 buf = Done (Ok buf) ∧
    MessageHeader_domain_number buf = Done w_dom ∧
    parse_event (F := FlagBits) buf
    = Done (Ok (w_src, OneStepSync (mkOneStepSyncMessage (mkSequenceId 65535)
                                      (mkLogMessageInterval (-3)) w_ts))).
Proof. apply (event_message_roundtrip (F := FlagBits)); wf_concrete. Defined.

Lemma general_message_roundtrip_witness :
  let m := Announce (mkAnnounceMessage (mkSequenceId 42) (mkLogMessageInterval 1)
                       (sample_ds 9 100 3) Ptp) in
  ∃ buf, (MessageBuffer_new PtpVersion_V2 w_dom w_src ≫= GeneralMessage_to_wire (F := FlagBits) m)
         = Done buf ∧
    length buf = 64%nat ∧ length_checked_v2 buf = Done (Ok buf) ∧
    MessageHeader_domain_number buf = Done w_dom ∧
    parse_general (F := FlagBits) buf = Done (Ok (w_src, m)).
Proof. apply (general_message_roundtrip (F := FlagBits)); wf_concrete. Defined.

Lemma parsing_never_panics_witness :
  pr_ok (λ b, b = w_mismatch ∧
           pr_ok (λ r, PortIdentity_wf r.1 ∧ EventMessage_wf r.2) (parse_event (F := FlagBits) b) ∧
           pr_ok (λ r, PortIdentity_wf r.1 ∧ GeneralMessage_wf r.2) (parse_general (F := FlagBits) b) ∧
           ∃ d, MessageHeader_domain_number b = Done d ∧ DomainNumber_wf d)
    (length_checked_v2 w_mismatch).
Proof. apply (parsing_never_panics (F := FlagBits)). wf_concrete. Defined.
