(* ===== verification/Effects.v ===== *)
(** * Ports and their effects (crates/rptp/src/port.rs, log.rs, timestamping.rs)

    What a port does to its collaborators is recorded as a trace of effects; the monad [M S]
    threads the trace and the state [S] the clock shares between its ports, and may panic.
    The infrastructure (physical port, timer host, clock, transmit timestamping, log, metrics)
    is outside src/'s core: its answers (send results, time scale) come from the class [Env],
    as functions of the trace so far. [DomainPort] is the source's [Port] implementation. *)

From S2P Require Import Prelude Errors Time Clock PortId DataSet Foreign Wire Message.
From Stdlib Require Export Floats.SpecFloat.

Open Scope Z_scope.

(** ** Events, timeouts and effects *)

Inductive PortEvent :=
| PE_Initialized
| PE_RecommendedSlave (parent : ParentPortIdentity)
| PE_RecommendedMaster
| PE_MasterClockSelected (parent : ParentPortIdentity)
| PE_AnnounceReceiptTimeout
| PE_QualifiedMaster
| PE_SynchronizationFault
| PE_MessageReceived (s : string)
| PE_MessageSent (s : string)
| PE_Static (s : string).

(** A handle returned by [TimerHost::timeout]: its identity and the message it carries. *)
Record Timeout := mkTimeout { th_id : nat; th_msg : SystemMessage }.

#[export] Instance EventMessage_eq_dec : EqDecision EventMessage.
Proof. unfold EqDecision, Decision. repeat decide equality. Defined.
#[export] Instance StateDecisionSnapshot_eq_dec : EqDecision StateDecisionSnapshot.
Proof. solve_decision. Defined.
#[export] Instance TimestampMessage_eq_dec : EqDecision TimestampMessage.
Proof. solve_decision. Defined.
#[export] Instance SystemMessage_eq_dec : EqDecision SystemMessage.
Proof. solve_decision. Defined.
#[export] Instance Timeout_eq_dec : EqDecision Timeout.
Proof. solve_decision. Defined.

Inductive Effect :=
| E_Log (port : PortIdentity) (event : PortEvent)
| E_NewTimeout (t : Timeout)
| E_Restart (t : Timeout) (after : Duration)
| E_RestartWithMessage (t : Timeout) (msg : SystemMessage) (after : Duration)
| E_SendEvent (port : PortIdentity) (bytes : list Z) (ok : bool)
| E_SendGeneral (port : PortIdentity) (bytes : list Z) (ok : bool)
| E_StampEgress (port : PortIdentity) (msg : EventMessage)
| E_ClockStep (to : TimeStamp)
| E_ClockAdjust (rate : spec_float)
| E_Metric (offset : TimeInterval).

Record World (S : Type) := mkWorld { w_trace : list Effect; w_shared : S }.
Arguments mkWorld {S}.
Arguments w_trace {S}.
Arguments w_shared {S}.

(** ** The monad *)

Definition M (S A : Type) : Type := World S → outcome (A * World S).

#[export] Instance M_ret {S} : MRet (M S) := λ A a w, Done (a, w).
#[export] Instance M_bind {S} : MBind (M S) := λ A B f m w,
  match m w with
  | Done (a, w) => f a w
  | Panic => Panic
  end.

Definition lift {S A} (m : outcome A) : M S A := λ w,
  match m with Done a => Done (a, w) | Panic => Panic end.
Definition panic {S A} : M S A := λ _, Panic.
Definition emit {S} (e : Effect) : M S unit := λ w,
  Done (tt, mkWorld (w_trace w ++ [e]) (w_shared w)).
Definition get_trace {S} : M S (list Effect) := λ w, Done (w_trace w, w).
Definition get_shared {S} : M S S := λ w, Done (w_shared w, w).
Definition put_shared {S} (s : S) : M S unit := λ w, Done (tt, mkWorld (w_trace w) s).

(** ** The infrastructure's answers *)

Class Env := {
  env_send_ok : list Effect → PortIdentity → list Z → bool;
  env_time_scale : list Effect → TimeScale;
}.

(** An infrastructure that takes every datagram, on the PTP time scale. *)
Definition always_sends : Env := {|
  env_send_ok _ _ _ := true;
  env_time_scale _ := Ptp;
|}.

(** [PhysicalPort::send_*] returns [Result<(), SendError>]. *)
Inductive SendError := mkSendError.
Definition SendResult : Type := result () SendError.

(** ** Timeouts *)

Definition new_timeout {S} (msg : SystemMessage) : M S Timeout :=
  tr ← get_trace;
  let t := mkTimeout (length tr) msg in
  _ ← emit (E_NewTimeout t);
  mret t.

Definition Timeout_restart {S} (t : Timeout) (timeout : Duration) : M S unit :=
  emit (E_Restart t timeout).

Definition Timeout_restart_with_message {S} (t : Timeout) (msg : SystemMessage)
    (timeout : Duration) : M S unit :=
  emit (E_RestartWithMessage t msg timeout).

Record AnnounceReceiptTimeout := mkAnnounceReceiptTimeout {
  art_timeout : Timeout;
  art_interval : Duration;
}.

Definition AnnounceReceiptTimeout_restart {S} (self : AnnounceReceiptTimeout) : M S unit :=
  Timeout_restart (art_timeout self) (art_interval self).

(** ** DomainPort *)

Record DomainPort := mkDomainPort {
  dp_port_identity : PortIdentity;
  dp_domain_number : DomainNumber;
}.

Section domain_port.
  Context {F : Type} `{HF : !MessageFlagsOps F} `{HE : !Env} {S : Type}.

Definition DomainPort_log (event : PortEvent) (self : DomainPort) : M S unit :=
  emit (E_Log (dp_port_identity self) event).

Definition DomainPort_time_scale (self : DomainPort) : M S TimeScale :=
  tr ← get_trace; mret (env_time_scale tr).

Definition DomainPort_timeout (msg : SystemMessage) (self : DomainPort) : M S Timeout :=
  new_timeout msg.

Definition DomainPort_send_event (msg : EventMessage) (self : DomainPort) : M S SendResult :=
  buf ← lift (MessageBuffer_new PtpVersion_V2 (dp_domain_number self) (dp_port_identity self));
  finalized ← lift (EventMessage_to_wire (F := F) msg buf);
  tr ← get_trace;
  let ok := env_send_ok tr (dp_port_identity self) finalized in
  _ ← emit (E_SendEvent (dp_port_identity self) finalized ok);
  if ok then
    _ ← emit (E_StampEgress (dp_port_identity self) msg);
    mret (Ok ())
  else mret (Err mkSendError).

Definition DomainPort_send_general (msg : GeneralMessage) (self : DomainPort) : M S SendResult :=
  buf ← lift (MessageBuffer_new PtpVersion_V2 (dp_domain_number self) (dp_port_identity self));
  finalized ← lift (GeneralMessage_to_wire (F := F) msg buf);
  tr ← get_trace;
  let ok := env_send_ok tr (dp_port_identity self) finalized in
  _ ← emit (E_SendGeneral (dp_port_identity self) finalized ok);
  mret (if ok then Ok () else Err mkSendError).
End domain_port.

(** ** Postconditions of panicking, effectful code *)

Section wp.
  Context {S : Type}.

(** The computation returns, in a world and with a value that satisfy [Q]. *)
Definition wp {A} (m : M S A) (Q : A → World S → Prop) (w : World S) : Prop :=
  match m w with Done (a, w') => Q a w' | Panic => False end.

Lemma wp_ret {A} (a : A) Q w : Q a w → wp (mret a) Q w.
Proof. done. Qed.

Lemma wp_bind {A B} (m : M S A) (f : A → M S B) Q w :
  wp m (λ a w', wp (f a) Q w') w → wp (m ≫= f) Q w.
Proof. unfold wp, mbind, M_bind. destruct (m w) as [[a w']|]; done. Qed.

Lemma wp_mono {A} (m : M S A) (Q Q' : A → World S → Prop) w :
  wp m Q w → (∀ a w', Q a w' → Q' a w') → wp m Q' w.
Proof. unfold wp. destruct (m w) as [[a w']|]; auto. Qed.

Lemma wp_lift {A} (o : outcome A) a Q w : o = Done a → Q a w → wp (lift o) Q w.
Proof. by intros ->. Qed.

Lemma wp_emit e (Q : unit → World S → Prop) w :
  Q tt (mkWorld (w_trace w ++ [e]) (w_shared w)) → wp (emit e) Q w.
Proof. done. Qed.

Lemma wp_get_trace (Q : list Effect → World S → Prop) w : Q (w_trace w) w → wp get_trace Q w.
Proof. done. Qed.

Lemma wp_get_shared (Q : S → World S → Prop) w : Q (w_shared w) w → wp get_shared Q w.
Proof. done. Qed.

Lemma wp_put_shared s (Q : unit → World S → Prop) w :
  Q tt (mkWorld (w_trace w) s) → wp (put_shared s) Q w.
Proof. done. Qed.

Lemma wp_Done {A} (m : M S A) Q w : wp m Q w ↔ ∃ a w', m w = Done (a, w') ∧ Q a w'.
Proof.
  unfold wp. destruct (m w) as [[a w']|]; [|split; [done | by intros (? & ? & ? & _)]].
  split; [intros H; by exists a, w' | by intros (? & ? & [= <- <-] & H)].
Qed.

(** The computation returns, leaves the shared state alone and appends effects of class [P]. *)
Definition quiet {A} (P : Effect → Prop) (R : A → Prop) (m : M S A) : Prop :=
  ∀ w, wp m (λ a w', w_shared w' = w_shared w ∧ R a ∧
                     ∃ es, w_trace w' = w_trace w ++ es ∧ Forall P es) w.

Lemma quiet_ret {A} P (R : A → Prop) a : R a → quiet P R (mret a).
Proof. intros H w. apply wp_ret. do 2 (split; [done|]). exists []. by rewrite app_nil_r. Qed.

Lemma quiet_bind {A B} P (R : A → Prop) (R' : B → Prop) (m : M S A) (f : A → M S B) :
  quiet P R m → (∀ a, R a → quiet P R' (f a)) → quiet P R' (m ≫= f).
Proof.
  intros Hm Hf w. apply wp_bind. eapply wp_mono; [apply Hm|]. simpl.
  intros a w' (Hs & HR & es & Ht & HP). eapply wp_mono; [by apply Hf|]. simpl.
  intros b w'' (Hs' & HR' & es' & Ht' & HP'). split; [congruence|]. split; [done|].
  exists (es ++ es'). rewrite Ht', Ht, app_assoc. split; [done|]. by apply Forall_app.
Qed.

Lemma quiet_emit (P : Effect → Prop) e : P e → quiet P (λ _, True) (emit e).
Proof. intros H w. apply wp_emit. do 2 (split; [done|]). exists [e]. split; [done|]. by constructor. Qed.

Lemma quiet_lift {A} P (R : A → Prop) (o : outcome A) a : o = Done a → R a → quiet P R (lift o).
Proof.
  intros E H w. eapply wp_lift; [done|]. do 2 (split; [done|]). exists [].
  by rewrite app_nil_r.
Qed.

Lemma quiet_get_trace P : quiet P (λ _, True) get_trace.
Proof. intros w. apply wp_get_trace. do 2 (split; [done|]). exists []. by rewrite app_nil_r. Qed.

Lemma quiet_impl {A} (P P' : Effect → Prop) (R R' : A → Prop) (m : M S A) :
  (∀ e, P e → P' e) → (∀ a, R a → R' a) → quiet P R m → quiet P' R' m.
Proof.
  intros HP HR Hm w. eapply wp_mono; [apply Hm|]. simpl.
  intros a w' (Hs & Ha & es & Ht & He). split; [done|]. split; [auto|].
  exists es. split; [done|]. eapply Forall_impl; [done|]. auto.
Qed.
End wp.

(** ** Safety under a shared invariant *)

(** From a world whose shared state satisfies [I], the computation returns a value satisfying
    [R], re-establishes [I], and appends effects that satisfy [P]. *)
Definition safe {S A} (I : S → Prop) (P : Effect → Prop) (R : A → Prop) (m : M S A) : Prop :=
  ∀ w, I (w_shared w) →
    wp m (λ a w', I (w_shared w') ∧ R a ∧ ∃ es, w_trace w' = w_trace w ++ es ∧ Forall P es) w.

Section safe.
  Context {S : Type} (I : S → Prop) (P : Effect → Prop).

Lemma safe_ret {A} (R : A → Prop) a : R a → safe I P R (mret a).
Proof.
  intros H w Hw. apply wp_ret. do 2 (split; [done|]). exists []. by rewrite app_nil_r.
Qed.

Lemma safe_bind {A B} (R : A → Prop) (R' : B → Prop) (m : M S A) (f : A → M S B) :
  safe I P R m → (∀ a, R a → safe I P R' (f a)) → safe I P R' (m ≫= f).
Proof.
  intros Hm Hf w Hw. apply wp_bind. eapply wp_mono; [by apply Hm|]. simpl.
  intros a w' (Hw' & HR & es & E & Hes). eapply wp_mono; [by apply Hf|]. simpl.
  intros b w'' (Hw'' & HR' & es' & E' & Hes'). split; [done|]. split; [done|].
  exists (es ++ es'). rewrite E', E, app_assoc. split; [done|]. by apply Forall_app.
Qed.

Lemma safe_impl {A} (R R' : A → Prop) (m : M S A) :
  safe I P R m → (∀ a, R a → R' a) → safe I P R' m.
Proof.
  intros Hm HR w Hw. eapply wp_mono; [by apply Hm|]. simpl. intros a w' (? & ? & ?). auto.
Qed.

Lemma safe_quiet {A} (P' : Effect → Prop) (R : A → Prop) (m : M S A) :
  (∀ e, P' e → P e) → quiet P' R m → safe I P R m.
Proof.
  intros HP Hm w Hw. eapply wp_mono; [apply Hm|]. simpl. intros a w' (E & HR & es & Et & Hes).
  split; [by rewrite E|]. split; [done|]. exists es. split; [done|].
  by eapply Forall_impl.
Qed.

Lemma safe_emit e : P e → safe I P (λ _, True) (emit e).
Proof.
  intros He w Hw. apply wp_emit. do 2 (split; [done|]). exists [e]. split; [done|].
  by constructor.
Qed.

Lemma safe_lift {A} (R : A → Prop) (o : outcome A) a : o = Done a → R a → safe I P R (lift o).
Proof.
  intros E H w Hw. eapply wp_lift; [done|]. do 2 (split; [done|]). exists [].
  by rewrite app_nil_r.
Qed.

Lemma safe_get_trace : safe I P (λ _, True) get_trace.
Proof.
  intros w Hw. apply wp_get_trace. do 2 (split; [done|]). exists []. by rewrite app_nil_r.
Qed.

(** A step whose value does not matter. *)
Lemma safe_then {A B} (R' : B → Prop) (m : M S A) (k : M S B) :
  safe I P (λ _, True) m → safe I P R' k → safe I P R' (_ ← m; k).
Proof. intros Hm Hk. by eapply safe_bind. Qed.

Lemma safe_emit_then {B} (R' : B → Prop) e (k : M S B) :
  P e → safe I P R' k → safe I P R' (_ ← emit e; k).
Proof. intros He Hk. by apply safe_then; [apply safe_emit|]. Qed.

Lemma safe_new_timeout msg :
  (∀ n, P (E_NewTimeout (mkTimeout n msg))) →
  safe I P (λ t, th_msg t = msg) (new_timeout msg).
Proof.
  intros HP. eapply safe_bind; [apply safe_get_trace|]. intros tr _.
  apply safe_emit_then; [apply HP | by apply safe_ret].
Qed.
End safe.

(** ** The effects of a computation *)

(** Every effect of the computation, if it returns, satisfies [P]. *)
Definition emits {S A} (P : Effect → Prop) (m : M S A) : Prop :=
  ∀ w, match m w with
       | Done (_, w') => ∃ es, w_trace w' = w_trace w ++ es ∧ Forall P es
       | Panic => True
       end.

Section emits.
  Context {S : Type} (P : Effect → Prop).

Lemma emits_ret {A} (a : A) : emits (S := S) P (mret a).
Proof. intros w. exists []. by rewrite app_nil_r. Qed.

(** The continuation need only be good for values the first part returns. *)
Lemma emits_bind_eq {A B} (m : M S A) (f : A → M S B) :
  emits P m → (∀ a w w', m w = Done (a, w') → emits P (f a)) → emits P (m ≫= f).
Proof.
  intros Hm Hf w. specialize (Hm w). unfold mbind, M_bind.
  destruct (m w) as [[a w1]|] eqn:Em; [|done].
  destruct Hm as (es & E & H). specialize (Hf a w w1 Em w1). destruct (f a w1) as [[b w2]|]; [|done].
  destruct Hf as (es' & E' & H'). exists (es ++ es'). rewrite E', E, app_assoc. split; [done|].
  by apply Forall_app.
Qed.

Lemma emits_bind {A B} (m : M S A) (f : A → M S B) :
  emits P m → (∀ a, emits P (f a)) → emits P (m ≫= f).
Proof. intros Hm Hf. by apply emits_bind_eq; [|intros a _ _ _]. Qed.

Lemma emits_emit e : P e → emits (S := S) P (emit e).
Proof. intros H w. exists [e]. split; [done|]. by constructor. Qed.

Lemma emits_lift {A} (o : outcome A) : emits (S := S) P (lift o).
Proof. intros w. unfold lift. destruct o; [|done]. exists []. by rewrite app_nil_r. Qed.

Lemma emits_panic {A} : emits (S := S) (A := A) P panic.
Proof. done. Qed.

Lemma emits_get_trace : emits (S := S) P get_trace.
Proof. intros w. exists []. by rewrite app_nil_r. Qed.

Lemma emits_get_shared : emits (S := S) P get_shared.
Proof. intros w. exists []. by rewrite app_nil_r. Qed.

Lemma emits_put_shared s : emits (S := S) P (put_shared s).
Proof. intros w. exists []. by rewrite app_nil_r. Qed.
End emits.

Create HintDb emits.
#[export] Hint Resolve emits_ret emits_lift emits_panic emits_get_trace emits_get_shared
  emits_put_shared : emits.

(** Walk through a computation down to its effects. *)
Ltac emits :=
  repeat lazymatch goal with
  | |- emits _ (mbind _ _) => apply emits_bind; [|intros]
  | |- emits _ (match ?x with _ => _ end) => destruct x
  | |- emits _ (let '(_, _) := ?x in _) => destruct x
  | |- emits _ (emit _) => apply emits_emit; exact Logic.I
  | |- emits _ _ => solve [auto with emits]
  end.

(** ** What a port may do to its collaborators *)

(** What all ports of one clock share: the clock's identity, the domain, the announce receipt
    timeout interval, and whether their servo may adjust the clock's rate. *)
Record PortContract := mkPortContract {
  pc_clock : ClockIdentity;
  pc_domain : DomainNumber;
  pc_receipt : Duration;
  pc_steered : bool;
}.

(** A datagram is the image of a well-formed message of the sender, and a transmit timestamp is
    requested only for a well-formed message; timeouts carry well-formed messages, an announce
    receipt timeout runs for the clock's interval, and only state decision events are delivered
    by way of [restart_with_message], immediately. *)
Definition effect_ok {F} `{MessageFlagsOps F} (k : PortContract) (e : Effect) : Prop :=
  match e with
  | E_NewTimeout t => SystemMessage_wf (th_msg t)
  | E_Restart t d =>
      match th_msg t with
      | SM_AnnounceReceiptTimeout => d = pc_receipt k
      | SM_StateDecisionEvent _ => False
      | _ => True
      end
  | E_RestartWithMessage t msg d =>
      d = mkDuration 0 ∧ (∃ s, th_msg t = SM_StateDecisionEvent s) ∧
      (∃ s, msg = SM_StateDecisionEvent s) ∧ SystemMessage_wf msg
  | E_SendEvent p bytes _ => ∃ msg, EventMessage_wf msg ∧ PortIdentity_wf p ∧
      pi_clock_identity p = pc_clock k ∧
      bytes = event_image (F := F) (pc_domain k) p msg
  | E_SendGeneral p bytes _ => ∃ msg, GeneralMessage_wf msg ∧ PortIdentity_wf p ∧
      pi_clock_identity p = pc_clock k ∧
      bytes = general_image (F := F) (pc_domain k) p msg
  | E_StampEgress _ msg => EventMessage_wf msg
  | E_ClockStep to => TimeStamp_wf to
  | E_ClockAdjust _ => pc_steered k = true
  | E_Log _ _ | E_Metric _ => True
  end.

(** ** The port's own operations are safe *)

Definition DomainPort_wf (p : DomainPort) : Prop := PortIdentity_wf (dp_port_identity p).

(** A port of a clock. *)
Definition port_in (k : PortContract) (p : DomainPort) : Prop :=
  DomainPort_wf p ∧ dp_domain_number p = pc_domain k ∧
  pi_clock_identity (dp_port_identity p) = pc_clock k.

Section port_safe.
  Context `{HF : MessageFlagsOps F} `{HE : Env} {S : Type} (I : S → Prop) (k : PortContract).
Let P := effect_ok (F := F) k.

Lemma send_event_safe msg p : port_in k p → EventMessage_wf msg →
  safe I P (λ _, True) (DomainPort_send_event (F := F) msg p).
Proof.
  intros ([Hp ?] & Hd & Hc) Hm. unfold DomainPort_send_event. rewrite Hd.
  pose proof (EventMessage_to_wire_eq (F := F) msg (pc_domain k) _ Hp) as E.
  apply outcome_bind_inv in E as (buf & E1 & E2).
  eapply safe_bind; [by eapply (safe_lift I P (λ b, b = buf)); [exact E1|]|]. intros ? ->.
  eapply safe_bind; [by eapply (safe_lift I P (λ b, b = _)); [exact E2|]|]. intros ? ->.
  eapply safe_bind; [apply safe_get_trace|]. intros tr _. apply safe_emit_then.
  - by exists msg.
  - case_match; [|by apply safe_ret]. apply safe_emit_then; [exact Hm | by apply safe_ret].
Qed.

Lemma send_general_safe msg p : port_in k p → GeneralMessage_wf msg →
  safe I P (λ _, True) (DomainPort_send_general (F := F) msg p).
Proof.
  intros ([Hp ?] & Hd & Hc) Hm. unfold DomainPort_send_general. rewrite Hd.
  pose proof (GeneralMessage_to_wire_eq (F := F) msg (pc_domain k) _ Hp Hm) as E.
  apply outcome_bind_inv in E as (buf & E1 & E2).
  eapply safe_bind; [by eapply (safe_lift I P (λ b, b = buf)); [exact E1|]|]. intros ? ->.
  eapply safe_bind; [by eapply (safe_lift I P (λ b, b = _)); [exact E2|]|]. intros ? ->.
  eapply safe_bind; [apply safe_get_trace|]. intros tr _. apply safe_emit_then.
  - by exists msg.
  - by apply safe_ret.
Qed.

Lemma log_safe ev p : safe I P (λ _, True) (DomainPort_log ev p).
Proof. by apply safe_emit. Qed.

Lemma time_scale_safe p : safe I P (λ _, True) (DomainPort_time_scale p).
Proof. eapply safe_bind; [apply safe_get_trace|]. intros tr _. by apply safe_ret. Qed.
End port_safe.
