(* ===== verification/Texts.v ===== *)
(** * Texts (crates/rptp/src/result.rs, clock.rs, port.rs; crates/rptp-daemon/src/log.rs, node.rs; crates/rptp-embedded-demo/src/main.rs)

    What the program writes: the [Display] implementations of identities and errors, and the lines
    that the daemon's and the embedded demo's log sinks make of port events and of datagrams that
    are dropped. A line of the daemon has a level; where it goes is not modelled. *)

From S2P Require Import Prelude Errors Clock PortId DataSet Message Wire Effects.
From stdpp Require Import pretty.

Open Scope Z_scope.
#[local] Open Scope string_scope.

(** [format!("{}", _)]. *)
Class Display (A : Type) := to_string : A → string.

(** ** Numbers *)

#[export] Instance Z_Display : Display Z := pretty.
#[export] Instance nat_Display : Display nat := pretty.
#[export] Instance string_Display : Display string := λ s, s.

Definition hex_digit (n : Z) : Ascii.ascii :=
  Ascii.ascii_of_nat (Z.to_nat (if (n <? 10)%Z then 48 + n else 87 + n)).

(** [{:02x}] of a byte. *)
Definition hex_byte (b : Z) : string := String (hex_digit (b / 16)) (String (hex_digit (b mod 16)) "").

Lemma hex_digit_inj a b : 0 <= a < 16 → 0 <= b < 16 → hex_digit a = hex_digit b → a = b.
Proof.
  intros Ha Hb E. unfold hex_digit in E. apply (f_equal Ascii.nat_of_ascii) in E.
  destruct (Z.ltb_spec a 10), (Z.ltb_spec b 10); rewrite !Ascii.nat_ascii_embedding in E by lia; lia.
Qed.

Lemma hex_byte_inj a b : is_byte a → is_byte b →
  hex_digit (a / 16) = hex_digit (b / 16) → hex_digit (a mod 16) = hex_digit (b mod 16) → a = b.
Proof.
  unfold is_byte. intros Ha Hb H1 H2.
  apply hex_digit_inj in H1; [|split; [apply Z.div_pos | apply Z.div_lt_upper_bound]; lia..].
  apply hex_digit_inj in H2; [|apply Z.mod_pos_bound; lia..].
  rewrite (Z.div_mod a 16), (Z.div_mod b 16) by lia. congruence.
Qed.

(** ** Identities *)

(** [Display for ClockIdentity]. *)
Definition ClockIdentity_fmt (self : ClockIdentity) : string :=
  match ci_id self with
  | [b0; b1; b2; b3; b4; b5; b6; b7] =>
      hex_byte b0 +:+ hex_byte b1 +:+ hex_byte b2 +:+ "." +:+ hex_byte b3 +:+ hex_byte b4 +:+ "."
      +:+ hex_byte b5 +:+ hex_byte b6 +:+ hex_byte b7
  | _ => ""
  end.
#[export] Instance ClockIdentity_Display : Display ClockIdentity := ClockIdentity_fmt.

(** [Display for PortIdentity]. *)
Definition PortIdentity_fmt (self : PortIdentity) : string :=
  to_string (pi_clock_identity self) +:+ "-" +:+ to_string (pn_value (pi_port_number self)).
#[export] Instance PortIdentity_Display : Display PortIdentity := PortIdentity_fmt.

(** [Display for ParentPortIdentity]. *)
Definition ParentPortIdentity_fmt (self : ParentPortIdentity) : string :=
  to_string (ppi_identity self).
#[export] Instance ParentPortIdentity_Display : Display ParentPortIdentity := ParentPortIdentity_fmt.

(** ** Errors *)

(** [Display for ParseError]. *)
Definition ParseError_fmt (self : ParseError) : string :=
  match self with
  | HeaderTooShort found =>
      "message too short for PTP header: found " +:+ to_string found +:+ " bytes"
  | LengthMismatch declared actual =>
      "declared PTP length " +:+ to_string declared +:+ " does not match actual " +:+ to_string actual
  | PayloadTooShort field expected found =>
      "payload too short for field `" +:+ field +:+ "`: expected " +:+ to_string expected
      +:+ " bytes, found " +:+ to_string found
  end.
#[export] Instance ParseError_Display : Display ParseError := ParseError_fmt.

(** [Display for ProtocolError]. *)
Definition ProtocolError_fmt (self : ProtocolError) : string :=
  match self with
  | UnsupportedPtpVersion v => "unsupported PTP version " +:+ to_string v
  | DomainNotFound domain => "PTP domain " +:+ to_string domain +:+ " not found"
  | InvalidTimestamp nanos => "invalid timestamp nanoseconds " +:+ to_string nanos
  | UnknownMessageType t => "unknown message type nibble 0x" +:+ hex_byte t
  end.
#[export] Instance ProtocolError_Display : Display ProtocolError := ProtocolError_fmt.

(** [Display for Error]. *)
Definition Error_fmt (self : Error) : string :=
  match self with
  | Parse e => "parse error: " +:+ to_string e
  | Protocol e => "protocol error: " +:+ to_string e
  end.
#[export] Instance Error_Display : Display Error := Error_fmt.

(** ** The daemon's lines *)

(** [tracing]'s levels. *)
Inductive Level := TRACE | DEBUG | INFO | WARN.

(** [TracingPortLog::port_event]. *)
Definition TracingPortLog_port_event (port_identity : PortIdentity) (event : PortEvent)
    : Level * string :=
  let line level text := (level, to_string port_identity +:+ ": " +:+ text) in
  match event with
  | PE_Initialized => line INFO "Initialized"
  | PE_RecommendedSlave parent => line INFO ("Recommended Slave, parent " +:+ to_string parent)
  | PE_RecommendedMaster => line INFO "Recommended Master"
  | PE_MasterClockSelected parent =>
      line INFO ("Master Clock Selected, parent " +:+ to_string parent)
  | PE_AnnounceReceiptTimeout => line INFO "Announce Receipt Timeout"
  | PE_QualifiedMaster => line INFO "Qualified Master"
  | PE_SynchronizationFault => line WARN "Synchronization Fault"
  | PE_MessageReceived msg => line DEBUG ("Message Received: " +:+ msg)
  | PE_MessageSent msg => line DEBUG ("Message Sent: " +:+ msg)
  | PE_Static desc => line INFO desc
  end.

(** [NoopPortLog::port_event]. *)
Definition NoopPortLog_port_event (port_identity : PortIdentity) (event : PortEvent)
    : option (Level * string) := None.

(** A line about a dropped datagram, with the error it carries as a field. *)
Record RxLine := mkRxLine { rl_level : Level; rl_error : string; rl_text : string }.

(** [TokioPortsLoop::log_rx_error]. *)
Definition log_rx_error (label : string) (e : Error) : RxLine :=
  let line level text := mkRxLine level (to_string e) text in
  match e with
  | Protocol (DomainNotFound _) => line TRACE ("dropping " +:+ label +:+ " message for unknown domain")
  | Protocol (UnsupportedPtpVersion _) =>
      line TRACE ("dropping " +:+ label +:+ " message with unsupported PTP version")
  | Protocol (UnknownMessageType _) =>
      line TRACE ("dropping " +:+ label +:+ " message with unknown type")
  | Parse _ => line TRACE ("dropping " +:+ label +:+ " message with parse error")
  | _ => line DEBUG (label +:+ " message domain/protocol error")
  end.

(** What [process_datagram] logs of the result of an ingress. *)
Definition rx_line (label : string) (res : result () Error) : option RxLine :=
  match res with Err e => Some (log_rx_error label e) | Ok _ => None end.

(** ** The embedded demo's lines *)

(** [DemoPortLog::port_event]. *)
Definition DemoPortLog_port_event (port_identity : PortIdentity) (event : PortEvent) : string :=
  let line text := "[event] " +:+ to_string port_identity +:+ " " +:+ text in
  match event with
  | PE_Initialized => line "Initialized"
  | PE_RecommendedSlave parent => line ("RecommendedSlave parent=" +:+ to_string parent)
  | PE_RecommendedMaster => line "RecommendedMaster"
  | PE_MasterClockSelected parent => line ("MasterClockSelected parent=" +:+ to_string parent)
  | PE_AnnounceReceiptTimeout => line "AnnounceReceiptTimeout"
  | PE_QualifiedMaster => line "QualifiedMaster"
  | PE_SynchronizationFault => line "SynchronizationFault"
  | PE_MessageReceived msg => line ("MessageReceived " +:+ msg)
  | PE_MessageSent msg => line ("MessageSent " +:+ msg)
  | PE_Static msg => line msg
  end.

(** ** What the texts tell apart *)

(** Identities of eight bytes and a port number are written apart. *)
Lemma ClockIdentity_fmt_inj a b s t : ClockIdentity_wf a → ClockIdentity_wf b →
  ClockIdentity_fmt a +:+ s = ClockIdentity_fmt b +:+ t → a = b ∧ s = t.
Proof.
  destruct a as [a], b as [b]. unfold ClockIdentity_wf, ClockIdentity_fmt. cbn [ci_id].
  intros [La Ba] [Lb Bb] E.
  do 9 (destruct a as [|? a]; try done). do 9 (destruct b as [|? b]; try done).
  decompose_Forall_hyps.
  repeat match goal with
  | H : hex_digit (?x / 16) = hex_digit (?y / 16),
    H' : hex_digit (?x mod 16) = hex_digit (?y mod 16) |- _ =>
      apply (hex_byte_inj x y) in H; [|done..]; clear H'; subst
  end. done.
Qed.

Lemma PortIdentity_fmt_inj a b : ClockIdentity_wf (pi_clock_identity a) →
  ClockIdentity_wf (pi_clock_identity b) → PortIdentity_fmt a = PortIdentity_fmt b → a = b.
Proof.
  destruct a as [a [n]], b as [b [m]]. simpl. intros Ha Hb E. unfold PortIdentity_fmt in E.
  apply (ClockIdentity_fmt_inj a b) in E as [-> E]; [|done..]. injection E as E.
  change (pretty n = pretty m) in E. apply (inj pretty) in E. by subst.
Qed.

Example port_identity_text :
  to_string (mkPortIdentity (ClockIdentity_new [0x00; 0x1B; 0x19; 0xFF; 0xFE; 0x00; 0x00; 0x01])
               (PortNumber_new 12)) = "001b19.fffe.000001-12".
Proof. vm_compute. reflexivity. Qed.
