(* ===== verification/Servo.v ===== *)
(** * Clock servo (crates/rptp/src/servo.rs)

    [SteppingServo] and [PiServo] with their step policy, drift estimate and PI loop. The [Cell]s
    of the source are fields of the records, threaded through [feed]. An [f64] is a
    [spec_float] of precision 53 and exponent bound 1024, with Stdlib's IEEE 754 operations
    (round to nearest even); [f64::clamp] asserts that its bounds are ordered. *)

From S2P Require Import Prelude Errors Time Clock PortId DataSet Foreign Wire Message Effects.

Open Scope Z_scope.

(** ** [f64] *)

Definition f64 : Type := spec_float.
Definition f64_add : f64 → f64 → f64 := SFadd 53 1024.
Definition f64_sub : f64 → f64 → f64 := SFsub 53 1024.
Definition f64_mul : f64 → f64 → f64 := SFmul 53 1024.
Definition f64_div : f64 → f64 → f64 := SFdiv 53 1024.

(** An integer [as f64]. *)
Definition f64_of_Z (z : Z) : f64 := binary_normalize 53 1024 z 0 false.
Definition f64_zero : f64 := S754_zero false.
Definition f64_one : f64 := f64_of_Z 1.
(** The literal [1e-9], rounded to nearest. *)
Definition f64_1e_9 : f64 := S754_finite false 4835703278458517 (-82).

Definition f64_clamp (x min max : f64) : outcome f64 :=
  _ ← rassert (SFleb min max);
  let x := if SFltb x min then min else x in
  Done (if SFltb max x then max else x).

Definition TimeInterval_as_f64_seconds (self : TimeInterval) : outcome f64 :=
  total ← TimeInterval_total_nanos self;
  Done (f64_div (f64_of_Z total) (f64_of_Z 1000000000)).

(** ** Samples and drift *)

Inductive ServoState := Unlocked | Calibrating | Locked.

#[export] Instance ServoState_eq_dec : EqDecision ServoState.
Proof. solve_decision. Defined.

Record Drift := mkDrift { drift : f64 }.

Definition Drift_from_ppb (ppb : Z) : Drift := mkDrift (f64_mul (f64_of_Z ppb) f64_1e_9).
Definition Drift_new (d : f64) : Drift := mkDrift d.
Definition Drift_clamp (self min max : Drift) : outcome Drift :=
  d ← f64_clamp (drift self) (drift min) (drift max); Done (mkDrift d).
Definition Drift_as_rate (self : Drift) : f64 := f64_add f64_one (drift self).

Record ServoSample := mkServoSample { sa_ingress : TimeStamp; sa_offset : TimeInterval }.

#[export] Instance ServoSample_eq_dec : EqDecision ServoSample.
Proof. solve_decision. Defined.

Inductive ServoSampleOrdering :=
| InOrder (d : Drift)
| InOrderButLowDelta
| OutOfOrder.

Definition ServoSample_master_estimate (self : ServoSample) : outcome (option TimeStamp) :=
  TimeStamp_checked_sub (sa_ingress self) (sa_offset self).

Definition ServoSample_log {S} (self : ServoSample) : M S unit := emit (E_Metric (sa_offset self)).

Definition ServoSample_offset (self : ServoSample) : outcome f64 :=
  TimeInterval_as_f64_seconds (sa_offset self).

Definition ServoSample_beyond_threshold (self : ServoSample) (threshold : TimeInterval)
    : outcome bool :=
  a ← TimeInterval_abs (sa_offset self);
  Done (TimeInterval_ltb threshold a).

Definition ServoSample_drift (self other : ServoSample) (min_delta : TimeInterval)
    : outcome ServoSampleOrdering :=
  delta_ingress ← TimeStamp_sub (sa_ingress self) (sa_ingress other);
  delta_offset ← TimeInterval_sub (sa_offset self) (sa_offset other);
  zero ← TimeInterval_new 0 0;
  if TimeInterval_leb delta_ingress zero then Done OutOfOrder
  else
    a ← TimeInterval_abs delta_ingress;
    if TimeInterval_ltb a min_delta then Done InOrderButLowDelta
    else
      o ← TimeInterval_as_f64_seconds delta_offset;
      i ← TimeInterval_as_f64_seconds delta_ingress;
      Done (InOrder (Drift_new (f64_div o i))).

(** ** Step policy *)

Inductive ServoThreshold :=
| TH_Disabled
| TH_Enabled (t : TimeInterval).

Definition ServoThreshold_exceeded_by (self : ServoThreshold) (sample : ServoSample)
    : outcome bool :=
  match self with
  | TH_Disabled => Done false
  | TH_Enabled t =>
      if TimeInterval_ltb TimeInterval_ZERO t then ServoSample_beyond_threshold sample t
      else Done false
  end.

Inductive ServoStepDecision := StepTo (t : TimeStamp) | NoStep.

Record StepPolicy := mkStepPolicy {
  sp_initial_threshold : option ServoThreshold;
  sp_threshold : ServoThreshold;
}.

Definition StepPolicy_new (initial threshold : ServoThreshold) : StepPolicy :=
  mkStepPolicy (Some initial) threshold.

Definition step_to_estimate (sample : ServoSample) : outcome ServoStepDecision :=
  e ← ServoSample_master_estimate sample;
  Done (match e with Some ts => StepTo ts | None => NoStep end).

(** [should_step] takes the initial threshold out of its cell, whatever it decides. *)
Definition StepPolicy_should_step (self : StepPolicy) (sample : ServoSample)
    : outcome (ServoStepDecision * StepPolicy) :=
  let initial := sp_initial_threshold self in
  let self := mkStepPolicy None (sp_threshold self) in
  first ← match initial with
          | Some t => ServoThreshold_exceeded_by t sample
          | None => Done false
          end;
  if (first : bool) then d ← step_to_estimate sample; Done (d, self)
  else
    beyond ← ServoThreshold_exceeded_by (sp_threshold self) sample;
    if (beyond : bool) then d ← step_to_estimate sample; Done (d, self)
    else Done (NoStep, self).

(** ** Drift estimate *)

Record ServoDriftEstimate := mkServoDriftEstimate {
  de_sample : option ServoSample;
  de_min : Drift;
  de_max : Drift;
  de_min_delta : TimeInterval;
}.

Definition ServoDriftEstimate_new (min max : Drift) (min_delta : TimeInterval)
    : ServoDriftEstimate :=
  mkServoDriftEstimate None min max min_delta.

Definition ServoDriftEstimate_set (s : option ServoSample) (self : ServoDriftEstimate)
    : ServoDriftEstimate :=
  mkServoDriftEstimate s (de_min self) (de_max self) (de_min_delta self).

Definition ServoDriftEstimate_estimate (self : ServoDriftEstimate) (sample : ServoSample)
    : outcome (option Drift * ServoDriftEstimate) :=
  match de_sample self with
  | Some prev =>
      o ← ServoSample_drift sample prev (de_min_delta self);
      match o with
      | InOrder d =>
          let self := ServoDriftEstimate_set (Some sample) self in
          d ← Drift_clamp d (de_min self) (de_max self);
          Done (Some d, self)
      | InOrderButLowDelta => Done (None, self)
      | OutOfOrder => Done (None, ServoDriftEstimate_set None self)
      end
  | None => Done (None, ServoDriftEstimate_set (Some sample) self)
  end.

Definition ServoDriftEstimate_reset (self : ServoDriftEstimate) : ServoDriftEstimate :=
  ServoDriftEstimate_set None self.

(** ** PI loop *)

Record PiLoop := mkPiLoop { pl_kp : f64; pl_ki : f64; pl_integral : f64 }.

Definition PiLoop_new (kp ki : f64) : PiLoop := mkPiLoop kp ki f64_zero.

Definition PiLoop_feed {S} (error : f64) (self : PiLoop) : M S PiLoop :=
  let integral := f64_add (pl_integral self) error in
  let rate := f64_sub (f64_sub f64_one (f64_mul (pl_kp self) error))
                (f64_mul (pl_ki self) integral) in
  _ ← emit (E_ClockAdjust rate);
  mret (mkPiLoop (pl_kp self) (pl_ki self) integral).

Definition PiLoop_reset (self : PiLoop) : PiLoop := mkPiLoop (pl_kp self) (pl_ki self) f64_zero.

(** ** The servos *)

Record PiServo := mkPiServo {
  ps_step_policy : StepPolicy;
  ps_drift_estimate : ServoDriftEstimate;
  ps_pi_loop : PiLoop;
  ps_state : ServoState;
}.

Definition PiServo_new (step_policy : StepPolicy) (drift_estimate : ServoDriftEstimate)
    (pi_loop : PiLoop) : PiServo :=
  mkPiServo step_policy drift_estimate pi_loop Unlocked.

Definition PiServo_set_state (s : ServoState) (self : PiServo) : PiServo :=
  mkPiServo (ps_step_policy self) (ps_drift_estimate self) (ps_pi_loop self) s.

Definition SteppingServo_feed {S} (sample : ServoSample) : M S ServoState :=
  _ ← ServoSample_log sample;
  e ← lift (ServoSample_master_estimate sample);
  match e with
  | Some ts => _ ← emit (E_ClockStep ts); mret Locked
  | None => mret Unlocked
  end.

Definition PiServo_step {S} (sample : ServoSample) (self : PiServo)
    : M S (option ServoState * PiServo) :=
  '(decision, step_policy) ← lift (StepPolicy_should_step (ps_step_policy self) sample);
  match decision with
  | StepTo ts =>
      _ ← emit (E_ClockStep ts);
      mret (Some Unlocked,
            mkPiServo step_policy (ServoDriftEstimate_reset (ps_drift_estimate self))
              (PiLoop_reset (ps_pi_loop self)) (ps_state self))
  | NoStep =>
      mret (None, mkPiServo step_policy (ps_drift_estimate self) (ps_pi_loop self) (ps_state self))
  end.

Definition PiServo_calibrate {S} (sample : ServoSample) (self : PiServo)
    : M S (ServoState * PiServo) :=
  '(d, drift_estimate) ← lift (ServoDriftEstimate_estimate (ps_drift_estimate self) sample);
  match d with
  | None =>
      mret (Calibrating,
            mkPiServo (ps_step_policy self) drift_estimate (ps_pi_loop self) (ps_state self))
  | Some d =>
      let drift_estimate := ServoDriftEstimate_reset drift_estimate in
      _ ← emit (E_ClockAdjust (Drift_as_rate d));
      mret (Locked,
            mkPiServo (ps_step_policy self) drift_estimate (ps_pi_loop self) (ps_state self))
  end.

Definition PiServo_feed {S} (sample : ServoSample) (self : PiServo) : M S (ServoState * PiServo) :=
  _ ← ServoSample_log sample;
  '(stepped, self) ← PiServo_step sample self;
  match stepped with
  | Some state => mret (state, PiServo_set_state state self)
  | None =>
      '(state, self) ←
        match ps_state self with
        | Unlocked | Calibrating => PiServo_calibrate sample self
        | Locked =>
            error ← lift (ServoSample_offset sample);
            pi_loop ← PiLoop_feed error (ps_pi_loop self);
            mret (Locked, mkPiServo (ps_step_policy self) (ps_drift_estimate self) pi_loop
                            (ps_state self))
        end;
      mret (state, PiServo_set_state state self)
  end.

Inductive Servo := Servo_Stepping | Servo_PI (s : PiServo).

Definition Servo_feed {S} (sample : ServoSample) (self : Servo) : M S (ServoState * Servo) :=
  match self with
  | Servo_Stepping => state ← SteppingServo_feed sample; mret (state, Servo_Stepping)
  | Servo_PI servo => '(state, servo) ← PiServo_feed sample servo; mret (state, Servo_PI servo)
  end.

Record PiServoConfig := mkPiServoConfig {
  pc_first_step_threshold : ServoThreshold;
  pc_step_threshold : ServoThreshold;
  pc_drift_min : Drift;
  pc_drift_max : Drift;
  pc_drift_update_interval : TimeInterval;
  pc_kp : f64;
  pc_ki : f64;
}.

Inductive ServoConfig := SC_Stepping | SC_Pi (config : PiServoConfig).

Definition ServoConfig_servo (self : ServoConfig) : Servo :=
  match self with
  | SC_Stepping => Servo_Stepping
  | SC_Pi config =>
      Servo_PI (PiServo_new
        (StepPolicy_new (pc_first_step_threshold config) (pc_step_threshold config))
        (ServoDriftEstimate_new (pc_drift_min config) (pc_drift_max config)
           (pc_drift_update_interval config))
        (PiLoop_new (pc_kp config) (pc_ki config)))
  end.

(** ** Intervals compared in nanoseconds *)

Lemma TimeInterval_cmp_ns a b : TimeInterval_wf a → TimeInterval_wf b →
  TimeInterval_cmp a b = (ti_ns a ?= ti_ns b).
Proof.
  destruct a as [s n], b as [s' n']. unfold TimeInterval_wf, TimeInterval_cmp, ti_ns,
    NANOS_PER_SECOND; cbn [ti_seconds ti_nanos]. intros Ha Hb.
  destruct (Z.compare_spec s s') as [->| |]; simpl; symmetry.
  - by rewrite Z.add_compare_mono_l.
  - apply Z.compare_lt_iff. lia.
  - apply Z.compare_gt_iff. lia.
Qed.

Lemma TimeInterval_ltb_ns a b : TimeInterval_wf a → TimeInterval_wf b →
  TimeInterval_ltb a b = (ti_ns a <? ti_ns b).
Proof. intros Ha Hb. unfold TimeInterval_ltb. by rewrite TimeInterval_cmp_ns. Qed.

Lemma TimeInterval_leb_ns a b : TimeInterval_wf a → TimeInterval_wf b →
  TimeInterval_leb a b = (ti_ns a <=? ti_ns b).
Proof. intros Ha Hb. unfold TimeInterval_leb. by rewrite TimeInterval_cmp_ns. Qed.

Lemma ti_wf_of_ns n : Z.abs n <= 2 ^ 50 * NANOS_PER_SECOND → TimeInterval_wf (ti_of_ns n).
Proof. intros H. apply ti_of_ns_wf. unfold ti_ns_ok, NANOS_PER_SECOND in *. lia. Qed.

Lemma total_nanos_eq i : TimeInterval_wf i → TimeInterval_total_nanos i = Done (ti_ns i).
Proof.
  intros Hi. unfold TimeInterval_total_nanos, TimeInterval_wf, ti_ns, NANOS_PER_SECOND in *.
  by in_range.
Qed.

(** A nanosecond count in seconds. *)
Definition f64_seconds (ns : Z) : f64 := f64_div (f64_of_Z ns) (f64_of_Z 1000000000).

Lemma as_f64_seconds_eq i : TimeInterval_wf i →
  TimeInterval_as_f64_seconds i = Done (f64_seconds (ti_ns i)).
Proof. intros Hi. unfold TimeInterval_as_f64_seconds. by rewrite total_nanos_eq. Qed.

(** ** Invariants *)

Definition ServoSample_wf (s : ServoSample) : Prop :=
  TimeStamp_wf (sa_ingress s) ∧ ti_small (sa_offset s).

Definition ServoThreshold_wf (t : ServoThreshold) : Prop :=
  match t with TH_Disabled => True | TH_Enabled t => TimeInterval_wf t end.

Definition StepPolicy_wf (p : StepPolicy) : Prop :=
  (∀ t, sp_initial_threshold p = Some t → ServoThreshold_wf t) ∧ ServoThreshold_wf (sp_threshold p).

Definition DriftEstimate_wf (d : ServoDriftEstimate) : Prop :=
  (∀ s, de_sample d = Some s → ServoSample_wf s) ∧ TimeInterval_wf (de_min_delta d) ∧
  SFleb (drift (de_min d)) (drift (de_max d)) = true.

Definition PiServo_wf (s : PiServo) : Prop :=
  StepPolicy_wf (ps_step_policy s) ∧ DriftEstimate_wf (ps_drift_estimate s).

Definition Servo_wf (s : Servo) : Prop :=
  match s with Servo_Stepping => True | Servo_PI s => PiServo_wf s end.

(** A usable configuration: representable thresholds and ordered drift bounds. *)
Definition ServoConfig_wf (c : ServoConfig) : Prop :=
  match c with
  | SC_Stepping => True
  | SC_Pi c =>
      ServoThreshold_wf (pc_first_step_threshold c) ∧ ServoThreshold_wf (pc_step_threshold c) ∧
      TimeInterval_wf (pc_drift_update_interval c) ∧
      SFleb (drift (pc_drift_min c)) (drift (pc_drift_max c)) = true
  end.

Lemma ServoConfig_servo_wf c : ServoConfig_wf c → Servo_wf (ServoConfig_servo c).
Proof.
  destruct c as [|c]; [done|]. intros (H1 & H2 & H3 & H4).
  split; [split; [by intros t [= <-]|done]|]. split; [done|]. by split.
Qed.

(** ** The step policy and the drift sample, over integers *)

(** A positive threshold strictly exceeded by the offset's magnitude. *)
Definition exceeds (t : ServoThreshold) (sample : ServoSample) : bool :=
  match t with
  | TH_Disabled => false
  | TH_Enabled t => (0 <? ti_ns t) && (ti_ns t <? Z.abs (ti_ns (sa_offset sample)))
  end.

Definition master_time (sample : ServoSample) : option TimeStamp :=
  ts_of_ns (ts_ns (sa_ingress sample) - ti_ns (sa_offset sample)).

Definition should_step (p : StepPolicy) (sample : ServoSample) : option TimeStamp :=
  if match sp_initial_threshold p with Some t => exceeds t sample | None => false end
     || exceeds (sp_threshold p) sample
  then master_time sample else None.

Lemma master_estimate_eq sample : ServoSample_wf sample →
  ServoSample_master_estimate sample = Done (master_time sample).
Proof. intros [Ht [Hi _]]. by apply TimeStamp_checked_sub_eq. Qed.

Lemma exceeded_by_eq t sample : ServoThreshold_wf t → ServoSample_wf sample →
  ServoThreshold_exceeded_by t sample = Done (exceeds t sample).
Proof.
  intros Ht [_ [Hi Hsm]]. destruct t as [|t]; simpl in *; [done|].
  rewrite TimeInterval_ltb_ns by done. change (ti_ns TimeInterval_ZERO) with 0.
  destruct (0 <? ti_ns t); [|done]. unfold ServoSample_beyond_threshold.
  rewrite TimeInterval_abs_eq by done. cbn [mbind outcome_bind].
  rewrite TimeInterval_ltb_ns by (done || (apply ti_wf_of_ns; lia)).
  by rewrite ti_ns_of_ns.
Qed.

Lemma should_step_eq p sample : StepPolicy_wf p → ServoSample_wf sample →
  StepPolicy_should_step p sample
  = Done (match should_step p sample with Some ts => StepTo ts | None => NoStep end,
          mkStepPolicy None (sp_threshold p)).
Proof.
  intros [Hi Ht] Hs. unfold StepPolicy_should_step, should_step, step_to_estimate.
  rewrite master_estimate_eq, exceeded_by_eq by done.
  destruct (sp_initial_threshold p) as [t|]; [rewrite exceeded_by_eq by auto|];
    cbn [mbind outcome_bind]; repeat (case_match; simplify_eq/=; try done).
Qed.

(** The drift observed between two samples, in the order of the samples. *)
Definition sample_drift (sample prev : ServoSample) (min_delta : TimeInterval)
    : ServoSampleOrdering :=
  let dt := ts_ns (sa_ingress sample) - ts_ns (sa_ingress prev) in
  let doff := ti_ns (sa_offset sample) - ti_ns (sa_offset prev) in
  if dt <=? 0 then OutOfOrder
  else if dt <? ti_ns min_delta then InOrderButLowDelta
  else InOrder (mkDrift (f64_div (f64_seconds doff) (f64_seconds dt))).

Lemma drift_eq sample prev min_delta :
  ServoSample_wf sample → ServoSample_wf prev → TimeInterval_wf min_delta →
  ServoSample_drift sample prev min_delta = Done (sample_drift sample prev min_delta).
Proof.
  intros [Ht Hi] [Ht' Hi'] Hd. unfold ServoSample_drift, sample_drift.
  rewrite TimeStamp_sub_eq, TimeInterval_sub_small by done. cbn [mbind outcome_bind].
  pose proof (ts_ns_range _ Ht). pose proof (ts_ns_range _ Ht').
  destruct Hi as [_ Hi], Hi' as [_ Hi'].
  set (dt := ts_ns (sa_ingress sample) - ts_ns (sa_ingress prev)) in *.
  assert (TimeInterval_wf (ti_of_ns dt)) as Hdt by (apply ti_wf_of_ns; unfold NANOS_PER_SECOND in *; lia).
  rewrite TimeInterval_new_Done by (unfold NANOS_PER_SECOND; lia). cbn [mbind outcome_bind].
  rewrite TimeInterval_leb_ns by (done || by unfold TimeInterval_wf, NANOS_PER_SECOND; simpl; lia).
  rewrite ti_ns_of_ns. change (ti_ns (mkTimeInterval 0 0)) with 0.
  destruct (Z.leb_spec dt 0) as [|Hpos]; [done|].
  rewrite TimeInterval_abs_eq, ti_ns_of_ns, Z.abs_eq by (done || lia). cbn [mbind outcome_bind].
  rewrite TimeInterval_ltb_ns, ti_ns_of_ns by done.
  case_match; [done|].
  rewrite !as_f64_seconds_eq, !ti_ns_of_ns by
    (done || apply ti_of_ns_wf; unfold ti_ns_ok, NANOS_PER_SECOND in *; lia).
  done.
Qed.

(** ** The servo as a function of sample and state *)

Definition clampf (x lo hi : f64) : f64 :=
  let x := if SFltb x lo then lo else x in if SFltb hi x then hi else x.

Lemma f64_clamp_eq x lo hi : SFleb lo hi = true → f64_clamp x lo hi = Done (clampf x lo hi).
Proof. intros H. unfold f64_clamp. by rewrite H. Qed.

(** The clock operations of one sample and the servo it leaves. *)
Definition pi_servo_spec (sample : ServoSample) (s : PiServo) : list Effect * PiServo :=
  let policy := mkStepPolicy None (sp_threshold (ps_step_policy s)) in
  let de := ps_drift_estimate s in
  let pl := ps_pi_loop s in
  match should_step (ps_step_policy s) sample with
  | Some ts =>
      ([E_ClockStep ts],
       mkPiServo policy (ServoDriftEstimate_set None de) (PiLoop_reset pl) Unlocked)
  | None =>
      match ps_state s with
      | Locked =>
          let error := f64_seconds (ti_ns (sa_offset sample)) in
          let integral := f64_add (pl_integral pl) error in
          ([E_ClockAdjust (f64_sub (f64_sub f64_one (f64_mul (pl_kp pl) error))
                             (f64_mul (pl_ki pl) integral))],
           mkPiServo policy de (mkPiLoop (pl_kp pl) (pl_ki pl) integral) Locked)
      | _ =>
          match de_sample de with
          | None => ([], mkPiServo policy (ServoDriftEstimate_set (Some sample) de) pl Calibrating)
          | Some prev =>
              match sample_drift sample prev (de_min_delta de) with
              | InOrder d =>
                  ([E_ClockAdjust
                      (f64_add f64_one (clampf (drift d) (drift (de_min de)) (drift (de_max de))))],
                   mkPiServo policy (ServoDriftEstimate_set None de) pl Locked)
              | InOrderButLowDelta => ([], mkPiServo policy de pl Calibrating)
              | OutOfOrder =>
                  ([], mkPiServo policy (ServoDriftEstimate_set None de) pl Calibrating)
              end
          end
      end
  end.

Lemma estimate_eq de sample : DriftEstimate_wf de → ServoSample_wf sample →
  ServoDriftEstimate_estimate de sample
  = Done match de_sample de with
         | None => (None, ServoDriftEstimate_set (Some sample) de)
         | Some prev =>
             match sample_drift sample prev (de_min_delta de) with
             | InOrder d =>
                 (Some (mkDrift (clampf (drift d) (drift (de_min de)) (drift (de_max de)))),
                  ServoDriftEstimate_set (Some sample) de)
             | InOrderButLowDelta => (None, de)
             | OutOfOrder => (None, ServoDriftEstimate_set None de)
             end
         end.
Proof.
  intros (Hp & Hd & Hc) Hs. unfold ServoDriftEstimate_estimate.
  destruct (de_sample de) as [prev|]; [|done].
  rewrite drift_eq by auto. cbn [mbind outcome_bind].
  destruct (sample_drift sample prev (de_min_delta de)); [|done..].
  unfold Drift_clamp. cbn [de_min de_max ServoDriftEstimate_set]. by rewrite f64_clamp_eq.
Qed.

Lemma PiServo_feed_eq {S} sample s (w : World S) : PiServo_wf s → ServoSample_wf sample →
  PiServo_feed sample s w
  = let '(es, s') := pi_servo_spec sample s in
    Done ((ps_state s', s'),
          mkWorld (w_trace w ++ E_Metric (sa_offset sample) :: es) (w_shared w)).
Proof.
  intros [Hp Hd] Hs. unfold PiServo_feed, PiServo_step, pi_servo_spec.
  unfold mbind, M_bind, lift, ServoSample_log, emit, mret, M_ret, PiServo_set_state.
  rewrite (should_step_eq _ _ Hp Hs).
  destruct (should_step _ sample) as [ts|]; cbn [w_trace w_shared];
    [by rewrite <- app_assoc|].
  destruct (ps_state s) eqn:Es; cbn [ps_state ps_step_policy ps_drift_estimate ps_pi_loop].
  1,2: unfold PiServo_calibrate, mbind, M_bind, lift, emit, mret, M_ret;
    cbn [ps_state ps_step_policy ps_drift_estimate ps_pi_loop];
    rewrite (estimate_eq _ _ Hd Hs);
    destruct (de_sample _) as [prev|]; [destruct (sample_drift _ _ _)|];
    cbn [w_trace w_shared ps_state ps_step_policy ps_drift_estimate ps_pi_loop];
    rewrite <- ?app_assoc; done.
  unfold ServoSample_offset, PiLoop_feed, mbind, M_bind, lift, emit, mret, M_ret.
  rewrite as_f64_seconds_eq by apply Hs. cbn [w_trace w_shared]. by rewrite <- app_assoc.
Qed.

Lemma pi_servo_spec_wf sample s : PiServo_wf s → ServoSample_wf sample →
  PiServo_wf (pi_servo_spec sample s).2.
Proof.
  intros [[_ Ht] (Hp & Hm & Hc)] Hs. unfold pi_servo_spec, PiServo_wf, StepPolicy_wf, DriftEstimate_wf.
  repeat case_match; simpl; (split; [by split|]; split; [|done]); try done;
    intros ? ?; simplify_eq; auto.
Qed.

Lemma master_time_wf sample ts : master_time sample = Some ts → TimeStamp_wf ts.
Proof. by intros [H _]%ts_of_ns_Some. Qed.

Lemma should_step_wf p sample ts : should_step p sample = Some ts → TimeStamp_wf ts.
Proof. unfold should_step. repeat case_match; try done; by apply master_time_wf. Qed.

(** A well-formed servo that adjusts the clock's rate only where [steered]. *)
Definition Servo_within (steered : bool) (s : Servo) : Prop :=
  match s with Servo_Stepping => True | Servo_PI s => steered = true ∧ PiServo_wf s end.

Definition ServoConfig_within (steered : bool) (c : ServoConfig) : Prop :=
  ServoConfig_wf c ∧ match c with SC_Stepping => True | SC_Pi _ => steered = true end.

Lemma ServoConfig_servo_within steered c :
  ServoConfig_within steered c → Servo_within steered (ServoConfig_servo c).
Proof.
  intros [Hw Hs]. pose proof (ServoConfig_servo_wf c Hw). by destruct c.
Qed.

(** The clock operations of one sample: at most one, a step or a rate adjustment. *)
Definition clock_effect (steered : bool) (e : Effect) : Prop :=
  match e with
  | E_ClockStep to => TimeStamp_wf to
  | E_ClockAdjust _ => steered = true
  | E_Metric _ => True
  | _ => False
  end.

Lemma Servo_feed_quiet {S} steered sample s : Servo_within steered s → ServoSample_wf sample →
  quiet (S := S) (clock_effect steered) (λ r, Servo_within steered r.2) (Servo_feed sample s).
Proof.
  intros Hs Hsa. destruct s as [|s]; simpl; [|destruct Hs as [Hst Hs]].
  - unfold SteppingServo_feed. eapply (quiet_bind _ (λ _, True)); [|by intros; apply quiet_ret].
    eapply quiet_bind; [by apply quiet_emit|]. intros _ _.
    eapply (quiet_bind _ (λ r, r = master_time sample));
      [by eapply quiet_lift; [apply master_estimate_eq|]|].
    intros [ts|] Hts; [|by apply quiet_ret].
    eapply quiet_bind; [apply quiet_emit; apply (master_time_wf sample ts); by symmetry|].
    intros _ _. by apply quiet_ret.
  - eapply (quiet_bind _ (λ r, PiServo_wf r.2)); [|by intros [st s'] ?; apply quiet_ret].
    intros w. unfold wp. rewrite PiServo_feed_eq by done.
    pose proof (pi_servo_spec_wf sample s Hs Hsa) as Hwf.
    destruct (pi_servo_spec sample s) as [es s'] eqn:E. do 2 (split; [done|]).
    eexists. split; [done|]. constructor; [done|].
    unfold pi_servo_spec in E. repeat case_match; injection E as <- <-; repeat constructor;
      first [exact Hst | by eapply should_step_wf].
Qed.

(** ** Properties *)

(** C24: Feeding a sample to the PI servo refines a pure specification over nanosecond counts and
    binary64 arithmetic: the same clock steps and rate adjustments in the same order, the same
    servo state and successor, without a panic, and the servo stays well formed. *)
Theorem pi_servo_feed_exact {S} sample s (w : World S) : PiServo_wf s → ServoSample_wf sample →
  PiServo_feed sample s w
  = (let '(es, s') := pi_servo_spec sample s in
     Done ((ps_state s', s'),
           mkWorld (w_trace w ++ E_Metric (sa_offset sample) :: es) (w_shared w))) ∧
  PiServo_wf (pi_servo_spec sample s).2.
Proof. intros Hs Hsa. split; [by apply PiServo_feed_eq | by apply pi_servo_spec_wf]. Qed.

Definition w_pi_config : PiServoConfig :=
  mkPiServoConfig (TH_Enabled (mkTimeInterval 0 20000)) (TH_Enabled (mkTimeInterval 0 100000000))
    (Drift_from_ppb (-100000)) (Drift_from_ppb 100000) (mkTimeInterval 0 500000000)
    (f64_of_Z 1) (f64_of_Z 1).

Definition w_pi_servo : PiServo :=
  match ServoConfig_servo (SC_Pi w_pi_config) with
  | Servo_PI s => s
  | Servo_Stepping => PiServo_new (StepPolicy_new TH_Disabled TH_Disabled)
      (ServoDriftEstimate_new (mkDrift f64_zero) (mkDrift f64_zero) TimeInterval_ZERO)
      (PiLoop_new f64_zero f64_zero)
  end.

(** The master is 3.5 s behind the ingress time stamp. *)
Definition w_sample : ServoSample :=
  mkServoSample (mkTimeStamp 100 0) (mkTimeInterval 3 500000000).

Lemma ServoSample_wf_intro s n i : 0 <= s < 2 ^ 48 → 0 <= n < NANOS_PER_SECOND → ti_small i →
  ServoSample_wf (mkServoSample (mkTimeStamp s n) i).
Proof. by intros; split. Qed.

Lemma pi_servo_feed_exact_witness :
  PiServo_feed w_sample w_pi_servo (mkWorld [] ())
  = Done ((Unlocked, (pi_servo_spec w_sample w_pi_servo).2),
          mkWorld [E_Metric (mkTimeInterval 3 500000000);
                   E_ClockStep (mkTimeStamp 96 500000000)] ()).
Proof.
  refine (proj1 (pi_servo_feed_exact w_sample w_pi_servo (mkWorld [] ()) _ _)).
  - apply (ServoConfig_servo_wf (SC_Pi w_pi_config)).
    split; [|split; [|split]]; [unfold ServoThreshold_wf, TimeInterval_wf, NANOS_PER_SECOND; simpl; lia..|].
    vm_compute. reflexivity.
  - apply ServoSample_wf_intro; [lia | unfold NANOS_PER_SECOND; lia |].
    split; [unfold TimeInterval_wf, NANOS_PER_SECOND; simpl; lia |].
    unfold ti_ns, NANOS_PER_SECOND; simpl. lia.
Defined.
