(* ===== verification/E2e.v ===== *)
(** * End-to-end delay mechanism (crates/rptp/src/e2e.rs)

    The sync and delay exchanges with their one-message windows, the delay-request cycle, and
    the sample that pairs a master-to-slave with a slave-to-master offset. *)

From S2P Require Import Prelude Errors Time Clock PortId DataSet Foreign Wire Message Effects Servo.

Open Scope Z_scope.

(** ** One-message windows *)

Record MessageWindow (A : Type) := mkMessageWindow { mw_current : option A }.
Arguments mkMessageWindow {A}.
Arguments mw_current {A}.

Definition MessageWindow_new {A} : MessageWindow A := mkMessageWindow None.
Definition MessageWindow_record {A} (msg : A) (self : MessageWindow A) : MessageWindow A :=
  mkMessageWindow (Some msg).

(** [combine] may panic (timestamp subtraction). *)
Definition MessageWindow_combine_latest {A B C} (self : MessageWindow A) (other : MessageWindow B)
    (combine : A → B → outcome (option C)) : outcome (option C) :=
  match mw_current self, mw_current other with
  | Some m, Some n => combine m n
  | _, _ => Done None
  end.

(** ** Exchanges *)

Record SyncExchange := mkSyncExchange {
  se_one_step_sync : option (OneStepSyncMessage * TimeStamp);
  se_two_step_sync_window : MessageWindow (TwoStepSyncMessage * TimeStamp);
  se_follow_up_window : MessageWindow FollowUpMessage;
}.

Definition SyncExchange_new : SyncExchange :=
  mkSyncExchange None MessageWindow_new MessageWindow_new.

Definition SyncExchange_record_one_step_sync (sync : OneStepSyncMessage) (timestamp : TimeStamp)
    (self : SyncExchange) : SyncExchange :=
  mkSyncExchange (Some (sync, timestamp)) (se_two_step_sync_window self) (se_follow_up_window self).

Definition SyncExchange_record_two_step_sync (sync : TwoStepSyncMessage) (timestamp : TimeStamp)
    (self : SyncExchange) : SyncExchange :=
  mkSyncExchange None (MessageWindow_record (sync, timestamp) (se_two_step_sync_window self))
    (se_follow_up_window self).

Definition SyncExchange_record_follow_up (follow_up : FollowUpMessage) (self : SyncExchange)
    : SyncExchange :=
  mkSyncExchange (se_one_step_sync self) (se_two_step_sync_window self)
    (MessageWindow_record follow_up (se_follow_up_window self)).

Definition SyncExchange_master_slave_offset (self : SyncExchange) : outcome (option TimeInterval) :=
  match se_one_step_sync self with
  | Some (sync, ts) => d ← OneStepSyncMessage_master_slave_offset sync ts; Done (Some d)
  | None =>
      MessageWindow_combine_latest (se_follow_up_window self) (se_two_step_sync_window self)
        (λ follow_up '(sync, ts), FollowUpMessage_master_slave_offset follow_up sync ts)
  end.

Record DelayExchange := mkDelayExchange {
  dx_delay_request_window : MessageWindow (DelayRequestMessage * TimeStamp);
  dx_delay_response_window : MessageWindow DelayResponseMessage;
}.

Definition DelayExchange_new : DelayExchange :=
  mkDelayExchange MessageWindow_new MessageWindow_new.

Definition DelayExchange_record_delay_request (req : DelayRequestMessage) (timestamp : TimeStamp)
    (self : DelayExchange) : DelayExchange :=
  mkDelayExchange (MessageWindow_record (req, timestamp) (dx_delay_request_window self))
    (dx_delay_response_window self).

Definition DelayExchange_record_delay_response (resp : DelayResponseMessage)
    (self : DelayExchange) : DelayExchange :=
  mkDelayExchange (dx_delay_request_window self)
    (MessageWindow_record resp (dx_delay_response_window self)).

Definition DelayExchange_slave_master_offset (self : DelayExchange)
    : outcome (option TimeInterval) :=
  MessageWindow_combine_latest (dx_delay_response_window self) (dx_delay_request_window self)
    (λ resp '(req, ts), DelayResponseMessage_slave_master_offset resp req ts).

(** ** The delay-request cycle *)

Record DelayCycle := mkDelayCycle {
  dc_sequence_id : SequenceId;
  dc_timeout : Timeout;
  dc_log_interval : LogInterval;
}.

Definition DelayCycle_next {S} (self : DelayCycle) : M S DelayCycle :=
  _ ← Timeout_restart (dc_timeout self) (LogInterval_duration (dc_log_interval self));
  mret (mkDelayCycle (SequenceId_next (dc_sequence_id self)) (dc_timeout self)
          (dc_log_interval self)).

Definition DelayCycle_delay_request (self : DelayCycle) : DelayRequestMessage :=
  mkDelayRequestMessage (dc_sequence_id self).

(** ** The mechanism *)

Record EndToEndDelayMechanism := mkEndToEndDelayMechanism {
  em_delay_cycle : DelayCycle;
  em_sync_exchange : SyncExchange;
  em_delay_exchange : DelayExchange;
  em_sync_ingress_timestamp : option TimeStamp;
}.

Definition EndToEndDelayMechanism_new (delay_cycle : DelayCycle) : EndToEndDelayMechanism :=
  mkEndToEndDelayMechanism delay_cycle SyncExchange_new DelayExchange_new None.

Definition em_delay_request {S} (self : EndToEndDelayMechanism)
    : M S (DelayRequestMessage * EndToEndDelayMechanism) :=
  let delay_request := DelayCycle_delay_request (em_delay_cycle self) in
  delay_cycle ← DelayCycle_next (em_delay_cycle self);
  mret (delay_request,
        mkEndToEndDelayMechanism delay_cycle (em_sync_exchange self) (em_delay_exchange self)
          (em_sync_ingress_timestamp self)).

Definition em_record_one_step_sync (sync : OneStepSyncMessage) (timestamp : TimeStamp)
    (self : EndToEndDelayMechanism) : EndToEndDelayMechanism :=
  mkEndToEndDelayMechanism (em_delay_cycle self)
    (SyncExchange_record_one_step_sync sync timestamp (em_sync_exchange self))
    (em_delay_exchange self) (Some timestamp).

Definition em_record_two_step_sync (sync : TwoStepSyncMessage) (timestamp : TimeStamp)
    (self : EndToEndDelayMechanism) : EndToEndDelayMechanism :=
  mkEndToEndDelayMechanism (em_delay_cycle self)
    (SyncExchange_record_two_step_sync sync timestamp (em_sync_exchange self))
    (em_delay_exchange self) (Some timestamp).

Definition em_record_follow_up (follow_up : FollowUpMessage) (self : EndToEndDelayMechanism)
    : EndToEndDelayMechanism :=
  mkEndToEndDelayMechanism (em_delay_cycle self)
    (SyncExchange_record_follow_up follow_up (em_sync_exchange self))
    (em_delay_exchange self) (em_sync_ingress_timestamp self).

Definition em_record_delay_request (req : DelayRequestMessage) (timestamp : TimeStamp)
    (self : EndToEndDelayMechanism) : EndToEndDelayMechanism :=
  mkEndToEndDelayMechanism (em_delay_cycle self) (em_sync_exchange self)
    (DelayExchange_record_delay_request req timestamp (em_delay_exchange self))
    (em_sync_ingress_timestamp self).

Definition em_record_delay_response (resp : DelayResponseMessage) (self : EndToEndDelayMechanism)
    : EndToEndDelayMechanism :=
  mkEndToEndDelayMechanism (em_delay_cycle self) (em_sync_exchange self)
    (DelayExchange_record_delay_response resp (em_delay_exchange self))
    (em_sync_ingress_timestamp self).

(** The [?] on either offset returns [None] before the other is computed. *)
Definition em_sample (self : EndToEndDelayMechanism) : outcome (option ServoSample) :=
  ms ← SyncExchange_master_slave_offset (em_sync_exchange self);
  match ms with
  | None => Done None
  | Some ms_offset =>
      sm ← DelayExchange_slave_master_offset (em_delay_exchange self);
      match sm with
      | None => Done None
      | Some sm_offset =>
          match em_sync_ingress_timestamp self with
          | Some sync_ingress =>
              d ← TimeInterval_sub ms_offset sm_offset;
              offset_from_master ← TimeInterval_half d;
              Done (Some (mkServoSample sync_ingress offset_from_master))
          | None => Done None
          end
      end
  end.

(** ** Invariant *)

Definition SyncExchange_wf (s : SyncExchange) : Prop :=
  (∀ m t, se_one_step_sync s = Some (m, t) → TimeStamp_wf (os_origin_timestamp m) ∧ TimeStamp_wf t) ∧
  (∀ m t, mw_current (se_two_step_sync_window s) = Some (m, t) → TimeStamp_wf t) ∧
  (∀ m, mw_current (se_follow_up_window s) = Some m → TimeStamp_wf (fu_precise_origin_timestamp m)).

Definition DelayExchange_wf (d : DelayExchange) : Prop :=
  (∀ m t, mw_current (dx_delay_request_window d) = Some (m, t) → TimeStamp_wf t) ∧
  (∀ m, mw_current (dx_delay_response_window d) = Some m → TimeStamp_wf (ds_receive_timestamp m)).

Definition em_wf (m : EndToEndDelayMechanism) : Prop :=
  SequenceId_wf (dc_sequence_id (em_delay_cycle m)) ∧
  SyncExchange_wf (em_sync_exchange m) ∧ DelayExchange_wf (em_delay_exchange m) ∧
  (∀ t, em_sync_ingress_timestamp m = Some t → TimeStamp_wf t).

Lemma em_new_wf c : SequenceId_wf (dc_sequence_id c) → em_wf (EndToEndDelayMechanism_new c).
Proof. intros H. split; [done|]. by repeat split. Qed.

Lemma em_record_one_step_sync_wf s t m : em_wf m → OneStepSyncMessage_wf s → TimeStamp_wf t →
  em_wf (em_record_one_step_sync s t m).
Proof.
  intros (Hc & (H1 & H2 & H3) & Hd & Hi) (_ & _ & Hs) Ht.
  split; [done|]. split; [split; [|by split]|split; [done|]]; simpl.
  - by intros ? ? [= <- <-].
  - by intros ? [= <-].
Qed.

Lemma em_record_two_step_sync_wf s t m : em_wf m → TimeStamp_wf t →
  em_wf (em_record_two_step_sync s t m).
Proof.
  intros (Hc & (H1 & H2 & H3) & Hd & Hi) Ht.
  split; [done|]. split; [split; [done|split; [|done]]|split; [done|]]; simpl.
  - by intros ? ? [= <- <-].
  - by intros ? [= <-].
Qed.

Lemma em_record_follow_up_wf f m : em_wf m → FollowUpMessage_wf f → em_wf (em_record_follow_up f m).
Proof.
  intros (Hc & (H1 & H2 & H3) & Hd & Hi) (_ & _ & Hf).
  split; [done|]. split; [split; [done|split; [done|]]|by split]; simpl. by intros ? [= <-].
Qed.

Lemma em_record_delay_request_wf r t m : em_wf m → TimeStamp_wf t → em_wf (em_record_delay_request r t m).
Proof.
  intros (Hc & Hs & (H1 & H2) & Hi) Ht.
  split; [done|]. split; [done|]. split; [split; [|done]|done]; simpl. by intros ? ? [= <- <-].
Qed.

Lemma em_record_delay_response_wf r m : em_wf m → DelayResponseMessage_wf r →
  em_wf (em_record_delay_response r m).
Proof.
  intros (Hc & Hs & (H1 & H2) & Hi) (_ & _ & Hr & _).
  split; [done|]. split; [done|]. split; [split; [done|]|done]; simpl. by intros ? [= <-].
Qed.

(** ** The offsets and the sample, in nanoseconds *)

(** The four-timestamp offsets the two exchanges hold, when their messages match. *)
Definition ms_ns (s : SyncExchange) : option Z :=
  match se_one_step_sync s with
  | Some (m, t2) => Some (ts_ns t2 - ts_ns (os_origin_timestamp m))
  | None =>
      match mw_current (se_two_step_sync_window s), mw_current (se_follow_up_window s) with
      | Some (m, t2), Some f =>
          if bool_decide (fu_sequence_id f = tw_sequence_id m)
          then Some (ts_ns t2 - ts_ns (fu_precise_origin_timestamp f)) else None
      | _, _ => None
      end
  end.

Definition sm_ns (d : DelayExchange) : option Z :=
  match mw_current (dx_delay_request_window d), mw_current (dx_delay_response_window d) with
  | Some (m, t3), Some r =>
      if bool_decide (ds_sequence_id r = dr_sequence_id m)
      then Some (ts_ns (ds_receive_timestamp r) - ts_ns t3) else None
  | _, _ => None
  end.

Lemma master_slave_offset_eq s : SyncExchange_wf s →
  SyncExchange_master_slave_offset s = Done (ti_of_ns <$> ms_ns s).
Proof.
  intros (H1 & H2 & H3). unfold SyncExchange_master_slave_offset, ms_ns,
    OneStepSyncMessage_master_slave_offset, MessageWindow_combine_latest,
    FollowUpMessage_master_slave_offset.
  destruct (se_one_step_sync s) as [[m t]|].
  { destruct (H1 m t eq_refl). by rewrite TimeStamp_sub_eq. }
  destruct (mw_current (se_follow_up_window s)) as [f|];
    destruct (mw_current (se_two_step_sync_window s)) as [[m t]|]; try done.
  case_match; [|done]. by rewrite TimeStamp_sub_eq by eauto.
Qed.

Lemma slave_master_offset_eq d : DelayExchange_wf d →
  DelayExchange_slave_master_offset d = Done (ti_of_ns <$> sm_ns d).
Proof.
  intros (H1 & H2). unfold DelayExchange_slave_master_offset, sm_ns,
    MessageWindow_combine_latest, DelayResponseMessage_slave_master_offset.
  destruct (mw_current (dx_delay_response_window d)) as [f|];
    destruct (mw_current (dx_delay_request_window d)) as [[m t]|]; try done.
  case_match; [|done]. by rewrite TimeStamp_sub_eq by eauto.
Qed.

Lemma ms_ns_bound s n : SyncExchange_wf s → ms_ns s = Some n → Z.abs n < 2 ^ 48 * NANOS_PER_SECOND.
Proof.
  intros (H1 & H2 & H3) E. unfold ms_ns in E.
  assert (∀ a b, TimeStamp_wf a → TimeStamp_wf b →
            Z.abs (ts_ns a - ts_ns b) < 2 ^ 48 * NANOS_PER_SECOND) as Hb.
  { intros a b ?%ts_ns_range ?%ts_ns_range. lia. }
  destruct (se_one_step_sync s) as [[m t]|].
  { injection E as <-. by apply Hb; apply (H1 m t). }
  destruct (mw_current (se_two_step_sync_window s)) as [[m t]|]; [|done].
  destruct (mw_current (se_follow_up_window s)) as [f|]; [|done].
  destruct (bool_decide _); [|done]. injection E as <-.
  apply Hb; [by apply (H2 m t) | by apply H3].
Qed.

Lemma sm_ns_bound d n : DelayExchange_wf d → sm_ns d = Some n → Z.abs n < 2 ^ 48 * NANOS_PER_SECOND.
Proof.
  intros (H1 & H2) E. unfold sm_ns in E.
  destruct (mw_current (dx_delay_request_window d)) as [[m t]|]; [|done].
  destruct (mw_current (dx_delay_response_window d)) as [f|]; [|done].
  destruct (bool_decide _); [|done]. injection E as <-.
  pose proof (ts_ns_range _ (H1 _ _ eq_refl)). pose proof (ts_ns_range _ (H2 _ eq_refl)). lia.
Qed.

(** The sample's offset from the master: half the difference, truncated toward zero. *)
Definition sample_ns (m : EndToEndDelayMechanism) : option (TimeStamp * Z) :=
  match ms_ns (em_sync_exchange m), sm_ns (em_delay_exchange m), em_sync_ingress_timestamp m with
  | Some ms, Some sm, Some t => Some (t, Z.quot (ms - sm) 2)
  | _, _, _ => None
  end.

Lemma em_sample_eq m : em_wf m →
  em_sample m = Done ((λ '(t, n), mkServoSample t (ti_of_ns n)) <$> sample_ns m).
Proof.
  intros (_ & Hs & Hd & _). unfold em_sample, sample_ns.
  rewrite master_slave_offset_eq by done. cbn [mbind outcome_bind].
  destruct (ms_ns (em_sync_exchange m)) as [ms|] eqn:Ems; simpl; [|done].
  rewrite slave_master_offset_eq by done. cbn [mbind outcome_bind].
  destruct (sm_ns (em_delay_exchange m)) as [sm|] eqn:Esm; simpl; [|done].
  destruct (em_sync_ingress_timestamp m) as [t|]; [|done].
  pose proof (ms_ns_bound _ _ Hs Ems). pose proof (sm_ns_bound _ _ Hd Esm).
  rewrite TimeInterval_sub_small, !ti_ns_of_ns by
    (apply ti_small_of_ns; unfold NANOS_PER_SECOND in *; lia).
  cbn [mbind outcome_bind].
  rewrite TimeInterval_half_eq, ti_ns_of_ns by
    (apply ti_wf_of_ns; unfold NANOS_PER_SECOND in *; lia).
  done.
Qed.

Lemma em_sample_wf m s : em_wf m → em_sample m = Done (Some s) → ServoSample_wf s.
Proof.
  intros Hm E. rewrite em_sample_eq in E by done. destruct Hm as (_ & Hs & Hd & Hi).
  unfold sample_ns in E.
  destruct (ms_ns (em_sync_exchange m)) as [ms|] eqn:Ems; [|done].
  destruct (sm_ns (em_delay_exchange m)) as [sm|] eqn:Esm; [|done].
  destruct (em_sync_ingress_timestamp m) as [t|]; [|done]. simpl in E. injection E as <-.
  pose proof (ms_ns_bound _ _ Hs Ems). pose proof (sm_ns_bound _ _ Hd Esm).
  split; [by apply Hi|]. apply ti_small_of_ns. unfold NANOS_PER_SECOND in *.
  pose proof (Z.quot_rem (ms - sm) 2). pose proof (Z.rem_bound_abs (ms - sm) 2). lia.
Qed.

(** ** Properties *)

(** What the port records from one exchange. *)
Inductive ExchangeEvent :=
| XOneStepSync (m : OneStepSyncMessage) (t : TimeStamp)
| XTwoStepSync (m : TwoStepSyncMessage) (t : TimeStamp)
| XFollowUp (m : FollowUpMessage)
| XDelayReq (m : DelayRequestMessage) (t : TimeStamp)
| XDelayResp (m : DelayResponseMessage).

Definition em_record (m : EndToEndDelayMechanism) (e : ExchangeEvent) : EndToEndDelayMechanism :=
  match e with
  | XOneStepSync s t => em_record_one_step_sync s t m
  | XTwoStepSync s t => em_record_two_step_sync s t m
  | XFollowUp f => em_record_follow_up f m
  | XDelayReq r t => em_record_delay_request r t m
  | XDelayResp r => em_record_delay_response r m
  end.

Definition ExchangeEvent_wf (e : ExchangeEvent) : Prop :=
  match e with
  | XOneStepSync m t => OneStepSyncMessage_wf m ∧ TimeStamp_wf t
  | XTwoStepSync m t => TwoStepSyncMessage_wf m ∧ TimeStamp_wf t
  | XFollowUp m => FollowUpMessage_wf m
  | XDelayReq m t => DelayRequestMessage_wf m ∧ TimeStamp_wf t
  | XDelayResp m => DelayResponseMessage_wf m
  end.

Lemma em_record_wf m e : em_wf m → ExchangeEvent_wf e → em_wf (em_record m e).
Proof.
  intros Hm He. destruct e as [s t|s t|f|r t|r]; simpl in *.
  - apply em_record_one_step_sync_wf; [done|apply He..].
  - apply em_record_two_step_sync_wf; [done|apply He].
  - by apply em_record_follow_up_wf.
  - apply em_record_delay_request_wf; [done|apply He].
  - by apply em_record_delay_response_wf.
Qed.

Lemma em_records_wf es m : em_wf m → Forall ExchangeEvent_wf es → em_wf (fold_left em_record es m).
Proof.
  intros Hm Hes. revert m Hm. induction Hes as [|e es He _ IH]; intros m Hm; simpl; [done|].
  by apply IH, em_record_wf.
Qed.

(** Whatever well-formed messages and timestamps have been recorded, in any order, computing
    the sample does not panic, and a sample it returns is within the servo's range. *)
Theorem sample_never_panics cycle es : SequenceId_wf (dc_sequence_id cycle) →
  Forall ExchangeEvent_wf es →
  let m := fold_left em_record es (EndToEndDelayMechanism_new cycle) in
  em_sample m = Done ((λ '(t, n), mkServoSample t (ti_of_ns n)) <$> sample_ns m) ∧
  ∀ s, em_sample m = Done (Some s) → ServoSample_wf s.
Proof.
  intros Hc Hes m. assert (em_wf m) as Hm by (by apply em_records_wf; [apply em_new_wf|]).
  split; [by apply em_sample_eq | intros s; by apply em_sample_wf].
Qed.

(** The four messages of a two-step exchange with offset [theta] and path delay [delay]. *)
Definition two_step_exchange (sync : TwoStepSyncMessage) (fu : FollowUpMessage)
    (req : DelayRequestMessage) (resp : DelayResponseMessage) (t2 t3 : TimeStamp)
    : list ExchangeEvent :=
  [XTwoStepSync sync t2; XFollowUp fu; XDelayReq req t3; XDelayResp resp].

(** The three messages of a one-step exchange. *)
Definition one_step_exchange (sync : OneStepSyncMessage) (req : DelayRequestMessage)
    (resp : DelayResponseMessage) (t2 t3 : TimeStamp) : list ExchangeEvent :=
  [XOneStepSync sync t2; XDelayReq req t3; XDelayResp resp].

(** Records that commute can come in any order. *)
Lemma records_any_order (es all : list ExchangeEvent) m :
  (∀ a b m, a ∈ all → b ∈ all → em_record (em_record m a) b = em_record (em_record m b) a) →
  es ≡ₚ all → fold_left em_record es m = fold_left em_record all m.
Proof.
  intros Hcomm Hp. assert (∀ x, x ∈ es → x ∈ all) as Hin by (intros x; by rewrite Hp).
  enough (∀ l, es ≡ₚ l → ∀ m, fold_left em_record es m = fold_left em_record l m) by auto.
  clear m Hp. intros l Hp.
  induction Hp as [|x l1 l2 Hp IH|x y l1|l1 l2 l3 H1 IH1 H2 IH2]; intros m; simpl.
  - done.
  - apply IH. intros z Hz. apply Hin. by right.
  - rewrite (Hcomm y x); [done|apply Hin; left|apply Hin; right; left].
  - rewrite IH1 by done. apply IH2. intros z Hz. apply Hin. by rewrite H1.
Qed.

(** The records of an exchange commute. *)
Ltac records_commute :=
  intros a b ? Ha Hb;
  repeat (apply elem_of_cons in Ha as [->|Ha]); [..|by apply elem_of_nil in Ha];
  repeat (apply elem_of_cons in Hb as [->|Hb]); first [done | by apply elem_of_nil in Hb].

Lemma two_step_any_order sync fu req resp t2 t3 es m :
  es ≡ₚ two_step_exchange sync fu req resp t2 t3 →
  fold_left em_record es m = fold_left em_record (two_step_exchange sync fu req resp t2 t3) m.
Proof. apply records_any_order. records_commute. Qed.

Lemma one_step_any_order sync req resp t2 t3 es m :
  es ≡ₚ one_step_exchange sync req resp t2 t3 →
  fold_left em_record es m = fold_left em_record (one_step_exchange sync req resp t2 t3) m.
Proof. apply records_any_order. records_commute. Qed.

(** The four timestamps of an exchange with a slave clock ahead by [theta] over a path of [delay]
    each way. *)
Definition exchange_times (t1 t2 t3 t4 : TimeStamp) (theta delay : Z) : Prop :=
  TimeStamp_wf t1 ∧ TimeStamp_wf t2 ∧ TimeStamp_wf t3 ∧ TimeStamp_wf t4 ∧
  ts_ns t2 = ts_ns t1 + delay + theta ∧ ts_ns t4 = ts_ns t3 + delay - theta.

(** Offsets of matching messages give the slave clock's offset. *)
Lemma em_sample_offset m t1 t2 t3 t4 theta delay :
  exchange_times t1 t2 t3 t4 theta delay →
  SyncExchange_master_slave_offset (em_sync_exchange m)
    = (d ← TimeStamp_sub t2 t1; Done (Some d)) →
  DelayExchange_slave_master_offset (em_delay_exchange m)
    = (d ← TimeStamp_sub t4 t3; Done (Some d)) →
  em_sync_ingress_timestamp m = Some t2 →
  em_sample m = Done (Some (mkServoSample t2 (ti_of_ns theta))).
Proof.
  intros (H1 & H2 & H3 & H4 & E2 & E4) Es Ed Ei. unfold em_sample. rewrite Es, Ed, Ei.
  rewrite TimeStamp_sub_eq by done. cbn [mbind outcome_bind].
  rewrite TimeStamp_sub_eq by done. cbn [mbind outcome_bind].
  pose proof (ts_ns_range _ H1). pose proof (ts_ns_range _ H2).
  pose proof (ts_ns_range _ H3). pose proof (ts_ns_range _ H4).
  rewrite TimeInterval_sub_small, !ti_ns_of_ns by
    (apply ti_small_of_ns; unfold NANOS_PER_SECOND in *; lia).
  cbn [mbind outcome_bind].
  rewrite TimeInterval_half_eq, ti_ns_of_ns by
    (apply ti_wf_of_ns; unfold NANOS_PER_SECOND in *; lia).
  cbn [mbind outcome_bind]. do 4 f_equal.
  rewrite E2, E4.
  replace (_ - _) with (theta * 2) by lia. by apply Z.quot_mul.
Qed.

(** Whatever was recorded before, a complete exchange gives the slave clock's offset. *)
Lemma two_step_sample m sync fu req resp t2 t3 es theta delay :
  exchange_times (fu_precise_origin_timestamp fu) t2 t3 (ds_receive_timestamp resp) theta delay →
  fu_sequence_id fu = tw_sequence_id sync → ds_sequence_id resp = dr_sequence_id req →
  es ≡ₚ two_step_exchange sync fu req resp t2 t3 →
  em_sample (fold_left em_record es m) = Done (Some (mkServoSample t2 (ti_of_ns theta))).
Proof.
  intros Ht Es Er Hp. rewrite (two_step_any_order _ _ _ _ _ _ _ m Hp).
  apply (em_sample_offset _ _ _ _ _ _ _ Ht); [| |done];
    unfold SyncExchange_master_slave_offset, DelayExchange_slave_master_offset,
      MessageWindow_combine_latest, FollowUpMessage_master_slave_offset,
      DelayResponseMessage_slave_master_offset; simpl;
    by rewrite ?Es, ?Er, bool_decide_eq_true_2.
Qed.

Lemma one_step_sample m sync req resp t2 t3 es theta delay :
  exchange_times (os_origin_timestamp sync) t2 t3 (ds_receive_timestamp resp) theta delay →
  ds_sequence_id resp = dr_sequence_id req →
  es ≡ₚ one_step_exchange sync req resp t2 t3 →
  em_sample (fold_left em_record es m) = Done (Some (mkServoSample t2 (ti_of_ns theta))).
Proof.
  intros Ht Er Hp. rewrite (one_step_any_order _ _ _ _ _ _ m Hp).
  apply (em_sample_offset _ _ _ _ _ _ _ Ht); [done| |done].
  unfold DelayExchange_slave_master_offset, MessageWindow_combine_latest,
    DelayResponseMessage_slave_master_offset; simpl. by rewrite Er, bool_decide_eq_true_2.
Qed.

(** C19: A two-step exchange in which the four timestamps come from a slave clock ahead by theta
    over a symmetric path of the given delay yields, whatever the order in which the four records
    arrive, a sample whose offset is exactly theta. *)
Theorem two_step_exchange_offset cycle sync fu req resp t2 t3 es theta delay :
  TimeStamp_wf (fu_precise_origin_timestamp fu) → TimeStamp_wf t2 → TimeStamp_wf t3 →
  TimeStamp_wf (ds_receive_timestamp resp) →
  fu_sequence_id fu = tw_sequence_id sync → ds_sequence_id resp = dr_sequence_id req →
  ts_ns t2 = ts_ns (fu_precise_origin_timestamp fu) + delay + theta →
  ts_ns (ds_receive_timestamp resp) = ts_ns t3 + delay - theta →
  es ≡ₚ two_step_exchange sync fu req resp t2 t3 →
  em_sample (fold_left em_record es (EndToEndDelayMechanism_new cycle))
  = Done (Some (mkServoSample t2 (ti_of_ns theta))).
Proof.
  intros H1 H2 H3 H4 Es Er E2 E4 Hp. apply (two_step_sample _ sync fu req resp t2 t3 _ _ delay);
    [by split_and! | done..].
Qed.

(** The sample computed after recording a delay response does not depend on the requesting
    port identity the response carries: one addressed to another port is used like one's own. *)
Theorem delay_response_ignores_requester m resp other :
  let resp' := mkDelayResponseMessage (ds_sequence_id resp) (ds_log_message_interval resp)
                 (ds_receive_timestamp resp) other in
  em_sample (em_record_delay_response resp' m) = em_sample (em_record_delay_response resp m).
Proof.
  unfold em_sample. simpl.
  unfold DelayExchange_slave_master_offset, MessageWindow_combine_latest; simpl.
  by destruct (mw_current (dx_delay_request_window (em_delay_exchange m))) as [[]|].
Qed.

(** ** Witnesses *)

Definition w_cycle : DelayCycle :=
  mkDelayCycle (mkSequenceId 9) (mkTimeout 0 SM_DelayRequestTimeout) (mkLogInterval 0).
Definition w_two_step := mkTwoStepSyncMessage (mkSequenceId 5) (mkLogMessageInterval 0).
Definition w_follow_up :=
  mkFollowUpMessage (mkSequenceId 5) (mkLogMessageInterval 0) (mkTimeStamp 10 0).
Definition w_delay_req := mkDelayRequestMessage (mkSequenceId 9).
Definition w_delay_resp :=
  mkDelayResponseMessage (mkSequenceId 9) (mkLogMessageInterval 0) (mkTimeStamp 18 500000000)
    (sample_port 1 1).

(** Delay 500 ms, offset 2 s, and the messages in an arbitrary order. *)
Definition w_exchange : list ExchangeEvent :=
  [XDelayResp w_delay_resp; XFollowUp w_follow_up;
   XTwoStepSync w_two_step (mkTimeStamp 12 500000000); XDelayReq w_delay_req (mkTimeStamp 20 0)].

Lemma sample_never_panics_witness :
  em_sample (fold_left em_record w_exchange (EndToEndDelayMechanism_new w_cycle))
  = Done (Some (mkServoSample (mkTimeStamp 12 500000000) (mkTimeInterval 2 0))).
Proof.
  refine (proj1 (sample_never_panics w_cycle w_exchange _ _)).
  - unfold SequenceId_wf; simpl; lia.
  - repeat constructor; unfold SequenceId_wf, LogMessageInterval_wf, TimeStamp_wf, NANOS_PER_SECOND,
      PortNumber_wf, is_byte; simpl; lia.
Defined.

Lemma two_step_exchange_offset_witness :
  em_sample (fold_left em_record w_exchange (EndToEndDelayMechanism_new w_cycle))
  = Done (Some (mkServoSample (mkTimeStamp 12 500000000) (ti_of_ns 2000000000))).
Proof.
  apply (two_step_exchange_offset w_cycle w_two_step w_follow_up w_delay_req w_delay_resp
    (mkTimeStamp 12 500000000) (mkTimeStamp 20 0) w_exchange 2000000000 500000000).
  1-4: unfold TimeStamp_wf, NANOS_PER_SECOND; simpl; lia.
  1-4: reflexivity.
  unfold w_exchange, two_step_exchange. solve_Permutation.
Defined.
