(* ===== verification/Bmca.v ===== *)
(** * Best master clock algorithm and its roles (crates/rptp/src/bmca.rs)

    The decision of IEEE 1588-2019 Fig. 33 ([BestMasterClockAlgorithm_decision]), the change
    detection that triggers state decision events, and the four role decorators a port state
    owns. [StateDecisionEvent] is the interface to the clock; [Bmca] the one to the port states. *)

From S2P Require Import Prelude Errors Time Clock PortId DataSet Foreign Wire Message Effects.

Open Scope Z_scope.

(** ** Decisions *)

Inductive BmcaMasterDecisionPoint := M1 | M2 | M3.

Record BmcaMasterDecision := mkBmcaMasterDecision {
  md_decision_point : BmcaMasterDecisionPoint;
  md_grandmaster_ds : ClockDS;
}.

Inductive BmcaDecision :=
| BD_Master (d : BmcaMasterDecision)
| BD_Slave (parent : ParentPortIdentity)
| BD_Passive.

#[export] Instance BmcaMasterDecisionPoint_eq_dec : EqDecision BmcaMasterDecisionPoint.
Proof. solve_decision. Defined.
#[export] Instance BmcaMasterDecision_eq_dec : EqDecision BmcaMasterDecision.
Proof. solve_decision. Defined.
#[export] Instance BmcaDecision_eq_dec : EqDecision BmcaDecision.
Proof. solve_decision. Defined.

(** The transition inputs of the port state machine (portstate.rs). *)
Inductive StateDecision :=
| Initialized
| MasterClockSelected (parent : ParentPortIdentity)
| RecommendedSlave (parent : ParentPortIdentity)
| RecommendedMaster (d : BmcaMasterDecision)
| RecommendedPassive
| FaultDetected
| FaultCleared
| QualificationTimeoutExpired
| AnnounceReceiptTimeoutExpired
| SynchronizationFault.

Definition BmcaDecision_to_state_decision (self : BmcaDecision) : option StateDecision :=
  match self with
  | BD_Master decision => Some (RecommendedMaster decision)
  | BD_Slave parent => Some (RecommendedSlave parent)
  | BD_Passive => Some RecommendedPassive
  end.

Definition BmcaMasterDecision_matches_grandmaster (self : BmcaMasterDecision)
    (grandmaster_ds : ClockDS) : bool :=
  bool_decide (md_grandmaster_ds self = grandmaster_ds).

Record QualificationTimeoutPolicy := mkQualificationTimeoutPolicy {
  qp_master_decision_point : BmcaMasterDecisionPoint;
  qp_steps_removed : StepsRemoved;
}.

Definition QualificationTimeoutPolicy_duration (self : QualificationTimeoutPolicy)
    (log_announce_interval : LogInterval) : outcome Duration :=
  match qp_master_decision_point self with
  | M1 => Duration_from_secs 0
  | M2 => Duration_from_secs 0
  | M3 =>
      n ← u_chk 64 (StepsRemoved_as_u16 (qp_steps_removed self) + 1);
      Done (Duration_saturating_mul (LogInterval_duration log_announce_interval) n)
  end.

Definition BmcaMasterDecision_apply {A} (new_port_state : QualificationTimeoutPolicy → ClockDS → A)
    (self : BmcaMasterDecision) : A :=
  new_port_state
    (mkQualificationTimeoutPolicy (md_decision_point self)
       (cds_steps_removed (md_grandmaster_ds self)))
    (md_grandmaster_ds self).

(** ** The algorithm *)

Record LocalDS := mkLocalDS { ld_ds : ClockDS; ld_local_topo_id : PortIdentity }.

Definition LocalDS_new (ds : ClockDS) : LocalDS :=
  mkLocalDS ds (PortIdentity_new (cds_identity ds) (PortNumber_new 0)).

Definition LocalDS_is_better_or_better_by_topology (self : LocalDS) (other : BestForeignSnapshot)
    : result ClockDS QualifiedForeignSnapshot :=
  match other with
  | Qualified foreign_ds source_port_identity receiver =>
      if TopologyDS_is_better_or_better_by_topology
           (TopologyDS_local (ld_ds self) (ld_local_topo_id self))
           (TopologyDS_foreign foreign_ds source_port_identity receiver)
      then Ok (ld_ds self)
      else Err (mkQualifiedForeignSnapshot foreign_ds source_port_identity receiver)
  | Empty => Ok (ld_ds self)
  end.

Definition AuthoritativeDecision_decision (d_0 : LocalDS) (e_rbest : BestForeignSnapshot)
    : BmcaDecision :=
  match LocalDS_is_better_or_better_by_topology d_0 e_rbest with
  | Ok local_clock_ds => BD_Master (mkBmcaMasterDecision M1 local_clock_ds)
  | Err _ => BD_Passive
  end.

Definition BetterByTopologyDecision_decision (e_rbest : BestForeignSnapshot)
    (e_best : QualifiedForeignSnapshot) : BmcaDecision :=
  if QualifiedForeignSnapshot_is_better_by_topology e_best e_rbest then BD_Passive
  else BD_Master (mkBmcaMasterDecision M3 (QualifiedForeignSnapshot_into_grandmaster_ds e_best)).

Definition ReceivedOnPortDecision_decision (port_number : PortNumber)
    (e_rbest : BestForeignSnapshot) (e_best : QualifiedForeignSnapshot) : BmcaDecision :=
  match QualifiedForeignSnapshot_parent_if_received_on_port e_best port_number with
  | Some parent => BD_Slave parent
  | None => BetterByTopologyDecision_decision e_rbest e_best
  end.

Definition NonAuthoritativeDecision_decision (d_0 : LocalDS) (e_best : BestForeignSnapshot)
    (port_number : PortNumber) (e_rbest : BestForeignSnapshot) : BmcaDecision :=
  match LocalDS_is_better_or_better_by_topology d_0 e_best with
  | Ok local_clock_ds => BD_Master (mkBmcaMasterDecision M2 local_clock_ds)
  | Err qualified_e_best => ReceivedOnPortDecision_decision port_number e_rbest qualified_e_best
  end.

Record BestMasterClockAlgorithm := mkBestMasterClockAlgorithm {
  bm_d_0 : ClockDS;
  bm_port_number : PortNumber;
}.

Definition BestMasterClockAlgorithm_decision (d_0 : ClockDS) (e_best e_rbest : BestForeignSnapshot)
    (self : BestMasterClockAlgorithm) : BmcaDecision * BestMasterClockAlgorithm :=
  let self := mkBestMasterClockAlgorithm d_0 (bm_port_number self) in
  (if ClockDS_is_authoritative d_0 then
     AuthoritativeDecision_decision (LocalDS_new d_0) e_rbest
   else
     NonAuthoritativeDecision_decision (LocalDS_new d_0) e_best (bm_port_number self) e_rbest,
   self).

(** ** State decision events *)

(** The clock's side of the interface, over the state its ports share. *)
Class StateDecisionEvent (S : Type) := {
  sde_trigger : PortNumber → BestForeignSnapshot → M S unit;
}.

Record StateDecisionEventTrigger := mkStateDecisionEventTrigger {
  tr_previous_best_foreign : BestForeignSnapshot;
  tr_received_on_port : PortNumber;
}.

(** ** Roles *)

(** What every role owns. *)
Record BmcaParts (R : Type) := mkBmcaParts {
  bp_bmca : BestMasterClockAlgorithm;
  bp_best_foreign : BestForeignRecord R;
  bp_trigger : StateDecisionEventTrigger;
}.
Arguments mkBmcaParts {R}.
Arguments bp_bmca {R}.
Arguments bp_best_foreign {R}.
Arguments bp_trigger {R}.

Record ListeningBmca (R : Type) := mkListeningBmca { lb_parts : BmcaParts R }.
Arguments mkListeningBmca {R}.
Arguments lb_parts {R}.

Record GrandMasterTrackingBmca (R : Type) := mkGrandMasterTrackingBmca {
  gb_parts : BmcaParts R;
  gb_grandmaster_ds : ClockDS;
}.
Arguments mkGrandMasterTrackingBmca {R}.
Arguments gb_parts {R}.
Arguments gb_grandmaster_ds {R}.

Record ParentTrackingBmca (R : Type) := mkParentTrackingBmca {
  pb_parts : BmcaParts R;
  pb_parent_port_identity : ParentPortIdentity;
}.
Arguments mkParentTrackingBmca {R}.
Arguments pb_parts {R}.
Arguments pb_parent_port_identity {R}.

Record PassiveBmca (R : Type) := mkPassiveBmca { vb_parts : BmcaParts R }.
Arguments mkPassiveBmca {R}.
Arguments vb_parts {R}.

Section roles.
  Context {S : Type} `{HS : !StateDecisionEvent S} {R : Type} `{HR : !ForeignClockRecords R}.

Definition StateDecisionEventTrigger_trigger (current : BestForeignSnapshot)
    (self : StateDecisionEventTrigger) : M S StateDecisionEventTrigger :=
  let self := mkStateDecisionEventTrigger current (tr_received_on_port self) in
  _ ← sde_trigger (tr_received_on_port self) current;
  mret self.

Definition StateDecisionEventTrigger_gated_trigger (current : BestForeignSnapshot)
    (self : StateDecisionEventTrigger) : M S StateDecisionEventTrigger :=
  if bool_decide (tr_previous_best_foreign self = current) then mret self
  else StateDecisionEventTrigger_trigger current self.

(** The four [Bmca::consider] bodies are the same three statements. *)
Definition consider_parts (source_port_identity : PortIdentity) (foreign_clock_ds : ClockDS)
    (log_announce_interval : LogInterval) (now : Instant) (self : BmcaParts R)
    : M S (BmcaParts R) :=
  best_foreign ← lift (BestForeignRecord_consider source_port_identity foreign_clock_ds
                         log_announce_interval now (bp_best_foreign self));
  let current := BestForeignRecord_snapshot best_foreign in
  trigger ← StateDecisionEventTrigger_gated_trigger current (bp_trigger self);
  mret (mkBmcaParts (bp_bmca self) best_foreign trigger).

(** The call each [Bmca::decision] makes before it gates the result. *)
Definition decide_parts (d_0 : ClockDS) (e_best : BestForeignSnapshot) (self : BmcaParts R)
    : BestForeignSnapshot * BmcaDecision * BmcaParts R :=
  let e_rbest := BestForeignRecord_snapshot (bp_best_foreign self) in
  let '(decision, bmca) :=
    BestMasterClockAlgorithm_decision d_0 e_best e_rbest (bp_bmca self) in
  (e_rbest, decision, mkBmcaParts bmca (bp_best_foreign self) (bp_trigger self)).

(** [into_local_grandmaster_tracking] of the listening, parent-tracking and passive roles. *)
Definition local_grandmaster_tracking (self : BmcaParts R) : M S (GrandMasterTrackingBmca R) :=
  let current := BestForeignRecord_snapshot (bp_best_foreign self) in
  trigger ← StateDecisionEventTrigger_trigger current (bp_trigger self);
  let local_ds := bm_d_0 (bp_bmca self) in
  mret (mkGrandMasterTrackingBmca
          (mkBmcaParts (bp_bmca self) (bp_best_foreign self) trigger) local_ds).

Definition ListeningBmca_consider (s : PortIdentity) (ds : ClockDS) (l : LogInterval)
    (now : Instant) (self : ListeningBmca R) : M S (ListeningBmca R) :=
  p ← consider_parts s ds l now (lb_parts self); mret (mkListeningBmca p).

Definition ListeningBmca_decision (d_0 : ClockDS) (e_best : BestForeignSnapshot)
    (self : ListeningBmca R) : option BmcaDecision * ListeningBmca R :=
  let '(e_rbest, decision, parts) := decide_parts d_0 e_best (lb_parts self) in
  (match e_rbest with Qualified _ _ _ => Some decision | Empty => None end,
   mkListeningBmca parts).

Definition ListeningBmca_into_parent_tracking (parent : ParentPortIdentity)
    (self : ListeningBmca R) : ParentTrackingBmca R :=
  mkParentTrackingBmca (lb_parts self) parent.
Definition ListeningBmca_into_grandmaster_tracking (ds : ClockDS) (self : ListeningBmca R)
    : GrandMasterTrackingBmca R :=
  mkGrandMasterTrackingBmca (lb_parts self) ds.
Definition ListeningBmca_into_local_grandmaster_tracking (self : ListeningBmca R)
    : M S (GrandMasterTrackingBmca R) :=
  local_grandmaster_tracking (lb_parts self).
Definition ListeningBmca_into_passive (self : ListeningBmca R) : PassiveBmca R :=
  mkPassiveBmca (lb_parts self).

Definition GrandMasterTrackingBmca_consider (s : PortIdentity) (ds : ClockDS) (l : LogInterval)
    (now : Instant) (self : GrandMasterTrackingBmca R) : M S (GrandMasterTrackingBmca R) :=
  p ← consider_parts s ds l now (gb_parts self);
  mret (mkGrandMasterTrackingBmca p (gb_grandmaster_ds self)).

Definition GrandMasterTrackingBmca_decision (d_0 : ClockDS) (e_best : BestForeignSnapshot)
    (self : GrandMasterTrackingBmca R) : option BmcaDecision * GrandMasterTrackingBmca R :=
  let '(_, decision, parts) := decide_parts d_0 e_best (gb_parts self) in
  (match decision with
   | BD_Master master_decision =>
       if BmcaMasterDecision_matches_grandmaster master_decision (gb_grandmaster_ds self)
       then None else Some decision
   | BD_Slave _ | BD_Passive => Some decision
   end,
   mkGrandMasterTrackingBmca parts (gb_grandmaster_ds self)).

Definition GrandMasterTrackingBmca_with_grandmaster_ds (ds : ClockDS)
    (self : GrandMasterTrackingBmca R) : GrandMasterTrackingBmca R :=
  mkGrandMasterTrackingBmca (gb_parts self) ds.
Definition GrandMasterTrackingBmca_into_parent_tracking (parent : ParentPortIdentity)
    (self : GrandMasterTrackingBmca R) : ParentTrackingBmca R :=
  mkParentTrackingBmca (gb_parts self) parent.
Definition GrandMasterTrackingBmca_into_passive (self : GrandMasterTrackingBmca R)
    : PassiveBmca R :=
  mkPassiveBmca (gb_parts self).

(** [grandmaster().announce(..)]. *)
Definition GrandMaster_announce (sequence_id : SequenceId)
    (log_message_interval : LogMessageInterval) (time_scale : TimeScale) (ds : ClockDS)
    : AnnounceMessage :=
  mkAnnounceMessage sequence_id log_message_interval ds time_scale.

Definition ParentTrackingBmca_consider (s : PortIdentity) (ds : ClockDS) (l : LogInterval)
    (now : Instant) (self : ParentTrackingBmca R) : M S (ParentTrackingBmca R) :=
  p ← consider_parts s ds l now (pb_parts self);
  mret (mkParentTrackingBmca p (pb_parent_port_identity self)).

Definition ParentTrackingBmca_decision (d_0 : ClockDS) (e_best : BestForeignSnapshot)
    (self : ParentTrackingBmca R) : option BmcaDecision * ParentTrackingBmca R :=
  let '(_, decision, parts) := decide_parts d_0 e_best (pb_parts self) in
  (match decision with
   | BD_Slave parent =>
       if bool_decide (pb_parent_port_identity self = parent) then None else Some decision
   | _ => Some decision
   end,
   mkParentTrackingBmca parts (pb_parent_port_identity self)).

Definition ParentTrackingBmca_matches_parent (source : PortIdentity)
    (self : ParentTrackingBmca R) : bool :=
  ParentPortIdentity_matches (pb_parent_port_identity self) source.
Definition ParentTrackingBmca_with_parent (parent : ParentPortIdentity)
    (self : ParentTrackingBmca R) : ParentTrackingBmca R :=
  mkParentTrackingBmca (pb_parts self) parent.
Definition ParentTrackingBmca_into_grandmaster_tracking (ds : ClockDS)
    (self : ParentTrackingBmca R) : GrandMasterTrackingBmca R :=
  mkGrandMasterTrackingBmca (pb_parts self) ds.
Definition ParentTrackingBmca_into_local_grandmaster_tracking (self : ParentTrackingBmca R)
    : M S (GrandMasterTrackingBmca R) :=
  local_grandmaster_tracking (pb_parts self).
Definition ParentTrackingBmca_into_passive (self : ParentTrackingBmca R) : PassiveBmca R :=
  mkPassiveBmca (pb_parts self).

Definition PassiveBmca_consider (s : PortIdentity) (ds : ClockDS) (l : LogInterval)
    (now : Instant) (self : PassiveBmca R) : M S (PassiveBmca R) :=
  p ← consider_parts s ds l now (vb_parts self); mret (mkPassiveBmca p).

Definition PassiveBmca_decision (d_0 : ClockDS) (e_best : BestForeignSnapshot)
    (self : PassiveBmca R) : option BmcaDecision * PassiveBmca R :=
  let '(_, decision, parts) := decide_parts d_0 e_best (vb_parts self) in
  (match decision with BD_Passive => None | _ => Some decision end, mkPassiveBmca parts).

Definition PassiveBmca_into_parent_tracking (parent : ParentPortIdentity) (self : PassiveBmca R)
    : ParentTrackingBmca R :=
  mkParentTrackingBmca (vb_parts self) parent.
Definition PassiveBmca_into_grandmaster_tracking (ds : ClockDS) (self : PassiveBmca R)
    : GrandMasterTrackingBmca R :=
  mkGrandMasterTrackingBmca (vb_parts self) ds.
Definition PassiveBmca_into_local_grandmaster_tracking (self : PassiveBmca R)
    : M S (GrandMasterTrackingBmca R) :=
  local_grandmaster_tracking (vb_parts self).
End roles.

(** The [Bmca] trait, as the port states use it. *)
Class Bmca (S B : Type) := {
  bmca_consider : PortIdentity → ClockDS → LogInterval → Instant → B → M S B;
  bmca_decision : ClockDS → BestForeignSnapshot → B → option BmcaDecision * B;
}.

Section bmca_instances.
  Context {S : Type} `{HS : !StateDecisionEvent S} {R : Type} `{HR : !ForeignClockRecords R}.

#[export] Instance ListeningBmca_Bmca : Bmca S (ListeningBmca R) := {
  bmca_consider := ListeningBmca_consider;
  bmca_decision := ListeningBmca_decision;
}.
#[export] Instance GrandMasterTrackingBmca_Bmca : Bmca S (GrandMasterTrackingBmca R) := {
  bmca_consider := GrandMasterTrackingBmca_consider;
  bmca_decision := GrandMasterTrackingBmca_decision;
}.
#[export] Instance ParentTrackingBmca_Bmca : Bmca S (ParentTrackingBmca R) := {
  bmca_consider := ParentTrackingBmca_consider;
  bmca_decision := ParentTrackingBmca_decision;
}.
#[export] Instance PassiveBmca_Bmca : Bmca S (PassiveBmca R) := {
  bmca_consider := PassiveBmca_consider;
  bmca_decision := PassiveBmca_decision;
}.
End bmca_instances.

(** The placeholder role that never changes and never decides. *)
Inductive NoopBmca := mkNoopBmca.

#[export] Instance NoopBmca_Bmca {S} : Bmca S NoopBmca := {
  bmca_consider _ _ _ _ self := mret self;
  bmca_decision _ _ self := (None, self);
}.

(** [AnnounceMessage::feed_bmca] (message.rs). *)
Definition AnnounceMessage_feed_bmca {S B} `{Bmca S B} (source_port_identity : PortIdentity)
    (now : Instant) (self : AnnounceMessage) (bmca : B) : M S B :=
  l ← lift (LogMessageInterval_log_interval (an_log_message_interval self));
  match l with
  | Some log_interval =>
      bmca_consider source_port_identity (an_foreign_clock_ds self) log_interval now bmca
  | None => mret bmca
  end.

(** ** The decision, by comparison of the dataset tuples *)

(** [D_0] against a foreign dataset of another clock: no topology is involved. *)
Definition d0_better (d_0 : ClockDS) (s : BestForeignSnapshot) : bool :=
  match s with
  | Empty => true
  | Qualified ds _ _ => match ClockDS_tuple_cmp d_0 ds with Lt => true | _ => false end
  end.

Definition foreign_to (d_0 : ClockDS) (s : BestForeignSnapshot) : Prop :=
  match s with Empty => True | Qualified ds _ _ => cds_identity d_0 ≠ cds_identity ds end.

Lemma LocalDS_better_eq d_0 s : foreign_to d_0 s →
  LocalDS_is_better_or_better_by_topology (LocalDS_new d_0) s
  = match s with
    | Qualified ds src r => if d0_better d_0 s then Ok d_0 else Err (mkQualifiedForeignSnapshot ds src r)
    | Empty => Ok d_0
    end.
Proof.
  destruct s as [ds src r|]; [|done]. simpl. intros Hne.
  unfold TopologyDS_is_better_or_better_by_topology; simpl.
  rewrite ClockDS_compare_diff by done. by destruct (ClockDS_tuple_cmp d_0 ds).
Qed.

(** C16: The BMCA decision is the table of IEEE 1588 Figure 33: an authoritative local clock is
    master (M1) or passive by comparison with the port's own best; otherwise master (M2) when no
    candidate beats it, slave of the best candidate if it was received on this port, passive if
    that candidate is better by topology, else master (M3) one step further from it. The candidates
    are of other clocks: neither carries the local clock's own identity as its grandmaster. *)
Theorem bmca_decision_table d_0 e_best e_rbest b :
  foreign_to d_0 e_best → foreign_to d_0 e_rbest →
  (BestMasterClockAlgorithm_decision d_0 e_best e_rbest b).1
  = if ClockClass_is_authoritative (cq_clock_class (cds_quality d_0)) then
      if d0_better d_0 e_rbest then BD_Master (mkBmcaMasterDecision M1 d_0) else BD_Passive
    else
      match e_best with
      | Qualified ds src r =>
          if d0_better d_0 e_best then BD_Master (mkBmcaMasterDecision M2 d_0)
          else if bool_decide (pi_port_number r = bm_port_number b)
          then BD_Slave (mkParentPortIdentity src)
          else if QualifiedForeignSnapshot_is_better_by_topology
                    (mkQualifiedForeignSnapshot ds src r) e_rbest
          then BD_Passive
          else BD_Master (mkBmcaMasterDecision M3 (ClockDS_with_added_step ds))
      | Empty => BD_Master (mkBmcaMasterDecision M2 d_0)
      end.
Proof.
  intros Hb Hr. unfold BestMasterClockAlgorithm_decision, ClockDS_is_authoritative,
    ClockQuality_is_authoritative; cbn [fst].
  destruct (ClockClass_is_authoritative _).
  - unfold AuthoritativeDecision_decision. rewrite LocalDS_better_eq by done.
    destruct e_rbest as [ds src r|]; [|done]. by destruct (d0_better _ _).
  - unfold NonAuthoritativeDecision_decision. rewrite LocalDS_better_eq by done.
    destruct e_best as [ds src r|]; [|done]. destruct (d0_better _ _); [done|].
    unfold ReceivedOnPortDecision_decision, QualifiedForeignSnapshot_parent_if_received_on_port,
      PortIdentity_port_number; cbn [qs_receiver qs_source_port_identity bm_port_number].
    by destruct (bool_decide _).
Qed.

(** A slave decision follows the sender of the best candidate, received on the port. *)
Lemma slave_decision_inv d_0 e_best e_rbest b p :
  (BestMasterClockAlgorithm_decision d_0 e_best e_rbest b).1 = BD_Slave p →
  ∃ ds r, e_best = Qualified ds (ppi_identity p) r ∧ pi_port_number r = bm_port_number b.
Proof.
  unfold BestMasterClockAlgorithm_decision; cbn [fst]. case_match.
  - unfold AuthoritativeDecision_decision. by case_match.
  - unfold NonAuthoritativeDecision_decision, ReceivedOnPortDecision_decision,
      BetterByTopologyDecision_decision, QualifiedForeignSnapshot_parent_if_received_on_port,
      PortIdentity_port_number. cbn [bm_port_number].
    destruct e_best as [ds src r|]; simpl; [|done].
    destruct (TopologyDS_is_better_or_better_by_topology _ _); [done|]; simpl.
    case_bool_decide as Hp; [|by case_match]. intros [= <-]. by exists ds, r.
Qed.

(** Ports of one clock that decide on the same snapshot cannot both become slaves: two slave
    decisions come from the same port number, name the same parent, and that parent is the sender
    of the best candidate received on that port. *)
Theorem at_most_one_slave d_0 e_best e_rbest1 e_rbest2 b1 b2 p1 p2 :
  (BestMasterClockAlgorithm_decision d_0 e_best e_rbest1 b1).1 = BD_Slave p1 →
  (BestMasterClockAlgorithm_decision d_0 e_best e_rbest2 b2).1 = BD_Slave p2 →
  bm_port_number b1 = bm_port_number b2 ∧ p1 = p2 ∧
  ∃ ds r, e_best = Qualified ds (ppi_identity p1) r ∧ pi_port_number r = bm_port_number b1.
Proof.
  intros (ds & r & -> & P1)%slave_decision_inv (ds' & r' & E & P2)%slave_decision_inv.
  injection E as <- E <-. split; [congruence|]. split.
  - destruct p1, p2. simpl in *. by f_equal.
  - by exists ds, r.
Qed.

(** Each BMCA role reports the raw decision except when it would change nothing: a listening
    port with no candidate of its own, a slave of the same parent, a master of the same
    grandmaster dataset, a passive port told to stay passive. *)
Theorem roles_suppress_repeats `{HR : ForeignClockRecords R} (parts : BmcaParts R) d_0 e_best
    (parent : ParentPortIdentity) (grandmaster : ClockDS) :
  let raw := (decide_parts d_0 e_best parts).1.2 in
  (ListeningBmca_decision d_0 e_best (mkListeningBmca parts)).1
    = (if bool_decide (BestForeignRecord_snapshot (bp_best_foreign parts) = Empty)
       then None else Some raw) ∧
  (ParentTrackingBmca_decision d_0 e_best (mkParentTrackingBmca parts parent)).1
    = (if bool_decide (raw = BD_Slave parent) then None else Some raw) ∧
  (GrandMasterTrackingBmca_decision d_0 e_best (mkGrandMasterTrackingBmca parts grandmaster)).1
    = (match raw with
       | BD_Master d => if bool_decide (md_grandmaster_ds d = grandmaster) then None else Some raw
       | _ => Some raw
       end) ∧
  (PassiveBmca_decision d_0 e_best (mkPassiveBmca parts)).1
    = (if bool_decide (raw = BD_Passive) then None else Some raw).
Proof.
  intros raw. unfold ListeningBmca_decision, ParentTrackingBmca_decision,
    GrandMasterTrackingBmca_decision, PassiveBmca_decision; simpl lb_parts; simpl pb_parts;
    simpl gb_parts; simpl vb_parts.
  assert ((decide_parts d_0 e_best parts).1.1 = BestForeignRecord_snapshot (bp_best_foreign parts))
    as Hr by done.
  fold raw. destruct (decide_parts d_0 e_best parts) as [[e_rbest dec] parts'].
  cbn [fst snd] in *. subst e_rbest. unfold raw; cbn [fst snd].
  split; [|split; [|split]].
  - destruct (BestForeignRecord_snapshot _); [by rewrite bool_decide_eq_false_2|done].
  - destruct dec as [d|p|]; [by rewrite bool_decide_eq_false_2| |by rewrite bool_decide_eq_false_2].
    simpl. destruct (decide (parent = p)) as [->|Hne]; [by rewrite !bool_decide_eq_true_2|].
    rewrite !bool_decide_eq_false_2; [done|congruence..].
  - by destruct dec.
  - destruct dec as [d|p|]; [by rewrite bool_decide_eq_false_2..|done].
Qed.

(** The qualification timeout is zero for M1 and M2, and for M3 (steps removed + 1) announce
    intervals, saturating at 2^64-1 nanoseconds, with no overflow for any 16-bit step count and
    supported interval. *)
Theorem qualification_timeout_exact p l : StepsRemoved_wf (qp_steps_removed p) → LogInterval_wf l →
  QualificationTimeoutPolicy_duration p l
  = Done (mkDuration
      match qp_master_decision_point p with
      | M1 | M2 => 0
      | M3 =>
          Z.min ((sr_value (qp_steps_removed p) + 1) *
                 (if 0 <=? log_value l then 1000000000 * 2 ^ log_value l
                  else 1000000000 / 2 ^ (- log_value l)))
            (2 ^ 64 - 1)
      end).
Proof.
  intros Hs Hl. unfold QualificationTimeoutPolicy_duration, StepsRemoved_as_u16, StepsRemoved_wf in *.
  destruct (qp_master_decision_point p); [done|done|].
  rewrite u_chk_Done by lia. cbn [mbind outcome_bind]. unfold Duration_saturating_mul, u_sat.
  by rewrite LogInterval_duration_eq, Z.mul_comm.
Qed.

Lemma qualification_timeout_exact_witness :
  QualificationTimeoutPolicy_duration (mkQualificationTimeoutPolicy M3 (mkStepsRemoved 65535))
    (mkLogInterval 20)
  = Done (mkDuration (2 ^ 64 - 1)).
Proof.
  apply (qualification_timeout_exact (mkQualificationTimeoutPolicy M3 (mkStepsRemoved 65535))
           (mkLogInterval 20)); [unfold StepsRemoved_wf | unfold LogInterval_wf]; simpl; lia.
Defined.

(** ** Change detection *)

(** C35: Considering an Announce triggers a state decision event exactly when the port's best
    snapshot differs from the one last reported, with the new snapshot and the port's number, and
    remembers it. *)
Theorem consider_triggers_on_change {S} `{HS : StateDecisionEvent S} `{HR : ForeignClockRecords R}
    (inv : R → Prop) `{!ForeignClockRecordsLaws R inv} s ds l now (p : BmcaParts R) (w : World S) :
  inv (bf_foreign_clock_records (bp_best_foreign p)) →
  ∃ bf', BestForeignRecord_consider s ds l now (bp_best_foreign p) = Done bf' ∧
    let current := BestForeignRecord_snapshot bf' in
    let port := tr_received_on_port (bp_trigger p) in
    let p' := mkBmcaParts (bp_bmca p) bf' (mkStateDecisionEventTrigger current port) in
    consider_parts s ds l now p w
    = if bool_decide (tr_previous_best_foreign (bp_trigger p) = current) then Done (p', w)
      else match sde_trigger port current w with
           | Done (_, w') => Done (p', w')
           | Panic => Panic
           end.
Proof.
  intros Hinv. destruct (consider_cases inv s ds l now _ Hinv) as (bf' & E & _).
  exists bf'. split; [done|]. cbv zeta. unfold consider_parts.
  unfold mbind, M_bind, lift, mret, M_ret. rewrite E.
  unfold StateDecisionEventTrigger_gated_trigger. destruct p as [b bf [prev port]]; cbn.
  case_bool_decide as Hd; [by rewrite Hd|].
  unfold StateDecisionEventTrigger_trigger, mbind, M_bind, mret, M_ret; cbn.
  by destruct (sde_trigger port _ w) as [[[] w']|].
Qed.

(** ** Safety of the roles *)

Definition snapshot_on (port : PortNumber) (s : BestForeignSnapshot) : Prop :=
  match s with Qualified _ _ r => pi_port_number r = port | Empty => True end.

(** What the clock promises: triggering from one of its ports keeps its invariant. *)
Class StateDecisionEventLaws (S : Type) `{!StateDecisionEvent S} (I : S → Prop)
    (P : Effect → Prop) (port_ok : PortNumber → Prop) : Prop := {
  sde_trigger_safe : ∀ port s, port_ok port → snapshot_on port s → snapshot_wf s →
    safe I P (λ _, True) (sde_trigger port s);
}.

(** A master decision carries a well-formed grandmaster dataset. *)
Definition decision_wf (d : BmcaDecision) : Prop :=
  match d with BD_Master d => ClockDS_wf (md_grandmaster_ds d) | _ => True end.

(** What a role promises to the port states: [consider] and [decision] keep its invariant, and
    decisions are well formed. *)
Class BmcaLaws (S B : Type) `{!Bmca S B} (I : S → Prop) (P : Effect → Prop) (ok : B → Prop)
    : Prop := {
  bmca_consider_safe : ∀ src ds l now b, ok b → ClockDS_wf ds →
    safe I P ok (bmca_consider src ds l now b);
  bmca_decision_ok : ∀ d_0 e b, ok b → ClockDS_wf d_0 → snapshot_wf e →
    ok (bmca_decision (S := S) d_0 e b).2 ∧
    ∀ d, (bmca_decision (S := S) d_0 e b).1 = Some d → decision_wf d;
}.

Section role_safety.
  Context {S : Type} `{HS : !StateDecisionEvent S} {R : Type} `{HR : !ForeignClockRecords R}.
  Context (I : S → Prop) (P : Effect → Prop) (port_ok : PortNumber → Prop).
  Context `{!StateDecisionEventLaws S I P port_ok}.
  Context (inv : R → Prop) `{!ForeignClockRecordsLaws R inv}.

(** The records a port keeps hold well-formed datasets. *)
Definition store_ok (r : R) : Prop :=
  inv r ∧ Forall (λ x, ClockDS_wf (fr_foreign_clock_ds x)) (fcr_iter r).

Definition best_foreign_ok (bf : BestForeignRecord R) : Prop :=
  store_ok (bf_foreign_clock_records bf).

Definition parts_ok (p : BmcaParts R) : Prop :=
  best_foreign_ok (bp_best_foreign p) ∧
  ClockDS_wf (bm_d_0 (bp_bmca p)) ∧
  pi_port_number (bf_receiver (bp_best_foreign p)) = tr_received_on_port (bp_trigger p) ∧
  port_ok (tr_received_on_port (bp_trigger p)).

Lemma snapshot_on_receiver (bf : BestForeignRecord R) :
  snapshot_on (pi_port_number (bf_receiver bf)) (BestForeignRecord_snapshot bf).
Proof. unfold BestForeignRecord_snapshot, best_of. by case_match. Qed.

Lemma snapshot_of_ok bf : best_foreign_ok bf → snapshot_wf (BestForeignRecord_snapshot bf).
Proof. intros [_ Hr]. by apply best_of_wf. Qed.

Lemma consider_ok s ds l now bf : best_foreign_ok bf → ClockDS_wf ds →
  ∃ bf', BestForeignRecord_consider s ds l now bf = Done bf' ∧
    bf_receiver bf' = bf_receiver bf ∧ best_foreign_ok bf'.
Proof.
  intros [Hinv Hr] Hds. destruct (consider_cases inv s ds l now bf Hinv) as (bf' & E & Hrc & Hi & H).
  exists bf'. split; [done|]. split; [done|]. split; [done|].
  rewrite Forall_forall in Hr. apply Forall_forall. intros x Hx.
  destruct H as [[_ H]|[_ H]].
  - rewrite H in Hx. apply list_elem_of_fmap in Hx as (y & -> & [_ Hy]%list_elem_of_filter).
    case_match; [done | by apply Hr].
  - destruct (H x Hx) as [->|[_ Hy]%list_elem_of_filter]; [done | by apply Hr].
Qed.

Lemma trigger_safe s t : port_ok (tr_received_on_port t) → snapshot_on (tr_received_on_port t) s →
  snapshot_wf s →
  safe I P (λ t', tr_received_on_port t' = tr_received_on_port t)
    (StateDecisionEventTrigger_trigger s t).
Proof.
  intros Ht Hs Hwf. unfold StateDecisionEventTrigger_trigger.
  apply safe_then; [by apply sde_trigger_safe | by apply safe_ret].
Qed.

Lemma consider_parts_safe s ds l now p : parts_ok p → ClockDS_wf ds →
  safe I P parts_ok (consider_parts s ds l now p).
Proof.
  intros (Hbf & Hd & Hp & Hok) Hds. unfold consider_parts.
  destruct (consider_ok s ds l now _ Hbf Hds) as (bf' & E & Hr & Hbf').
  eapply safe_bind; [eapply (safe_lift I P (λ b, b = bf')); [exact E|done]|]. intros ? ->.
  eapply (safe_bind _ _ (λ t, tr_received_on_port t = tr_received_on_port (bp_trigger p))).
  - unfold StateDecisionEventTrigger_gated_trigger. case_match; [by apply safe_ret|].
    apply trigger_safe; [done| |by apply snapshot_of_ok].
    rewrite <- Hp, <- Hr. apply snapshot_on_receiver.
  - intros t Ht. apply safe_ret. split; [done|]. split; [done|]. simpl. by rewrite Hr, Ht.
Qed.

Lemma local_grandmaster_tracking_safe p : parts_ok p →
  safe I P (λ b, parts_ok (gb_parts b) ∧ ClockDS_wf (gb_grandmaster_ds b))
    (local_grandmaster_tracking p).
Proof.
  intros (Hbf & Hd & Hp & Hok). unfold local_grandmaster_tracking.
  eapply safe_bind.
  { apply trigger_safe; [done| |by apply snapshot_of_ok]. rewrite <- Hp. apply snapshot_on_receiver. }
  intros t Ht. apply safe_ret. split; [|done]. split; [done|]. split; [done|]. simpl.
  by rewrite Ht.
Qed.

Lemma decide_parts_ok d_0 e_best p : parts_ok p → ClockDS_wf d_0 → snapshot_wf e_best →
  parts_ok (decide_parts d_0 e_best p).2 ∧ decision_wf (decide_parts d_0 e_best p).1.2.
Proof.
  intros (Hbf & Hd & Hp & Hok) Hd0 He. split; [by split|].
  unfold decide_parts, BestMasterClockAlgorithm_decision; cbn [fst snd].
  case_match.
  - unfold AuthoritativeDecision_decision, LocalDS_is_better_or_better_by_topology.
    destruct (BestForeignRecord_snapshot _); simpl;
      [destruct (TopologyDS_is_better_or_better_by_topology _ _)|]; done.
  - unfold NonAuthoritativeDecision_decision, LocalDS_is_better_or_better_by_topology,
      ReceivedOnPortDecision_decision, BetterByTopologyDecision_decision.
    destruct e_best as [ds src r|]; simpl; [|done].
    destruct (TopologyDS_is_better_or_better_by_topology _ _); [done|]; simpl.
    unfold QualifiedForeignSnapshot_parent_if_received_on_port.
    destruct (bool_decide _); simpl; [done|].
    destruct (QualifiedForeignSnapshot_is_better_by_topology _ _); simpl; [done|].
    by apply ClockDS_with_added_step_wf.
Qed.
(** *** The roles satisfy the laws of the interface *)

Definition grandmaster_ok (b : GrandMasterTrackingBmca R) : Prop :=
  parts_ok (gb_parts b) ∧ ClockDS_wf (gb_grandmaster_ds b).

#[export] Instance ListeningBmca_laws :
  BmcaLaws S (ListeningBmca R) I P (λ b, parts_ok (lb_parts b)).
Proof.
  split.
  - intros src ds l now b H Hds. eapply safe_bind; [by apply consider_parts_safe|].
    intros p Hp. by apply safe_ret.
  - intros d_0 e b H Hd He. destruct (decide_parts_ok d_0 e _ H Hd He) as [Hp Hw].
    cbn [bmca_decision ListeningBmca_Bmca]. unfold ListeningBmca_decision.
    destruct (decide_parts d_0 e (lb_parts b)) as [[r d] p]. split; [done|].
    intros d'. simpl. case_match; by intros [= <-].
Qed.

#[export] Instance GrandMasterTrackingBmca_laws :
  BmcaLaws S (GrandMasterTrackingBmca R) I P grandmaster_ok.
Proof.
  split.
  - intros src ds l now b [H Hg] Hds. eapply safe_bind; [by apply consider_parts_safe|].
    intros p Hp. by apply safe_ret.
  - intros d_0 e b [H Hg] Hd He. destruct (decide_parts_ok d_0 e _ H Hd He) as [Hp Hw].
    cbn [bmca_decision GrandMasterTrackingBmca_Bmca]. unfold GrandMasterTrackingBmca_decision.
    destruct (decide_parts d_0 e (gb_parts b)) as [[r d] p]. split; [done|].
    intros d'. simpl. repeat case_match; by intros [= <-].
Qed.

#[export] Instance ParentTrackingBmca_laws :
  BmcaLaws S (ParentTrackingBmca R) I P (λ b, parts_ok (pb_parts b)).
Proof.
  split.
  - intros src ds l now b H Hds. eapply safe_bind; [by apply consider_parts_safe|].
    intros p Hp. by apply safe_ret.
  - intros d_0 e b H Hd He. destruct (decide_parts_ok d_0 e _ H Hd He) as [Hp Hw].
    cbn [bmca_decision ParentTrackingBmca_Bmca]. unfold ParentTrackingBmca_decision.
    destruct (decide_parts d_0 e (pb_parts b)) as [[r d] p]. split; [done|].
    intros d'. simpl. repeat case_match; by intros [= <-].
Qed.

#[export] Instance PassiveBmca_laws :
  BmcaLaws S (PassiveBmca R) I P (λ b, parts_ok (vb_parts b)).
Proof.
  split.
  - intros src ds l now b H Hds. eapply safe_bind; [by apply consider_parts_safe|].
    intros p Hp. by apply safe_ret.
  - intros d_0 e b H Hd He. destruct (decide_parts_ok d_0 e _ H Hd He) as [Hp Hw].
    cbn [bmca_decision PassiveBmca_Bmca]. unfold PassiveBmca_decision.
    destruct (decide_parts d_0 e (vb_parts b)) as [[r d] p]. split; [done|].
    intros d'. simpl. repeat case_match; by intros [= <-].
Qed.
End role_safety.

Lemma PassiveBmca_never_passive `{HR : ForeignClockRecords R} d_0 e (b : PassiveBmca R) :
  (PassiveBmca_decision d_0 e b).1 ≠ Some BD_Passive.
Proof.
  unfold PassiveBmca_decision. destruct (decide_parts d_0 e (vb_parts b)) as [[r d] p].
  by destruct d.
Qed.

Lemma feed_bmca_safe {S B} `{!Bmca S B} (I : S → Prop) (P : Effect → Prop) (ok : B → Prop)
    `{!BmcaLaws S B I P ok} src now msg b :
  ok b → AnnounceMessage_wf msg → safe I P ok (AnnounceMessage_feed_bmca src now msg b).
Proof.
  intros Hb (_ & _ & Hds). unfold AnnounceMessage_feed_bmca.
  eapply safe_bind; [eapply (safe_lift I P (λ _, True)); [apply LogMessageInterval_log_interval_eq|done]|].
  intros l _. case_match; [by apply bmca_consider_safe | by apply safe_ret].
Qed.
