(* ===== verification/Profile.v ===== *)
(** * Port states and their construction (crates/rptp/src/profile.rs and the state modules)

    One record per port state with its [new], the sum type [PortState], and the
    [PortProfile] methods that create a state together with its timeouts and cycles. The
    destructors that cancel a dropped state's timeouts are the timer host's. *)

From S2P Require Import Prelude Errors Time Clock PortId DataSet Foreign Wire Message Effects.
From S2P Require Import Servo E2e Bmca.

Open Scope Z_scope.

Record PortProfile := mkPortProfile {
  pf_announce_receipt_timeout_interval : Duration;
  pf_log_announce_interval : LogInterval;
  pf_log_sync_interval : LogInterval;
  pf_log_min_delay_request_interval : LogInterval;
  pf_servo_config : ServoConfig;
}.

Definition PortProfile_with_servo_config (servo_config : ServoConfig) (self : PortProfile)
    : PortProfile :=
  mkPortProfile (pf_announce_receipt_timeout_interval self) (pf_log_announce_interval self)
    (pf_log_sync_interval self) (pf_log_min_delay_request_interval self) servo_config.

Definition PortProfile_default : outcome PortProfile :=
  t ← Duration_from_secs 5;
  a ← LogInterval_new 0;
  s ← LogInterval_new 0;
  d ← LogInterval_new 0;
  Done (mkPortProfile t a s d SC_Stepping).

(** ** Master cycles (master.rs) *)

Record AnnounceCycle := mkAnnounceCycle {
  ac_sequence_id : SequenceId;
  ac_timeout : Timeout;
  ac_log_interval : LogInterval;
}.

Record SyncCycle := mkSyncCycle {
  sc_sequence_id : SequenceId;
  sc_timeout : Timeout;
  sc_log_interval : LogInterval;
}.

Section states.
  Context {S : Type} {R : Type}.

(** ** The states *)

Record InitializingPort := mkInitializingPort {
  ip_port : DomainPort;
  ip_parts : BmcaParts R;
  ip_profile : PortProfile;
}.

Record ListeningPort := mkListeningPort {
  lp_port : DomainPort;
  lp_bmca : ListeningBmca R;
  lp_announce_receipt_timeout : AnnounceReceiptTimeout;
  lp_profile : PortProfile;
}.

Record SlavePort := mkSlavePort {
  sp_port : DomainPort;
  sp_bmca : ParentTrackingBmca R;
  sp_announce_receipt_timeout : AnnounceReceiptTimeout;
  sp_delay_mechanism : EndToEndDelayMechanism;
  sp_servo : Servo;
  sp_profile : PortProfile;
}.

Record MasterPort := mkMasterPort {
  mp_port : DomainPort;
  mp_bmca : GrandMasterTrackingBmca R;
  mp_announce_cycle : AnnounceCycle;
  mp_sync_cycle : SyncCycle;
  mp_log_min_delay_request_interval : LogInterval;
  mp_profile : PortProfile;
}.

Record PreMasterPort := mkPreMasterPort {
  pp_port : DomainPort;
  pp_bmca : GrandMasterTrackingBmca R;
  pp_qualification_timeout : Timeout;
  pp_profile : PortProfile;
}.

Record UncalibratedPort := mkUncalibratedPort {
  up_port : DomainPort;
  up_bmca : ParentTrackingBmca R;
  up_announce_receipt_timeout : AnnounceReceiptTimeout;
  up_delay_mechanism : EndToEndDelayMechanism;
  up_servo : Servo;
  up_profile : PortProfile;
}.

Record PassivePort := mkPassivePort {
  vp_port : DomainPort;
  vp_bmca : PassiveBmca R;
  vp_announce_receipt_timeout : AnnounceReceiptTimeout;
  vp_profile : PortProfile;
}.

Record FaultyPort := mkFaultyPort {
  fp_port : DomainPort;
  fp_parts : BmcaParts R;
  fp_profile : PortProfile;
}.

Inductive PortState :=
| Initializing (p : InitializingPort)
| Listening (p : ListeningPort)
| Slave (p : SlavePort)
| Master (p : MasterPort)
| PreMaster (p : PreMasterPort)
| Uncalibrated (p : UncalibratedPort)
| Passive (p : PassivePort)
| Faulty (p : FaultyPort).

(** ** The constructors, which log the new state *)

Definition InitializingPort_new (port : DomainPort) (parts : BmcaParts R) (profile : PortProfile)
    : M S InitializingPort :=
  _ ← DomainPort_log (PE_Static "Become InitializingPort") port;
  mret (mkInitializingPort port parts profile).

Definition ListeningPort_new (port : DomainPort) (bmca : ListeningBmca R)
    (announce_receipt_timeout : AnnounceReceiptTimeout) (profile : PortProfile)
    : M S ListeningPort :=
  _ ← DomainPort_log (PE_Static "Become ListeningPort") port;
  mret (mkListeningPort port bmca announce_receipt_timeout profile).

Definition SlavePort_new (port : DomainPort) (bmca : ParentTrackingBmca R)
    (announce_receipt_timeout : AnnounceReceiptTimeout)
    (delay_mechanism : EndToEndDelayMechanism) (servo : Servo) (profile : PortProfile)
    : M S SlavePort :=
  _ ← DomainPort_log (PE_Static "Become SlavePort") port;
  mret (mkSlavePort port bmca announce_receipt_timeout delay_mechanism servo profile).

Definition MasterPort_new (port : DomainPort) (bmca : GrandMasterTrackingBmca R)
    (announce_cycle : AnnounceCycle) (sync_cycle : SyncCycle)
    (log_min_delay_request_interval : LogInterval) (profile : PortProfile) : M S MasterPort :=
  _ ← DomainPort_log (PE_Static "Become MasterPort") port;
  mret (mkMasterPort port bmca announce_cycle sync_cycle log_min_delay_request_interval profile).

Definition PreMasterPort_new (port : DomainPort) (bmca : GrandMasterTrackingBmca R)
    (qualification_timeout : Timeout) (profile : PortProfile) : M S PreMasterPort :=
  _ ← DomainPort_log (PE_Static "Become PreMasterPort") port;
  mret (mkPreMasterPort port bmca qualification_timeout profile).

Definition UncalibratedPort_new (port : DomainPort) (bmca : ParentTrackingBmca R)
    (announce_receipt_timeout : AnnounceReceiptTimeout)
    (delay_mechanism : EndToEndDelayMechanism) (servo : Servo) (profile : PortProfile)
    : M S UncalibratedPort :=
  _ ← DomainPort_log (PE_Static "Become UncalibratedPort") port;
  mret (mkUncalibratedPort port bmca announce_receipt_timeout delay_mechanism servo profile).

Definition PassivePort_new (port : DomainPort) (bmca : PassiveBmca R)
    (announce_receipt_timeout : AnnounceReceiptTimeout) (profile : PortProfile)
    : M S PassivePort :=
  _ ← DomainPort_log (PE_Static "Become PassivePort") port;
  mret (mkPassivePort port bmca announce_receipt_timeout profile).

Definition FaultyPort_new (port : DomainPort) (parts : BmcaParts R) (profile : PortProfile)
    : M S FaultyPort :=
  _ ← DomainPort_log (PE_Static "Become FaultyPort") port;
  mret (mkFaultyPort port parts profile).

(** ** The profile's factories *)

Definition PortProfile_initializing (port : DomainPort) (parts : BmcaParts R)
    (self : PortProfile) : M S PortState :=
  p ← InitializingPort_new port parts self; mret (Initializing p).

(** Create, then start, the announce receipt timeout of a state. *)
Definition start_announce_receipt_timeout (port : DomainPort) (self : PortProfile)
    : M S AnnounceReceiptTimeout :=
  t ← DomainPort_timeout SM_AnnounceReceiptTimeout port;
  let announce_receipt_timeout :=
    mkAnnounceReceiptTimeout t (pf_announce_receipt_timeout_interval self) in
  _ ← AnnounceReceiptTimeout_restart announce_receipt_timeout;
  mret announce_receipt_timeout.

Definition PortProfile_listening (port : DomainPort) (bmca : ListeningBmca R)
    (self : PortProfile) : M S PortState :=
  announce_receipt_timeout ← start_announce_receipt_timeout port self;
  p ← ListeningPort_new port bmca announce_receipt_timeout self;
  mret (Listening p).

Definition PortProfile_master (port : DomainPort) (bmca : GrandMasterTrackingBmca R)
    (self : PortProfile) : M S PortState :=
  announce_send_timeout ← DomainPort_timeout SM_AnnounceSendTimeout port;
  zero ← lift (Duration_from_secs 0);
  _ ← Timeout_restart announce_send_timeout zero;
  let announce_cycle :=
    mkAnnounceCycle (SequenceId_new 0) announce_send_timeout (pf_log_announce_interval self) in
  sync_timeout ← DomainPort_timeout SM_SyncTimeout port;
  zero ← lift (Duration_from_secs 0);
  _ ← Timeout_restart sync_timeout zero;
  let sync_cycle := mkSyncCycle (SequenceId_new 0) sync_timeout (pf_log_sync_interval self) in
  p ← MasterPort_new port bmca announce_cycle sync_cycle
        (pf_log_min_delay_request_interval self) self;
  mret (Master p).

Definition PortProfile_slave (port : DomainPort) (bmca : ParentTrackingBmca R)
    (delay_mechanism : EndToEndDelayMechanism) (servo : Servo) (self : PortProfile)
    : M S PortState :=
  announce_receipt_timeout ← start_announce_receipt_timeout port self;
  p ← SlavePort_new port bmca announce_receipt_timeout delay_mechanism servo self;
  mret (Slave p).

Definition PortProfile_pre_master (port : DomainPort) (bmca : GrandMasterTrackingBmca R)
    (qualification_timeout_policy : QualificationTimeoutPolicy) (self : PortProfile)
    : M S PortState :=
  qualification_timeout ← DomainPort_timeout SM_QualificationTimeout port;
  d ← lift (QualificationTimeoutPolicy_duration qualification_timeout_policy
              (pf_log_announce_interval self));
  _ ← Timeout_restart qualification_timeout d;
  p ← PreMasterPort_new port bmca qualification_timeout self;
  mret (PreMaster p).

Definition PortProfile_uncalibrated (port : DomainPort) (bmca : ParentTrackingBmca R)
    (self : PortProfile) : M S PortState :=
  announce_receipt_timeout ← start_announce_receipt_timeout port self;
  delay_timeout ← DomainPort_timeout SM_DelayRequestTimeout port;
  zero ← lift (Duration_from_secs 0);
  _ ← Timeout_restart delay_timeout zero;
  let delay_cycle :=
    mkDelayCycle (SequenceId_new 0) delay_timeout (pf_log_min_delay_request_interval self) in
  p ← UncalibratedPort_new port bmca announce_receipt_timeout
        (EndToEndDelayMechanism_new delay_cycle) (ServoConfig_servo (pf_servo_config self)) self;
  mret (Uncalibrated p).

Definition PortProfile_faulty (port : DomainPort) (parts : BmcaParts R) (self : PortProfile)
    : M S PortState :=
  p ← FaultyPort_new port parts self; mret (Faulty p).

Definition PortProfile_passive (port : DomainPort) (bmca : PassiveBmca R) (self : PortProfile)
    : M S PortState :=
  announce_receipt_timeout ← start_announce_receipt_timeout port self;
  p ← PassivePort_new port bmca announce_receipt_timeout self;
  mret (Passive p).
End states.

Arguments InitializingPort : clear implicits.
Arguments ListeningPort : clear implicits.
Arguments SlavePort : clear implicits.
Arguments MasterPort : clear implicits.
Arguments PreMasterPort : clear implicits.
Arguments UncalibratedPort : clear implicits.
Arguments PassivePort : clear implicits.
Arguments FaultyPort : clear implicits.
Arguments PortState : clear implicits.
