(* ===== verification/Handlers.v ===== *)
(** * Message handlers and transitions of the port states

    The methods of initializing.rs, listening.rs, slave.rs, master.rs, premaster.rs,
    uncalibrated.rs, passive.rs and faulty.rs. A method on [&mut self] returns its result with the
    updated state; a transition on [self] returns the next [PortState]. *)

From S2P Require Import Prelude Errors Time Clock PortId DataSet Foreign Wire Message Effects.
From S2P Require Import Servo E2e Bmca Profile.

Open Scope Z_scope.

(** ** Cycles of the master *)

Definition AnnounceCycle_next {S} (self : AnnounceCycle) : M S AnnounceCycle :=
  _ ← Timeout_restart (ac_timeout self) (LogInterval_duration (ac_log_interval self));
  mret (mkAnnounceCycle (SequenceId_next (ac_sequence_id self)) (ac_timeout self)
          (ac_log_interval self)).

Definition AnnounceCycle_announce (time_scale : TimeScale) (grandmaster : ClockDS)
    (self : AnnounceCycle) : AnnounceMessage :=
  GrandMaster_announce (ac_sequence_id self)
    (LogInterval_log_message_interval (ac_log_interval self)) time_scale grandmaster.

Definition SyncCycle_next {S} (self : SyncCycle) : M S SyncCycle :=
  _ ← Timeout_restart (sc_timeout self) (LogInterval_duration (sc_log_interval self));
  mret (mkSyncCycle (SequenceId_next (sc_sequence_id self)) (sc_timeout self)
          (sc_log_interval self)).

Definition SyncCycle_two_step_sync (self : SyncCycle) : TwoStepSyncMessage :=
  mkTwoStepSyncMessage (sc_sequence_id self)
    (LogInterval_log_message_interval (sc_log_interval self)).

(** The body every [state_decision_event] shares. *)
Definition decide_state {S B} `{Bmca S B} (snapshot : StateDecisionSnapshot) (bmca : B)
    : option StateDecision * B :=
  let '(d, bmca) := bmca_decision (S := S) (sds_d_0 snapshot) (sds_e_best snapshot) bmca in
  (match d with Some decision => BmcaDecision_to_state_decision decision | None => None end, bmca).

Section handlers.
  Context {F : Type} `{HF : !MessageFlagsOps F} `{HE : !Env}.
  Context {S : Type} `{HS : !StateDecisionEvent S} {R : Type} `{HR : !ForeignClockRecords R}.

(** ** Initializing and faulty *)

Definition InitializingPort_initialized (self : InitializingPort R) : M S (PortState R) :=
  _ ← DomainPort_log PE_Initialized (ip_port self);
  let bmca := mkListeningBmca (ip_parts self) in
  PortProfile_listening (ip_port self) bmca (ip_profile self).

Definition FaultyPort_fault_cleared (self : FaultyPort R) : M S (PortState R) :=
  PortProfile_initializing (fp_port self) (fp_parts self) (fp_profile self).

(** ** Listening *)

Definition ListeningPort_recommended_slave (parent : ParentPortIdentity) (self : ListeningPort R)
    : M S (PortState R) :=
  _ ← DomainPort_log (PE_RecommendedSlave parent) (lp_port self);
  PortProfile_uncalibrated (lp_port self)
    (ListeningBmca_into_parent_tracking parent (lp_bmca self)) (lp_profile self).

Definition ListeningPort_recommended_master (decision : BmcaMasterDecision)
    (self : ListeningPort R) : M S (PortState R) :=
  _ ← DomainPort_log PE_RecommendedMaster (lp_port self);
  BmcaMasterDecision_apply (λ qualification_timeout_policy grandmaster_ds,
    PortProfile_pre_master (lp_port self)
      (ListeningBmca_into_grandmaster_tracking grandmaster_ds (lp_bmca self))
      qualification_timeout_policy (lp_profile self)) decision.

Definition ListeningPort_recommended_passive (self : ListeningPort R) : M S (PortState R) :=
  _ ← DomainPort_log (PE_Static "RecommendedPassive") (lp_port self);
  PortProfile_passive (lp_port self) (ListeningBmca_into_passive (lp_bmca self)) (lp_profile self).

Definition ListeningPort_announce_receipt_timeout_expired (self : ListeningPort R)
    : M S (PortState R) :=
  _ ← DomainPort_log PE_AnnounceReceiptTimeout (lp_port self);
  bmca ← ListeningBmca_into_local_grandmaster_tracking (lp_bmca self);
  PortProfile_master (lp_port self) bmca (lp_profile self).

Definition ListeningPort_process_announce (msg : AnnounceMessage)
    (source_port_identity : PortIdentity) (now : Instant) (self : ListeningPort R)
    : M S (ListeningPort R) :=
  _ ← DomainPort_log (PE_MessageReceived "Announce") (lp_port self);
  _ ← AnnounceReceiptTimeout_restart (lp_announce_receipt_timeout self);
  bmca ← AnnounceMessage_feed_bmca source_port_identity now msg (lp_bmca self);
  mret (mkListeningPort (lp_port self) bmca (lp_announce_receipt_timeout self) (lp_profile self)).

Definition ListeningPort_fault_detected (self : ListeningPort R) : M S (PortState R) :=
  PortProfile_faulty (lp_port self) (lb_parts (lp_bmca self)) (lp_profile self).

Definition ListeningPort_state_decision_event (snapshot : StateDecisionSnapshot)
    (self : ListeningPort R) : option StateDecision * ListeningPort R :=
  let '(d, bmca) := decide_state (S := S) snapshot (lp_bmca self) in
  (d, mkListeningPort (lp_port self) bmca (lp_announce_receipt_timeout self) (lp_profile self)).

(** ** Slave *)

Definition SlavePort_with_bmca (bmca : ParentTrackingBmca R) (self : SlavePort R) : SlavePort R :=
  mkSlavePort (sp_port self) bmca (sp_announce_receipt_timeout self) (sp_delay_mechanism self)
    (sp_servo self) (sp_profile self).
Definition SlavePort_with_delay_mechanism (m : EndToEndDelayMechanism) (self : SlavePort R)
    : SlavePort R :=
  mkSlavePort (sp_port self) (sp_bmca self) (sp_announce_receipt_timeout self) m
    (sp_servo self) (sp_profile self).
Definition SlavePort_with_servo (servo : Servo) (self : SlavePort R) : SlavePort R :=
  mkSlavePort (sp_port self) (sp_bmca self) (sp_announce_receipt_timeout self)
    (sp_delay_mechanism self) servo (sp_profile self).

Definition SlavePort_process_announce (msg : AnnounceMessage)
    (source_port_identity : PortIdentity) (now : Instant) (self : SlavePort R)
    : M S (SlavePort R) :=
  _ ← DomainPort_log (PE_MessageReceived "Announce") (sp_port self);
  _ ← AnnounceReceiptTimeout_restart (sp_announce_receipt_timeout self);
  bmca ← AnnounceMessage_feed_bmca source_port_identity now msg (sp_bmca self);
  mret (SlavePort_with_bmca bmca self).

(** The tail of the one-step sync and follow-up handlers: feed the servo a complete sample. *)
Definition SlavePort_feed_sample (self : SlavePort R) : M S (option StateDecision * SlavePort R) :=
  sample ← lift (em_sample (sp_delay_mechanism self));
  match sample with
  | Some sample =>
      '(servo_state, servo) ← Servo_feed sample (sp_servo self);
      mret (match servo_state with Locked => None | _ => Some SynchronizationFault end,
            SlavePort_with_servo servo self)
  | None => mret (None, self)
  end.

Definition SlavePort_process_one_step_sync (sync : OneStepSyncMessage)
    (source_port_identity : PortIdentity) (ingress_timestamp : TimeStamp) (self : SlavePort R)
    : M S (option StateDecision * SlavePort R) :=
  _ ← DomainPort_log (PE_MessageReceived "One-Step Sync") (sp_port self);
  if negb (ParentTrackingBmca_matches_parent source_port_identity (sp_bmca self))
  then mret (None, self)
  else
    SlavePort_feed_sample
      (SlavePort_with_delay_mechanism
         (em_record_one_step_sync sync ingress_timestamp (sp_delay_mechanism self)) self).

Definition SlavePort_process_two_step_sync (sync : TwoStepSyncMessage)
    (source_port_identity : PortIdentity) (ingress_timestamp : TimeStamp) (self : SlavePort R)
    : M S (option StateDecision * SlavePort R) :=
  _ ← DomainPort_log (PE_MessageReceived "Two-Step Sync") (sp_port self);
  if negb (ParentTrackingBmca_matches_parent source_port_identity (sp_bmca self))
  then mret (None, self)
  else
    mret (None, SlavePort_with_delay_mechanism
                  (em_record_two_step_sync sync ingress_timestamp (sp_delay_mechanism self)) self).

Definition SlavePort_process_follow_up (follow_up : FollowUpMessage)
    (source_port_identity : PortIdentity) (self : SlavePort R)
    : M S (option StateDecision * SlavePort R) :=
  _ ← DomainPort_log (PE_MessageReceived "FollowUp") (sp_port self);
  if negb (ParentTrackingBmca_matches_parent source_port_identity (sp_bmca self))
  then mret (None, self)
  else
    SlavePort_feed_sample
      (SlavePort_with_delay_mechanism
         (em_record_follow_up follow_up (sp_delay_mechanism self)) self).

Definition SlavePort_process_delay_request (req : DelayRequestMessage)
    (egress_timestamp : TimeStamp) (self : SlavePort R)
    : M S (option StateDecision * SlavePort R) :=
  _ ← DomainPort_log (PE_MessageReceived "DelayReq") (sp_port self);
  mret (None, SlavePort_with_delay_mechanism
                (em_record_delay_request req egress_timestamp (sp_delay_mechanism self)) self).

Definition SlavePort_process_delay_response (resp : DelayResponseMessage)
    (source_port_identity : PortIdentity) (self : SlavePort R)
    : M S (option StateDecision * SlavePort R) :=
  _ ← DomainPort_log (PE_MessageReceived "DelayResp") (sp_port self);
  if negb (ParentTrackingBmca_matches_parent source_port_identity (sp_bmca self))
  then mret (None, self)
  else
    mret (None, SlavePort_with_delay_mechanism
                  (em_record_delay_response resp (sp_delay_mechanism self)) self).

Definition SlavePort_state_decision_event (snapshot : StateDecisionSnapshot) (self : SlavePort R)
    : option StateDecision * SlavePort R :=
  let '(d, bmca) := decide_state (S := S) snapshot (sp_bmca self) in
  (d, SlavePort_with_bmca bmca self).

Definition SlavePort_send_delay_request (self : SlavePort R) : M S (SendResult * SlavePort R) :=
  '(delay_request, m) ← em_delay_request (sp_delay_mechanism self);
  let self := SlavePort_with_delay_mechanism m self in
  res ← DomainPort_send_event (F := F) (DelayReq delay_request) (sp_port self);
  match res with
  | Ok _ =>
      _ ← DomainPort_log (PE_MessageSent "DelayReq") (sp_port self);
      mret (Ok (), self)
  | Err e => mret (Err e, self)
  end.

Definition SlavePort_announce_receipt_timeout_expired (self : SlavePort R) : M S (PortState R) :=
  _ ← DomainPort_log PE_AnnounceReceiptTimeout (sp_port self);
  bmca ← ParentTrackingBmca_into_local_grandmaster_tracking (sp_bmca self);
  PortProfile_master (sp_port self) bmca (sp_profile self).

Definition SlavePort_recommended_slave (parent : ParentPortIdentity) (self : SlavePort R)
    : M S (PortState R) :=
  _ ← DomainPort_log (PE_RecommendedSlave parent) (sp_port self);
  PortProfile_uncalibrated (sp_port self)
    (ParentTrackingBmca_with_parent parent (sp_bmca self)) (sp_profile self).

Definition SlavePort_recommended_master (decision : BmcaMasterDecision) (self : SlavePort R)
    : M S (PortState R) :=
  _ ← DomainPort_log PE_RecommendedMaster (sp_port self);
  BmcaMasterDecision_apply (λ qualification_timeout_policy grandmaster_ds,
    PortProfile_pre_master (sp_port self)
      (ParentTrackingBmca_into_grandmaster_tracking grandmaster_ds (sp_bmca self))
      qualification_timeout_policy (sp_profile self)) decision.

Definition SlavePort_recommended_passive (self : SlavePort R) : M S (PortState R) :=
  _ ← DomainPort_log (PE_Static "RecommendedPassive") (sp_port self);
  PortProfile_passive (sp_port self) (ParentTrackingBmca_into_passive (sp_bmca self))
    (sp_profile self).

Definition SlavePort_synchronization_fault (self : SlavePort R) : M S (PortState R) :=
  _ ← DomainPort_log PE_SynchronizationFault (sp_port self);
  p ← UncalibratedPort_new (sp_port self) (sp_bmca self) (sp_announce_receipt_timeout self)
        (sp_delay_mechanism self) (sp_servo self) (sp_profile self);
  mret (Uncalibrated p).

Definition SlavePort_fault_detected (self : SlavePort R) : M S (PortState R) :=
  PortProfile_faulty (sp_port self) (pb_parts (sp_bmca self)) (sp_profile self).

(** ** Master *)

Definition MasterPort_with_bmca (bmca : GrandMasterTrackingBmca R) (self : MasterPort R)
    : MasterPort R :=
  mkMasterPort (mp_port self) bmca (mp_announce_cycle self) (mp_sync_cycle self)
    (mp_log_min_delay_request_interval self) (mp_profile self).
Definition MasterPort_with_announce_cycle (c : AnnounceCycle) (self : MasterPort R)
    : MasterPort R :=
  mkMasterPort (mp_port self) (mp_bmca self) c (mp_sync_cycle self)
    (mp_log_min_delay_request_interval self) (mp_profile self).
Definition MasterPort_with_sync_cycle (c : SyncCycle) (self : MasterPort R) : MasterPort R :=
  mkMasterPort (mp_port self) (mp_bmca self) (mp_announce_cycle self) c
    (mp_log_min_delay_request_interval self) (mp_profile self).

Definition MasterPort_send_announce (self : MasterPort R) : M S (SendResult * MasterPort R) :=
  let grandmaster := gb_grandmaster_ds (mp_bmca self) in
  time_scale ← DomainPort_time_scale (mp_port self);
  let msg := AnnounceCycle_announce time_scale grandmaster (mp_announce_cycle self) in
  res ← DomainPort_send_general (F := F) (Announce msg) (mp_port self);
  match res with
  | Ok _ =>
      announce_cycle ← AnnounceCycle_next (mp_announce_cycle self);
      _ ← DomainPort_log (PE_MessageSent "Announce") (mp_port self);
      mret (Ok (), MasterPort_with_announce_cycle announce_cycle self)
  | Err e => mret (Err e, self)
  end.

Definition MasterPort_process_announce (msg : AnnounceMessage)
    (source_port_identity : PortIdentity) (now : Instant) (self : MasterPort R)
    : M S (MasterPort R) :=
  _ ← DomainPort_log (PE_MessageReceived "Announce") (mp_port self);
  bmca ← AnnounceMessage_feed_bmca source_port_identity now msg (mp_bmca self);
  mret (MasterPort_with_bmca bmca self).

Definition MasterPort_process_delay_request (req : DelayRequestMessage)
    (ingress_timestamp : TimeStamp) (requesting_port_identity : PortIdentity)
    (self : MasterPort R) : M S (SendResult * MasterPort R) :=
  _ ← DomainPort_log (PE_MessageReceived "DelayReq") (mp_port self);
  let response := DelayRequestMessage_response
    (LogInterval_log_message_interval (mp_log_min_delay_request_interval self))
    ingress_timestamp requesting_port_identity req in
  result ← DomainPort_send_general (F := F) (DelayResp response) (mp_port self);
  _ ← match result with
      | Ok _ => DomainPort_log (PE_MessageSent "DelayResp") (mp_port self)
      | Err _ => mret ()
      end;
  mret (result, self).

Definition MasterPort_send_sync (self : MasterPort R) : M S (SendResult * MasterPort R) :=
  let sync_message := SyncCycle_two_step_sync (mp_sync_cycle self) in
  res ← DomainPort_send_event (F := F) (TwoStepSync sync_message) (mp_port self);
  match res with
  | Ok _ =>
      sync_cycle ← SyncCycle_next (mp_sync_cycle self);
      _ ← DomainPort_log (PE_MessageSent "TwoStepSync") (mp_port self);
      mret (Ok (), MasterPort_with_sync_cycle sync_cycle self)
  | Err e => mret (Err e, self)
  end.

Definition MasterPort_send_follow_up (sync : TwoStepSyncMessage) (egress_timestamp : TimeStamp)
    (self : MasterPort R) : M S (SendResult * MasterPort R) :=
  res ← DomainPort_send_general (F := F)
          (FollowUp (TwoStepSyncMessage_follow_up egress_timestamp sync)) (mp_port self);
  match res with
  | Ok _ =>
      _ ← DomainPort_log (PE_MessageSent "FollowUp") (mp_port self);
      mret (Ok (), self)
  | Err e => mret (Err e, self)
  end.

Definition MasterPort_recommended_master (decision : BmcaMasterDecision) (self : MasterPort R)
    : M S (PortState R) :=
  _ ← DomainPort_log PE_RecommendedMaster (mp_port self);
  BmcaMasterDecision_apply (λ qualification_timeout_policy grandmaster_ds,
    PortProfile_pre_master (mp_port self)
      (GrandMasterTrackingBmca_with_grandmaster_ds grandmaster_ds (mp_bmca self))
      qualification_timeout_policy (mp_profile self)) decision.

Definition MasterPort_recommended_slave (parent : ParentPortIdentity) (self : MasterPort R)
    : M S (PortState R) :=
  _ ← DomainPort_log (PE_RecommendedSlave parent) (mp_port self);
  PortProfile_uncalibrated (mp_port self)
    (GrandMasterTrackingBmca_into_parent_tracking parent (mp_bmca self)) (mp_profile self).

Definition MasterPort_recommended_passive (self : MasterPort R) : M S (PortState R) :=
  _ ← DomainPort_log (PE_Static "RecommendedPassive") (mp_port self);
  PortProfile_passive (mp_port self) (GrandMasterTrackingBmca_into_passive (mp_bmca self))
    (mp_profile self).

Definition MasterPort_state_decision_event (snapshot : StateDecisionSnapshot)
    (self : MasterPort R) : option StateDecision * MasterPort R :=
  let '(d, bmca) := decide_state (S := S) snapshot (mp_bmca self) in
  (d, MasterPort_with_bmca bmca self).

Definition MasterPort_fault_detected (self : MasterPort R) : M S (PortState R) :=
  PortProfile_faulty (mp_port self) (gb_parts (mp_bmca self)) (mp_profile self).

(** ** Pre-master *)

Definition PreMasterPort_with_bmca (bmca : GrandMasterTrackingBmca R) (self : PreMasterPort R)
    : PreMasterPort R :=
  mkPreMasterPort (pp_port self) bmca (pp_qualification_timeout self) (pp_profile self).

Definition PreMasterPort_process_announce (msg : AnnounceMessage)
    (source_port_identity : PortIdentity) (now : Instant) (self : PreMasterPort R)
    : M S (PreMasterPort R) :=
  _ ← DomainPort_log (PE_MessageReceived "Announce") (pp_port self);
  bmca ← AnnounceMessage_feed_bmca source_port_identity now msg (pp_bmca self);
  mret (PreMasterPort_with_bmca bmca self).

Definition PreMasterPort_qualified (self : PreMasterPort R) : M S (PortState R) :=
  _ ← DomainPort_log PE_QualifiedMaster (pp_port self);
  PortProfile_master (pp_port self) (pp_bmca self) (pp_profile self).

Definition PreMasterPort_recommended_master (decision : BmcaMasterDecision)
    (self : PreMasterPort R) : M S (PortState R) :=
  _ ← DomainPort_log PE_RecommendedMaster (pp_port self);
  BmcaMasterDecision_apply (λ qualification_timeout_policy grandmaster_ds,
    PortProfile_pre_master (pp_port self)
      (GrandMasterTrackingBmca_with_grandmaster_ds grandmaster_ds (pp_bmca self))
      qualification_timeout_policy (pp_profile self)) decision.

Definition PreMasterPort_recommended_slave (parent : ParentPortIdentity)
    (self : PreMasterPort R) : M S (PortState R) :=
  _ ← DomainPort_log (PE_RecommendedSlave parent) (pp_port self);
  PortProfile_uncalibrated (pp_port self)
    (GrandMasterTrackingBmca_into_parent_tracking parent (pp_bmca self)) (pp_profile self).

Definition PreMasterPort_recommended_passive (self : PreMasterPort R) : M S (PortState R) :=
  _ ← DomainPort_log (PE_Static "RecommendedPassive") (pp_port self);
  PortProfile_passive (pp_port self) (GrandMasterTrackingBmca_into_passive (pp_bmca self))
    (pp_profile self).

Definition PreMasterPort_fault_detected (self : PreMasterPort R) : M S (PortState R) :=
  PortProfile_faulty (pp_port self) (gb_parts (pp_bmca self)) (pp_profile self).

Definition PreMasterPort_state_decision_event (snapshot : StateDecisionSnapshot)
    (self : PreMasterPort R) : option StateDecision * PreMasterPort R :=
  let '(d, bmca) := decide_state (S := S) snapshot (pp_bmca self) in
  (d, PreMasterPort_with_bmca bmca self).

(** ** Uncalibrated *)

Definition UncalibratedPort_with_bmca (bmca : ParentTrackingBmca R) (self : UncalibratedPort R)
    : UncalibratedPort R :=
  mkUncalibratedPort (up_port self) bmca (up_announce_receipt_timeout self)
    (up_delay_mechanism self) (up_servo self) (up_profile self).
Definition UncalibratedPort_with_delay_mechanism (m : EndToEndDelayMechanism)
    (self : UncalibratedPort R) : UncalibratedPort R :=
  mkUncalibratedPort (up_port self) (up_bmca self) (up_announce_receipt_timeout self) m
    (up_servo self) (up_profile self).
Definition UncalibratedPort_with_servo (servo : Servo) (self : UncalibratedPort R)
    : UncalibratedPort R :=
  mkUncalibratedPort (up_port self) (up_bmca self) (up_announce_receipt_timeout self)
    (up_delay_mechanism self) servo (up_profile self).

Definition UncalibratedPort_process_announce (msg : AnnounceMessage)
    (source_port_identity : PortIdentity) (now : Instant) (self : UncalibratedPort R)
    : M S (UncalibratedPort R) :=
  _ ← DomainPort_log (PE_MessageReceived "Announce") (up_port self);
  _ ← AnnounceReceiptTimeout_restart (up_announce_receipt_timeout self);
  bmca ← AnnounceMessage_feed_bmca source_port_identity now msg (up_bmca self);
  mret (UncalibratedPort_with_bmca bmca self).

(** The tail of the one-step sync and follow-up handlers; the selected parent is the sender. *)
Definition UncalibratedPort_feed_sample (source_port_identity : PortIdentity)
    (self : UncalibratedPort R) : M S (option StateDecision * UncalibratedPort R) :=
  sample ← lift (em_sample (up_delay_mechanism self));
  match sample with
  | Some sample =>
      '(servo_state, servo) ← Servo_feed sample (up_servo self);
      mret (match servo_state with
            | Locked => Some (MasterClockSelected (ParentPortIdentity_new source_port_identity))
            | _ => None
            end,
            UncalibratedPort_with_servo servo self)
  | None => mret (None, self)
  end.

Definition UncalibratedPort_process_one_step_sync (sync : OneStepSyncMessage)
    (source_port_identity : PortIdentity) (ingress_timestamp : TimeStamp)
    (self : UncalibratedPort R) : M S (option StateDecision * UncalibratedPort R) :=
  _ ← DomainPort_log (PE_MessageReceived "One-Step Sync") (up_port self);
  if negb (ParentTrackingBmca_matches_parent source_port_identity (up_bmca self))
  then mret (None, self)
  else
    UncalibratedPort_feed_sample source_port_identity
      (UncalibratedPort_with_delay_mechanism
         (em_record_one_step_sync sync ingress_timestamp (up_delay_mechanism self)) self).

Definition UncalibratedPort_process_two_step_sync (sync : TwoStepSyncMessage)
    (source_port_identity : PortIdentity) (ingress_timestamp : TimeStamp)
    (self : UncalibratedPort R) : M S (option StateDecision * UncalibratedPort R) :=
  _ ← DomainPort_log (PE_MessageReceived "Two-Step Sync") (up_port self);
  if negb (ParentTrackingBmca_matches_parent source_port_identity (up_bmca self))
  then mret (None, self)
  else
    mret (None, UncalibratedPort_with_delay_mechanism
                  (em_record_two_step_sync sync ingress_timestamp (up_delay_mechanism self)) self).

Definition UncalibratedPort_process_follow_up (follow_up : FollowUpMessage)
    (source_port_identity : PortIdentity) (self : UncalibratedPort R)
    : M S (option StateDecision * UncalibratedPort R) :=
  _ ← DomainPort_log (PE_MessageReceived "FollowUp") (up_port self);
  if negb (ParentTrackingBmca_matches_parent source_port_identity (up_bmca self))
  then mret (None, self)
  else
    UncalibratedPort_feed_sample source_port_identity
      (UncalibratedPort_with_delay_mechanism
         (em_record_follow_up follow_up (up_delay_mechanism self)) self).

Definition UncalibratedPort_process_delay_request (req : DelayRequestMessage)
    (egress_timestamp : TimeStamp) (self : UncalibratedPort R)
    : M S (option StateDecision * UncalibratedPort R) :=
  _ ← DomainPort_log (PE_MessageReceived "DelayReq") (up_port self);
  mret (None, UncalibratedPort_with_delay_mechanism
                (em_record_delay_request req egress_timestamp (up_delay_mechanism self)) self).

Definition UncalibratedPort_process_delay_response (resp : DelayResponseMessage)
    (source_port_identity : PortIdentity) (self : UncalibratedPort R)
    : M S (option StateDecision * UncalibratedPort R) :=
  _ ← DomainPort_log (PE_MessageReceived "DelayResp") (up_port self);
  if negb (ParentTrackingBmca_matches_parent source_port_identity (up_bmca self))
  then mret (None, self)
  else
    mret (None, UncalibratedPort_with_delay_mechanism
                  (em_record_delay_response resp (up_delay_mechanism self)) self).

Definition UncalibratedPort_send_delay_request (self : UncalibratedPort R)
    : M S (SendResult * UncalibratedPort R) :=
  '(delay_request, m) ← em_delay_request (up_delay_mechanism self);
  let self := UncalibratedPort_with_delay_mechanism m self in
  res ← DomainPort_send_event (F := F) (DelayReq delay_request) (up_port self);
  match res with
  | Ok _ =>
      _ ← DomainPort_log (PE_MessageSent "DelayReq") (up_port self);
      mret (Ok (), self)
  | Err e => mret (Err e, self)
  end.

Definition UncalibratedPort_master_clock_selected (parent : ParentPortIdentity)
    (self : UncalibratedPort R) : M S (PortState R) :=
  _ ← DomainPort_log (PE_MasterClockSelected parent) (up_port self);
  PortProfile_slave (up_port self) (up_bmca self) (up_delay_mechanism self) (up_servo self)
    (up_profile self).

Definition UncalibratedPort_state_decision_event (snapshot : StateDecisionSnapshot)
    (self : UncalibratedPort R) : option StateDecision * UncalibratedPort R :=
  let '(d, bmca) := decide_state (S := S) snapshot (up_bmca self) in
  (d, UncalibratedPort_with_bmca bmca self).

Definition UncalibratedPort_announce_receipt_timeout_expired (self : UncalibratedPort R)
    : M S (PortState R) :=
  _ ← DomainPort_log PE_AnnounceReceiptTimeout (up_port self);
  bmca ← ParentTrackingBmca_into_local_grandmaster_tracking (up_bmca self);
  PortProfile_master (up_port self) bmca (up_profile self).

Definition UncalibratedPort_recommended_master (decision : BmcaMasterDecision)
    (self : UncalibratedPort R) : M S (PortState R) :=
  _ ← DomainPort_log PE_RecommendedMaster (up_port self);
  BmcaMasterDecision_apply (λ qualification_timeout_policy grandmaster_ds,
    PortProfile_pre_master (up_port self)
      (ParentTrackingBmca_into_grandmaster_tracking grandmaster_ds (up_bmca self))
      qualification_timeout_policy (up_profile self)) decision.

Definition UncalibratedPort_recommended_slave (parent : ParentPortIdentity)
    (self : UncalibratedPort R) : M S (PortState R) :=
  _ ← DomainPort_log (PE_RecommendedSlave parent) (up_port self);
  PortProfile_uncalibrated (up_port self)
    (ParentTrackingBmca_with_parent parent (up_bmca self)) (up_profile self).

Definition UncalibratedPort_recommended_passive (self : UncalibratedPort R) : M S (PortState R) :=
  _ ← DomainPort_log (PE_Static "RecommendedPassive") (up_port self);
  PortProfile_passive (up_port self) (ParentTrackingBmca_into_passive (up_bmca self))
    (up_profile self).

Definition UncalibratedPort_fault_detected (self : UncalibratedPort R) : M S (PortState R) :=
  PortProfile_faulty (up_port self) (pb_parts (up_bmca self)) (up_profile self).

(** ** Passive *)

Definition PassivePort_with_bmca (bmca : PassiveBmca R) (self : PassivePort R) : PassivePort R :=
  mkPassivePort (vp_port self) bmca (vp_announce_receipt_timeout self) (vp_profile self).

Definition PassivePort_recommended_slave (parent : ParentPortIdentity) (self : PassivePort R)
    : M S (PortState R) :=
  _ ← DomainPort_log (PE_RecommendedSlave parent) (vp_port self);
  PortProfile_uncalibrated (vp_port self)
    (PassiveBmca_into_parent_tracking parent (vp_bmca self)) (vp_profile self).

Definition PassivePort_recommended_master (decision : BmcaMasterDecision) (self : PassivePort R)
    : M S (PortState R) :=
  _ ← DomainPort_log PE_RecommendedMaster (vp_port self);
  BmcaMasterDecision_apply (λ qualification_timeout_policy grandmaster_ds,
    PortProfile_pre_master (vp_port self)
      (PassiveBmca_into_grandmaster_tracking grandmaster_ds (vp_bmca self))
      qualification_timeout_policy (vp_profile self)) decision.

Definition PassivePort_announce_receipt_timeout_expired (self : PassivePort R)
    : M S (PortState R) :=
  _ ← DomainPort_log PE_AnnounceReceiptTimeout (vp_port self);
  bmca ← PassiveBmca_into_local_grandmaster_tracking (vp_bmca self);
  PortProfile_master (vp_port self) bmca (vp_profile self).

Definition PassivePort_process_announce (msg : AnnounceMessage)
    (source_port_identity : PortIdentity) (now : Instant) (self : PassivePort R)
    : M S (PassivePort R) :=
  _ ← DomainPort_log (PE_MessageReceived "Announce") (vp_port self);
  _ ← AnnounceReceiptTimeout_restart (vp_announce_receipt_timeout self);
  bmca ← AnnounceMessage_feed_bmca source_port_identity now msg (vp_bmca self);
  mret (PassivePort_with_bmca bmca self).

Definition PassivePort_fault_detected (self : PassivePort R) : M S (PortState R) :=
  PortProfile_faulty (vp_port self) (vb_parts (vp_bmca self)) (vp_profile self).

Definition PassivePort_state_decision_event (snapshot : StateDecisionSnapshot)
    (self : PassivePort R) : option StateDecision * PassivePort R :=
  let '(d, bmca) := decide_state (S := S) snapshot (vp_bmca self) in
  (d, PassivePort_with_bmca bmca self).
End handlers.
