(* ===== verification/PortState.v ===== *)
(** * The port state machine (crates/rptp/src/portstate.rs, port.rs, message.rs)

    [PortState_apply] carries out transitions, [PortState_dispatch_*] routes messages to the
    handlers of the current state, [PortFsm] is the take/apply/replace wrapper, and
    [MessageIngress] takes datagrams to the port of their domain through a [PortMap]. *)

From S2P Require Import Prelude Errors Time Clock PortId DataSet Foreign Wire Message Effects.
From S2P Require Import Servo E2e Bmca Profile Handlers.

Open Scope Z_scope.

(** The receiver's side of a message and the map of domains to ports, with the write-back that
    stands for the mutable borrow [port_by_domain] returns. *)
Class PortIngress (S P : Type) := {
  process_event_message : PortIdentity → EventMessage → TimeStamp → P → M S P;
  process_general_message : PortIdentity → GeneralMessage → Instant → P → M S P;
  process_system_message : SystemMessage → P → M S P;
}.

Class PortMap (PM P : Type) := {
  port_by_domain : DomainNumber → PM → result (P * (P → PM)) Error;
}.

Section port_state.
  Context {F : Type} `{HF : !MessageFlagsOps F} `{HE : !Env}.
  Context {S : Type} `{HS : !StateDecisionEvent S} {R : Type} `{HR : !ForeignClockRecords R}.

(** ** Transitions *)

Definition PortState_apply (decision : StateDecision) (self : PortState R) : M S (PortState R) :=
  match decision with
  | AnnounceReceiptTimeoutExpired =>
      match self with
      | Listening p => ListeningPort_announce_receipt_timeout_expired p
      | Slave p => SlavePort_announce_receipt_timeout_expired p
      | Uncalibrated p => UncalibratedPort_announce_receipt_timeout_expired p
      | Passive p => PassivePort_announce_receipt_timeout_expired p
      | _ => panic
      end
  | MasterClockSelected parent =>
      match self with
      | Uncalibrated p => UncalibratedPort_master_clock_selected parent p
      | _ => panic
      end
  | RecommendedSlave parent =>
      match self with
      | Listening p => ListeningPort_recommended_slave parent p
      | Master p => MasterPort_recommended_slave parent p
      | PreMaster p => PreMasterPort_recommended_slave parent p
      | Slave p => SlavePort_recommended_slave parent p
      | Uncalibrated p => UncalibratedPort_recommended_slave parent p
      | Passive p => PassivePort_recommended_slave parent p
      | _ => panic
      end
  | RecommendedMaster d =>
      match self with
      | Listening p => ListeningPort_recommended_master d p
      | Uncalibrated p => UncalibratedPort_recommended_master d p
      | Master p => MasterPort_recommended_master d p
      | Slave p => SlavePort_recommended_master d p
      | PreMaster p => PreMasterPort_recommended_master d p
      | Passive p => PassivePort_recommended_master d p
      | _ => panic
      end
  | RecommendedPassive =>
      match self with
      | Listening p => ListeningPort_recommended_passive p
      | Master p => MasterPort_recommended_passive p
      | PreMaster p => PreMasterPort_recommended_passive p
      | Slave p => SlavePort_recommended_passive p
      | Uncalibrated p => UncalibratedPort_recommended_passive p
      | _ => panic
      end
  | Initialized =>
      match self with
      | Initializing p => InitializingPort_initialized p
      | _ => panic
      end
  | QualificationTimeoutExpired =>
      match self with
      | PreMaster p => PreMasterPort_qualified p
      | _ => panic
      end
  | SynchronizationFault =>
      match self with
      | Slave p => SlavePort_synchronization_fault p
      | _ => panic
      end
  | FaultDetected =>
      match self with
      | Listening p => ListeningPort_fault_detected p
      | Slave p => SlavePort_fault_detected p
      | Master p => MasterPort_fault_detected p
      | PreMaster p => PreMasterPort_fault_detected p
      | Uncalibrated p => UncalibratedPort_fault_detected p
      | Passive p => PassivePort_fault_detected p
      | Faulty p => mret (Faulty p)
      | Initializing _ => panic
      end
  | FaultCleared =>
      match self with
      | Faulty p => FaultyPort_fault_cleared p
      | _ => panic
      end
  end.

(** ** Dispatch *)

(** What a handler that returned a decision and its updated state leaves behind. *)
Definition decided {P} (wrap : P → PortState R) (m : M S (option StateDecision * P))
    : M S (option StateDecision * PortState R) :=
  '(d, p) ← m; mret (d, wrap p).

(** A handler that returns nothing. *)
Definition handled {P} (wrap : P → PortState R) (m : M S P)
    : M S (option StateDecision * PortState R) :=
  p ← m; mret (None, wrap p).

(** [match res { Ok(()) => None, Err(_) => Some(FaultDetected) }]. *)
Definition sent {P} (wrap : P → PortState R) (m : M S (SendResult * P))
    : M S (option StateDecision * PortState R) :=
  '(res, p) ← m;
  mret (match res with Ok _ => None | Err _ => Some FaultDetected end, wrap p).

Definition PortState_dispatch_event (msg : EventMessage) (source_port_identity : PortIdentity)
    (ingress_timestamp : TimeStamp) (self : PortState R)
    : M S (option StateDecision * PortState R) :=
  match self, msg with
  | Uncalibrated port, OneStepSync msg =>
      decided Uncalibrated
        (UncalibratedPort_process_one_step_sync msg source_port_identity ingress_timestamp port)
  | Uncalibrated port, TwoStepSync msg =>
      decided Uncalibrated
        (UncalibratedPort_process_two_step_sync msg source_port_identity ingress_timestamp port)
  | Slave port, OneStepSync msg =>
      decided Slave (SlavePort_process_one_step_sync msg source_port_identity ingress_timestamp port)
  | Slave port, TwoStepSync msg =>
      decided Slave (SlavePort_process_two_step_sync msg source_port_identity ingress_timestamp port)
  | Master port, DelayReq msg =>
      sent Master
        (MasterPort_process_delay_request (F := F) msg ingress_timestamp source_port_identity port)
  | Passive _, _ => mret (None, self)
  | _, _ => mret (None, self)
  end.

Definition PortState_dispatch_general (msg : GeneralMessage) (source_port_identity : PortIdentity)
    (now : Instant) (self : PortState R) : M S (option StateDecision * PortState R) :=
  match self, msg with
  | Listening port, Announce msg =>
      handled Listening (ListeningPort_process_announce msg source_port_identity now port)
  | Slave port, Announce msg =>
      handled Slave (SlavePort_process_announce msg source_port_identity now port)
  | Master port, Announce msg =>
      handled Master (MasterPort_process_announce msg source_port_identity now port)
  | PreMaster port, Announce msg =>
      handled PreMaster (PreMasterPort_process_announce msg source_port_identity now port)
  | Uncalibrated port, Announce msg =>
      handled Uncalibrated (UncalibratedPort_process_announce msg source_port_identity now port)
  | Uncalibrated port, FollowUp msg =>
      decided Uncalibrated (UncalibratedPort_process_follow_up msg source_port_identity port)
  | Uncalibrated port, DelayResp msg =>
      decided Uncalibrated (UncalibratedPort_process_delay_response msg source_port_identity port)
  | Slave port, FollowUp msg =>
      decided Slave (SlavePort_process_follow_up msg source_port_identity port)
  | Slave port, DelayResp msg =>
      decided Slave (SlavePort_process_delay_response msg source_port_identity port)
  | Passive port, Announce msg =>
      handled Passive (PassivePort_process_announce msg source_port_identity now port)
  | _, _ => mret (None, self)
  end.

Definition PortState_dispatch_system (msg : SystemMessage) (self : PortState R)
    : M S (option StateDecision * PortState R) :=
  match self, msg with
  | Master port, SM_AnnounceSendTimeout => sent Master (MasterPort_send_announce (F := F) port)
  | Slave port, SM_DelayRequestTimeout => sent Slave (SlavePort_send_delay_request (F := F) port)
  | Uncalibrated port, SM_DelayRequestTimeout =>
      sent Uncalibrated (UncalibratedPort_send_delay_request (F := F) port)
  | Master port, SM_SyncTimeout => sent Master (MasterPort_send_sync (F := F) port)
  | Master port, SM_Timestamp msg =>
      match tm_event_msg msg with
      | TwoStepSync sync_msg =>
          sent Master (MasterPort_send_follow_up (F := F) sync_msg (tm_egress_timestamp msg) port)
      | _ => mret (None, self)
      end
  | Slave port, SM_Timestamp msg =>
      match tm_event_msg msg with
      | DelayReq req_msg =>
          decided Slave (SlavePort_process_delay_request req_msg (tm_egress_timestamp msg) port)
      | _ => mret (None, self)
      end
  | Uncalibrated port, SM_Timestamp msg =>
      match tm_event_msg msg with
      | DelayReq req_msg =>
          decided Uncalibrated
            (UncalibratedPort_process_delay_request req_msg (tm_egress_timestamp msg) port)
      | _ => mret (None, self)
      end
  | Initializing _, SM_Initialized => mret (Some Initialized, self)
  | (Listening _ | Slave _ | Master _ | Uncalibrated _ | Passive _), SM_AnnounceReceiptTimeout =>
      mret (Some AnnounceReceiptTimeoutExpired, self)
  | PreMaster _, SM_QualificationTimeout => mret (Some QualificationTimeoutExpired, self)
  | Faulty _, SM_FaultCleared => mret (Some FaultCleared, self)
  | Listening port, SM_StateDecisionEvent snapshot =>
      decided Listening (mret (ListeningPort_state_decision_event (S := S) snapshot port))
  | Slave port, SM_StateDecisionEvent snapshot =>
      decided Slave (mret (SlavePort_state_decision_event (S := S) snapshot port))
  | Master port, SM_StateDecisionEvent snapshot =>
      decided Master (mret (MasterPort_state_decision_event (S := S) snapshot port))
  | Uncalibrated port, SM_StateDecisionEvent snapshot =>
      decided Uncalibrated (mret (UncalibratedPort_state_decision_event (S := S) snapshot port))
  | Passive port, SM_StateDecisionEvent snapshot =>
      decided Passive (mret (PassivePort_state_decision_event (S := S) snapshot port))
  | PreMaster port, SM_StateDecisionEvent snapshot =>
      decided PreMaster (mret (PreMasterPort_state_decision_event (S := S) snapshot port))
  | _, _ => mret (None, self)
  end.

(** ** The state machine wrapper *)

Record PortFsm := mkPortFsm { fsm_state : option (PortState R) }.

Definition PortFsm_new (state : PortState R) : PortFsm := mkPortFsm (Some state).

(** [self.state.take()], then the applied state is put back. *)
Definition PortFsm_apply_decision (decision : StateDecision) (self : PortFsm) : M S PortFsm :=
  match fsm_state self with
  | Some current_state =>
      s ← PortState_apply decision current_state; mret (mkPortFsm (Some s))
  | None => mret (mkPortFsm None)
  end.

(** [if let Some(decision) = self.state.as_mut().and_then(dispatch) { self.apply_decision(..) }]. *)
Definition PortFsm_drive (dispatch : PortState R → M S (option StateDecision * PortState R))
    (self : PortFsm) : M S PortFsm :=
  match fsm_state self with
  | Some state =>
      '(decision, state) ← dispatch state;
      let self := mkPortFsm (Some state) in
      match decision with
      | Some decision => PortFsm_apply_decision decision self
      | None => mret self
      end
  | None => mret self
  end.

Definition PortFsm_process_event_message (source_port_identity : PortIdentity) (msg : EventMessage)
    (timestamp : TimeStamp) (self : PortFsm) : M S PortFsm :=
  PortFsm_drive (PortState_dispatch_event msg source_port_identity timestamp) self.

Definition PortFsm_process_general_message (source_port_identity : PortIdentity)
    (msg : GeneralMessage) (now : Instant) (self : PortFsm) : M S PortFsm :=
  PortFsm_drive (PortState_dispatch_general msg source_port_identity now) self.

Definition PortFsm_process_system_message (msg : SystemMessage) (self : PortFsm) : M S PortFsm :=
  PortFsm_drive (PortState_dispatch_system msg) self.

#[export] Instance PortFsm_PortIngress : PortIngress S PortFsm := {
  process_event_message := PortFsm_process_event_message;
  process_general_message := PortFsm_process_general_message;
  process_system_message := PortFsm_process_system_message;
}.

(** ** One domain, one port *)

Record SingleDomainPortMap := mkSingleDomainPortMap {
  sm_domain_number : DomainNumber;
  sm_port_fsm : PortFsm;
}.

Definition SingleDomainPortMap_new (domain_number : DomainNumber) (port_state : PortState R)
    : SingleDomainPortMap :=
  mkSingleDomainPortMap domain_number (PortFsm_new port_state).

Definition SingleDomainPortMap_port_by_domain (domain_number : DomainNumber)
    (self : SingleDomainPortMap) : result (PortFsm * (PortFsm → SingleDomainPortMap)) Error :=
  if bool_decide (sm_domain_number self = domain_number)
  then Ok (sm_port_fsm self, mkSingleDomainPortMap (sm_domain_number self))
  else Err (Protocol (DomainNotFound (DomainNumber_as_u8 domain_number))).

#[export] Instance SingleDomainPortMap_PortMap : PortMap SingleDomainPortMap PortFsm := {
  port_by_domain := SingleDomainPortMap_port_by_domain;
}.
End port_state.

Arguments PortFsm : clear implicits.
Arguments SingleDomainPortMap : clear implicits.

(** ** Ingress of datagrams *)

Section ingress.
  Context {F : Type} `{HF : !MessageFlagsOps F} {S : Type}.
  Context {PM P : Type} `{HP : !PortIngress S P} `{HPM : !PortMap PM P}.

(** Run a parser, then the continuation; a parse error is the result and changes nothing. *)
Definition try_parse {A} (m : PR A) (ports : PM) (k : A → M S (result () Error * PM))
    : M S (result () Error * PM) :=
  r ← lift m;
  match r with
  | Ok a => k a
  | Err e => mret (Err e, ports)
  end.

Definition DomainMessage_dispatch_event (length_checked : list Z) (timestamp : TimeStamp)
    (ports : PM) : M S (result () Error * PM) :=
  domain_number ← lift (MessageHeader_domain_number length_checked);
  match port_by_domain domain_number ports with
  | Err e => mret (Err e, ports)
  | Ok (port, put_back) =>
      try_parse (parse_event (F := F) length_checked) ports (λ '(source_port_identity, msg),
        port ← process_event_message source_port_identity msg timestamp port;
        mret (Ok (), put_back port))
  end.

Definition DomainMessage_dispatch_general (length_checked : list Z) (now : Instant)
    (ports : PM) : M S (result () Error * PM) :=
  domain_number ← lift (MessageHeader_domain_number length_checked);
  match port_by_domain domain_number ports with
  | Err e => mret (Err e, ports)
  | Ok (port, put_back) =>
      try_parse (parse_general (F := F) length_checked) ports (λ '(source_port_identity, msg),
        port ← process_general_message source_port_identity msg now port;
        mret (Ok (), put_back port))
  end.

Definition MessageIngress_receive_event (buf : list Z) (timestamp : TimeStamp) (ports : PM)
    : M S (result () Error * PM) :=
  try_parse (length_checked_v2 buf) ports (λ length_checked,
    DomainMessage_dispatch_event length_checked timestamp ports).

Definition MessageIngress_receive_general (buf : list Z) (now : Instant) (ports : PM)
    : M S (result () Error * PM) :=
  try_parse (length_checked_v2 buf) ports (λ length_checked,
    DomainMessage_dispatch_general length_checked now ports).
End ingress.
