(* ===== verification/PortSafety.v ===== *)
(** * The port state machine is safe

    The invariant of a port state, the table of legal transitions, and the proofs that every
    transition, dispatch and ingress step of PortState.v keeps to them. *)

From S2P Require Import Prelude Errors Time Clock PortId DataSet Foreign Stores Wire Message.
From S2P Require Import Effects Servo E2e Bmca Profile Handlers PortState.

Open Scope Z_scope.

(** ** The abstract state machine *)

Inductive StateKind :=
| KInitializing | KListening | KSlave | KMaster | KPreMaster | KUncalibrated | KPassive | KFaulty.

#[export] Instance StateKind_eq_dec : EqDecision StateKind.
Proof. solve_decision. Defined.

Definition kind {R} (s : PortState R) : StateKind :=
  match s with
  | Initializing _ => KInitializing
  | Listening _ => KListening
  | Slave _ => KSlave
  | Master _ => KMaster
  | PreMaster _ => KPreMaster
  | Uncalibrated _ => KUncalibrated
  | Passive _ => KPassive
  | Faulty _ => KFaulty
  end.

(** The state chart: where a decision leads, [None] where it is illegal. *)
Definition transition (k : StateKind) (d : StateDecision) : option StateKind :=
  match d, k with
  | AnnounceReceiptTimeoutExpired, (KListening | KSlave | KUncalibrated | KPassive) => Some KMaster
  | MasterClockSelected _, KUncalibrated => Some KSlave
  | RecommendedSlave _, (KInitializing | KFaulty) => None
  | RecommendedSlave _, _ => Some KUncalibrated
  | RecommendedMaster _, (KInitializing | KFaulty) => None
  | RecommendedMaster _, _ => Some KPreMaster
  | RecommendedPassive, (KInitializing | KFaulty | KPassive) => None
  | RecommendedPassive, _ => Some KPassive
  | Initialized, KInitializing => Some KListening
  | QualificationTimeoutExpired, KPreMaster => Some KMaster
  | SynchronizationFault, KSlave => Some KUncalibrated
  | FaultDetected, KInitializing => None
  | FaultDetected, _ => Some KFaulty
  | FaultCleared, KFaulty => Some KInitializing
  | _, _ => None
  end.

(** ** The invariant *)

Definition profile_wf (p : PortProfile) : Prop :=
  LogInterval_wf (pf_log_announce_interval p) ∧ LogInterval_wf (pf_log_sync_interval p) ∧
  LogInterval_wf (pf_log_min_delay_request_interval p) ∧ ServoConfig_wf (pf_servo_config p).

Definition decision_ok (d : StateDecision) : Prop :=
  match d with RecommendedMaster m => ClockDS_wf (md_grandmaster_ds m) | _ => True end.

Lemma LogInterval_message_wf l : LogInterval_wf l →
  LogMessageInterval_wf (LogInterval_log_message_interval l).
Proof.
  unfold LogInterval_wf, LogMessageInterval_wf, LogInterval_log_message_interval,
    LogMessageInterval_new; simpl. lia.
Qed.

Create HintDb transitions.
#[export] Hint Unfold InitializingPort_initialized FaultyPort_fault_cleared
  ListeningPort_recommended_slave ListeningPort_recommended_master
  ListeningPort_recommended_passive ListeningPort_announce_receipt_timeout_expired
  ListeningPort_fault_detected SlavePort_announce_receipt_timeout_expired
  SlavePort_recommended_slave SlavePort_recommended_master SlavePort_recommended_passive
  SlavePort_synchronization_fault SlavePort_fault_detected MasterPort_recommended_master
  MasterPort_recommended_slave MasterPort_recommended_passive MasterPort_fault_detected
  PreMasterPort_qualified PreMasterPort_recommended_master PreMasterPort_recommended_slave
  PreMasterPort_recommended_passive PreMasterPort_fault_detected
  UncalibratedPort_master_clock_selected UncalibratedPort_announce_receipt_timeout_expired
  UncalibratedPort_recommended_master UncalibratedPort_recommended_slave
  UncalibratedPort_recommended_passive UncalibratedPort_fault_detected
  PassivePort_recommended_slave PassivePort_recommended_master
  PassivePort_announce_receipt_timeout_expired PassivePort_fault_detected
  ListeningBmca_into_local_grandmaster_tracking ParentTrackingBmca_into_local_grandmaster_tracking
  PassiveBmca_into_local_grandmaster_tracking BmcaMasterDecision_apply : transitions.

Create HintDb safe.
#[export] Hint Resolve LogInterval_message_wf SequenceId_next_wf em_new_wf ServoConfig_servo_wf
  em_record_one_step_sync_wf em_record_two_step_sync_wf em_record_follow_up_wf
  em_record_delay_request_wf em_record_delay_response_wf : safe.

Section safety.
  Context {F : Type} `{HF : !MessageFlagsOps F} `{HE : !Env}.
  Context {S : Type} `{HS : !StateDecisionEvent S} {R : Type} `{HR : !ForeignClockRecords R}.
  Context (I : S → Prop) (net : PortContract) (port_ok : PortNumber → Prop).
  #[local] Abbreviation P := (effect_ok (F := F) net).
  Context `{!StateDecisionEventLaws S I P port_ok}.
  Context (inv : R → Prop) `{!ForeignClockRecordsLaws R inv}.

Definition bmca_parts_ok (p : BmcaParts R) : Prop := parts_ok port_ok inv p.

(** What every state owns. *)
Definition base_ok (port : DomainPort) (parts : BmcaParts R) (profile : PortProfile) : Prop :=
  port_in net port ∧ bmca_parts_ok parts ∧ profile_wf profile ∧
  pf_announce_receipt_timeout_interval profile = pc_receipt net ∧
  ServoConfig_within (pc_steered net) (pf_servo_config profile).

(** A state's handles carry the messages they were created with. *)
Definition receipt_ok (t : AnnounceReceiptTimeout) : Prop :=
  th_msg (art_timeout t) = SM_AnnounceReceiptTimeout ∧ art_interval t = pc_receipt net.

Definition mechanism_ok (m : EndToEndDelayMechanism) : Prop :=
  em_wf m ∧ th_msg (dc_timeout (em_delay_cycle m)) = SM_DelayRequestTimeout.

Definition state_ok (s : PortState R) : Prop :=
  match s with
  | Initializing p => base_ok (ip_port p) (ip_parts p) (ip_profile p)
  | Listening p =>
      base_ok (lp_port p) (lb_parts (lp_bmca p)) (lp_profile p) ∧
      receipt_ok (lp_announce_receipt_timeout p)
  | Slave p =>
      base_ok (sp_port p) (pb_parts (sp_bmca p)) (sp_profile p) ∧
      receipt_ok (sp_announce_receipt_timeout p) ∧
      mechanism_ok (sp_delay_mechanism p) ∧ Servo_within (pc_steered net) (sp_servo p)
  | Master p =>
      base_ok (mp_port p) (gb_parts (mp_bmca p)) (mp_profile p) ∧
      ClockDS_wf (gb_grandmaster_ds (mp_bmca p)) ∧
      SequenceId_wf (ac_sequence_id (mp_announce_cycle p)) ∧
      LogInterval_wf (ac_log_interval (mp_announce_cycle p)) ∧
      SequenceId_wf (sc_sequence_id (mp_sync_cycle p)) ∧
      LogInterval_wf (sc_log_interval (mp_sync_cycle p)) ∧
      LogInterval_wf (mp_log_min_delay_request_interval p) ∧
      th_msg (ac_timeout (mp_announce_cycle p)) = SM_AnnounceSendTimeout ∧
      th_msg (sc_timeout (mp_sync_cycle p)) = SM_SyncTimeout
  | PreMaster p =>
      base_ok (pp_port p) (gb_parts (pp_bmca p)) (pp_profile p) ∧
      ClockDS_wf (gb_grandmaster_ds (pp_bmca p)) ∧
      th_msg (pp_qualification_timeout p) = SM_QualificationTimeout
  | Uncalibrated p =>
      base_ok (up_port p) (pb_parts (up_bmca p)) (up_profile p) ∧
      receipt_ok (up_announce_receipt_timeout p) ∧
      mechanism_ok (up_delay_mechanism p) ∧ Servo_within (pc_steered net) (up_servo p)
  | Passive p =>
      base_ok (vp_port p) (vb_parts (vp_bmca p)) (vp_profile p) ∧
      receipt_ok (vp_announce_receipt_timeout p)
  | Faulty p => base_ok (fp_port p) (fp_parts p) (fp_profile p)
  end.

(** A computation that ends in a state of kind [k] that satisfies the invariant. *)
Definition enters (k : StateKind) (m : M S (PortState R)) : Prop :=
  safe I P (λ s, state_ok s ∧ kind s = k) m.

(** ** Entering a state *)

Ltac log_step := apply safe_emit_then; [exact Logic.I|].
Ltac timeout_step :=
  eapply safe_bind; [apply safe_new_timeout; intros; exact Logic.I|]; intros ? ?.

(** The last two steps of every factory: [new] logs and the state is wrapped. *)
Ltac become wrap :=
  eapply (safe_bind _ _ (λ p, state_ok (wrap p)));
    [log_step; apply safe_ret | intros p Hp; by apply safe_ret].

Lemma enters_log k port ev m : enters k m → enters k (_ ← DomainPort_log ev port; m).
Proof. by apply safe_emit_then. Qed.

(** Restarting a handle of which [P] allows it. *)
Lemma safe_restart_then {B} (R' : B → Prop) t d (m : M S B) : P (E_Restart t d) →
  safe I P R' m → safe I P R' (_ ← Timeout_restart t d; m).
Proof. apply safe_emit_then. Qed.

Lemma receipt_restart_ok t : receipt_ok t → P (E_Restart (art_timeout t) (art_interval t)).
Proof. intros [E ->]. simpl. by rewrite E. Qed.

Lemma announce_receipt_timeout_safe port profile :
  pf_announce_receipt_timeout_interval profile = pc_receipt net →
  safe I P receipt_ok (start_announce_receipt_timeout (S := S) port profile).
Proof.
  intros E. unfold start_announce_receipt_timeout. timeout_step.
  apply safe_restart_then; [by apply receipt_restart_ok | by apply safe_ret].
Qed.

Lemma enters_initializing port parts profile : base_ok port parts profile →
  enters KInitializing (PortProfile_initializing port parts profile).
Proof.
  intros H. unfold PortProfile_initializing, InitializingPort_new. by become (@Initializing R).
Qed.

Lemma enters_faulty port parts profile : base_ok port parts profile →
  enters KFaulty (PortProfile_faulty port parts profile).
Proof. intros H. unfold PortProfile_faulty, FaultyPort_new. by become (@Faulty R). Qed.

Lemma enters_listening port bmca profile : base_ok port (lb_parts bmca) profile →
  enters KListening (PortProfile_listening port bmca profile).
Proof.
  intros H. unfold PortProfile_listening, ListeningPort_new.
  eapply safe_bind; [apply announce_receipt_timeout_safe, H|]. intros t Ht.
  by become (@Listening R).
Qed.

Lemma enters_passive port bmca profile : base_ok port (vb_parts bmca) profile →
  enters KPassive (PortProfile_passive port bmca profile).
Proof.
  intros H. unfold PortProfile_passive, PassivePort_new.
  eapply safe_bind; [apply announce_receipt_timeout_safe, H|]. intros t Ht.
  by become (@Passive R).
Qed.

Lemma SequenceId_0_wf : SequenceId_wf (SequenceId_new 0).
Proof. unfold SequenceId_wf; simpl. lia. Qed.

Lemma enters_slave port bmca m servo profile : base_ok port (pb_parts bmca) profile →
  mechanism_ok m → Servo_within (pc_steered net) servo → enters KSlave (PortProfile_slave port bmca m servo profile).
Proof.
  intros H Hm Hs. unfold PortProfile_slave, SlavePort_new.
  eapply safe_bind; [apply announce_receipt_timeout_safe, H|]. intros t Ht.
  by become (@Slave R).
Qed.

(** Start a fresh timer at once. *)
Ltac start_step :=
  eapply safe_bind; [by eapply (safe_lift I P (λ _, True))|]; intros ? _;
  apply safe_restart_then; [simpl; case_match; first [done | congruence]|].

Lemma enters_uncalibrated port bmca profile : base_ok port (pb_parts bmca) profile →
  enters KUncalibrated (PortProfile_uncalibrated port bmca profile).
Proof.
  intros H. unfold PortProfile_uncalibrated, UncalibratedPort_new.
  eapply safe_bind; [apply announce_receipt_timeout_safe, H|]. intros t Ht.
  timeout_step. start_step. become (@Uncalibrated R).
  split; [done|]. split; [done|]. split; [split; [apply em_new_wf, SequenceId_0_wf|done]|].
  apply ServoConfig_servo_within, H.
Qed.

Lemma enters_master port bmca profile : base_ok port (gb_parts bmca) profile →
  ClockDS_wf (gb_grandmaster_ds bmca) → enters KMaster (PortProfile_master port bmca profile).
Proof.
  intros H Hg. unfold PortProfile_master, MasterPort_new.
  timeout_step. start_step. timeout_step. start_step. become (@Master R).
  destruct (H) as (_ & _ & (? & ? & ? & _) & _). pose proof SequenceId_0_wf. by split_and!.
Qed.

Lemma enters_pre_master port bmca policy profile : base_ok port (gb_parts bmca) profile →
  ClockDS_wf (gb_grandmaster_ds bmca) → StepsRemoved_wf (qp_steps_removed policy) →
  enters KPreMaster (PortProfile_pre_master port bmca policy profile).
Proof.
  intros H Hg Hs. unfold PortProfile_pre_master, PreMasterPort_new. timeout_step.
  assert (∃ d, QualificationTimeoutPolicy_duration policy (pf_log_announce_interval profile)
               = Done d) as [d Ed].
  { unfold QualificationTimeoutPolicy_duration, StepsRemoved_as_u16, StepsRemoved_wf in *.
    destruct (qp_master_decision_point policy); [by eexists..|].
    rewrite u_chk_Done by lia. by eexists. }
  eapply safe_bind; [eapply (safe_lift I P (λ _, True)); [exact Ed|done]|]. intros ? _.
  apply safe_restart_then; [simpl; case_match; first [done | congruence]|]. by become (@PreMaster R).
Qed.
(** ** Transitions *)

Lemma enters_into_local_grandmaster port parts profile : base_ok port parts profile →
  enters KMaster (bmca ← local_grandmaster_tracking parts; PortProfile_master port bmca profile).
Proof.
  intros (Hp & Hb & Hpf & Hi). eapply safe_bind.
  - apply (local_grandmaster_tracking_safe I P port_ok inv _ Hb).
  - intros b [Hb' Hg]. by apply enters_master.
Qed.

Lemma ClockDS_wf_steps d : ClockDS_wf d → StepsRemoved_wf (cds_steps_removed d).
Proof. unfold ClockDS_wf. tauto. Qed.

Ltac enter :=
  lazymatch goal with
  | |- enters _ (_ ← DomainPort_log _ _; _) => apply enters_log; enter
  | |- enters _ (_ ← local_grandmaster_tracking _; _) => by apply enters_into_local_grandmaster
  | |- enters _ (PortProfile_uncalibrated _ _ _) => by apply enters_uncalibrated
  | |- enters _ (PortProfile_passive _ _ _) => by apply enters_passive
  | |- enters _ (PortProfile_slave _ _ _ _ _) => by apply enters_slave
  | |- enters _ (PortProfile_listening _ _ _) => by apply enters_listening
  | |- enters _ (PortProfile_faulty _ _ _) => by apply enters_faulty
  | |- enters _ (PortProfile_initializing _ _ _) => by apply enters_initializing
  | |- enters _ (PortProfile_master _ _ _) => by apply enters_master
  | |- enters _ (PortProfile_pre_master _ _ _ _) =>
      apply enters_pre_master; [done | done | by apply ClockDS_wf_steps]
  end.

Lemma apply_transition d s : state_ok s → decision_ok d →
  match transition (kind s) d with
  | Some k => enters k (PortState_apply d s)
  | None => ∀ w, PortState_apply d s w = Panic
  end.
Proof.
  intros Hs Hd. destruct d, s; try exact (λ _, eq_refl);
    cbn [kind transition PortState_apply]; autounfold with transitions;
    cbn [state_ok decision_ok] in Hs, Hd; try enter; try (destruct Hs as [Hb Hs]; enter);
    try (destruct Hs as [Hb [Hm Hs]]; enter).
  - destruct Hs as (Hb & Hm & Hd' & Hs). apply enters_log. by apply enters_slave.
  - by apply safe_ret.
  - destruct Hs as (Hb & Hm & Hs). apply enters_log. unfold UncalibratedPort_new.
    eapply (safe_bind _ _ (λ p, state_ok (Uncalibrated p))); [log_step; by apply safe_ret|].
    intros p' Hp. by apply safe_ret.
Qed.
(** ** Dispatch *)

(** A well-formed decision that is legal in a state of kind [k] and, where [T] does not hold, not
    one of the two timeout decisions, the only ones that lead to master. *)
Definition legal (T : Prop) (k : StateKind) (d : StateDecision) : Prop :=
  decision_ok d ∧ is_Some (transition k d) ∧ (transition k d = Some KMaster → T).

(** A dispatch that keeps the state's kind and invariant and makes legal decisions. *)
Definition dispatches (T : Prop) (k : StateKind) (m : M S (option StateDecision * PortState R))
    : Prop :=
  safe I P (λ r, state_ok r.2 ∧ kind r.2 = k ∧ ∀ d, r.1 = Some d → legal T k d) m.

Lemma dispatches_none {T} s : state_ok s → dispatches T (kind s) (mret (None, s)).
Proof. intros H. by apply safe_ret. Qed.

Lemma dispatches_weaken (T T' : Prop) k m : (T → T') → dispatches T k m → dispatches T' k m.
Proof.
  intros HT Hm. eapply safe_impl; [exact Hm|]. intros r (? & ? & Hd). split; [done|].
  split; [done|]. intros d E. destruct (Hd d E) as (? & ? & ?). by split_and!; auto.
Qed.

Lemma dispatches_handled {X T} (wrap : X → PortState R) k m :
  (∀ p, kind (wrap p) = k) → safe I P (λ p, state_ok (wrap p)) m → dispatches T k (handled wrap m).
Proof. intros Hk Hm. eapply safe_bind; [exact Hm|]. intros p Hp. apply safe_ret. simpl. by rewrite Hk. Qed.

Lemma dispatches_sent {X T} (wrap : X → PortState R) k m :
  (∀ p, kind (wrap p) = k) → k ≠ KInitializing →
  safe I P (λ r, state_ok (wrap r.2)) m → dispatches T k (sent wrap m).
Proof.
  intros Hk Hne Hm. eapply safe_bind; [exact Hm|]. intros [[[]|[]] p] Hp; apply safe_ret;
    (split; [done|]; split; [apply Hk|]); [done|]. intros d [= <-]. split; [done|].
  destruct k; try (by destruct Hne); by eexists.
Qed.

Lemma dispatches_decided {X T} (wrap : X → PortState R) k m :
  (∀ p, kind (wrap p) = k) →
  safe I P (λ r, state_ok (wrap r.2) ∧ ∀ d, r.1 = Some d → legal T k d) m →
  dispatches T k (decided wrap m).
Proof. intros Hk Hm. eapply safe_bind; [exact Hm|]. intros [d p] [Hp Hd]. apply safe_ret. simpl. by rewrite Hk. Qed.

(** *** Announce *)

Lemma safe_receipt_restart_then {B} (R' : B → Prop) t (m : M S B) : receipt_ok t →
  safe I P R' m → safe I P R' (_ ← AnnounceReceiptTimeout_restart t; m).
Proof. intros Ht. by apply safe_restart_then, receipt_restart_ok. Qed.

(** Feed the BMCA role, whose invariant is [ok], then rebuild the state. *)
Ltac feed ok :=
  repeat first [log_step | apply safe_receipt_restart_then; [done|]];
  eapply safe_bind; [by apply (feed_bmca_safe I P ok)|]; intros b Hb'; apply safe_ret.

Lemma dispatch_announce_safe msg src now s : state_ok s → AnnounceMessage_wf msg →
  dispatches False (kind s) (PortState_dispatch_general (Announce msg) src now s).
Proof.
  intros Hs Hm. destruct s as [p|p|p|p|p|p|p|p]; cbn [PortState_dispatch_general kind];
    try (by apply (dispatches_none _ Hs)); (apply dispatches_handled; [done|]); cbn in Hs.
  - destruct Hs as [(? & Hb & ?) Ht]. by feed (λ b, parts_ok port_ok inv (lb_parts b)).
  - destruct Hs as [(? & Hb & ?) [Ht ?]]. by feed (λ b, parts_ok port_ok inv (pb_parts b)).
  - destruct Hs as [(? & Hb & ?) [Hg ?]]. feed (grandmaster_ok (R := R) port_ok inv).
    by destruct Hb'.
  - destruct Hs as [(? & Hb & ?) [Hg ?]]. feed (grandmaster_ok (R := R) port_ok inv).
    by destruct Hb'.
  - destruct Hs as [(? & Hb & ?) [Ht ?]]. by feed (λ b, parts_ok port_ok inv (pb_parts b)).
  - destruct Hs as [(? & Hb & ?) Ht]. by feed (λ b, parts_ok port_ok inv (vb_parts b)).
Qed.

(** *** Synchronization *)

Lemma em_sample_safe m : em_wf m →
  safe I P (λ s, ∀ x, s = Some x → ServoSample_wf x) (lift (em_sample m)).
Proof.
  intros Hm. eapply safe_lift; [by apply em_sample_eq|]. intros x Hx.
  apply (em_sample_wf m); [done|]. by rewrite em_sample_eq, Hx.
Qed.

Lemma servo_feed_safe sample servo : Servo_within (pc_steered net) servo → ServoSample_wf sample →
  safe I P (λ r, Servo_within (pc_steered net) r.2) (Servo_feed (S := S) sample servo).
Proof.
  intros. eapply safe_quiet; [|by apply Servo_feed_quiet]. by intros [].
Qed.

(** The result of a synchronizing handler. *)
Definition sync_ok {X} (wrap : X → PortState R) (r : option StateDecision * X) : Prop :=
  state_ok (wrap r.2) ∧ ∀ d, r.1 = Some d → legal False (kind (wrap r.2)) d.

Lemma slave_feed_sample_safe p : state_ok (Slave p) →
  safe I P (sync_ok Slave) (SlavePort_feed_sample (S := S) p).
Proof.
  intros Hs. pose proof Hs as (Hb & Ht & [Hm Hc] & Hsv). unfold SlavePort_feed_sample.
  eapply safe_bind; [by apply em_sample_safe|]. intros [x|] Hx; [|by apply safe_ret].
  eapply safe_bind; [apply servo_feed_safe; [done | by apply Hx]|].
  intros [st servo] Hsv'. apply safe_ret. split; [done|].
  intros d. destruct st; simpl; intros [= <-]; by split.
Qed.

Lemma uncalibrated_feed_sample_safe src p : state_ok (Uncalibrated p) →
  safe I P (sync_ok Uncalibrated) (UncalibratedPort_feed_sample (S := S) src p).
Proof.
  intros Hs. pose proof Hs as (Hb & Ht & [Hm Hc] & Hsv). unfold UncalibratedPort_feed_sample.
  eapply safe_bind; [by apply em_sample_safe|]. intros [x|] Hx; [|by apply safe_ret].
  eapply safe_bind; [apply servo_feed_safe; [done | by apply Hx]|].
  intros [st servo] Hsv'. apply safe_ret. split; [done|].
  intros d. destruct st; simpl; intros [= <-]; by split.
Qed.

Lemma slave_mechanism_ok m p : state_ok (Slave p) →
  em_delay_cycle m = em_delay_cycle (sp_delay_mechanism p) → em_wf m →
  state_ok (Slave (SlavePort_with_delay_mechanism m p)).
Proof.
  intros (? & ? & [? ?] & ?) E Hm. do 2 (split; [done|]). split; [|done].
  split; [done|]. simpl. by rewrite E.
Qed.

Lemma uncalibrated_mechanism_ok m p : state_ok (Uncalibrated p) →
  em_delay_cycle m = em_delay_cycle (up_delay_mechanism p) → em_wf m →
  state_ok (Uncalibrated (UncalibratedPort_with_delay_mechanism m p)).
Proof.
  intros (? & ? & [? ?] & ?) E Hm. do 2 (split; [done|]). split; [|done].
  split; [done|]. simpl. by rewrite E.
Qed.
(** A handler of a parent-tracking state: it logs, ignores other senders, and otherwise goes on
    with the recorded message. *)
Lemma from_parent_safe {X} (wrap : X → PortState R) k port ev (b : bool) p m :
  (∀ p, kind (wrap p) = k) → state_ok (wrap p) → safe I P (sync_ok wrap) m →
  dispatches False k (decided wrap (_ ← DomainPort_log ev port; if b then mret (None, p) else m)).
Proof.
  intros Hk Hp Hm. apply dispatches_decided; [done|]. log_step.
  eapply (safe_impl _ _ (sync_ok wrap)); [destruct b; [by apply safe_ret | done]|].
  intros r. unfold sync_ok. by rewrite Hk.
Qed.

Lemma sync_ok_none {X} (wrap : X → PortState R) p : state_ok (wrap p) →
  safe I P (sync_ok wrap) (mret (None, p)).
Proof. intros H. by apply safe_ret. Qed.

Lemma master_sends_safe p msg : state_ok (Master p) → GeneralMessage_wf msg →
  safe I P (λ _, True) (DomainPort_send_general (F := F) msg (mp_port p)).
Proof. intros ((Hp & _) & _) Hm. by apply (send_general_safe I net). Qed.

Lemma master_delay_request_safe req ts src p : state_ok (Master p) →
  DelayRequestMessage_wf req → TimeStamp_wf ts → PortIdentity_wf src →
  safe I P (λ r, state_ok (Master r.2)) (MasterPort_process_delay_request (F := F) req ts src p).
Proof.
  intros Hs Hr Ht Hsrc. unfold MasterPort_process_delay_request. log_step.
  eapply safe_bind; [apply master_sends_safe; [done|]|].
  - destruct Hs as (_ & _ & _ & _ & _ & _ & Hl & _). split_and!; simpl; auto with safe.
  - intros res _. eapply (safe_bind _ _ (λ _, True)); [|by intros; apply safe_ret].
    destruct res; [apply log_safe | by apply safe_ret].
Qed.

Lemma dispatch_event_safe msg src ts s : state_ok s →
  EventMessage_wf msg → PortIdentity_wf src → TimeStamp_wf ts →
  dispatches False (kind s) (PortState_dispatch_event (F := F) msg src ts s).
Proof.
  intros Hs Hm Hsrc Ht. destruct s as [p|p|p|p|p|p|p|p], msg as [m|m|m];
    cbn [PortState_dispatch_event kind]; try (by apply (dispatches_none _ Hs)).
  - apply from_parent_safe; [done..|]. apply slave_feed_sample_safe, slave_mechanism_ok; [done|done|].
    apply em_record_one_step_sync_wf; done || by destruct Hs as (_ & _ & [? _] & _).
  - apply from_parent_safe; [done..|]. apply sync_ok_none, slave_mechanism_ok; [done|done|].
    apply em_record_two_step_sync_wf; done || by destruct Hs as (_ & _ & [? _] & _).
  - apply dispatches_sent; [done..|]. by apply master_delay_request_safe.
  - apply from_parent_safe; [done..|].
    apply uncalibrated_feed_sample_safe, uncalibrated_mechanism_ok; [done|done|].
    apply em_record_one_step_sync_wf; done || by destruct Hs as (_ & _ & [? _] & _).
  - apply from_parent_safe; [done..|]. apply sync_ok_none, uncalibrated_mechanism_ok; [done|done|].
    apply em_record_two_step_sync_wf; done || by destruct Hs as (_ & _ & [? _] & _).
Qed.

Lemma dispatch_general_safe msg src now s : state_ok s → GeneralMessage_wf msg →
  dispatches False (kind s) (PortState_dispatch_general msg src now s).
Proof.
  intros Hs Hm. destruct msg as [m|m|m]; [by apply dispatch_announce_safe| |];
    destruct s as [p|p|p|p|p|p|p|p];
    cbn [PortState_dispatch_general kind]; try (by apply (dispatches_none _ Hs)).
  - apply from_parent_safe; [done..|]. apply sync_ok_none, slave_mechanism_ok; [done|done|].
    apply em_record_delay_response_wf; done || by destruct Hs as (_ & _ & [? _] & _).
  - apply from_parent_safe; [done..|]. apply sync_ok_none, uncalibrated_mechanism_ok; [done|done|].
    apply em_record_delay_response_wf; done || by destruct Hs as (_ & _ & [? _] & _).
  - apply from_parent_safe; [done..|]. apply slave_feed_sample_safe, slave_mechanism_ok; [done|done|].
    apply em_record_follow_up_wf; done || by destruct Hs as (_ & _ & [? _] & _).
  - apply from_parent_safe; [done..|].
    apply uncalibrated_feed_sample_safe, uncalibrated_mechanism_ok; [done|done|].
    apply em_record_follow_up_wf; done || by destruct Hs as (_ & _ & [? _] & _).
Qed.
(** *** Timers, transmit timestamps and state decisions *)

Lemma master_send_announce_safe p : state_ok (Master p) →
  safe I P (λ r, state_ok (Master r.2)) (MasterPort_send_announce (F := F) p).
Proof.
  intros Hs. pose proof Hs as (Hb & Hg & Ha & Hla & Hsy & Hls & Hl & Hta & Hts).
  unfold MasterPort_send_announce.
  eapply safe_bind; [apply time_scale_safe|]. intros ts _.
  eapply safe_bind; [apply master_sends_safe; [done|]|].
  - split_and!; simpl; auto with safe.
  - intros [[]|[]] _; [|by apply safe_ret].
    eapply (safe_bind _ _ (λ c, SequenceId_wf (ac_sequence_id c) ∧
        LogInterval_wf (ac_log_interval c) ∧ th_msg (ac_timeout c) = SM_AnnounceSendTimeout)).
    + apply safe_restart_then; [simpl; by rewrite Hta|]. apply safe_ret. simpl. auto with safe.
    + intros c (? & ? & ?). log_step. apply safe_ret. by split_and!.
Qed.

Lemma master_send_sync_safe p : state_ok (Master p) →
  safe I P (λ r, state_ok (Master r.2)) (MasterPort_send_sync (F := F) p).
Proof.
  intros Hs. pose proof Hs as ((Hp & Hb) & Hg & Ha & Hla & Hsy & Hls & Hl & Hta & Hts).
  unfold MasterPort_send_sync.
  eapply safe_bind.
  { apply (send_event_safe I net); [done|]. split; [done|]. by apply LogInterval_message_wf. }
  intros [[]|[]] _; [|by apply safe_ret].
  eapply (safe_bind _ _ (λ c, SequenceId_wf (sc_sequence_id c) ∧
      LogInterval_wf (sc_log_interval c) ∧ th_msg (sc_timeout c) = SM_SyncTimeout)).
  - apply safe_restart_then; [simpl; by rewrite Hts|]. apply safe_ret. simpl. auto with safe.
  - intros c (? & ? & ?). log_step. apply safe_ret. by split_and!.
Qed.

Lemma master_send_follow_up_safe sync ts p : state_ok (Master p) →
  TwoStepSyncMessage_wf sync → TimeStamp_wf ts →
  safe I P (λ r, state_ok (Master r.2)) (MasterPort_send_follow_up (F := F) sync ts p).
Proof.
  intros Hs [? ?] Ht. unfold MasterPort_send_follow_up.
  eapply safe_bind; [by apply master_sends_safe|]. intros [[]|[]] _; [|by apply safe_ret].
  log_step. by apply safe_ret.
Qed.

Lemma em_delay_request_safe m : mechanism_ok m →
  safe I P (λ r, mechanism_ok r.2 ∧ EventMessage_wf (DelayReq r.1)) (em_delay_request (S := S) m).
Proof.
  intros ((? & ? & ? & ?) & Ht). unfold em_delay_request, DelayCycle_next.
  eapply (safe_bind _ _ (λ c, SequenceId_wf (dc_sequence_id c) ∧
                              th_msg (dc_timeout c) = SM_DelayRequestTimeout)).
  - apply safe_restart_then; [simpl; by rewrite Ht|]. apply safe_ret. simpl. auto with safe.
  - intros c [Hc Htc]. by apply safe_ret.
Qed.

Lemma slave_send_delay_request_safe p : state_ok (Slave p) →
  safe I P (λ r, state_ok (Slave r.2)) (SlavePort_send_delay_request (F := F) p).
Proof.
  intros Hs. pose proof Hs as (Hb & Ht & Hm & Hsv). unfold SlavePort_send_delay_request.
  eapply safe_bind; [by apply em_delay_request_safe|]. intros [r m] [Hm' Hr].
  eapply safe_bind; [by apply (send_event_safe I net); [apply Hb|]|].
  intros [[]|[]] _; [log_step|]; by apply safe_ret.
Qed.

Lemma uncalibrated_send_delay_request_safe p : state_ok (Uncalibrated p) →
  safe I P (λ r, state_ok (Uncalibrated r.2)) (UncalibratedPort_send_delay_request (F := F) p).
Proof.
  intros Hs. pose proof Hs as (Hb & Ht & Hm & Hsv). unfold UncalibratedPort_send_delay_request.
  eapply safe_bind; [by apply em_delay_request_safe|]. intros [r m] [Hm' Hr].
  eapply safe_bind; [by apply (send_event_safe I net); [apply Hb|]|].
  intros [[]|[]] _; [log_step|]; by apply safe_ret.
Qed.

(** A recommendation from a well-formed snapshot is well formed. *)
Lemma decide_state_ok {B} `{!Bmca S B} (ok : B → Prop) `{!BmcaLaws S B I P ok} snapshot b :
  ok b → ClockDS_wf (sds_d_0 snapshot) → snapshot_wf (sds_e_best snapshot) →
  ok (decide_state (S := S) snapshot b).2 ∧
  ∀ d, (decide_state (S := S) snapshot b).1 = Some d → decision_ok d ∧
    match d with RecommendedMaster _ | RecommendedSlave _ => True
               | RecommendedPassive =>
                   (bmca_decision (S := S) (sds_d_0 snapshot) (sds_e_best snapshot) b).1
                   = Some BD_Passive
               | _ => False end.
Proof.
  intros Hb Hd He. unfold decide_state.
  destruct (bmca_decision_ok (I := I) (sds_d_0 snapshot) (sds_e_best snapshot) b Hb Hd He) as [Hb' Hw].
  destruct (bmca_decision _ _ b) as [[d|] b']; simpl in *; (split; [done|]); [|done].
  specialize (Hw d eq_refl). by destruct d; intros d' [= <-].
Qed.

(** A state decision event in a state with a BMCA role. *)
Lemma decides_safe {B X} `{!Bmca S B} (ok : B → Prop) `{!BmcaLaws S B I P ok}
    (wrap : X → PortState R) k snapshot (b : B) (with_bmca : B → X) :
  (∀ p, kind (wrap p) = k) → k ≠ KInitializing → k ≠ KFaulty →
  (k = KPassive →
   (bmca_decision (S := S) (sds_d_0 snapshot) (sds_e_best snapshot) b).1 ≠ Some BD_Passive) →
  ok b → ClockDS_wf (sds_d_0 snapshot) → snapshot_wf (sds_e_best snapshot) →
  (∀ b, ok b → state_ok (wrap (with_bmca b))) →
  dispatches False k (decided wrap (mret
    (let '(d, b') := decide_state (S := S) snapshot b in (d, with_bmca b')))).
Proof.
  intros Hk Hn1 Hn2 Hpas Hb Hd He Hw. apply dispatches_decided; [done|]. apply safe_ret.
  destruct (decide_state_ok ok snapshot b Hb Hd He) as [Hb' Hdec].
  destruct (decide_state snapshot b) as [d b']. simpl in *. split; [by apply Hw|].
  intros d' ->. destruct (Hdec d' eq_refl) as [Hok Hs]. split; [done|].
  destruct d'; simpl in *; try done; destruct k; by first [done | by eexists | by destruct Hpas].
Qed.
Lemma dispatch_decision_event_safe snapshot s : state_ok s →
  ClockDS_wf (sds_d_0 snapshot) → snapshot_wf (sds_e_best snapshot) →
  dispatches False (kind s) (PortState_dispatch_system (F := F) (SM_StateDecisionEvent snapshot) s).
Proof.
  intros Hs Hd He. destruct s as [p|p|p|p|p|p|p|p]; cbn [PortState_dispatch_system kind];
    try (by apply (dispatches_none _ Hs)); cbn in Hs.
  - destruct Hs as [(? & Hb & ?) ?].
    by apply (decides_safe (λ b, parts_ok port_ok inv (lb_parts b))).
  - destruct Hs as [(? & Hb & ?) ?].
    by apply (decides_safe (λ b, parts_ok port_ok inv (pb_parts b))).
  - destruct Hs as [(? & Hb & ?) (? & ?)]. apply (decides_safe (grandmaster_ok port_ok inv)); try done.
    by intros b [? ?].
  - destruct Hs as [(? & Hb & ?) (? & ?)]. apply (decides_safe (grandmaster_ok port_ok inv)); try done.
    by intros b [? ?].
  - destruct Hs as [(? & Hb & ?) ?].
    by apply (decides_safe (λ b, parts_ok port_ok inv (pb_parts b))).
  - destruct Hs as [(? & Hb & ?) ?]. apply (decides_safe (λ b, parts_ok port_ok inv (vb_parts b)));
      try done. intros _. apply PassiveBmca_never_passive.
Qed.

(** The timeouts that make a port master. *)
Definition is_timeout (msg : SystemMessage) : Prop :=
  msg = SM_AnnounceReceiptTimeout ∨ msg = SM_QualificationTimeout.

(** The one dispatch whose decision [apply] rejects. *)
Definition stale_timeout (msg : SystemMessage) (k : StateKind) : Prop :=
  msg = SM_AnnounceReceiptTimeout ∧ k = KMaster.

Lemma dispatch_system_safe msg s : state_ok s → SystemMessage_wf msg →
  ¬ stale_timeout msg (kind s) →
  dispatches (is_timeout msg) (kind s) (PortState_dispatch_system (F := F) msg s).
Proof.
  intros Hs Hm Hst.
  assert (∀ d, legal (is_timeout msg) (kind s) d →
    dispatches (is_timeout msg) (kind s) (mret (Some d, s))) as Hdec.
  { intros d Hd. apply safe_ret. split; [done|]. split; [done|]. by intros d' [= <-]. }
  destruct msg as [| | |[em ts]| | | | |snapshot];
    [.. | destruct Hm; by apply (dispatches_weaken False), dispatch_decision_event_safe];
    destruct s as [p|p|p|p|p|p|p|p]; cbn [PortState_dispatch_system kind tm_event_msg] in *;
    try (by apply (dispatches_none _ Hs)); 
    try (apply Hdec; split; [done|]; split; [by eexists|];
         cbn; solve [intros _; by left | intros _; by right | intros [=]]).
  - apply dispatches_sent; [done..|]. by apply master_send_announce_safe.
  - apply dispatches_sent; [done..|]. by apply slave_send_delay_request_safe.
  - apply dispatches_sent; [done..|]. by apply uncalibrated_send_delay_request_safe.
  - apply dispatches_sent; [done..|]. by apply master_send_sync_safe.
  - destruct em; try (by apply (dispatches_none _ Hs)); destruct Hm as [Hm Ht].
    apply dispatches_decided; [done|]. log_step. apply safe_ret.
    split; [|done]. apply slave_mechanism_ok; [done|done|].
    apply em_record_delay_request_wf; done || by destruct Hs as (_ & _ & [? _] & _).
  - destruct em; try (by apply (dispatches_none _ Hs)); destruct Hm as [Hm Ht].
    apply dispatches_sent; [done..|]. by apply master_send_follow_up_safe.
  - destruct em; try (by apply (dispatches_none _ Hs)); destruct Hm as [Hm Ht].
    apply dispatches_decided; [done|]. log_step. apply safe_ret.
    split; [|done]. apply uncalibrated_mechanism_ok; [done|done|].
    apply em_record_delay_request_wf; done || by destruct Hs as (_ & _ & [? _] & _).
  - by destruct Hst.
Qed.
(** ** The wrapper and the ingress *)

Definition fsm_ok (f : PortFsm R) : Prop := ∃ s, fsm_state f = Some s ∧ state_ok s.

Definition fsm_master (f : PortFsm R) : Prop := ∃ s, fsm_state f = Some s ∧ kind s = KMaster.

(** After a step from [f]: the invariant holds, and the port has not become master unless [T]. *)
Definition stepped (T : Prop) (f f' : PortFsm R) : Prop :=
  fsm_ok f' ∧ (fsm_master f' → fsm_master f ∨ T).

Lemma drive_safe T f dispatch : fsm_ok f →
  (∀ s, fsm_state f = Some s → dispatches T (kind s) (dispatch s)) →
  safe I P (stepped T f) (PortFsm_drive dispatch f).
Proof.
  intros (s & E & Hs) Hd. unfold PortFsm_drive. rewrite E.
  eapply safe_bind; [by apply Hd|]. intros [d s'] (Hs' & Hk & Hdec); simpl in *.
  destruct d as [d|].
  - destruct (Hdec d eq_refl) as (Hok & [k Ek] & HT). unfold PortFsm_apply_decision. simpl.
    pose proof (apply_transition d s' Hs' Hok) as Ha. rewrite Hk, Ek in Ha.
    eapply safe_bind; [exact Ha|]. intros s'' [Hs'' Hk'']. apply safe_ret.
    split; [by exists s''|]. intros (x & [= <-] & Hx). right. apply HT. congruence.
  - apply safe_ret. split; [by exists s'|]. intros (x & [= <-] & Hx). left. exists s.
    split; [done | congruence].
Qed.

Lemma process_event_safe src msg ts f : fsm_ok f →
  PortIdentity_wf src → EventMessage_wf msg → TimeStamp_wf ts →
  safe I P (stepped False f) (PortFsm_process_event_message (F := F) src msg ts f).
Proof.
  intros Hf Hsrc Hm Ht. apply drive_safe; [done|]. intros s E. apply dispatch_event_safe; try done.
  destruct Hf as (s' & E' & Hs). by replace s with s' by congruence.
Qed.

Lemma process_general_safe src msg now f : fsm_ok f → GeneralMessage_wf msg →
  safe I P (stepped False f) (PortFsm_process_general_message src msg now f).
Proof.
  intros Hf Hm. apply drive_safe; [done|]. intros s E. apply dispatch_general_safe; [|done].
  destruct Hf as (s' & E' & Hs). by replace s with s' by congruence.
Qed.

Lemma process_system_safe msg f : fsm_ok f → SystemMessage_wf msg →
  (∀ s, fsm_state f = Some s → ¬ stale_timeout msg (kind s)) →
  safe I P (stepped (is_timeout msg) f) (PortFsm_process_system_message (F := F) msg f).
Proof.
  intros Hf Hm Hst. apply drive_safe; [done|]. intros s E. apply dispatch_system_safe; auto.
  destruct Hf as (s' & E' & Hs). by replace s with s' by congruence.
Qed.

Definition map_ok (m : SingleDomainPortMap R) : Prop := fsm_ok (sm_port_fsm m).
Definition map_master (m : SingleDomainPortMap R) : Prop := fsm_master (sm_port_fsm m).

(** A parsed datagram's continuation, and the result of the ingress. *)
Definition ingress_ok (ports : SingleDomainPortMap R)
    (r : result () Error * SingleDomainPortMap R) : Prop :=
  map_ok r.2 ∧ (map_master r.2 → map_master ports) ∧
  sm_domain_number r.2 = sm_domain_number ports.

Lemma try_parse_safe {A} (Q : A → Prop) (m : PR A) ports k :
  pr_ok Q m → map_ok ports → (∀ a, Q a → safe I P (ingress_ok ports) (k a)) →
  safe I P (ingress_ok ports) (try_parse m ports k).
Proof.
  intros Hm Hp Hk. unfold try_parse. destruct m as [[a|e]|]; simpl in Hm; [| |done].
  - eapply safe_bind; [by eapply (safe_lift I P (λ r, r = Ok a))|]. intros ? ->. by apply Hk.
  - eapply safe_bind; [by eapply (safe_lift I P (λ r, r = Err e))|]. intros ? ->. by apply safe_ret.
Qed.

Lemma length_checked_ok buf : Forall is_byte buf →
  pr_ok (λ b, (34 <= length b)%nat ∧ Forall is_byte b) (length_checked_v2 buf).
Proof.
  intros Hb. destruct (Nat.ltb_spec (length buf) 34) as [Hl|Hl].
  - unfold length_checked_v2, PTP_HEADER_LEN. by rewrite (proj2 (Nat.ltb_lt _ _) Hl).
  - rewrite length_checked_v2_eq by done. cbv zeta. by do 2 (case_match; [done|]).
Qed.

(** The two ingress entry points share this shape. *)
Lemma dispatch_datagram_safe {A} (Q : A → Prop) (parse : PR A)
    (k : PortFsm R → (PortFsm R → SingleDomainPortMap R) → A →
         M S (result () Error * SingleDomainPortMap R)) buf ports :
  (34 <= length buf)%nat → Forall is_byte buf → map_ok ports → pr_ok Q parse →
  (∀ port put_back a, fsm_ok port →
     (∀ f, stepped False port f → ingress_ok ports (Ok (), put_back f)) → Q a →
     safe I P (ingress_ok ports) (k port put_back a)) →
  safe I P (ingress_ok ports)
    (d ← lift (MessageHeader_domain_number buf);
     match port_by_domain d ports with
     | Err e => mret (Err e, ports)
     | Ok (port, put_back) => try_parse parse ports (k port put_back)
     end).
Proof.
  intros Hl Hb Hp Hparse Hk. destruct (header_domain_number_ok buf Hl Hb) as (d & E & _).
  eapply safe_bind; [by eapply (safe_lift I P (λ x, x = d))|]. intros ? ->.
  cbn [port_by_domain SingleDomainPortMap_PortMap]. unfold SingleDomainPortMap_port_by_domain.
  case_bool_decide; [|by apply safe_ret]. eapply try_parse_safe; [exact Hparse|done|].
  intros a Ha. apply Hk; try done. intros f [Hf Hmf]. split; [done|].
  split; [|done]. intros Hm. by destruct (Hmf Hm).
Qed.

Lemma receive_event_safe buf ts ports : Forall is_byte buf → TimeStamp_wf ts → map_ok ports →
  safe I P (ingress_ok ports) (MessageIngress_receive_event (F := F) buf ts ports).
Proof.
  intros Hb Ht Hp. eapply try_parse_safe; [by apply length_checked_ok|done|]. intros b [Hl Hbb].
  eapply dispatch_datagram_safe; [done..|by apply parse_event_ok|].
  intros port put_back [src msg] Hf Hback [??].
  eapply safe_bind; [by apply process_event_safe|]. intros f Hf'. by apply safe_ret, Hback.
Qed.

Lemma receive_general_safe buf now ports : Forall is_byte buf → map_ok ports →
  safe I P (ingress_ok ports) (MessageIngress_receive_general (F := F) buf now ports).
Proof.
  intros Hb Hp. eapply try_parse_safe; [by apply length_checked_ok|done|]. intros b [Hl Hbb].
  eapply dispatch_datagram_safe; [done..|by apply parse_general_ok|].
  intros port put_back [src msg] Hf Hback [??].
  eapply safe_bind; [by apply process_general_safe|]. intros f Hf'. by apply safe_ret, Hback.
Qed.
(** ** Properties *)

(** C14: Applying a decision follows the state chart: where the chart has a transition, apply
    returns, enters exactly the chart's target state and establishes that state's invariant; where
    it has none, apply panics in every world. *)
Theorem transitions_follow_state_chart d s : state_ok s → decision_ok d →
  match transition (kind s) d with
  | Some k => safe I P (λ s', state_ok s' ∧ kind s' = k) (PortState_apply d s)
  | None => ∀ w, PortState_apply d s w = Panic
  end.
Proof. apply apply_transition. Qed.

(** C15: Dispatching any well-formed event, general or system message returns, keeps the state's
    kind and invariant, and any decision it returns is legal in that state (so apply will not
    panic), except the announce receipt timeout in master. *)
Theorem dispatched_decisions_are_legal s : state_ok s →
  let keeps T m := safe I P (λ r, state_ok r.2 ∧ kind r.2 = kind s ∧
    ∀ d, r.1 = Some d → decision_ok d ∧ is_Some (transition (kind s) d) ∧
      (transition (kind s) d = Some KMaster → T)) m in
  (∀ msg src ts, EventMessage_wf msg → PortIdentity_wf src → TimeStamp_wf ts →
     keeps False (PortState_dispatch_event (F := F) msg src ts s)) ∧
  (∀ msg src now, GeneralMessage_wf msg →
     keeps False (PortState_dispatch_general msg src now s)) ∧
  (∀ msg, SystemMessage_wf msg → ¬ (msg = SM_AnnounceReceiptTimeout ∧ kind s = KMaster) →
     keeps (is_timeout msg) (PortState_dispatch_system (F := F) msg s)).
Proof.
  intros Hs keeps. split; [|split].
  - intros. by apply dispatch_event_safe.
  - intros. by apply dispatch_general_safe.
  - intros. by apply dispatch_system_safe.
Qed.
End safety.
