(* ===== verification/Clocks.v ===== *)
(** * Clock assemblies (crates/rptp/src/ordinary.rs, boundary.rs, infra.rs)

    The ordinary and the boundary clock: the state their ports share (the port enumeration, the
    foreign candidates and the notification handles live behind [Cell]s and [RefCell]s in the
    source), the construction of ports, and the [StateDecisionEvent] trigger. *)

From S2P Require Import Prelude Errors Time Clock PortId DataSet Foreign Stores Wire Message.
From S2P Require Import Effects Servo E2e Bmca Profile.

Open Scope Z_scope.

(** ** Notification of ports *)

Class PortNotification (N : Type) := {
  pn_add_port : Timeout → N → N;
  pn_notify_all : ∀ {S}, StateDecisionSnapshot → N → M S unit;
}.

Record SinglePortNotification := mkSinglePortNotification { sn_timeout : option Timeout }.

Definition SinglePortNotification_new : SinglePortNotification := mkSinglePortNotification None.
Definition SinglePortNotification_add_port (timeout : Timeout) (self : SinglePortNotification)
    : SinglePortNotification :=
  mkSinglePortNotification (Some timeout).
Definition SinglePortNotification_notify_all {S} (snapshot : StateDecisionSnapshot)
    (self : SinglePortNotification) : M S unit :=
  match sn_timeout self with
  | Some timeout =>
      zero ← lift (Duration_from_secs 0);
      Timeout_restart_with_message timeout (SM_StateDecisionEvent snapshot) zero
  | None => mret ()
  end.

#[export] Instance SinglePortNotification_PortNotification
    : PortNotification SinglePortNotification := {
  pn_add_port := SinglePortNotification_add_port;
  pn_notify_all S := SinglePortNotification_notify_all;
}.

Record MultiPortNotification := mkMultiPortNotification { mn_timeouts : list Timeout }.

Definition MultiPortNotification_new : MultiPortNotification := mkMultiPortNotification [].
Definition MultiPortNotification_add_port (timeout : Timeout) (self : MultiPortNotification)
    : MultiPortNotification :=
  mkMultiPortNotification (mn_timeouts self ++ [timeout]).

(** [for timeout in timeouts.iter() { timeout.restart_with_message(msg, delay) }]. *)
Fixpoint restart_all {S} (msg : SystemMessage) (delay : Duration) (timeouts : list Timeout)
    : M S unit :=
  match timeouts with
  | [] => mret ()
  | timeout :: timeouts =>
      _ ← Timeout_restart_with_message timeout msg delay;
      restart_all msg delay timeouts
  end.

Definition MultiPortNotification_notify_all {S} (snapshot : StateDecisionSnapshot)
    (self : MultiPortNotification) : M S unit :=
  let msg := SM_StateDecisionEvent snapshot in
  delay ← lift (Duration_from_secs 0);
  restart_all msg delay (mn_timeouts self).

#[export] Instance MultiPortNotification_PortNotification
    : PortNotification MultiPortNotification := {
  pn_add_port := MultiPortNotification_add_port;
  pn_notify_all S := MultiPortNotification_notify_all;
}.

(** ** The assembly both clocks share *)

(** [DomainPort::new], [BestMasterClockAlgorithm::new], [BestForeignRecord::new] and
    [StateDecisionEventTrigger::new] on the fresh port. *)
Definition assemble_port {S R} `{ForeignClockRecords R} (default_ds : ClockDS)
    (domain_number : DomainNumber) (profile : PortProfile) (port_number : PortNumber)
    (foreign_clock_records : R) : M S (PortState R) :=
  let port_identity := PortIdentity_new (cds_identity default_ds) port_number in
  let domain_port := mkDomainPort port_identity domain_number in
  let bmca := mkBestMasterClockAlgorithm default_ds port_number in
  let best_foreign := mkBestForeignRecord port_identity foreign_clock_records in
  let state_decision_trigger :=
    mkStateDecisionEventTrigger (BestForeignRecord_snapshot best_foreign) port_number in
  PortProfile_initializing domain_port (mkBmcaParts bmca best_foreign state_decision_trigger)
    profile.

(** ** Ordinary clock *)

Record OrdinaryClock := mkOrdinaryClock {
  oc_default_ds : ClockDS;
  oc_domain_number : DomainNumber;
  oc_port_enumeration : PortEnumeration;
  oc_foreign_candidates : BestForeignSnapshot;
  oc_port_notification : SinglePortNotification;
  oc_profile : PortProfile;
}.

Definition OrdinaryClock_new (default_ds : ClockDS) (domain_number : DomainNumber)
    (profile : PortProfile) : outcome OrdinaryClock :=
  e ← PortEnumeration_single;
  Done (mkOrdinaryClock default_ds domain_number e Empty SinglePortNotification_new profile).

Definition OrdinaryClock_with_enumeration (e : PortEnumeration) (self : OrdinaryClock)
    : OrdinaryClock :=
  mkOrdinaryClock (oc_default_ds self) (oc_domain_number self) e (oc_foreign_candidates self)
    (oc_port_notification self) (oc_profile self).
Definition OrdinaryClock_with_candidates (c : BestForeignSnapshot) (self : OrdinaryClock)
    : OrdinaryClock :=
  mkOrdinaryClock (oc_default_ds self) (oc_domain_number self) (oc_port_enumeration self) c
    (oc_port_notification self) (oc_profile self).
Definition OrdinaryClock_with_notification (n : SinglePortNotification) (self : OrdinaryClock)
    : OrdinaryClock :=
  mkOrdinaryClock (oc_default_ds self) (oc_domain_number self) (oc_port_enumeration self)
    (oc_foreign_candidates self) n (oc_profile self).

Definition OrdinaryClock_port {R} `{ForeignClockRecords R} (foreign_clock_records : R)
    : M OrdinaryClock (option (PortState R)) :=
  self ← get_shared;
  '(n, e) ← lift (PortEnumeration_next (oc_port_enumeration self));
  _ ← put_shared (OrdinaryClock_with_enumeration e self);
  match n with
  | None => mret None
  | Some port_number =>
      state_decision_timeout ←
        new_timeout (SM_StateDecisionEvent (mkStateDecisionSnapshot (oc_default_ds self) Empty));
      self ← get_shared;
      _ ← put_shared (OrdinaryClock_with_notification
             (pn_add_port state_decision_timeout (oc_port_notification self)) self);
      p ← assemble_port (oc_default_ds self) (oc_domain_number self) (oc_profile self) port_number
            foreign_clock_records;
      mret (Some p)
  end.

Definition OrdinaryClock_trigger (port_number : PortNumber) (e_rbest : BestForeignSnapshot)
    : M OrdinaryClock unit :=
  self ← get_shared;
  candidates ← lift (fgc_remember port_number e_rbest (oc_foreign_candidates self));
  _ ← put_shared (OrdinaryClock_with_candidates candidates self);
  let e_best := fgc_best candidates in
  pn_notify_all (mkStateDecisionSnapshot (oc_default_ds self) e_best) (oc_port_notification self).

#[export] Instance OrdinaryClock_StateDecisionEvent : StateDecisionEvent OrdinaryClock := {
  sde_trigger := OrdinaryClock_trigger;
}.

(** ** Boundary clock *)

Record BoundaryClock (FGC PN : Type) := mkBoundaryClock {
  bc_default_ds : ClockDS;
  bc_domain_number : DomainNumber;
  bc_port_enumeration : PortEnumeration;
  bc_foreign_candidates : FGC;
  bc_port_notification : PN;
}.
Arguments mkBoundaryClock {FGC PN}.
Arguments bc_default_ds {FGC PN}.
Arguments bc_domain_number {FGC PN}.
Arguments bc_port_enumeration {FGC PN}.
Arguments bc_foreign_candidates {FGC PN}.
Arguments bc_port_notification {FGC PN}.

Section boundary.
  Context {FGC PN : Type} `{HC : !ForeignGrandMasterCandidates FGC} `{HN : !PortNotification PN}.

Definition BoundaryClock_new (default_ds : ClockDS) (domain_number : DomainNumber) (num_ports : Z)
    (foreign_candidates : FGC) (port_notification : PN) : outcome (BoundaryClock FGC PN) :=
  e ← PortEnumeration_sequential num_ports;
  Done (mkBoundaryClock default_ds domain_number e foreign_candidates port_notification).

Definition BoundaryClock_with_enumeration (e : PortEnumeration) (self : BoundaryClock FGC PN)
    : BoundaryClock FGC PN :=
  mkBoundaryClock (bc_default_ds self) (bc_domain_number self) e (bc_foreign_candidates self)
    (bc_port_notification self).
Definition BoundaryClock_with_candidates (c : FGC) (self : BoundaryClock FGC PN)
    : BoundaryClock FGC PN :=
  mkBoundaryClock (bc_default_ds self) (bc_domain_number self) (bc_port_enumeration self) c
    (bc_port_notification self).
Definition BoundaryClock_with_notification (n : PN) (self : BoundaryClock FGC PN)
    : BoundaryClock FGC PN :=
  mkBoundaryClock (bc_default_ds self) (bc_domain_number self) (bc_port_enumeration self)
    (bc_foreign_candidates self) n.

Definition BoundaryClock_port {R} `{ForeignClockRecords R} (foreign_clock_records : R)
    : M (BoundaryClock FGC PN) (option (PortState R)) :=
  self ← get_shared;
  '(n, e) ← lift (PortEnumeration_next (bc_port_enumeration self));
  _ ← put_shared (BoundaryClock_with_enumeration e self);
  match n with
  | None => mret None
  | Some port_number =>
      state_decision_timeout ←
        new_timeout (SM_StateDecisionEvent (mkStateDecisionSnapshot (bc_default_ds self) Empty));
      self ← get_shared;
      _ ← put_shared (BoundaryClock_with_notification
             (pn_add_port state_decision_timeout (bc_port_notification self)) self);
      profile ← lift PortProfile_default;
      p ← assemble_port (bc_default_ds self) (bc_domain_number self) profile port_number
            foreign_clock_records;
      mret (Some p)
  end.

Definition BoundaryClock_trigger (port_number : PortNumber) (e_rbest : BestForeignSnapshot)
    : M (BoundaryClock FGC PN) unit :=
  self ← get_shared;
  candidates ← lift (fgc_remember port_number e_rbest (bc_foreign_candidates self));
  _ ← put_shared (BoundaryClock_with_candidates candidates self);
  let e_best := fgc_best candidates in
  pn_notify_all (mkStateDecisionSnapshot (bc_default_ds self) e_best) (bc_port_notification self).

#[export] Instance BoundaryClock_StateDecisionEvent : StateDecisionEvent (BoundaryClock FGC PN) := {
  sde_trigger := BoundaryClock_trigger;
}.
End boundary.
