(* ===== verification/System.v ===== *)
(** * Clocks and their ports as a system

    The laws the clock assemblies satisfy, what a trigger does to every port, port creation, and
    the safety of any interleaving of deliveries to the ports of one clock. *)

From S2P Require Import Prelude Errors Time Clock PortId DataSet Foreign Stores Wire Message.
From S2P Require Import Effects Servo E2e Bmca Profile Handlers PortState PortSafety Clocks.

Open Scope Z_scope.

(** ** The laws of the clock's collaborators *)

(** Candidates with an invariant: a well-formed report from an admissible port is accepted, and
    the best snapshot is well formed. *)
Class ForeignGrandMasterCandidatesLaws (FGC : Type) `{!ForeignGrandMasterCandidates FGC}
    (ok : FGC → Prop) (port_ok : PortNumber → Prop) : Prop := {
  fgc_remember_ok : ∀ port s c, ok c → port_ok port → snapshot_on port s → snapshot_wf s →
    ∃ c', fgc_remember port s c = Done c' ∧ ok c';
  fgc_best_wf : ∀ c, ok c → snapshot_wf (fgc_best c);
}.

#[export] Instance Cell_candidates_laws :
  ForeignGrandMasterCandidatesLaws BestForeignSnapshot snapshot_wf (λ p, p = PortNumber_new 1).
Proof.
  split; [|done]. intros port s c _ -> Hs Hw. exists s. simpl. unfold PortIdentity_port_number.
  destruct s as [ds src r|]; simpl in *; [|done]. by rewrite bool_decide_eq_true_2.
Qed.

Definition MultiPort_ok (m : MultiPortForeignCandidates) : Prop :=
  MultiPort_inv m ∧ Forall (λ ks, snapshot_wf ks.2) (mp_by_port m).

Lemma MultiPort_new_ok : MultiPort_ok MultiPortForeignCandidates_new.
Proof. repeat split; constructor. Qed.

#[export] Instance MultiPort_candidates_laws :
  ForeignGrandMasterCandidatesLaws MultiPortForeignCandidates MultiPort_ok (λ _, True).
Proof.
  split.
  - intros port s c [Hc Hw] _ _ Hs. eexists. split; [done|].
    split; [by apply MultiPort_remember_inv|]. rewrite Forall_forall in *.
    destruct s as [d sr r|]; simpl.
    + by intros x [->|Hx]%btree_insert_elem; [|apply Hw].
    + intros x Hx%btree_remove_elem. by apply Hw.
  - intros c [_ Hw]. pose proof (MultiPort_best_elem c) as [E|H]%elem_of_cons; [simpl; by rewrite E|].
    apply list_elem_of_fmap in H as (x & E & Hx). simpl. rewrite E, Forall_forall in *. by apply Hw.
Qed.

(** The handles a notification would restart, and what notifying them does. *)
Class PortNotificationLaws (PN : Type) `{!PortNotification PN} (timeouts : PN → list Timeout)
    : Prop := {
  pn_notify_exact : ∀ S snapshot n (w : World S),
    pn_notify_all snapshot n w
    = Done (tt, mkWorld (w_trace w ++
          ((λ t, E_RestartWithMessage t (SM_StateDecisionEvent snapshot) (mkDuration 0))
             <$> timeouts n)) (w_shared w));
  pn_add_registers : ∀ t n, t ∈ timeouts (pn_add_port t n);
}.

(** Handles that carry state decision events. *)
Definition decision_handles (ts : list Timeout) : Prop :=
  Forall (λ t, ∃ s, th_msg t = SM_StateDecisionEvent s) ts.

#[export] Instance SinglePortNotification_laws :
  PortNotificationLaws SinglePortNotification (λ n, option_list (sn_timeout n)).
Proof.
  split; [|intros t n; simpl; left]. intros S snapshot [[t|]] [tr s]; simpl; [done|].
  by rewrite app_nil_r.
Qed.

Lemma restart_all_exact {S} msg delay ts (w : World S) :
  restart_all msg delay ts w
  = Done (tt, mkWorld (w_trace w ++ ((λ t, E_RestartWithMessage t msg delay) <$> ts)) (w_shared w)).
Proof.
  revert w. induction ts as [|t ts IH]; intros [tr s]; simpl; [by rewrite app_nil_r|].
  unfold mbind, M_bind, Timeout_restart_with_message, emit. rewrite IH. simpl.
  by rewrite <- app_assoc.
Qed.

#[export] Instance MultiPortNotification_laws :
  PortNotificationLaws MultiPortNotification mn_timeouts.
Proof.
  split; [|intros t n; simpl; apply elem_of_app; right; left].
  intros S snapshot n w. simpl. unfold MultiPortNotification_notify_all.
  unfold mbind, M_bind, lift. simpl. apply restart_all_exact.
Qed.

(** ** Triggers *)

(** What a state decision event delivers to every registered handle. *)
Definition notified (snapshot : StateDecisionSnapshot) (ts : list Timeout) : list Effect :=
  (λ t, E_RestartWithMessage t (SM_StateDecisionEvent snapshot) (mkDuration 0)) <$> ts.

Lemma notified_ok `{MessageFlagsOps F} net snapshot ts :
  SystemMessage_wf (SM_StateDecisionEvent snapshot) → decision_handles ts →
  Forall (effect_ok (F := F) net) (notified snapshot ts).
Proof.
  intros Hs Ht. apply Forall_fmap. eapply Forall_impl; [exact Ht|]. intros t [s E]. simpl.
  split; [done|]. split; [by exists s|]. split; [by eexists | exact Hs].
Qed.

Section boundary_laws.
  Context {FGC PN : Type} `{HC : !ForeignGrandMasterCandidates FGC} `{HN : !PortNotification PN}.
  Context (ok : FGC → Prop) (port_ok : PortNumber → Prop)
    `{!ForeignGrandMasterCandidatesLaws FGC ok port_ok}.
  Context (timeouts : PN → list Timeout) `{!PortNotificationLaws PN timeouts}.

Definition boundary_ok (c : BoundaryClock FGC PN) : Prop :=
  ClockDS_wf (bc_default_ds c) ∧ ok (bc_foreign_candidates c) ∧
  decision_handles (timeouts (bc_port_notification c)).

Lemma BoundaryClock_trigger_eq port s (c : BoundaryClock FGC PN) candidates tr :
  fgc_remember port s (bc_foreign_candidates c) = Done candidates →
  BoundaryClock_trigger port s (mkWorld tr c)
  = Done (tt, mkWorld
      (tr ++ notified (mkStateDecisionSnapshot (bc_default_ds c) (fgc_best candidates))
               (timeouts (bc_port_notification c)))
      (BoundaryClock_with_candidates candidates c)).
Proof.
  intros E. unfold BoundaryClock_trigger, mbind, M_bind, get_shared, put_shared, lift. simpl.
  rewrite E. by rewrite pn_notify_exact.
Qed.

#[export] Instance BoundaryClock_laws `{MessageFlagsOps F} net :
  StateDecisionEventLaws (BoundaryClock FGC PN) boundary_ok (effect_ok (F := F) net) port_ok.
Proof.
  split. intros port s Hp Hs Hw [tr c] (Hd & Hc & Ht). simpl in Hc.
  destruct (fgc_remember_ok port s (bc_foreign_candidates c) Hc Hp Hs Hw) as (candidates & E & Hok).
  apply wp_Done. do 2 eexists. split; [by apply BoundaryClock_trigger_eq|].
  split; [done|]. split; [done|]. eexists. split; [done|]. apply notified_ok; [|done].
  split; [done|]. by apply (fgc_best_wf (ok := ok) (port_ok := port_ok)).
Qed.
End boundary_laws.

Lemma OrdinaryClock_trigger_eq port s (c : OrdinaryClock) candidates tr :
  fgc_remember port s (oc_foreign_candidates c) = Done candidates →
  OrdinaryClock_trigger port s (mkWorld tr c)
  = Done (tt, mkWorld
      (tr ++ notified (mkStateDecisionSnapshot (oc_default_ds c) (fgc_best candidates))
               (option_list (sn_timeout (oc_port_notification c))))
      (OrdinaryClock_with_candidates candidates c)).
Proof.
  intros E. unfold OrdinaryClock_trigger, mbind, M_bind, get_shared, put_shared, lift.
  cbn [w_shared w_trace]. rewrite E. by rewrite pn_notify_exact.
Qed.

Definition ordinary_ok (c : OrdinaryClock) : Prop :=
  ClockDS_wf (oc_default_ds c) ∧ snapshot_wf (oc_foreign_candidates c) ∧
  decision_handles (option_list (sn_timeout (oc_port_notification c))).

#[export] Instance OrdinaryClock_laws `{MessageFlagsOps F} net :
  StateDecisionEventLaws OrdinaryClock ordinary_ok (effect_ok (F := F) net)
    (λ p, p = PortNumber_new 1).
Proof.
  split. intros port s Hp Hs Hw [tr c] (Hd & Hc & Ht).
  destruct (fgc_remember_ok port s (oc_foreign_candidates c) Hc Hp Hs Hw) as (candidates & E & Hok).
  apply wp_Done. do 2 eexists. split; [by apply OrdinaryClock_trigger_eq|].
  split; [done|]. split; [done|]. eexists. split; [done|]. apply notified_ok; [|done].
  split; [done|]. by apply (fgc_best_wf (port_ok := λ p, p = PortNumber_new 1)).
Qed.

(** ** Deliveries to the ports of one clock *)

(** What infrastructure can deliver: a datagram with its ingress time, or a system message. *)
Inductive PortInput :=
| In_Event (buf : list Z) (timestamp : TimeStamp)
| In_General (buf : list Z) (now : Instant)
| In_System (msg : SystemMessage).

Definition PortInput_wf (i : PortInput) : Prop :=
  match i with
  | In_Event buf ts => Forall is_byte buf ∧ TimeStamp_wf ts
  | In_General buf _ => Forall is_byte buf
  | In_System msg => SystemMessage_wf msg
  end.

Section system.
  Context {F : Type} `{HF : !MessageFlagsOps F} `{HE : !Env}.
  Context {S : Type} `{HS : !StateDecisionEvent S} {R : Type} `{HR : !ForeignClockRecords R}.

(** One delivery; infrastructure drops the result of an ingress call. *)
Definition deliver (i : PortInput) (ports : SingleDomainPortMap R) : M S (SingleDomainPortMap R) :=
  match i with
  | In_Event buf ts =>
      '(_, ports) ← MessageIngress_receive_event (F := F) (P := PortFsm R) buf ts ports; mret ports
  | In_General buf now =>
      '(_, ports) ← MessageIngress_receive_general (F := F) (P := PortFsm R) buf now ports;
      mret ports
  | In_System msg =>
      fsm ← PortFsm_process_system_message (F := F) msg (sm_port_fsm ports);
      mret (mkSingleDomainPortMap (sm_domain_number ports) fsm)
  end.

(** Deliveries to the ports of one clock, in any order. *)
Fixpoint run (inputs : list (nat * PortInput)) (ports : list (SingleDomainPortMap R))
    : M S (list (SingleDomainPortMap R)) :=
  match inputs with
  | [] => mret ports
  | (n, i) :: inputs =>
      match ports !! n with
      | Some p => p ← deliver i p; run inputs (<[n:=p]> ports)
      | None => run inputs ports
      end
  end.

(** An announce receipt timeout that reaches a port which has become master meanwhile. *)
Definition hits_master (n : nat) (i : PortInput) (ports : list (SingleDomainPortMap R)) : Prop :=
  i = In_System SM_AnnounceReceiptTimeout ∧
  ∃ d q, ports !! n = Some (mkSingleDomainPortMap d (PortFsm_new (Master q))).

Context (I : S → Prop) (net : PortContract) (port_ok : PortNumber → Prop).
Context `{!StateDecisionEventLaws S I (effect_ok (F := F) net) port_ok}.
Context (inv : R → Prop) `{!ForeignClockRecordsLaws R inv}.

(** The inputs that can make a port master. *)
Definition makes_master (i : PortInput) : Prop :=
  match i with In_System msg => is_timeout msg | _ => False end.

(** What a delivery leaves. *)
Definition delivered (i : PortInput) (p p' : SingleDomainPortMap R) : Prop :=
  map_ok net port_ok inv p' ∧ (map_master p' → map_master p ∨ makes_master i) ∧
  sm_domain_number p' = sm_domain_number p.

Lemma deliver_safe i p : map_ok net port_ok inv p → PortInput_wf i → (∀ n, ¬ hits_master n i [p]) →
  safe I (effect_ok (F := F) net) (delivered i p) (deliver i p).
Proof.
  intros Hp Hi Hst. destruct i as [buf ts|buf now|msg]; simpl.
  - destruct Hi. eapply safe_bind; [by apply (receive_event_safe I net port_ok inv)|].
    intros [r p'] (? & ? & ?). apply safe_ret. split; [done|]. split; [by left; auto | done].
  - eapply safe_bind; [by apply (receive_general_safe I net port_ok inv)|].
    intros [r p'] (? & ? & ?). apply safe_ret. split; [done|]. split; [by left; auto | done].
  - eapply safe_bind; [apply (process_system_safe I net port_ok inv)|]; [done..| |].
    + intros s E [-> Hk]. apply (Hst 0%nat). split; [done|]. destruct p as [d [o]].
      simpl in E. subst o. destruct s; try done. by do 2 eexists.
    + intros f [Hf Hm]. by apply safe_ret.
Qed.

Lemma hits_master_dec n i ports : hits_master n i ports ∨ ¬ hits_master n i ports.
Proof.
  unfold hits_master. destruct i as [| |[]]; try (right; by intros [[=] _]).
  destruct (ports !! n) as [[d [[[]|]]]|]; try (right; by intros (_ & ? & ? & [=])).
  left. split; [done|]. by do 2 eexists.
Qed.

(** A run keeps the invariant, or stops at a timeout that hit a master. *)
Lemma run_safe inputs ports w :
  Forall (map_ok net port_ok inv) ports → Forall (λ ni, PortInput_wf ni.2) inputs → I (w_shared w) →
  match run inputs ports w with
  | Done (ports', w') => Forall (map_ok net port_ok inv) ports' ∧ I (w_shared w') ∧
      ∃ es, w_trace w' = w_trace w ++ es ∧ Forall (effect_ok (F := F) net) es
  | Panic =>
      ∃ pre n i post ports' w', inputs = pre ++ (n, i) :: post ∧
        run pre ports w = Done (ports', w') ∧ hits_master n i ports'
  end.
Proof.
  revert ports w. induction inputs as [|[n i] inputs IH]; intros ports w Hp Hi Hw.
  { split; [done|]. split; [done|]. exists []. by rewrite app_nil_r. }
  apply Forall_cons in Hi as [Hi His].
  destruct (hits_master_dec n i ports) as [Hh|Hh].
  { destruct (run ((n, i) :: inputs) ports w) as [[p' w']|] eqn:E.
    - destruct Hh as (-> & d & q & Eq). simpl in E. rewrite Eq in E. discriminate E.
    - by exists [], n, i, inputs, ports, w. }
  simpl. destruct (ports !! n) as [p|] eqn:Ep.
  - assert (map_ok net port_ok inv p) as Hpn by by eapply Forall_lookup.
    assert (wp (deliver i p) (λ p' w', I (w_shared w') ∧ delivered i p p' ∧
      ∃ es, w_trace w' = w_trace w ++ es ∧ Forall (effect_ok (F := F) net) es) w) as Hd.
    { apply deliver_safe; try done. intros n' (-> & d & q & Eq). apply Hh. split; [done|].
      destruct n' as [|n']; [|by destruct n']. injection Eq as ->. by do 2 eexists. }
    apply wp_Done in Hd as (p' & w1 & E1 & Hw1 & [Hp' _] & es & Et & Hes).
    assert (Forall (map_ok net port_ok inv) (<[n:=p']> ports)) as Hps by by apply Forall_insert.
    specialize (IH _ w1 Hps His Hw1). unfold mbind, M_bind. rewrite E1.
    destruct (run inputs _ w1) as [[p'' w'']|].
    { destruct IH as (? & ? & es' & Et' & Hes'). split; [done|]. split; [done|].
      exists (es ++ es'). rewrite Et', Et, app_assoc. split; [done|]. by apply Forall_app. }
    destruct IH as (pre & n' & i' & post & ports' & w' & -> & Hr & Hh').
    exists ((n, i) :: pre), n', i', post, ports', w'. split; [done|]. split; [|done]. simpl.
    rewrite Ep. unfold mbind, M_bind. by rewrite E1.
  - specialize (IH _ w Hp His Hw).
    destruct (run inputs ports w) as [[p'' w'']|]; [done|].
    destruct IH as (pre & n' & i' & post & ports' & w' & -> & Hr & Hh').
    exists ((n, i) :: pre), n', i', post, ports', w'. split; [done|]. split; [|done]. simpl.
    by rewrite Ep.
Qed.
End system.

(** ** Creating the ports of a boundary clock *)

Section create.
  Context {FGC : Type} `{HC : !ForeignGrandMasterCandidates FGC}.
  Context {R : Type} `{HR : !ForeignClockRecords R}.

(** Ask the clock for a port per store, as the clock's user does. *)
Fixpoint create_ports (stores : list R)
    : M (BoundaryClock FGC MultiPortNotification) (list (PortState R)) :=
  match stores with
  | [] => mret []
  | r :: stores =>
      p ← BoundaryClock_port r;
      ps ← create_ports stores;
      mret (match p with Some p => p :: ps | None => ps end)
  end.

Definition default_profile : PortProfile :=
  mkPortProfile (mkDuration 5000000000) (mkLogInterval 0) (mkLogInterval 0) (mkLogInterval 0)
    SC_Stepping.

(** The state a clock hands out for port [k]. *)
Definition initial_port (ds : ClockDS) (dn : DomainNumber) (profile : PortProfile) (k : Z) (r : R)
    : PortState R :=
  let identity := mkPortIdentity (cds_identity ds) (mkPortNumber k) in
  let foreign := mkBestForeignRecord identity r in
  Initializing (mkInitializingPort (mkDomainPort identity dn)
    (mkBmcaParts (mkBestMasterClockAlgorithm ds (mkPortNumber k)) foreign
       (mkStateDecisionEventTrigger (BestForeignRecord_snapshot foreign) (mkPortNumber k)))
    profile).

Lemma BoundaryClock_port_eq ds dn n k (fc : FGC) ts tr (r : R) :
  1 <= k <= n → n < 2 ^ 16 - 1 →
  let t := mkTimeout (length tr) (SM_StateDecisionEvent (mkStateDecisionSnapshot ds Empty)) in
  let identity := mkPortIdentity (cds_identity ds) (mkPortNumber k) in
  BoundaryClock_port r (mkWorld tr
    (mkBoundaryClock ds dn (mkPortEnumeration n k) fc (mkMultiPortNotification ts)))
  = Done (Some (initial_port ds dn default_profile k r),
      mkWorld ((tr ++ [E_NewTimeout t]) ++ [E_Log identity (PE_Static "Become InitializingPort")])
        (mkBoundaryClock ds dn (mkPortEnumeration n (k + 1)) fc
           (mkMultiPortNotification (ts ++ [t])))).
Proof.
  intros Hk Hn. cbv zeta. unfold BoundaryClock_port, PortEnumeration_next.
  unfold mbind at 1, M_bind at 1, get_shared at 1. cbn [w_shared bc_port_enumeration pe_next pe_count].
  rewrite (proj2 (Z.leb_le k n)) by lia. rewrite u_chk_Done by lia. reflexivity.
Qed.

Lemma BoundaryClock_port_exhausted ds dn n k (fc : FGC) pn tr (r : R) : n < k →
  BoundaryClock_port (PN := MultiPortNotification) r
    (mkWorld tr (mkBoundaryClock ds dn (mkPortEnumeration n k) fc pn))
  = Done (None, mkWorld tr (mkBoundaryClock ds dn (mkPortEnumeration n k) fc pn)).
Proof.
  intros Hk. unfold BoundaryClock_port, PortEnumeration_next.
  unfold mbind at 1, M_bind at 1, get_shared at 1. cbn [w_shared bc_port_enumeration pe_next pe_count].
  rewrite (proj2 (Z.leb_gt k n)) by lia. reflexivity.
Qed.

(** The ports numbered from [k], one per store. *)
Fixpoint initial_ports (ds : ClockDS) (dn : DomainNumber) (k : Z) (stores : list R)
    : list (PortState R) :=
  match stores with
  | [] => []
  | r :: stores => initial_port ds dn default_profile k r :: initial_ports ds dn (k + 1) stores
  end.

(** Creating ports logs and registers timeouts, nothing else. *)
Definition is_setup (e : Effect) : Prop :=
  match e with E_Log _ _ | E_NewTimeout _ => True | _ => False end.

Lemma create_ports_eq stores : ∀ ds dn n k (fc : FGC) ts tr,
  1 <= k → k + Z.of_nat (length stores) <= n + 1 → n < 2 ^ 16 - 1 →
  ∃ tr' ts', create_ports stores (mkWorld tr
      (mkBoundaryClock ds dn (mkPortEnumeration n k) fc (mkMultiPortNotification ts)))
    = Done (initial_ports ds dn k stores,
        mkWorld tr' (mkBoundaryClock ds dn (mkPortEnumeration n (k + Z.of_nat (length stores))) fc
           (mkMultiPortNotification (ts ++ ts')))) ∧
    length ts' = length stores ∧ NoDup (th_id <$> ts') ∧
    (∀ t, t ∈ ts' → (length tr <= th_id t < length tr')%nat) ∧ (length tr <= length tr')%nat ∧
    decision_handles ts' ∧ (∃ es, tr' = tr ++ es ∧ Forall is_setup es).
Proof.
  induction stores as [|r stores IH]; intros ds dn n k fc ts tr Hk Hl Hn.
  { exists tr, []. cbn [length]. rewrite Z.add_0_r, app_nil_r. split; [done|]. split; [done|].
    split; [constructor|]. split; [by intros t ?%not_elem_of_nil|]. split; [done|].
    split; [constructor|]. exists []. by rewrite app_nil_r. }
  cbn [length] in Hl. simpl create_ports. unfold mbind at 1, M_bind at 1.
  rewrite BoundaryClock_port_eq by lia.
  match goal with |- context [mkWorld ?tr1 (mkBoundaryClock _ _ _ _ (mkMultiPortNotification (_ ++ [?t0])))] =>
    destruct (IH ds dn n (k + 1) fc (ts ++ [t0]) tr1) as (tr' & ts' & E & Hlen & Hnd & Hin & Hle & Hdh & es & Ees & Hes);
      [lia..|]; set (t := t0) in * end.
  rewrite !length_app in Hin, Hle. simpl in Hin, Hle.
  exists tr', (t :: ts'). unfold mbind, M_bind. rewrite E. rewrite <- app_assoc.
  replace (k + 1 + Z.of_nat (length stores)) with (k + Z.of_nat (S (length stores))) by lia.
  split; [done|]. split; [simpl; lia|]. split; [|split; [|split; [lia|split]]].
  - simpl. apply NoDup_cons_2; [|done]. intros (t' & Et & Ht)%list_elem_of_fmap.
    specialize (Hin _ Ht). rewrite <- Et in Hin. unfold t in Hin. simpl in Hin. lia.
  - intros t' [->|Ht]%elem_of_cons; [simpl; lia|]. specialize (Hin _ Ht). lia.
  - constructor; [by eexists | done].
  - eexists. split; [rewrite Ees, <- !app_assoc; reflexivity|]. by repeat constructor.
Qed.
End create.

Lemma default_profile_wf : profile_wf default_profile.
Proof. split_and!; [unfold LogInterval_wf; simpl; lia..|done]. Qed.

(** What the ports of a clock with dataset [ds] share. *)
Definition clock_contract (ds : ClockDS) (dn : DomainNumber) (profile : PortProfile)
    : PortContract :=
  mkPortContract (cds_identity ds) dn (pf_announce_receipt_timeout_interval profile)
    match pf_servo_config profile with SC_Stepping => false | SC_Pi _ => true end.

Lemma initial_port_ok (port_ok : PortNumber → Prop) `{ForeignClockRecords R} (inv : R → Prop)
    ds dn profile k r :
  port_ok (mkPortNumber k) → ClockDS_wf ds → profile_wf profile → store_ok inv r → 0 <= k < 2 ^ 16 →
  state_ok (clock_contract ds dn profile) port_ok inv (initial_port ds dn profile k r).
Proof.
  intros Hp Hd Hpf Hr Hk. split; [split; [|done]; split; [apply Hd | exact Hk]|].
  split; [by split|]. split; [done|]. split; [done|]. split; [apply Hpf|]. simpl.
  by destruct (pf_servo_config profile).
Qed.

Lemma initial_ports_ok (port_ok : PortNumber → Prop) `{ForeignClockRecords R} (inv : R → Prop)
    ds dn stores : ∀ k,
  (∀ p, port_ok p) → ClockDS_wf ds → Forall (store_ok inv) stores → 0 <= k →
  k + Z.of_nat (length stores) <= 2 ^ 16 →
  Forall (state_ok (clock_contract ds dn default_profile) port_ok inv)
    (initial_ports ds dn k stores).
Proof.
  induction stores as [|r stores IH]; intros k Hp Hd Hi Hk Hl; simpl; [constructor|].
  apply Forall_cons in Hi as [Hr Hi]. cbn [length] in Hl. constructor; [|apply IH; try done; lia].
  apply initial_port_ok; first [done | exact default_profile_wf | lia].
Qed.

Lemma maps_ok net (port_ok : PortNumber → Prop) `{ForeignClockRecords R} (inv : R → Prop) dn ports :
  Forall (state_ok net port_ok inv) ports →
  Forall (map_ok net port_ok inv) (SingleDomainPortMap_new dn <$> ports).
Proof. intros Hp. apply Forall_fmap. eapply Forall_impl; [done|]. intros s Hs. by exists s. Qed.

(** The reports a sequence of triggers makes. *)
Fixpoint trigger_all {S} `{StateDecisionEvent S} (reports : list (PortNumber * BestForeignSnapshot))
    : M S unit :=
  match reports with
  | [] => mret ()
  | (port, s) :: reports => _ ← sde_trigger port s; trigger_all reports
  end.

Lemma trigger_all_eq reports : ∀ (c : BoundaryClock MultiPortForeignCandidates MultiPortNotification) tr,
  ∃ tr', trigger_all reports (mkWorld tr c)
  = Done (tt, mkWorld tr' (BoundaryClock_with_candidates
      (fold_left (λ m p, MultiPortForeignCandidates_remember p.1 p.2 m) reports
         (bc_foreign_candidates c)) c)).
Proof.
  induction reports as [|[port s] reports IH]; intros c tr; simpl.
  { exists tr. by destruct c. }
  unfold mbind, M_bind. cbn [sde_trigger BoundaryClock_StateDecisionEvent].
  erewrite (BoundaryClock_trigger_eq mn_timeouts) by reflexivity.
  edestruct (IH (BoundaryClock_with_candidates (MultiPortForeignCandidates_remember port s
    (bc_foreign_candidates c)) c)) as [tr' E]. exists tr'. exact E.
Qed.

Lemma trigger_all_snoc reports port s (c : BoundaryClock MultiPortForeignCandidates MultiPortNotification) tr :
  let candidates := fold_left (λ m p, MultiPortForeignCandidates_remember p.1 p.2 m)
                      (reports ++ [(port, s)]) (bc_foreign_candidates c) in
  ∃ tr', trigger_all (reports ++ [(port, s)]) (mkWorld tr c)
  = Done (tt, mkWorld
      (tr' ++ notified (mkStateDecisionSnapshot (bc_default_ds c)
                         (MultiPortForeignCandidates_best candidates))
                (mn_timeouts (bc_port_notification c)))
      (BoundaryClock_with_candidates candidates c)).
Proof.
  revert c tr. induction reports as [|[port' s'] reports IH]; intros c tr; simpl.
  - exists tr. unfold mbind, M_bind. erewrite (BoundaryClock_trigger_eq mn_timeouts) by reflexivity. done.
  - unfold mbind, M_bind. cbn [sde_trigger BoundaryClock_StateDecisionEvent].
    erewrite (BoundaryClock_trigger_eq mn_timeouts) by reflexivity.
    edestruct (IH (BoundaryClock_with_candidates (MultiPortForeignCandidates_remember port' s'
      (bc_foreign_candidates c)) c)) as [tr' E]. exists tr'. exact E.
Qed.

Lemma OrdinaryClock_port_eq ds dn profile `{ForeignClockRecords R} (r : R) tr :
  let t := mkTimeout (length tr) (SM_StateDecisionEvent (mkStateDecisionSnapshot ds Empty)) in
  let identity := mkPortIdentity (cds_identity ds) (mkPortNumber 1) in
  OrdinaryClock_port r (mkWorld tr (mkOrdinaryClock ds dn (mkPortEnumeration 1 1) Empty
                                     SinglePortNotification_new profile))
  = Done (Some (initial_port ds dn profile 1 r),
      mkWorld ((tr ++ [E_NewTimeout t]) ++ [E_Log identity (PE_Static "Become InitializingPort")])
        (mkOrdinaryClock ds dn (mkPortEnumeration 1 2) Empty
           (mkSinglePortNotification (Some t)) profile)).
Proof. reflexivity. Qed.

(** ** Properties *)

(** Bring the world a run of the goal starts from into the form [H] has. *)
Ltac align_world H :=
  match goal with |- context [run _ _ ?w1] =>
    match type of H with context [run _ _ ?w2] => change w1 with w2 end end.

Section properties.
  Context {F : Type} `{HF : !MessageFlagsOps F} `{HE : !Env}.
  Context {R : Type} `{HR : !ForeignClockRecords R} (inv : R → Prop)
    `{!ForeignClockRecordsLaws R inv}.

(** A clock's run of deliveries. *)
Lemma ordinary_run ds dn profile (store : R) inputs tr :
  ClockDS_wf ds → profile_wf profile → store_ok inv store →
  Forall PortInput_wf inputs →
  let net := clock_contract ds dn profile in
  let t := mkTimeout 0 (SM_StateDecisionEvent (mkStateDecisionSnapshot ds Empty)) in
  let c := mkOrdinaryClock ds dn (mkPortEnumeration 1 2) Empty
             (mkSinglePortNotification (Some t)) profile in
  match run (F := F) (pair 0%nat <$> inputs)
          [SingleDomainPortMap_new dn (initial_port ds dn profile 1 store)] (mkWorld tr c) with
  | Done (ports, w) =>
      Forall (map_ok net (λ p, p = PortNumber_new 1) inv) ports ∧ ordinary_ok (w_shared w) ∧
      ∃ es, w_trace w = tr ++ es ∧ Forall (effect_ok (F := F) net) es
  | Panic =>
      ∃ pre post ports w', inputs = pre ++ In_System SM_AnnounceReceiptTimeout :: post ∧
        run (F := F) (pair 0%nat <$> pre)
          [SingleDomainPortMap_new dn (initial_port ds dn profile 1 store)] (mkWorld tr c)
        = Done (ports, w') ∧
        hits_master 0 (In_System SM_AnnounceReceiptTimeout) ports
  end.
Proof.
  intros Hd Hpf Hs Hi net t c.
  assert (Forall (map_ok net (λ p, p = PortNumber_new 1) inv)
    [SingleDomainPortMap_new dn (initial_port ds dn profile 1 store)]) as Hp.
  { apply Forall_singleton. eexists. split; [done|]. by apply initial_port_ok. }
  assert (ordinary_ok c) as Hc by (split_and!; [done.. | by apply Forall_singleton; eexists]).
  pose proof (run_safe (F := F) ordinary_ok net (λ p, p = PortNumber_new 1) inv
    (pair 0%nat <$> inputs) _ (mkWorld tr c) Hp ltac:(by apply Forall_fmap) Hc) as Hrun.
  destruct (run (pair 0%nat <$> inputs) _ _) as [[ports w']|]; [done|].
  destruct Hrun as (pre & n & i & post & ports & w' & E & Er & Hh). destruct (Hh) as [-> _].
  apply fmap_app_inv in E as (pre' & post' & -> & E & ->).
  symmetry in E; apply fmap_cons_inv in E as (j & post'' & [= -> <-] & -> & ->).
  by exists pre', post'', ports, w'.
Qed.

Lemma boundary_run ds dn n (stores : list R) ts inputs tr :
  ClockDS_wf ds → Z.of_nat (length stores) < 2 ^ 16 - 1 → Forall (store_ok inv) stores →
  decision_handles ts → Forall (λ ni, PortInput_wf ni.2) inputs →
  let net := clock_contract ds dn default_profile in
  let ports := SingleDomainPortMap_new dn <$> initial_ports ds dn 1 stores in
  let w := mkWorld tr (mkBoundaryClock ds dn n MultiPortForeignCandidates_new
                         (mkMultiPortNotification ts)) in
  match run (F := F) inputs ports w with
  | Done (ports', w') =>
      Forall (map_ok net (λ _, True) inv) ports' ∧
      boundary_ok MultiPort_ok mn_timeouts (w_shared w') ∧
      ∃ es, w_trace w' = tr ++ es ∧ Forall (effect_ok (F := F) net) es
  | Panic =>
      ∃ pre i post ports' w', inputs = pre ++ (i, In_System SM_AnnounceReceiptTimeout) :: post ∧
        run (F := F) pre ports w = Done (ports', w') ∧
        hits_master i (In_System SM_AnnounceReceiptTimeout) ports'
  end.
Proof.
  intros Hd Hl Hs Ht Hi net ports w.
  pose proof (run_safe (F := F) (boundary_ok MultiPort_ok mn_timeouts) net (λ _, True) inv
    inputs ports w) as Hrun.
  destruct (run inputs ports w) as [[ports' w']|].
  - apply Hrun; [apply maps_ok, initial_ports_ok; done || lia | done |].
    by split; [|split; [exact MultiPort_new_ok|]].
  - destruct Hrun as (pre & i & j & post & ports' & w' & -> & Er & Hh);
      [apply maps_ok, initial_ports_ok; done || lia | done
      | by split; [|split; [exact MultiPort_new_ok|]] |].
    destruct (Hh) as [-> _]. by exists pre, i, post, ports', w'.
Qed.

(** C1: An ordinary clock hands out exactly one port. From then on any sequence of datagrams
    (arbitrary bytes), timestamps and system messages is processed without a panic and keeps the
    state invariant, unless an announce receipt timeout is delivered while the port is master:
    that is the only input that can crash it. *)
Theorem ordinary_clock_only_stale_timeouts_panic ds dn profile (store : R) inputs :
  ClockDS_wf ds → profile_wf profile → store_ok inv store → Forall PortInput_wf inputs →
  ∃ c p w, OrdinaryClock_new ds dn profile = Done c ∧
    OrdinaryClock_port store (mkWorld [] c) = Done (Some p, w) ∧
    (∀ store', OrdinaryClock_port store' w = Done (None, w)) ∧
    match run (F := F) (pair 0%nat <$> inputs) [SingleDomainPortMap_new dn p] w with
    | Done (ports, _) => Forall (map_ok (clock_contract ds dn profile) (λ p, p = PortNumber_new 1) inv) ports
    | Panic =>
        ∃ pre post ports w', inputs = pre ++ In_System SM_AnnounceReceiptTimeout :: post ∧
          run (F := F) (pair 0%nat <$> pre) [SingleDomainPortMap_new dn p] w = Done (ports, w') ∧
          hits_master 0 (In_System SM_AnnounceReceiptTimeout) ports
    end.
Proof.
  intros Hd Hpf Hs Hi. do 3 eexists. split; [reflexivity|]. split; [apply OrdinaryClock_port_eq|].
  split; [reflexivity|].
  pose proof (ordinary_run ds dn profile store inputs
    [E_NewTimeout (mkTimeout 0 (SM_StateDecisionEvent (mkStateDecisionSnapshot ds Empty)));
     E_Log (mkPortIdentity (cds_identity ds) (mkPortNumber 1)) (PE_Static "Become InitializingPort")]
    Hd Hpf Hs Hi) as H. cbv zeta in H.
  align_world H.
  destruct (run _ _ _) as [[ports w']|]; [apply H | exact H].
Qed.

(** C2: For a boundary clock with n ports (1 <= n < 65535) and the multi-port stores, any
    interleaving of deliveries to its ports, which share the candidates and the notification
    handles, is processed without a panic, with the same single exception per port. *)
Theorem boundary_clock_only_stale_timeouts_panic ds dn n (stores : list R) inputs :
  ClockDS_wf ds → 1 <= n < 2 ^ 16 - 1 → Z.of_nat (length stores) = n → Forall (store_ok inv) stores →
  Forall (λ ni, PortInput_wf ni.2) inputs →
  ∃ c ports w,
    BoundaryClock_new ds dn n MultiPortForeignCandidates_new MultiPortNotification_new = Done c ∧
    create_ports stores (mkWorld [] c) = Done (ports, w) ∧
    match run (F := F) inputs (SingleDomainPortMap_new dn <$> ports) w with
    | Done (ports', _) => Forall (map_ok (clock_contract ds dn default_profile) (λ _, True) inv) ports'
    | Panic =>
        ∃ pre i post ports' w', inputs = pre ++ (i, In_System SM_AnnounceReceiptTimeout) :: post ∧
          run (F := F) pre (SingleDomainPortMap_new dn <$> ports) w = Done (ports', w') ∧
          hits_master i (In_System SM_AnnounceReceiptTimeout) ports'
    end.
Proof.
  intros Hd Hn Hl Hs Hi.
  destruct (create_ports_eq stores ds dn n 1 MultiPortForeignCandidates_new [] [])
    as (tr & ts & E & _ & _ & _ & _ & Hdh & _); [lia..|].
  do 3 eexists. split; [|split; [exact E|]].
  { unfold BoundaryClock_new, PortEnumeration_sequential.
    by rewrite rassert_true by (apply Z.leb_le; lia). }
  pose proof (boundary_run ds dn (mkPortEnumeration n (1 + Z.of_nat (length stores))) stores
    ([] ++ ts) inputs tr Hd ltac:(lia) Hs Hdh Hi) as H.
  cbv zeta in H. align_world H. destruct (run _ _ _) as [[ports' w']|]; [apply H | exact H].
Qed.
End properties.

(** C32: A boundary clock of n ports (1 <= n < 65535) creates ports 1..n and then none, registers
    one distinct handle per port, and after any sequence of reports the last trigger restarts
    every handle immediately with one and the same snapshot: the local dataset and the best of the
    ports' latest reports. *)
Theorem boundary_clock_notifies_every_port `{ForeignClockRecords R} ds dn n (stores : list R) :
  1 <= n < 2 ^ 16 - 1 → Z.of_nat (length stores) = n →
  ∃ c w ts,
    BoundaryClock_new ds dn n MultiPortForeignCandidates_new MultiPortNotification_new = Done c ∧
    create_ports stores (mkWorld [] c) = Done (initial_ports ds dn 1 stores, w) ∧
    (∀ r, BoundaryClock_port r w = Done (None, w)) ∧
    length ts = length stores ∧ NoDup (th_id <$> ts) ∧
    ∀ reports port s, ∃ tr c',
      trigger_all (reports ++ [(port, s)]) w
      = Done (tt, mkWorld (tr ++ notified (mkStateDecisionSnapshot ds
            (MultiPortForeignCandidates_best (report_all (reports ++ [(port, s)])))) ts) c').
Proof.
  intros Hn Hl.
  destruct (create_ports_eq stores ds dn n 1 MultiPortForeignCandidates_new [] [])
    as (tr & ts & E & Hlen & Hnd & _); [lia..|].
  do 3 eexists. split; [|split; [exact E|]].
  { unfold BoundaryClock_new, PortEnumeration_sequential.
    by rewrite rassert_true by (apply Z.leb_le; lia). }
  split; [intros r; apply BoundaryClock_port_exhausted; lia|]. split; [exact Hlen|].
  split; [exact Hnd|]. intros reports port s.
  match goal with |- context [trigger_all _ (mkWorld ?tr ?c)] =>
    destruct (trigger_all_snoc reports port s c tr) as [tr' E'] end.
  exists tr'. eexists. exact E'.
Qed.

(** A port that becomes master on its first announce receipt timeout crashes on a second one:
    an ordinary clock whose port is initialized and times out is running as master, and one more
    announce receipt timeout panics, as it does in any master and any world. *)
Theorem stale_announce_timeout_crashes_master `{MessageFlagsOps F} `{Env} ds dn profile :
  ∃ c p w, OrdinaryClock_new ds dn profile = Done c ∧
    OrdinaryClock_port ForeignClockRecordsVec_new (mkWorld [] c) = Done (Some p, w) ∧
    let inputs := [(0%nat, In_System SM_Initialized); (0%nat, In_System SM_AnnounceReceiptTimeout)] in
    let stale := (0%nat, In_System SM_AnnounceReceiptTimeout) in
    (∃ q w', run (F := F) inputs [SingleDomainPortMap_new dn p] w
             = Done ([mkSingleDomainPortMap dn (PortFsm_new (Master q))], w')) ∧
    run (F := F) (inputs ++ [stale]) [SingleDomainPortMap_new dn p] w = Panic ∧
    (∀ q w, deliver (F := F) stale.2 (mkSingleDomainPortMap dn (PortFsm_new (Master q))) w
            = Panic (A := SingleDomainPortMap ForeignClockRecordsVec * World OrdinaryClock)).
Proof.
  do 3 eexists. split; [reflexivity|]. split; [apply OrdinaryClock_port_eq|].
  split; [do 2 eexists; reflexivity|]. by split.
Qed.
