(* ===== verification/Election.v ===== *)
(** * The election of a master (crates/rptp/src/bmca.rs, portstate.rs)

    What a port does with a state decision event as a whole: whatever state it is in, it takes the
    role that the decision table of bmca.rs gives it, and nothing the clock shares changes. From
    that, the ports of one clock that handled the same event hold at most one slave, and the
    clocks of one network that hear each other agree on one master. *)

From S2P Require Import Prelude Errors Time Clock PortId DataSet Foreign Stores Wire Message.
From S2P Require Import Effects Servo E2e Bmca Profile Handlers PortState PortSafety Clocks System.

Open Scope Z_scope.

Lemma NoDup_fmap_inj_elem {A B} (f : A → B) (l : list A) a b :
  NoDup (f <$> l) → a ∈ l → b ∈ l → f a = f b → a = b.
Proof.
  intros Hn (i & Ei)%list_elem_of_lookup (j & Ej)%list_elem_of_lookup E.
  assert (i = j) as ->; [|congruence]. apply (NoDup_lookup (f <$> l) i j (f a)); [done|..];
    rewrite list_lookup_fmap, ?Ei, ?Ej; cbn; congruence.
Qed.

(** ** Roles *)

(** What a port is to its network: the master that announces [ds], a slave of [parent] (calibrated
    or not yet), or passive. A qualified master and one that still waits for its qualification
    timeout have one role. *)
Inductive Role :=
| RoleMaster (ds : ClockDS)
| RoleSlave (parent : ParentPortIdentity)
| RolePassive.

Definition role_of {R} (s : PortState R) : option Role :=
  match s with
  | Master p => Some (RoleMaster (gb_grandmaster_ds (mp_bmca p)))
  | PreMaster p => Some (RoleMaster (gb_grandmaster_ds (pp_bmca p)))
  | Slave p => Some (RoleSlave (pb_parent_port_identity (sp_bmca p)))
  | Uncalibrated p => Some (RoleSlave (pb_parent_port_identity (up_bmca p)))
  | Passive _ => Some RolePassive
  | Initializing _ | Listening _ | Faulty _ => None
  end.

Definition decision_role (d : BmcaDecision) : Role :=
  match d with
  | BD_Master d => RoleMaster (md_grandmaster_ds d)
  | BD_Slave parent => RoleSlave parent
  | BD_Passive => RolePassive
  end.

(** What every state owns. *)
Definition parts_of {R} (s : PortState R) : BmcaParts R :=
  match s with
  | Initializing p => ip_parts p
  | Listening p => lb_parts (lp_bmca p)
  | Slave p => pb_parts (sp_bmca p)
  | Master p => gb_parts (mp_bmca p)
  | PreMaster p => gb_parts (pp_bmca p)
  | Uncalibrated p => pb_parts (up_bmca p)
  | Passive p => vb_parts (vp_bmca p)
  | Faulty p => fp_parts p
  end.

Section election.
  Context {F : Type} `{HF : !MessageFlagsOps F} `{HE : !Env}.
  Context {S : Type} `{HS : !StateDecisionEvent S} {R : Type} `{HR : !ForeignClockRecords R}.

(** The port's own best candidate, E_rbest. *)
Definition own_best (s : PortState R) : BestForeignSnapshot :=
  BestForeignRecord_snapshot (bp_best_foreign (parts_of s)).

(** The states that decide: not those of a port that is not in operation, nor a listening port
    that has no candidate of its own. *)
Definition deciding (s : PortState R) : bool :=
  match s with
  | Initializing _ | Faulty _ => false
  | Listening _ => negb (bool_decide (own_best s = Empty))
  | _ => true
  end.

(** The table's entry for the port. *)
Definition table_decision (e : StateDecisionSnapshot) (s : PortState R) : BmcaDecision :=
  (BestMasterClockAlgorithm_decision (sds_d_0 e) (sds_e_best e) (own_best s)
     (bp_bmca (parts_of s))).1.

(** What the port keeps through a state decision event: its records, its number, its trigger. *)
Definition same_port (s s' : PortState R) : Prop :=
  bp_best_foreign (parts_of s') = bp_best_foreign (parts_of s) ∧
  bm_port_number (bp_bmca (parts_of s')) = bm_port_number (bp_bmca (parts_of s)) ∧
  bp_trigger (parts_of s') = bp_trigger (parts_of s).

(** The computation ends in a state of role [r] that keeps [parts], and in the shared state it
    started from. *)
Definition becomes (r : Role) (parts : BmcaParts R) (m : M S (PortState R)) : Prop :=
  ∀ w, wp m (λ s w', role_of s = Some r ∧ parts_of s = parts ∧ w_shared w' = w_shared w) w.

Lemma becomes_log r parts ev port m : becomes r parts m →
  becomes r parts (_ ← DomainPort_log ev port; m).
Proof. intros H w. apply wp_bind, wp_emit. eapply wp_mono; [apply H|]. done. Qed.

Lemma becomes_passive port bmca profile :
  becomes RolePassive (vb_parts bmca) (PortProfile_passive port bmca profile).
Proof. intros w. done. Qed.

Lemma becomes_uncalibrated port bmca profile :
  becomes (RoleSlave (pb_parent_port_identity bmca)) (pb_parts bmca)
    (PortProfile_uncalibrated port bmca profile).
Proof. intros w. done. Qed.

Lemma becomes_pre_master port bmca policy profile :
  StepsRemoved_wf (qp_steps_removed policy) → LogInterval_wf (pf_log_announce_interval profile) →
  becomes (RoleMaster (gb_grandmaster_ds bmca)) (gb_parts bmca)
    (PortProfile_pre_master port bmca policy profile).
Proof.
  intros Hs Hl w. unfold PortProfile_pre_master, mbind, M_bind, lift, wp. simpl.
  by rewrite qualification_timeout_exact.
Qed.

Definition profile_of (s : PortState R) : PortProfile :=
  match s with
  | Initializing p => ip_profile p
  | Listening p => lp_profile p
  | Slave p => sp_profile p
  | Master p => mp_profile p
  | PreMaster p => pp_profile p
  | Uncalibrated p => up_profile p
  | Passive p => vp_profile p
  | Faulty p => fp_profile p
  end.

Lemma state_ok_parts (net : PortContract) (port_ok : PortNumber → Prop) (inv : R → Prop) s :
  state_ok net port_ok inv s →
  parts_ok port_ok inv (parts_of s) ∧ LogInterval_wf (pf_log_announce_interval (profile_of s)).
Proof.
  intros Hs. assert (∃ port, base_ok net port_ok inv port (parts_of s) (profile_of s))
    as (port & _ & Hp & Hl & _) by (destruct s; simpl in *; destruct_and?; by eexists).
  split; [exact Hp | apply Hl].
Qed.

(** The transition a recommendation selects. *)
Lemma recommendation_taken d s sd :
  LogInterval_wf (pf_log_announce_interval (profile_of s)) → decision_wf d →
  BmcaDecision_to_state_decision d = Some sd → transition (kind s) sd ≠ None →
  becomes (decision_role d) (parts_of s) (PortState_apply sd s).
Proof.
  intros Hl Hd E Hk. destruct d as [md|parent|]; injection E as <-; destruct s; try (by destruct Hk);
    cbn [PortState_apply]; apply becomes_log; unfold BmcaMasterDecision_apply;
    match goal with
    | |- becomes _ _ (PortProfile_pre_master ?port ?b ?pol ?prof) =>
        exact (becomes_pre_master port b pol prof (ClockDS_wf_steps (md_grandmaster_ds md) Hd) Hl)
    | |- becomes _ _ (PortProfile_uncalibrated _ ?b _) => exact (becomes_uncalibrated _ b _)
    | |- becomes _ _ (PortProfile_passive _ ?b _) => exact (becomes_passive _ b _)
    end.
Qed.

(** What the dispatcher makes of the event: a port in operation asks its role, which passes the
    table's decision on unless it is the role the port has. *)
Lemma decision_dispatched e s : ∃ d s1,
  (∀ w, PortState_dispatch_system (F := F) (SM_StateDecisionEvent e) s w
        = Done ((d, s1), w)) ∧
  same_port s s1 ∧ profile_of s1 = profile_of s ∧ kind s1 = kind s ∧
  match d with
  | Some sd => deciding s = true ∧ BmcaDecision_to_state_decision (table_decision e s) = Some sd ∧
      transition (kind s) sd ≠ None
  | None => role_of s1 = if deciding s then Some (decision_role (table_decision e s)) else None
  end.
Proof.
  destruct s as [p|p|p|p|p|p|p|p]; do 2 eexists; (split; [intros w; reflexivity|]).
  all: do 3 (split; [done|]).
  all: try done.
  all: match goal with |- context [table_decision ?e ?s] =>
    set (raw := table_decision e s);
    change (if ClockDS_is_authoritative (sds_d_0 e) then _ else _) with raw end.
  all: cbn [deciding own_best parts_of role_of].
  all: destruct raw as [d|parent|]; unfold own_best;
    cbn [parts_of BmcaDecision_to_state_decision decision_role]; try (by split_and?).
  all: try (destruct (BestForeignRecord_snapshot _); [|done]; by rewrite bool_decide_eq_false_2).
  all: unfold BmcaMasterDecision_matches_grandmaster; case_bool_decide;
    [cbn; congruence | by split_and?].
Qed.

(** ** One event, one port *)

(** The port took the table's role, or has none if it does not decide. *)
Definition settled (e : StateDecisionSnapshot) (s s' : PortState R) : Prop :=
  same_port s s' ∧
  role_of s' = if deciding s then Some (decision_role (table_decision e s)) else None.

(** Handling the event, stated with the state machine's own wrapper. *)
Lemma event_takes_role_wp (net : PortContract) (port_ok : PortNumber → Prop) (inv : R → Prop) e s
    (w : World S) :
  state_ok net port_ok inv s → SystemMessage_wf (SM_StateDecisionEvent e) →
  ∃ s' w', PortFsm_process_system_message (F := F) (SM_StateDecisionEvent e) (PortFsm_new s) w
           = Done (PortFsm_new s', w') ∧
    w_shared w' = w_shared w ∧ settled e s s'.
Proof.
  intros Hs [Hd He]. destruct (state_ok_parts _ _ _ _ Hs) as [Hp Hl].
  destruct (decision_dispatched e s) as (d & s1 & E & Hsame & Hprof & Hk & Hr).
  unfold PortFsm_process_system_message, PortFsm_drive, mbind, M_bind; cbn [fsm_state PortFsm_new].
  rewrite E. destruct d as [sd|]; [|by exists s1, w].
  unfold settled. destruct Hr as (-> & Esd & Ht). rewrite <- Hprof in Hl. rewrite <- Hk in Ht.
  assert (decision_wf (table_decision e s)) as Hdw
    by (exact (proj2 (decide_parts_ok port_ok inv (sds_d_0 e) (sds_e_best e) (parts_of s) Hp Hd He))).
  destruct (proj1 (wp_Done _ _ _) (recommendation_taken _ _ sd Hl Hdw Esd Ht w))
    as (s' & w' & E' & Hrole & Hparts & Hw).
  unfold PortFsm_apply_decision, mbind, M_bind. cbn [fsm_state]. rewrite E'.
  exists s', w'. unfold settled, same_port in *. rewrite Hparts. destruct_and?. by split_and!.
Qed.

(** ** One event, every port of a clock *)

Lemma run_event (net : PortContract) (port_ok : PortNumber → Prop) (inv : R → Prop) e dn order :
  SystemMessage_wf (SM_StateDecisionEvent e) → NoDup order →
  ∀ (ports : list (PortState R)) (w : World S),
  Forall (λ i, ∃ s, ports !! i = Some s ∧ state_ok net port_ok inv s) order →
  ∃ ports' w',
    run (F := F) ((λ i, (i, In_System (SM_StateDecisionEvent e))) <$> order)
      (SingleDomainPortMap_new dn <$> ports) w
    = Done (SingleDomainPortMap_new dn <$> ports', w') ∧ w_shared w' = w_shared w ∧
    ∀ i, option_Forall2 (λ s s', if decide (i ∈ order) then settled e s s' else s' = s)
           (ports !! i) (ports' !! i).
Proof.
  intros He. induction 1 as [|i order Hi Hnd IH]; intros ports w Ho.
  { exists ports, w. split; [done|]. split; [done|]. intros i. by destruct (ports !! i); constructor. }
  apply Forall_cons in Ho as [(s & Es & Hs) Ho].
  destruct (event_takes_role_wp net port_ok inv e s w Hs He) as (s' & w1 & E & Hw1 & Hs').
  destruct (IH (<[i := s']> ports) w1) as (ports0 & w0 & E0 & Hw0 & H0).
  { rewrite Forall_forall in Ho |- *. intros j Hj. destruct (Ho j Hj) as (t & Et & Ht).
    exists t. split; [|done].
    rewrite list_lookup_insert_ne; [done|]. by intros <-. }
  exists ports0, w0. split; [|split; [congruence|]].
  - cbn [fmap list_fmap run]. rewrite list_lookup_fmap, Es. cbn [fmap option_fmap option_map].
    unfold deliver, mbind, M_bind. cbn [sm_port_fsm SingleDomainPortMap_new]. rewrite E.
    cbn [mret M_ret sm_domain_number SingleDomainPortMap_new].
    change (mkSingleDomainPortMap dn (PortFsm_new s')) with (SingleDomainPortMap_new dn s').
    rewrite <- list_fmap_insert. exact E0.
  - intros j. specialize (H0 j). destruct (decide (j = i)) as [->|Hne].
    + rewrite list_lookup_insert_eq in H0 by (by eapply lookup_lt_Some). rewrite Es.
      inversion H0 as [? s0 Hs0 E1 E2|]; subst. constructor.
      rewrite decide_False in Hs0 by done. subst s0. by rewrite decide_True by left.
    + rewrite list_lookup_insert_ne in H0 by done.
      destruct H0 as [t t' Ht|]; constructor.
      destruct (decide (j ∈ order)) as [Hj|Hj].
      * by rewrite decide_True by (by right).
      * rewrite decide_False; [done|]. by intros [->|?]%elem_of_cons.
Qed.

Lemma settled_slave e s s' p : settled e s s' → role_of s' = Some (RoleSlave p) →
  ∃ ds r, sds_e_best e = Qualified ds (ppi_identity p) r ∧
    pi_port_number r = bm_port_number (bp_bmca (parts_of s)).
Proof.
  intros [_ Hr] Hp. rewrite Hp in Hr. destruct (deciding s); [|done].
  injection Hr as Hr. destruct (table_decision e s) eqn:Et; try done. injection Hr as ->.
  by eapply slave_decision_inv.
Qed.

(** ** The clocks of one network *)

(** A clock with its only port, as the others of its network know it. *)
Record LanClock := mkLanClock { lan_ds : ClockDS; lan_state : PortState R }.

Definition lan_port (c : LanClock) : PortIdentity :=
  mkPortIdentity (cds_identity (lan_ds c)) (PortNumber_new 1).

(** The clock's port is in operation and its qualified records are those of the other clocks of
    [lan], one each. *)
Definition hears (lan : list LanClock) (c : LanClock) : Prop :=
  let parts := parts_of (lan_state c) in
  kind (lan_state c) ≠ KInitializing ∧ kind (lan_state c) ≠ KFaulty ∧
  bf_receiver (bp_best_foreign parts) = lan_port c ∧
  bm_port_number (bp_bmca parts) = PortNumber_new 1 ∧
  ∀ q, q ∈ omap ForeignClockRecord_qualified
             (fcr_iter (bf_foreign_clock_records (bp_best_foreign parts))) ↔
    ∃ o, o ∈ lan ∧ o ≠ c ∧ q = mkQualifiedForeignClockRecord (lan_ds o) (lan_port o).

Lemma least_clock {C} (ds_of : C → ClockDS) (lan : list C) : lan ≠ [] →
  ∃ l, l ∈ lan ∧ ∀ c, c ∈ lan → ClockDS_tuple_cmp (ds_of l) (ds_of c) ≠ Gt.
Proof.
  intros Hne. destruct lan as [|c lan]; [done|].
  pose proof (on_comparator ds_of ClockDS_tuple_cmp _) as Hcmp.
  destruct (fold_keep_better (λ a b, ClockDS_tuple_cmp (ds_of a) (ds_of b))
    (λ a b, bool_decide (ClockDS_tuple_cmp (ds_of a) (ds_of b) = Lt)) (c :: lan) lan c)
    as [H1 H2]; [| by left | intros; by right |].
  { intros x y _ _. by rewrite bool_decide_eq_true. }
  eexists. split; [exact H1|]. exact H2.
Qed.

(** What a port that hears the network makes of its own best candidate: the leader if it is not
    the leader itself, and otherwise a clock that the leader beats. *)
Lemma own_best_leader lan l c :
  NoDup ((λ c, cds_identity (lan_ds c)) <$> lan) →
  Forall (λ c, StepsRemoved_wf (cds_steps_removed (lan_ds c))) lan →
  l ∈ lan → (∀ c, c ∈ lan → ClockDS_tuple_cmp (lan_ds l) (lan_ds c) ≠ Gt) →
  c ∈ lan → hears lan c → (1 < length lan)%nat →
  ∃ o, o ∈ lan ∧ o ≠ c ∧
    own_best (lan_state c) = Qualified (lan_ds o) (lan_port o) (lan_port c) ∧ (c ≠ l → o = l).
Proof.
  intros Hnd Hwf Hl Hmin Hc (_ & _ & Hr & _ & Hq) Hlen.
  assert (∀ a b, a ∈ lan → b ∈ lan → cds_identity (lan_ds a) = cds_identity (lan_ds b) → a = b)
    as Hinj by (intros; by eapply NoDup_fmap_inj_elem).
  rewrite Forall_forall in Hwf.
  set (quals := omap _ _) in Hq.
  assert (comparable (lan_port c) quals) as Hcomp.
  { split.
    - intros x (o & Ho & Hne & ->)%Hq. split; [by apply Hwf|]. intros [= E]. by apply Hne, Hinj.
    - intros x y (o & Ho & _ & ->)%Hq (o' & Ho' & _ & ->)%Hq E. simpl in *.
      rewrite (Hinj o o') by done. apply (cmp_refl (cmp := ClockDS_tuple_cmp)). }
  assert (∃ o, o ∈ lan ∧ o ≠ c ∧ (c ≠ l → o = l)) as (o0 & Ho0 & Hne0 & Hl0).
  { destruct (decide (cds_identity (lan_ds c) = cds_identity (lan_ds l))) as [E|E].
    - assert (c = l) as -> by (by apply Hinj).
      destruct lan as [|x [|y lan]]; simpl in Hlen; [lia..|].
      rewrite !fmap_cons in Hnd. apply NoDup_cons in Hnd as [Hx _].
      destruct (decide (cds_identity (lan_ds x) = cds_identity (lan_ds l))) as [Ex|Ex].
      + exists y. split; [right; left|]. split; [|done]. intros ->. apply Hx. rewrite Ex. left.
      + exists x. split; [left|]. split; [|done]. by intros ->.
    - exists l. split; [done|]. split; [by intros ->|done]. }
  destruct (best_of_least (lan_port c) _ (mkQualifiedForeignClockRecord (lan_ds o0) (lan_port o0)) Hcomp)
    as (b & E & Hb & Hleast); [apply Hq; by exists o0|].
  apply Hq in Hb as (o & Ho & Hne & ->). exists o. split; [done|]. split; [done|].
  split; [unfold own_best, BestForeignRecord_snapshot; rewrite Hr; exact E|].
  intros Hcl. apply Hinj; [done..|]. destruct (decide (cds_identity (lan_ds o) = cds_identity (lan_ds l)))
    as [|Hne']; [done|exfalso].
  assert (rank_cmp (lan_ds o, lan_port o) (lan_ds l, lan_port l) ≠ Gt) as Hg.
  { apply (Hleast (mkQualifiedForeignClockRecord (lan_ds l) (lan_port l))). apply Hq.
    exists l. split; [done|]. split; [by intros ->|done]. }
  specialize (Hmin o Ho). unfold rank_cmp in Hg; simpl in Hg.
  rewrite (cmp_antisym (cmp := ClockDS_tuple_cmp) (lan_ds l) (lan_ds o)) in Hg.
  destruct (ClockDS_tuple_cmp (lan_ds l) (lan_ds o)) eqn:Ec; simpl in Hg; try done.
  by apply (ClockDS_compare_unreachable (lan_ds l) (lan_ds o)); [intros E'; apply Hne'|].
Qed.

(** One clock that hears a network with leader [l]. *)
Lemma elected (net : PortContract) (port_ok : PortNumber → Prop) (inv : R → Prop) lan l c :
  NoDup ((λ c, cds_identity (lan_ds c)) <$> lan) → (1 < length lan)%nat →
  Forall (λ c, ClockDS_wf (lan_ds c)) lan →
  l ∈ lan → (∀ c, c ∈ lan → ClockDS_tuple_cmp (lan_ds l) (lan_ds c) ≠ Gt) →
  c ∈ lan → state_ok net port_ok inv (lan_state c) → hears lan c →
  own_best (lan_state c) ≠ Empty ∧ ∀ w : World S, ∃ s' w',
    PortFsm_process_system_message (F := F)
      (SM_StateDecisionEvent (mkStateDecisionSnapshot (lan_ds c) (own_best (lan_state c))))
      (PortFsm_new (lan_state c)) w = Done (PortFsm_new s', w') ∧
    w_shared w' = w_shared w ∧
    role_of s' = Some
      (if decide (lan_port c = lan_port l) then RoleMaster (lan_ds l)
       else if ClockDS_is_authoritative (lan_ds c) then RolePassive
       else RoleSlave (ParentPortIdentity_new (lan_port l))).
Proof.
  intros Hnd Hlen Hall Hl Hmin Hc Hs Hh. rewrite Forall_forall in Hall.
  destruct (own_best_leader lan l c Hnd) as (o & Ho & Hne & Eb & Hol); [|done..|].
  { apply Forall_forall. intros x Hx. by apply ClockDS_wf_steps, Hall. }
  split; [by rewrite Eb|]. intros w.
  assert (cds_identity (lan_ds c) ≠ cds_identity (lan_ds o)) as Hid.
  { intros E. apply Hne. symmetry. by eapply NoDup_fmap_inj_elem. }
  destruct (event_takes_role_wp net port_ok inv
    (mkStateDecisionSnapshot (lan_ds c) (own_best (lan_state c))) (lan_state c) w Hs)
    as (s' & w' & E & Hw & _ & Hr).
  { split; [by apply Hall|]. rewrite Eb. by apply Hall. }
  exists s', w'. split; [done|]. split; [done|]. rewrite Hr. destruct Hh as (Hk1 & Hk2 & _ & Hn & _).
  assert (deciding (lan_state c) = true) as ->.
  { destruct (lan_state c); try done. cbn [deciding]. rewrite Eb. done. }
  f_equal. unfold table_decision, BestMasterClockAlgorithm_decision; cbn [fst sds_d_0 sds_e_best].
  assert (c = l ↔ lan_port c = lan_port l) as Hcl.
  { split; [by intros ->|]. intros [= Ep]. by eapply NoDup_fmap_inj_elem. }
  rewrite Eb. unfold AuthoritativeDecision_decision, NonAuthoritativeDecision_decision.
  rewrite LocalDS_better_eq by done. cbn [d0_better].
  destruct (decide (lan_port c = lan_port l)) as [Hp|Hp].
  - apply Hcl in Hp as ->. specialize (Hmin o Ho).
    destruct (ClockDS_tuple_cmp (lan_ds l) (lan_ds o)) eqn:Ec; [|by destruct (ClockDS_is_authoritative _)|done].
    by destruct (ClockDS_compare_unreachable _ _ Hid Ec).
  - assert (o = l) as -> by (apply Hol; by rewrite Hcl). specialize (Hmin c Hc).
    rewrite (cmp_antisym (cmp := ClockDS_tuple_cmp) (lan_ds l) (lan_ds c)).
    destruct (ClockDS_tuple_cmp (lan_ds l) (lan_ds c)); try done; cbn [CompOpp];
      (destruct (ClockDS_is_authoritative _); [done|]);
      unfold ReceivedOnPortDecision_decision, QualifiedForeignSnapshot_parent_if_received_on_port;
      cbn [qs_receiver lan_port PortIdentity_port_number pi_port_number bm_port_number];
      by rewrite Hn, bool_decide_eq_true_2.
Qed.

(** ** Properties *)

(** C5: A state decision event gives a port its role: whatever state it is in, handling the event
    returns, changes nothing the clock's ports share and none of the port's records, and leaves
    the port master of the dataset, slave of the parent, or passive exactly as the decision table
    says for the event and the port's own best candidate (a repeated decision included, which the
    state machine does not act on); a port that is initializing, faulty, or listens without a
    candidate has no role before or after. *)
Theorem event_takes_role (net : PortContract) (port_ok : PortNumber → Prop) (inv : R → Prop) e s
    (w : World S) :
  state_ok net port_ok inv s → SystemMessage_wf (SM_StateDecisionEvent e) →
  ∃ s' w', PortFsm_process_system_message (F := F) (SM_StateDecisionEvent e) (PortFsm_new s) w
           = Done (PortFsm_new s', w') ∧
    w_shared w' = w_shared w ∧ same_port s s' ∧
    role_of s' = if deciding s then Some (decision_role (table_decision e s)) else None.
Proof. apply event_takes_role_wp. Qed.

(** C6: Once every port of a clock has handled one and the same state decision event, in any
    order, each has the role of its own table entry and at most one of them is a slave, whatever
    roles they had before; its parent is the sender of the event's best candidate. *)
Theorem ports_settle_on_one_slave (net : PortContract) (port_ok : PortNumber → Prop)
    (inv : R → Prop) e dn (ports : list (PortState R)) order (w : World S) :
  Forall (state_ok net port_ok inv) ports → SystemMessage_wf (SM_StateDecisionEvent e) →
  NoDup ((λ s, bm_port_number (bp_bmca (parts_of s))) <$> ports) →
  order ≡ₚ seq 0 (length ports) →
  ∃ ports' w',
    run (F := F) ((λ i, (i, In_System (SM_StateDecisionEvent e))) <$> order)
      (SingleDomainPortMap_new dn <$> ports) w
    = Done (SingleDomainPortMap_new dn <$> ports', w') ∧
    w_shared w' = w_shared w ∧ Forall2 (settled e) ports ports' ∧
    ∀ i j s t p q, ports' !! i = Some s → ports' !! j = Some t →
      role_of s = Some (RoleSlave p) → role_of t = Some (RoleSlave q) →
      i = j ∧ p = q ∧ ∃ ds r, sds_e_best e = Qualified ds (ppi_identity p) r.
Proof.
  intros Hp He Hn Ho.
  destruct (run_event net port_ok inv e dn order He) with (ports := ports) (w := w)
    as (ports' & w' & E & Hw & Hs).
  { rewrite Ho. apply NoDup_seq. }
  { apply Forall_forall. intros i Hi. rewrite Ho in Hi. apply elem_of_seq in Hi.
    destruct (lookup_lt_is_Some_2 ports i) as [s Es]; [lia|]. exists s. split; [done|].
    by eapply Forall_lookup. }
  assert (Forall2 (settled e) ports ports') as Hs'.
  { apply Forall2_lookup. intros i. specialize (Hs i).
    destruct (ports !! i) as [s|] eqn:Es; inversion Hs as [? s' Hss|]; subst; constructor.
    apply lookup_lt_Some in Es. by rewrite decide_True in Hss by (rewrite Ho; apply elem_of_seq; lia). }
  exists ports', w'. split; [done|]. split; [done|]. split; [done|].
  intros i j s' t' p q Ei Ej Hp' Hq'.
  destruct (Forall2_lookup_r _ _ _ _ _ Hs' Ei) as (s & Esi & Hsi).
  destruct (Forall2_lookup_r _ _ _ _ _ Hs' Ej) as (t & Etj & Htj).
  destruct (settled_slave _ _ _ _ Hsi Hp') as (ds & r & E1 & P1).
  destruct (settled_slave _ _ _ _ Htj Hq') as (ds' & r' & E2 & P2).
  rewrite E1 in E2. injection E2 as <- E2 <-. split; [|split].
  - apply (NoDup_lookup _ i j (pi_port_number r) Hn); rewrite list_lookup_fmap, ?Esi, ?Etj; cbn; congruence.
  - destruct p, q; simpl in *; by f_equal.
  - by exists ds, r.
Qed.

(** The clocks of a network elect one master. Of two or more clocks with distinct identities,
    each with its one port in operation in whatever state and holding qualified records of exactly
    the others, one, the leader, becomes or stays master of its own dataset when the clocks handle
    the state decision events that carry their best candidates; every other clock becomes or stays
    a slave of the leader's port, or is passive if its dataset is authoritative. *)
Theorem lan_elects_one_master (net : LanClock → PortContract) (port_ok : PortNumber → Prop)
    (inv : R → Prop) lan :
  NoDup ((λ c, cds_identity (lan_ds c)) <$> lan) → (1 < length lan)%nat →
  Forall (λ c, ClockDS_wf (lan_ds c) ∧ state_ok (net c) port_ok inv (lan_state c) ∧ hears lan c) lan →
  ∃ leader, leader ∈ lan ∧ ∀ c (w : World S), c ∈ lan →
    ∃ s' w',
      PortFsm_process_system_message (F := F)
        (SM_StateDecisionEvent (mkStateDecisionSnapshot (lan_ds c) (own_best (lan_state c))))
        (PortFsm_new (lan_state c)) w = Done (PortFsm_new s', w') ∧
      w_shared w' = w_shared w ∧
      role_of s' = Some
        (if decide (lan_port c = lan_port leader) then RoleMaster (lan_ds leader)
         else if ClockDS_is_authoritative (lan_ds c) then RolePassive
         else RoleSlave (ParentPortIdentity_new (lan_port leader))).
Proof.
  intros Hnd Hlen Hall.
  destruct (least_clock lan_ds lan) as (l & Hl & Hmin); [by intros ->; simpl in Hlen; lia|].
  exists l. split; [done|]. intros c w Hc. rewrite Forall_forall in Hall.
  destruct (Hall c Hc) as (Hd & Hs & Hh). apply (elected (net c) port_ok inv lan l c); try done.
  apply Forall_forall. intros x Hx. by apply Hall.
Qed.
End election.
