(* ===== verification/Hearing.v ===== *)
(** * What a port has heard (crates/rptp/src/portstate.rs, foreign.rs, ordinary.rs)

    The foreign clock records of an ordinary clock's port are determined by the Announces that
    reached it, whatever else happened, the clock's candidate is always the best of them, and the
    last state decision event the clock has scheduled carries it. With Election.v: clocks that have
    heard each other's Announces elect one master by these events. *)

From Stdlib Require Import Sorting.Sorted.
From stdpp Require Import sorting.
From S2P Require Import Prelude Errors Time Clock PortId DataSet Foreign Stores Wire Message.
From S2P Require Import Effects Servo E2e Bmca Profile Handlers PortState PortSafety Clocks System.
From S2P Require Import Election.

Open Scope Z_scope.

(** ** Scheduled state decision events *)

(** A state decision event scheduled for at once: the handle and the snapshot it is to deliver. *)
Definition scheduling (e : Effect) : option (Timeout * StateDecisionSnapshot) :=
  match e with
  | E_RestartWithMessage t (SM_StateDecisionEvent snapshot) delay =>
      if Duration_as_u64_nanos delay =? 0 then Some (t, snapshot) else None
  | _ => None
  end.

(** The last one of a trace. *)
Definition scheduled (tr : list Effect) : option (Timeout * StateDecisionSnapshot) :=
  last (omap scheduling tr).

Lemma scheduled_app tr es :
  scheduled (tr ++ es) = match scheduled es with Some x => Some x | None => scheduled tr end.
Proof. unfold scheduled. by rewrite omap_app, last_app. Qed.

(** ** Following what is shared and scheduled through a computation *)

(** What a port shares with its clock, and what its clock has last scheduled. *)
Definition Shown (S : Type) : Type := S * option (Timeout * StateDecisionSnapshot).

Definition shown {S} (w : World S) : Shown S := (w_shared w, scheduled (w_trace w)).

Section leads.
  Context {S : Type}.

(** From a world that shows [sh], where the computation returns, value and what is shown satisfy
    [Q]. *)
Definition leads {A} (sh : Shown S) (Q : A → Shown S → Prop) (m : M S A) : Prop :=
  ∀ w a w', shown w = sh → m w = Done (a, w') → Q a (shown w').

(** The computation shares what it found and schedules nothing. *)
Definition silent {A} (m : M S A) : Prop := ∀ sh, leads sh (λ _ sh', sh' = sh) m.

Lemma leads_ret {A} sh (Q : A → Shown S → Prop) a : Q a sh → leads sh Q (mret a).
Proof. intros H w a' w' E [= <- <-]. by rewrite E. Qed.

Lemma leads_panic {A} sh (Q : A → Shown S → Prop) : leads sh Q panic.
Proof. by intros w a w' E [=]. Qed.

Lemma leads_bind {A B} sh (P : A → Shown S → Prop) (Q : B → Shown S → Prop) (m : M S A) (k : A → M S B) :
  leads sh P m → (∀ a sh', P a sh' → leads sh' Q (k a)) → leads sh Q (m ≫= k).
Proof.
  intros Hm Hk w b w' E. unfold mbind, M_bind. destruct (m w) as [[a w1]|] eqn:Em; [|done].
  intros Ek. by apply (Hk a (shown w1) (Hm w a w1 E Em) w1 b w').
Qed.

Lemma leads_mono {A} sh (P Q : A → Shown S → Prop) (m : M S A) :
  leads sh P m → (∀ a sh', P a sh' → Q a sh') → leads sh Q m.
Proof. intros Hm HQ w a w' E Em. by eapply HQ, Hm. Qed.

Lemma leads_lift {A} sh (Q : A → Shown S → Prop) (o : outcome A) :
  (∀ a, o = Done a → Q a sh) → leads sh Q (lift o).
Proof.
  intros H w a w' E. unfold lift. destruct o as [x|]; [|done]. intros [= <- <-].
  rewrite E. by apply H.
Qed.

(** [bind] of a computation whose value does not matter. *)
Lemma leads_skip {A B} sh (Q : B → Shown S → Prop) (m : M S A) (k : A → M S B) :
  silent m → (∀ a, leads sh Q (k a)) → leads sh Q (m ≫= k).
Proof. intros Hm Hk. eapply leads_bind; [apply Hm|]. by intros a ? ->. Qed.

Lemma leads_assoc {A B C} sh (Q : C → Shown S → Prop) (m : M S A) (f : A → M S B) (k : B → M S C) :
  leads sh Q (a ← m; f a ≫= k) → leads sh Q ((m ≫= f) ≫= k).
Proof.
  intros H w c w' E Ec. apply (H w c w' E). revert Ec. unfold mbind, M_bind.
  by destruct (m w) as [[a w1]|].
Qed.

Lemma leads_ret_bind {A B} sh (Q : B → Shown S → Prop) a (k : A → M S B) :
  leads sh Q (k a) → leads sh Q (mret a ≫= k).
Proof. done. Qed.

Lemma silent_ret {A} (a : A) : silent (mret a).
Proof. intros sh. by apply leads_ret. Qed.
Lemma silent_lift {A} (o : outcome A) : silent (lift o).
Proof. intros sh. by apply leads_lift. Qed.
Lemma silent_emit e : scheduling e = None → silent (emit e).
Proof.
  intros He sh w a w' <- [= <- <-]. unfold shown; cbn [w_shared w_trace].
  by rewrite scheduled_app, (eq_refl : scheduled [e] = last (omap scheduling [e])); cbn; rewrite He.
Qed.
Lemma silent_get_trace : silent get_trace.
Proof. by intros sh w a w' E [= <- <-]. Qed.
Lemma silent_panic {A} : silent (A := A) panic.
Proof. intros sh. apply leads_panic. Qed.
Lemma silent_bind {A B} (m : M S A) (k : A → M S B) :
  silent m → (∀ a, silent (k a)) → silent (m ≫= k).
Proof. intros Hm Hk sh. apply leads_skip; [done|]. intros a. apply Hk. Qed.
End leads.

(** Computations made of effects and pure code. *)
Ltac silence := repeat (cbv beta zeta; first
  [ apply silent_ret | apply silent_lift | apply silent_emit; reflexivity | apply silent_get_trace
  | apply silent_panic | apply silent_bind; [|intros ?]
  | lazymatch goal with
    | |- silent (match ?x with _ => _ end) => destruct x
    | |- silent ?m => let h := head_of m in unfold h
    end ]).

Create HintDb silent.
#[export] Hint Extern 1 (scheduling _ = None) => reflexivity : silent.

Section silent.
  Context {F : Type} `{HF : !MessageFlagsOps F} `{HE : !Env} {S : Type}.

Lemma silent_log ev port : silent (S := S) (DomainPort_log ev port).
Proof. silence. Qed.
Lemma silent_timeout msg port : silent (S := S) (DomainPort_timeout msg port).
Proof. silence. Qed.
Lemma silent_time_scale port : silent (S := S) (DomainPort_time_scale port).
Proof. silence. Qed.
Lemma silent_restart t d : silent (S := S) (Timeout_restart t d).
Proof. silence. Qed.
Lemma silent_receipt_restart t : silent (S := S) (AnnounceReceiptTimeout_restart t).
Proof. silence. Qed.
Lemma silent_servo_feed sample servo : silent (S := S) (Servo_feed sample servo).
Proof. silence. Qed.
Lemma silent_delay_request m : silent (S := S) (em_delay_request m).
Proof. silence. Qed.
Lemma silent_announce_next c : silent (S := S) (AnnounceCycle_next c).
Proof. silence. Qed.
Lemma silent_sync_next c : silent (S := S) (SyncCycle_next c).
Proof. silence. Qed.

(** The network takes every datagram. *)
Definition sends : Prop := ∀ tr identity bytes, env_send_ok tr identity bytes = true.

Lemma leads_send_event (Hs : sends) {B} sh (Q : B → Shown S → Prop) msg port k :
  leads sh Q (k (Ok ())) → leads sh Q (DomainPort_send_event (F := F) msg port ≫= k).
Proof.
  intros Hk. unfold DomainPort_send_event.
  do 3 (apply leads_assoc, leads_skip; [silence|]; intros ?). cbv zeta. rewrite Hs.
  do 2 (apply leads_assoc, leads_skip; [silence|]; intros ?). exact Hk.
Qed.

Lemma leads_send_general (Hs : sends) {B} sh (Q : B → Shown S → Prop) msg port k :
  leads sh Q (k (Ok ())) → leads sh Q (DomainPort_send_general (F := F) msg port ≫= k).
Proof.
  intros Hk. unfold DomainPort_send_general.
  do 3 (apply leads_assoc, leads_skip; [silence|]; intros ?). cbv zeta. rewrite Hs.
  apply leads_assoc, leads_skip; [silence|]; intros ?. exact Hk.
Qed.
End silent.

#[export] Hint Resolve silent_log silent_timeout silent_time_scale silent_restart
  silent_receipt_restart silent_servo_feed silent_delay_request silent_announce_next
  silent_sync_next silent_lift silent_emit silent_get_trace : silent.

(** ** One port *)

Section port.
  Context {F : Type} `{HF : !MessageFlagsOps F} `{HE : !Env} (Hsends : sends).
  Context {R : Type} `{HR : !ForeignClockRecords R} (ds : ClockDS) (t : Timeout).

(** The clock on [ds] that notifies its port through handle [t]. *)
Definition assembled (c : Shown OrdinaryClock) : Prop :=
  oc_default_ds c.1 = ds ∧ oc_port_notification c.1 = mkSinglePortNotification (Some t).

(** Its candidate is the best of records [b], and the last state decision event it scheduled carries
    that; it has scheduled none only where there is no such record. *)
Definition reported (b : BestForeignRecord R) (c : Shown OrdinaryClock) : Prop :=
  oc_foreign_candidates c.1 = BestForeignRecord_snapshot b ∧
  match c.2 with
  | Some event => event = (t, mkStateDecisionSnapshot ds (BestForeignRecord_snapshot b))
  | None => BestForeignRecord_snapshot b = Empty
  end.

(** The parts of a port of that clock with records [b], and what is shown: its number is 1, and its
    trigger has reported the best of its records. *)
Definition recalls (b : BestForeignRecord R) (p : BmcaParts R) (c : Shown OrdinaryClock) : Prop :=
  bp_best_foreign p = b ∧
  pi_port_number (bf_receiver b) = PortNumber_new 1 ∧
  bm_port_number (bp_bmca p) = PortNumber_new 1 ∧
  bp_trigger p = mkStateDecisionEventTrigger (BestForeignRecord_snapshot b) (PortNumber_new 1) ∧
  assembled c ∧ reported b c.

Definition operating (s : PortState R) : Prop := kind s ≠ KInitializing ∧ kind s ≠ KFaulty.

(** Decisions that keep a port in operation. *)
Definition benign (d : StateDecision) : Prop := d ≠ FaultDetected ∧ d ≠ FaultCleared.

(** A trigger that reports the best of records [b]. *)
Lemma trigger_leads b tr c :
  pi_port_number (bf_receiver b) = PortNumber_new 1 → tr_received_on_port tr = PortNumber_new 1 →
  assembled c →
  leads c (λ tr' c', tr' = mkStateDecisionEventTrigger (BestForeignRecord_snapshot b) (PortNumber_new 1) ∧
             assembled c' ∧ reported b c')
    (StateDecisionEventTrigger_trigger (BestForeignRecord_snapshot b) tr).
Proof.
  intros Hb Ht Hd w tr' w' <-. unfold StateDecisionEventTrigger_trigger, mbind, M_bind.
  cbn [tr_received_on_port]. rewrite Ht. destruct w as [l c0]; destruct Hd as [Hd Hn]; cbn in Hd, Hn.
  cbn [sde_trigger OrdinaryClock_StateDecisionEvent].
  rewrite (OrdinaryClock_trigger_eq _ _ _ (BestForeignRecord_snapshot b)).
  - rewrite Hn. intros [= <- <-]. split; [done|]. split; [by destruct c0|].
    split; [by destruct c0|]. unfold shown; cbn [w_trace snd]. by rewrite scheduled_app, <- Hd.
  - pose proof (snapshot_on_receiver b) as Hs. rewrite Hb in Hs. revert Hs.
    cbn [fgc_remember Cell_ForeignGrandMasterCandidates]. rewrite bool_decide_eq_true_2 by done.
    destruct (BestForeignRecord_snapshot b) as [d sr r|]; [|done]. simpl. intros Hs.
    unfold PortIdentity_port_number. by rewrite bool_decide_eq_true_2.
Qed.

(** The two places a trigger is used. *)
Lemma local_grandmaster_leads b p c : recalls b p c →
  leads c (λ g c', recalls b (gb_parts g) c') (local_grandmaster_tracking p).
Proof.
  intros (Hb & Hr & Hn & Ht & Hd & Hc). unfold local_grandmaster_tracking. cbv zeta. rewrite Hb.
  eapply leads_bind; [apply trigger_leads; [done | by rewrite Ht | done]|].
  intros tr c' (-> & Hd' & Hc'). by apply leads_ret.
Qed.

Lemma consider_parts_leads s d li now b p c : recalls b p c →
  leads c (λ p' c', ∃ b', BestForeignRecord_consider s d li now b = Done b' ∧ recalls b' p' c')
    (consider_parts s d li now p).
Proof.
  intros (Hb & Hr & Hn & Ht & Hd & Hc). unfold consider_parts. rewrite Hb.
  eapply leads_bind;
    [apply (leads_lift _ (λ b' c', BestForeignRecord_consider s d li now b = Done b' ∧ c' = c)); by split|].
  intros b' ? [E ->]. cbv zeta.
  assert (pi_port_number (bf_receiver b') = PortNumber_new 1) as Hr'.
  { revert E. unfold BestForeignRecord_consider. destruct (fcr_prune_stale _ _) as [r ?].
    destruct (fcr_remember _ _); [|done]. by intros [= <-]. }
  unfold StateDecisionEventTrigger_gated_trigger. rewrite Ht. cbn [tr_previous_best_foreign].
  case_bool_decide as Hs.
  - apply leads_ret_bind, leads_ret. exists b'. split; [done|]. unfold recalls, reported.
    by rewrite <- Hs.
  - eapply leads_bind; [by apply trigger_leads|]. intros tr c' (-> & Hd' & Hc').
    apply leads_ret. by exists b'.
Qed.

(** Run through a computation whose calls share nothing; a call that reports to the clock is
    followed with its own lemma. *)
Ltac run_through := repeat (cbv beta zeta; lazymatch goal with
  | |- leads _ _ (mret _) => apply leads_ret
  | |- leads _ _ panic => apply leads_panic
  | |- leads _ _ (mret _ ≫= _) => apply leads_ret_bind
  | |- leads _ _ ((_ ≫= _) ≫= _) => apply leads_assoc
  | |- leads _ _ (DomainPort_send_event _ _ ≫= _) => apply (leads_send_event Hsends)
  | |- leads _ _ (DomainPort_send_general _ _ ≫= _) => apply (leads_send_general Hsends)
  | |- leads _ _ (local_grandmaster_tracking _ ≫= _) =>
      eapply leads_bind; [by apply local_grandmaster_leads|]; intros ? ? ?
  | |- leads _ _ ((match ?x with _ => _ end) ≫= _) => destruct x
  | |- leads _ _ (?m ≫= _) =>
      first [ apply leads_skip; [solve [eauto with silent nocore]|]; intros ?
            | let h := head_of m in unfold h ]
  | |- leads _ _ (match ?x with _ => _ end) => destruct x
  | |- leads _ _ ?m => let h := head_of m in unfold h
  end).

Lemma apply_leads d b s c : recalls b (parts_of s) c →
  leads c (λ s' c', recalls b (parts_of s') c' ∧ (benign d → operating s')) (PortState_apply d s).
Proof.
  intros H. destruct d, s; cbn [PortState_apply parts_of] in *; try apply leads_panic; run_through.
  all: split; [done|]; by intros [? ?].
Qed.

(** What a dispatch leaves: a state of the same kind that has the records [b], and no decision that
    takes an operating port out of operation. *)
Definition dispatched (b : BestForeignRecord R) (s : PortState R)
    (r : option StateDecision * PortState R) (c : Shown OrdinaryClock) : Prop :=
  recalls b (parts_of r.2) c ∧ kind r.2 = kind s ∧
  (operating s → ∀ d, r.1 = Some d → benign d).

Ltac benign_cases :=
  intros [? ?] ? ?; simpl in *; repeat case_match; simplify_eq/=; try done; by split.

Lemma dispatch_event_leads msg src ts b s c : recalls b (parts_of s) c →
  leads c (dispatched b s) (PortState_dispatch_event (F := F) msg src ts s).
Proof.
  intros H. destruct s, msg; cbn [PortState_dispatch_event parts_of] in *; run_through.
  all: split; [done|]; split; [done|]; by benign_cases.
Qed.

Lemma dispatch_decision_leads e b s c : recalls b (parts_of s) c →
  leads c (dispatched b s) (PortState_dispatch_system (F := F) (SM_StateDecisionEvent e) s).
Proof.
  intros (Hb & Hr & Hn & Ht & Hd & Hc) w r w' <- E.
  destruct (decision_dispatched e s) as (d & s1 & E1 & (Hb1 & Hn1 & Ht1) & _ & Hk & Hdec).
  rewrite E1 in E. injection E as <- <-. split; [|split; [done|]].
  - unfold recalls; cbn [snd]. by rewrite Hb1, Hn1, Ht1.
  - intros _ sd Ed. simpl in Ed. subst d. destruct Hdec as (_ & Esd & _).
    by destruct (table_decision e s); injection Esd as <-.
Qed.

Lemma dispatch_system_leads msg b s c : recalls b (parts_of s) c →
  leads c (dispatched b s) (PortState_dispatch_system (F := F) msg s).
Proof.
  intros H. destruct msg as [| | |ts| | | | |e]; [.. | by apply dispatch_decision_leads].
  all: destruct s; cbn [PortState_dispatch_system parts_of] in *; run_through.
  all: split; [done|]; split; [done|]; by benign_cases.
Qed.

(** ** Announces *)

(** What an Announce tells a port. *)
Record Heard := mkHeard {
  hd_source : PortIdentity;
  hd_ds : ClockDS;
  hd_interval : LogInterval;
  hd_at : Instant;
}.

Definition announcement (src : PortIdentity) (msg : GeneralMessage) (now : Instant) : option Heard :=
  match msg with
  | Announce m =>
      match LogMessageInterval_log_interval (an_log_message_interval m) with
      | Done (Some li) => Some (mkHeard src (an_foreign_clock_ds m) li now)
      | _ => None
      end
  | _ => None
  end.

Definition consider_heard (h : Heard) (b : BestForeignRecord R) : outcome (BestForeignRecord R) :=
  BestForeignRecord_consider (hd_source h) (hd_ds h) (hd_interval h) (hd_at h) b.

(** The records after what was heard, if anything. *)
Definition hearing (h : option Heard) (b b' : BestForeignRecord R) : Prop :=
  match h with Some h => consider_heard h b = Done b' | None => b' = b end.

(** Every role feeds an Announce to its parts alike. *)
Lemma feed_bmca_leads {B} `{!Bmca OrdinaryClock B} (parts : B → BmcaParts R) src now m bmca b c :
  (∀ li, leads c (λ bmca' c', ∃ b', BestForeignRecord_consider src (an_foreign_clock_ds m) li now b
                                    = Done b' ∧ recalls b' (parts bmca') c')
           (bmca_consider src (an_foreign_clock_ds m) li now bmca)) →
  recalls b (parts bmca) c →
  leads c (λ bmca' c', ∃ b', hearing (announcement src (Announce m) now) b b' ∧
                             recalls b' (parts bmca') c')
    (AnnounceMessage_feed_bmca src now m bmca).
Proof.
  intros Hc Hb. unfold AnnounceMessage_feed_bmca, announcement.
  destruct (LogMessageInterval_log_interval _) as [[li|]|]; [| |by intros w a w' E [=]].
  - apply leads_ret_bind. apply Hc.
  - apply leads_ret_bind, leads_ret. by exists b.
Qed.

Ltac feed parts :=
  repeat (cbv beta; apply leads_assoc; apply leads_skip; [solve [eauto with silent nocore]|]; intros ?);
  cbv beta; apply leads_assoc; eapply leads_bind;
    [ apply (feed_bmca_leads parts); [|done]; intros li;
      eapply leads_bind; [by apply consider_parts_leads|]; intros p' c' (b' & E & H');
      apply leads_ret; by exists b'
    | intros bmca c' (b' & Eh & Hb'); apply leads_ret_bind, leads_ret;
      exists b'; split; [done|]; split; [done|]; split; [done|]; by benign_cases ].

Lemma dispatch_announce_leads src m now b s c : operating s → recalls b (parts_of s) c →
  leads c (λ r c', ∃ b', hearing (announcement src (Announce m) now) b b' ∧ dispatched b' s r c')
    (PortState_dispatch_general (Announce m) src now s).
Proof.
  intros [Hi Hf] H.
  destruct s; try done; cbn [PortState_dispatch_general parts_of] in *; unfold handled,
    ListeningPort_process_announce, SlavePort_process_announce, MasterPort_process_announce,
    PreMasterPort_process_announce, UncalibratedPort_process_announce, PassivePort_process_announce.
  - feed (lb_parts (R := R)).
  - feed (pb_parts (R := R)).
  - feed (gb_parts (R := R)).
  - feed (gb_parts (R := R)).
  - feed (pb_parts (R := R)).
  - feed (vb_parts (R := R)).
Qed.

Lemma dispatch_general_leads src msg now b s c : operating s → recalls b (parts_of s) c →
  leads c (λ r c', ∃ b', hearing (announcement src msg now) b b' ∧ dispatched b' s r c')
    (PortState_dispatch_general msg src now s).
Proof.
  intros Hs H. destruct msg as [m|m|m]; [by apply dispatch_announce_leads|..].
  all: destruct s; cbn [PortState_dispatch_general parts_of] in *; run_through.
  all: exists b; split; [done|]; split; [done|]; split; [done|]; by benign_cases.
Qed.

(** ** Deliveries *)

(** What a delivery tells the port of domain [dn]. *)
Definition heard (dn : DomainNumber) (i : PortInput) : option Heard :=
  match i with
  | In_General buf now =>
      match length_checked_v2 buf with
      | Done (Ok buf) =>
          match MessageHeader_domain_number buf, parse_general (F := F) buf with
          | Done d, Done (Ok (src, msg)) =>
              if bool_decide (dn = d) then announcement src msg now else None
          | _, _ => None
          end
      | _ => None
      end
  | _ => None
  end.

(** An operating port after a step that told it [h]. *)
Definition listens (h : option Heard) (b : BestForeignRecord R) (f : PortFsm R) (c : Shown OrdinaryClock)
    : Prop :=
  ∃ s b', f = PortFsm_new s ∧ operating s ∧ hearing h b b' ∧ recalls b' (parts_of s) c.

Lemma drive_leads h dispatch b s c : operating s →
  leads c (λ r c', ∃ b', hearing h b b' ∧ dispatched b' s r c') (dispatch s) →
  leads c (listens h b) (PortFsm_drive dispatch (PortFsm_new s)).
Proof.
  intros Hs Hd. unfold PortFsm_drive. cbn [fsm_state PortFsm_new]. eapply leads_bind; [exact Hd|].
  intros [d s1] c1 (b' & Hh & Hr & Hk & Hb); cbn [fst snd] in *.
  assert (operating s1) as Hs1 by (unfold operating; by rewrite Hk).
  destruct d as [d|]; [|apply leads_ret; by exists s1, b'].
  unfold PortFsm_apply_decision. cbn [fsm_state].
  eapply leads_bind; [by apply apply_leads|]. intros s2 c2 [Hr2 Hop]. apply leads_ret.
  exists s2, b'. split; [done|]. split; [by apply Hop, Hb|]. done.
Qed.

Lemma try_parse_leads {A} (m : PR A) ports k c (Q : result () Error * SingleDomainPortMap R →
    Shown OrdinaryClock → Prop) :
  (∀ e, m = Done (Err e) → Q (Err e, ports) c) → (∀ a, m = Done (Ok a) → leads c Q (k a)) →
  leads c Q (try_parse m ports k).
Proof.
  intros He Ha. unfold try_parse. destruct m as [[a|e]|]; [| |by intros ? ? ? ? [=]].
  - apply leads_ret_bind. by apply Ha.
  - apply leads_ret_bind, leads_ret. by apply He.
Qed.

(** A port of domain [dn] after a delivery that told it [h]. *)
Definition listening_map (dn : DomainNumber) (h : option Heard) (b : BestForeignRecord R)
    (p : SingleDomainPortMap R) (c : Shown OrdinaryClock) : Prop :=
  ∃ s b', p = SingleDomainPortMap_new dn s ∧ operating s ∧ hearing h b b' ∧ recalls b' (parts_of s) c.

Lemma listening_map_fsm dn h b f c : listens h b f c →
  listening_map dn h b (mkSingleDomainPortMap dn f) c.
Proof. intros (s & b' & -> & H). by exists s, b'. Qed.

Lemma receive_event_leads buf ts dn b s c : operating s → recalls b (parts_of s) c →
  leads c (λ r c', listening_map dn None b r.2 c')
    (MessageIngress_receive_event (F := F) (P := PortFsm R) buf ts (SingleDomainPortMap_new dn s)).
Proof.
  intros Hs H.
  assert (listening_map dn None b (SingleDomainPortMap_new dn s) c) as Hsame by (by exists s, b).
  apply try_parse_leads; [done|]. intros lc _. unfold DomainMessage_dispatch_event.
  eapply (leads_bind _ (λ _ c', c' = c)); [by apply silent_lift|]. intros d ? ->.
  cbn [port_by_domain SingleDomainPortMap_PortMap]. unfold SingleDomainPortMap_port_by_domain.
  case_bool_decide; [|by apply leads_ret].
  apply try_parse_leads; [done|]. intros [src msg] _.
  eapply leads_bind; [apply (drive_leads None _ b); [done|]|].
  - eapply leads_mono; [by apply dispatch_event_leads|]. intros r c' Hr. by exists b.
  - intros f c' Hf. apply leads_ret. by apply listening_map_fsm.
Qed.

Lemma receive_general_leads buf now dn b s c : operating s → recalls b (parts_of s) c →
  leads c (λ r c', listening_map dn (heard dn (In_General buf now)) b r.2 c')
    (MessageIngress_receive_general (F := F) (P := PortFsm R) buf now (SingleDomainPortMap_new dn s)).
Proof.
  intros Hs H.
  assert (listening_map dn None b (SingleDomainPortMap_new dn s) c) as Hsame by (by exists s, b).
  unfold heard. apply try_parse_leads; [by intros e ->|]. intros lc ->.
  unfold DomainMessage_dispatch_general.
  eapply (leads_bind _ (λ d c', MessageHeader_domain_number lc = Done d ∧ c' = c));
    [by apply leads_lift|]. intros d ? [Ed ->]. rewrite Ed.
  cbn [port_by_domain SingleDomainPortMap_PortMap]. unfold SingleDomainPortMap_port_by_domain.
  cbn [sm_domain_number SingleDomainPortMap_new]. case_bool_decide as Hd.
  2: { apply leads_ret. by destruct (parse_general lc) as [[[? ?]|]|]. }
  apply try_parse_leads; [by intros e ->|]. intros [src msg] ->.
  eapply leads_bind; [by apply (drive_leads (announcement src msg now) _ b);
    [|apply dispatch_general_leads]|].
  intros f c' Hf. apply leads_ret. by apply listening_map_fsm.
Qed.

Lemma deliver_leads i b dn s c : operating s → recalls b (parts_of s) c →
  leads c (listening_map dn (heard dn i) b) (deliver (F := F) i (SingleDomainPortMap_new dn s)).
Proof.
  intros Hs H. destruct i as [buf ts|buf now|msg]; cbn [deliver].
  - eapply leads_bind; [by apply (receive_event_leads _ _ dn b)|].
    intros [r p] c' Hp. by apply leads_ret.
  - eapply leads_bind; [by apply (receive_general_leads _ _ dn b)|].
    intros [r p] c' Hp. by apply leads_ret.
  - eapply leads_bind; [apply (drive_leads None _ b); [done|]|].
    + eapply leads_mono; [by apply dispatch_system_leads|]. intros r c' Hr. by exists b.
    + intros f c' Hf. apply leads_ret. by apply listening_map_fsm.
Qed.

(** The records after all that was heard, in order. *)
Fixpoint consider_all (hs : list Heard) (b : BestForeignRecord R) : outcome (BestForeignRecord R) :=
  match hs with
  | [] => Done b
  | h :: hs => b ← consider_heard h b; consider_all hs b
  end.

Lemma run_leads inputs dn : ∀ b s c, operating s → recalls b (parts_of s) c →
  leads c (λ ports c', ∃ s' b', ports = [SingleDomainPortMap_new dn s'] ∧ operating s' ∧
             consider_all (omap (heard dn) inputs) b = Done b' ∧ recalls b' (parts_of s') c')
    (run (F := F) (pair 0%nat <$> inputs) [SingleDomainPortMap_new dn s]).
Proof.
  induction inputs as [|i inputs IH]; intros b s c Hs H; cbn [fmap list_fmap run].
  { apply leads_ret. by exists s, b. }
  cbn [lookup list_lookup]. eapply leads_bind; [by apply deliver_leads|].
  intros p c1 (s1 & b1 & -> & Hs1 & Hh & Hr1). cbn [insert list_insert].
  eapply leads_mono; [by apply IH|]. intros ports c2 (s2 & b2 & -> & Hs2 & Hc & Hr2).
  exists s2, b2. split; [done|]. split; [done|]. split; [|done].
  cbn [omap list_omap]. unfold hearing in Hh.
  destruct (heard dn i); [cbn [consider_all]; by rewrite Hh | by subst b1].
Qed.

(** The clock's port before anything was heard, and once it is initialized. *)
Definition nothing_heard (store : R) : BestForeignRecord R :=
  mkBestForeignRecord (mkPortIdentity (cds_identity ds) (PortNumber_new 1)) store.

Lemma initialized_leads dn profile store c :
  fcr_iter store = [] → assembled c → oc_foreign_candidates c.1 = Empty → c.2 = None →
  leads c (λ p c', ∃ s, p = SingleDomainPortMap_new dn s ∧ operating s ∧
             recalls (nothing_heard store) (parts_of s) c')
    (deliver (F := F) (In_System SM_Initialized)
       (SingleDomainPortMap_new dn (initial_port ds dn profile 1 store))).
Proof.
  intros He Hd Hc Hn w p w' <- [= <- <-]. eexists. split; [reflexivity|]. split; [done|].
  assert (BestForeignRecord_snapshot (nothing_heard store) = Empty) as Hb.
  { unfold BestForeignRecord_snapshot. cbn. by rewrite He. }
  unfold recalls, reported, shown in *. cbn in Hn |- *. rewrite !scheduled_app, Hn, Hb.
  split_and!; try done. by rewrite <- Hb.
Qed.

Lemma initialized_run_leads dn profile store inputs c :
  fcr_iter store = [] → assembled c → oc_foreign_candidates c.1 = Empty → c.2 = None →
  leads c (λ ports c', ∃ s b, ports = [SingleDomainPortMap_new dn s] ∧ operating s ∧
             consider_all (omap (heard dn) inputs) (nothing_heard store) = Done b ∧
             recalls b (parts_of s) c')
    (run (F := F) (pair 0%nat <$> In_System SM_Initialized :: inputs)
       [SingleDomainPortMap_new dn (initial_port ds dn profile 1 store)]).
Proof.
  intros He Hd Hc Hn. cbn [fmap list_fmap run lookup list_lookup].
  eapply leads_bind; [by apply initialized_leads|]. intros p c1 (s & -> & Hs & Hr).
  cbn [insert list_insert]. by apply run_leads.
Qed.

(** A run of an ordinary clock's port: it returns with the port in operation and its records and
    the clock's candidate as the Announces made them, or a stale timeout stops it. *)
Lemma ordinary_heard (inv : R → Prop) `{!ForeignClockRecordsLaws R inv} dn profile store inputs tr :
  ClockDS_wf ds → profile_wf profile → store_ok inv store → fcr_iter store = [] →
  Forall PortInput_wf inputs → scheduled tr = None →
  t = mkTimeout 0 (SM_StateDecisionEvent (mkStateDecisionSnapshot ds Empty)) →
  let net := clock_contract ds dn profile in
  let c := mkOrdinaryClock ds dn (mkPortEnumeration 1 2) Empty
             (mkSinglePortNotification (Some t)) profile in
  let start := [SingleDomainPortMap_new dn (initial_port ds dn profile 1 store)] in
  match run (F := F) (pair 0%nat <$> In_System SM_Initialized :: inputs) start (mkWorld tr c) with
  | Done (ports, w) =>
      ∃ s b, ports = [SingleDomainPortMap_new dn s] ∧ operating s ∧
        state_ok net (λ p, p = PortNumber_new 1) inv s ∧
        consider_all (omap (heard dn) inputs) (nothing_heard store) = Done b ∧
        recalls b (parts_of s) (shown w)
  | Panic =>
      ∃ pre post ports w', inputs = pre ++ In_System SM_AnnounceReceiptTimeout :: post ∧
        run (F := F) (pair 0%nat <$> In_System SM_Initialized :: pre) start (mkWorld tr c)
        = Done (ports, w') ∧
        hits_master 0 (In_System SM_AnnounceReceiptTimeout) ports
  end.
Proof.
  intros Hd Hpf Hs He Hi Htr Et net c start.
  assert (assembled (shown (mkWorld tr c))) as Hc by done.
  pose proof (initialized_run_leads dn profile store inputs _ He Hc eq_refl Htr) as Hl.
  pose proof (ordinary_run inv ds dn profile store (In_System SM_Initialized :: inputs) tr
    Hd Hpf Hs ltac:(by constructor)) as Hr. cbv zeta in Hr.
  rewrite <- Et in Hr. fold c start net in Hr. destruct (run _ start (mkWorld tr c)) as [[ports w]|] eqn:Er.
  - destruct (Hl (mkWorld tr c) _ _ eq_refl Er) as (s & b & -> & Hop & Hb & Hrec).
    destruct Hr as [Hm _]. apply Forall_singleton in Hm as (s' & [= <-] & Hok). by exists s, b.
  - destruct Hr as (pre & post & ports & w' & E & Er' & Hh).
    destruct pre as [|i pre]; [done|]. injection E as <- ->.
    by exists pre, post, ports, w'.
Qed.
End port.

(** ** The growable store and what it heard *)

Definition heard_from (source : PortIdentity) (hs : list Heard) : list Heard :=
  filter (λ h, hd_source h = source) hs.

Lemma heard_from_snoc source hs h :
  length (heard_from source (hs ++ [h]))
  = (length (heard_from source hs) + if decide (hd_source h = source) then 1 else 0)%nat.
Proof.
  unfold heard_from. rewrite filter_app, length_app. f_equal.
  destruct (decide (hd_source h = source));
    [by rewrite filter_cons_True | by rewrite filter_cons_False].
Qed.

Lemma consider_all_snoc `{ForeignClockRecords R} hs h (b : BestForeignRecord R) :
  consider_all (hs ++ [h]) b = (b ← consider_all hs b; consider_heard h b).
Proof.
  revert b. induction hs as [|h' hs IH]; intros b; cbn [consider_all app].
  { cbn [mbind outcome_bind]. by destruct (consider_heard h b). }
  destruct (consider_heard h' b) as [b'|]; [apply IH | done].
Qed.

(** A source that is new to the store is added at its end. *)
Lemma Vec_remember_new record rs : fr_source_port_identity record ∉ sources rs →
  ForeignClockRecordsVec_remember record (mkForeignClockRecordsVec rs)
  = Done (mkForeignClockRecordsVec (rs ++ [record])).
Proof.
  intros Hn. unfold ForeignClockRecordsVec_remember; simpl.
  destruct (find_source _ rs) as [[i e]|] eqn:E; [|done].
  apply find_source_Some in E as [Hi He]. destruct Hn. rewrite <- He.
  by apply list_elem_of_fmap_2, (list_elem_of_lookup_2 rs i).
Qed.

Lemma Vec_consider s d li now (b : BestForeignRecord ForeignClockRecordsVec) :
  let rs := fv_records (bf_foreign_clock_records b) in
  let record := ForeignClockRecord_new s d li now in
  NoDup (sources rs) → Forall (λ x, ForeignClockRecord_is_stale now x = false) rs →
  ∃ rs', BestForeignRecord_consider s d li now b
         = Done (mkBestForeignRecord (bf_receiver b) (mkForeignClockRecordsVec rs')) ∧
    NoDup (sources rs') ∧ (∀ s', s' ∈ sources rs' ↔ s' = s ∨ s' ∈ sources rs) ∧
    if decide (s ∈ sources rs)
    then rs' = (λ x, if ForeignClockRecord_same_source_as x s then updated record x else x) <$> rs
    else rs' = rs ++ [record].
Proof.
  intros rs record Hn Hf. destruct b as [receiver [l]]. cbn in rs. subst rs.
  unfold BestForeignRecord_consider. cbn [bf_foreign_clock_records bf_receiver].
  pose proof (fcr_prune_iter (inv := Vec_inv) now (mkForeignClockRecordsVec l) Hn) as Hp.
  destruct (fcr_prune_stale now (mkForeignClockRecordsVec l)) as [[l'] ch]. cbn in Hp. subst l'.
  assert (filter (λ x, ForeignClockRecord_is_stale now x = false) l = l) as ->.
  { clear -Hf. induction Hf as [|x l Hx _ IH]; [done|]. by rewrite filter_cons_True, IH. }
  change (ForeignClockRecord_new s d li now) with record. cbn [fv_records] in *.
  destruct (decide (s ∈ sources l)) as [Hin|Hin].
  - destruct (@fcr_remember_known _ _ _ Vec_laws record (mkForeignClockRecordsVec l) Hn Hin)
      as ([l'] & E & Hn' & Hi). cbn in Hi. subst l'. cbn [mbind outcome_bind] in *. rewrite E.
    eexists. split; [reflexivity|]. split; [done|]. split; [|done]. intros s'.
    change s with (fr_source_port_identity record) in Hin |- *. rewrite sources_map_updated.
    split; [by right|]. by intros [->|?].
  - cbn [fcr_remember Vec_ForeignClockRecords]. rewrite (Vec_remember_new record l Hin).
    eexists. split; [reflexivity|]. split; [by apply NoDup_snoc_source|].
    split; [|done]. intros s'. rewrite sources_snoc, elem_of_app, list_elem_of_singleton. tauto.
Qed.

(** ** Announces that come within a window *)

Section window.
  Context (t0 W : Z).

(** Every Announce comes within the window from [t0] that [W] bounds, and qualification looks back
    at least that far. *)
Definition within (h : Heard) : Prop :=
  t0 <= i_nanos (hd_at h) <= t0 + W ∧ W <= d_nanos (ForeignMasterTimeWindow_duration (hd_interval h)).

Definition later (h h' : Heard) : Prop := i_nanos (hd_at h) <= i_nanos (hd_at h').

(** A record and what it was made of: the last Announce of its source, and whether there was one
    before. *)
Definition made_of (hs : list Heard) (x : ForeignClockRecord) : Prop :=
  let q := fr_qualification x in
  let from := heard_from (fr_source_port_identity x) hs in
  (∃ h, h ∈ hs ∧ fr_source_port_identity x = hd_source h ∧ fr_foreign_clock_ds x = hd_ds h ∧
        sw_last q = hd_at h) ∧
  W <= d_nanos (sw_window q) ∧
  match sw_prev q with
  | None => length from = 1%nat
  | Some prev => (2 <= length from)%nat ∧ t0 <= i_nanos prev <= i_nanos (sw_last q)
  end.

Definition known (hs : list Heard) (rs : list ForeignClockRecord) : Prop :=
  NoDup (sources rs) ∧ Forall (made_of hs) rs ∧ ∀ h, h ∈ hs → hd_source h ∈ sources rs.

Lemma made_of_other hs h x : made_of hs x → fr_source_port_identity x ≠ hd_source h →
  made_of (hs ++ [h]) x.
Proof.
  intros ((h' & Hh' & E) & Hw & Hp) Hne. split; [exists h'; split; [|done]; apply elem_of_app; by left|].
  split; [done|]. rewrite heard_from_snoc, decide_False by done. by rewrite Nat.add_0_r.
Qed.

Lemma made_of_updated hs h x : Forall within hs → within h → Forall (λ h', later h' h) hs →
  made_of hs x → fr_source_port_identity x = hd_source h →
  made_of (hs ++ [h])
    (updated (ForeignClockRecord_new (hd_source h) (hd_ds h) (hd_interval h) (hd_at h)) x).
Proof.
  intros Hhs [_ Hh] Hlater ((h' & Hh' & _ & _ & El) & Hw & Hp) E.
  rewrite Forall_forall in Hhs, Hlater. destruct (Hhs h' Hh') as [Hb _]. specialize (Hlater h' Hh').
  split; [|split; [exact Hh|]].
  - exists h. split; [apply elem_of_app; right; left|]. by cbn.
  - cbn. rewrite heard_from_snoc, decide_True, El by done. unfold later in Hlater.
    split; [|lia]. destruct (sw_prev _); lia.
Qed.

Lemma made_of_new hs h : within h → heard_from (hd_source h) hs = [] →
  made_of (hs ++ [h]) (ForeignClockRecord_new (hd_source h) (hd_ds h) (hd_interval h) (hd_at h)).
Proof.
  intros [_ Hh] E. split; [|split; [exact Hh|]].
  - exists h. split; [apply elem_of_app; right; left|]. by cbn.
  - cbn. by rewrite heard_from_snoc, decide_True, E by done.
Qed.

Lemma known_not_stale hs h rs : Forall within hs → within h → Forall (λ h', later h' h) hs →
  known hs rs → Forall (λ x, ForeignClockRecord_is_stale (hd_at h) x = false) rs.
Proof.
  intros Hhs [Hh _] Hlater (_ & Hrs & _). eapply Forall_impl; [exact Hrs|].
  intros x ((h' & Hh' & _ & _ & El) & Hw & _). apply is_stale_false. rewrite El.
  rewrite Forall_forall in Hhs, Hlater. destruct (Hhs h' Hh') as [Hb _].
  specialize (Hlater h' Hh'). unfold later in Hlater. lia.
Qed.

Lemma known_consider hs h (b : BestForeignRecord ForeignClockRecordsVec) :
  Forall within hs → within h → Forall (λ h', later h' h) hs →
  known hs (fv_records (bf_foreign_clock_records b)) →
  ∃ rs, consider_heard h b
        = Done (mkBestForeignRecord (bf_receiver b) (mkForeignClockRecordsVec rs)) ∧
    known (hs ++ [h]) rs.
Proof.
  intros Hhs Hh Hlater Hk. pose proof (known_not_stale hs h _ Hhs Hh Hlater Hk) as Hst.
  destruct Hk as (Hn & Hrs & Hsrc).
  destruct (Vec_consider (hd_source h) (hd_ds h) (hd_interval h) (hd_at h) b Hn Hst)
    as (rs' & E & Hn' & Hsrc' & Hrs'). exists rs'. split; [exact E|]. split; [done|].
  set (rs := fv_records _) in *. rewrite Forall_forall in Hrs. split.
  - apply Forall_forall. destruct (decide _) as [Hin|Hin]; subst rs'.
    + intros ? (x & -> & Hx)%list_elem_of_fmap. unfold ForeignClockRecord_same_source_as.
      case_bool_decide as Es; [apply made_of_updated | apply made_of_other]; auto.
    + intros x [Hx| ->%list_elem_of_singleton]%elem_of_app.
      * apply made_of_other; [auto|]. intros Es. apply Hin. rewrite <- Es.
        by apply list_elem_of_fmap_2.
      * apply made_of_new; [done|]. unfold heard_from.
        destruct (filter _ hs) as [|h' l] eqn:Ef; [done|]. destruct Hin.
        assert (h' ∈ filter (λ h', hd_source h' = hd_source h) hs) as [<- Hh']%list_elem_of_filter
          by (rewrite Ef; left).
        by apply Hsrc.
  - intros h' [?| ->%list_elem_of_singleton]%elem_of_app; apply Hsrc'; auto.
Qed.

Lemma known_all hs (b : BestForeignRecord ForeignClockRecordsVec) :
  fv_records (bf_foreign_clock_records b) = [] → Forall within hs → StronglySorted later hs →
  ∃ rs, consider_all hs b
        = Done (mkBestForeignRecord (bf_receiver b) (mkForeignClockRecordsVec rs)) ∧ known hs rs.
Proof.
  intros Hb. induction hs as [|h hs IH] using rev_ind; intros Hw Hs.
  { exists []. destruct b as [receiver [l]]. cbn in Hb |- *. subst l. split; [done|].
    split; [constructor|]. split; [constructor|]. by intros h ?%not_elem_of_nil. }
  apply Forall_app in Hw as [Hw Hh]. inversion_clear Hh as [|? ? Hh' _].
  apply StronglySorted_app in Hs as (Hl & Hs & _).
  destruct (IH Hw Hs) as (rs & E & Hk). rewrite consider_all_snoc, E. cbn [mbind outcome_bind].
  apply (known_consider hs h (mkBestForeignRecord (bf_receiver b) (mkForeignClockRecordsVec rs)));
    try done.
  apply Forall_forall. intros x Hx. apply Hl; [done|left].
Qed.

(** The qualified records are those of the sources heard twice. *)
Lemma known_qualified hs rs q :
  Forall within hs → (∀ h h', h ∈ hs → h' ∈ hs → hd_source h = hd_source h' → hd_ds h = hd_ds h') →
  known hs rs →
  q ∈ omap ForeignClockRecord_qualified rs ↔
  ∃ h, h ∈ hs ∧ (2 <= length (heard_from (hd_source h) hs))%nat ∧
       q = mkQualifiedForeignClockRecord (hd_ds h) (hd_source h).
Proof.
  intros Hw Hsame (_ & Hrs & Hsrc). rewrite Forall_forall in Hrs. rewrite Forall_forall in Hw.
  rewrite list_elem_of_omap. unfold ForeignClockRecord_qualified. split.
  - intros (x & Hx & E). destruct (Hrs x Hx) as ((h & Hh & Es & Ed & _) & _ & Hp).
    destruct (SlidingWindowQualification_is_qualified _) eqn:Eq; [|done]. injection E as <-.
    apply is_qualified_true in Eq as (prev & Ep & _). rewrite Ep in Hp.
    exists h. rewrite <- Es, <- Ed. by destruct Hp.
  - intros (h & Hh & Hlen & ->). destruct (proj1 (list_elem_of_fmap _ _ _) (Hsrc h Hh)) as (x & Es & Hx).
    exists x. split; [done|]. destruct (Hrs x Hx) as ((h' & Hh' & Es' & Ed & El) & Hwd & Hp).
    assert (hd_ds h' = hd_ds h) as Ed' by (apply Hsame; congruence).
    rewrite <- Es in Hp. destruct (sw_prev (fr_qualification x)) as [prev|] eqn:Ep; [|lia].
    rewrite (proj2 (is_qualified_true _)); [by rewrite Ed, Ed', <- Es|].
    exists prev. split; [done|]. rewrite El in *. destruct (Hw h' Hh') as [? _]. lia.
Qed.
End window.

(** ** Ordinary clocks on one network *)

(** A clock and all that is delivered to its port once it is initialized. *)
Record Station := mkStation {
  st_ds : ClockDS;
  st_profile : PortProfile;
  st_inputs : list PortInput;
}.

Definition station_port (c : Station) : PortIdentity :=
  mkPortIdentity (cds_identity (st_ds c)) (PortNumber_new 1).

Section stations.
  Context {F : Type} `{HF : !MessageFlagsOps F} `{HE : !Env} (dn : DomainNumber).

Definition station_run (c : Station)
    : outcome (list (SingleDomainPortMap ForeignClockRecordsVec) * World OrdinaryClock) :=
  clock ← OrdinaryClock_new (st_ds c) dn (st_profile c);
  '(p, w) ← OrdinaryClock_port ForeignClockRecordsVec_new (mkWorld [] clock);
  p ← unwrap p;
  run (F := F) (pair 0%nat <$> In_System SM_Initialized :: st_inputs c)
    [SingleDomainPortMap_new dn p] w.

(** What the clock would tell its port: its dataset and its candidate. *)
Definition clock_snapshot (c : OrdinaryClock) : StateDecisionSnapshot :=
  mkStateDecisionSnapshot (oc_default_ds c) (oc_foreign_candidates c).

Definition station_ok (c : Station) : Prop :=
  ClockDS_wf (st_ds c) ∧ profile_wf (st_profile c) ∧ Forall PortInput_wf (st_inputs c).

(** The Announces a clock heard, in order. *)
Definition station_heard (c : Station) : list Heard := omap (heard (F := F) dn) (st_inputs c).

(** The clock heard every other clock of the network, and only those, each twice and about itself,
    within a window. *)
Definition well_informed (t0 W : Z) (lan : list Station) (c : Station) : Prop :=
  let hs := station_heard c in
  Forall (within t0 W) hs ∧ StronglySorted later hs ∧
  (∀ h, h ∈ hs → ∃ o, o ∈ lan ∧ o ≠ c ∧ hd_source h = station_port o ∧ hd_ds h = st_ds o) ∧
  (∀ o, o ∈ lan → o ≠ c → (2 <= length (heard_from (station_port o) hs))%nat).

(** The run is stopped by an announce receipt timeout that hits a master. *)
Definition stopped (c : Station) : Prop :=
  ∃ pre post ports w, st_inputs c = pre ++ In_System SM_AnnounceReceiptTimeout :: post ∧
    station_run (mkStation (st_ds c) (st_profile c) pre) = Done (ports, w) ∧
    hits_master 0 (In_System SM_AnnounceReceiptTimeout) ports.

(** The handle through which a clock notifies its port. *)
Definition station_timeout (c : Station) : Timeout :=
  mkTimeout 0 (SM_StateDecisionEvent (mkStateDecisionSnapshot (st_ds c) Empty)).

(** The world a clock hands its port out in. *)
Definition station_world (c : Station) : World OrdinaryClock :=
  let t := station_timeout c in
  mkWorld [E_NewTimeout t; E_Log (station_port c) (PE_Static "Become InitializingPort")]
    (mkOrdinaryClock (st_ds c) dn (mkPortEnumeration 1 2) Empty
       (mkSinglePortNotification (Some t)) (st_profile c)).

Lemma station_run_eq c :
  station_run c = run (F := F) (pair 0%nat <$> In_System SM_Initialized :: st_inputs c)
    [SingleDomainPortMap_new dn (initial_port (st_ds c) dn (st_profile c) 1 ForeignClockRecordsVec_new)]
    (station_world c).
Proof. reflexivity. Qed.

Lemma station_run_heard (Hsends : sends) c : station_ok c →
  match station_run c with
  | Done (ports, w) =>
      ∃ s best, ports = [SingleDomainPortMap_new dn s] ∧ operating s ∧
        state_ok (clock_contract (st_ds c) dn (st_profile c)) (λ p, p = PortNumber_new 1) Vec_inv s ∧
        consider_all (station_heard c) (mkBestForeignRecord (station_port c) ForeignClockRecordsVec_new)
        = Done best ∧ recalls (st_ds c) (station_timeout c) best (parts_of s) (shown w)
  | Panic => stopped c
  end.
Proof.
  intros (Hd & Hp & Hi). rewrite station_run_eq.
  pose proof (ordinary_heard (F := F) Hsends (st_ds c) (station_timeout c) Vec_inv dn (st_profile c) ForeignClockRecordsVec_new
    (st_inputs c) (w_trace (station_world c)) Hd Hp) as H. cbv zeta in H.
  align_world H. destruct (run _ _ _) as [[ports w]|];
    (lapply H; [clear H; intros H | by repeat constructor]; specialize (H eq_refl Hi eq_refl eq_refl)).
  - exact H.
  - destruct H as (pre & post & ports & w & E & Er & Hh). exists pre, post, ports, w.
    split; [done|]. split; [|done]. rewrite station_run_eq. exact Er.
Qed.

(** A clock with what it knows, among the others. *)
Definition lan_of (lan : list Station) (s : PortState ForeignClockRecordsVec) : list LanClock :=
  (λ o, mkLanClock (st_ds o) s) <$> lan.

Lemma station_hears t0 W lan c s best cl :
  NoDup ((λ c, cds_identity (st_ds c)) <$> lan) → c ∈ lan → well_informed t0 W lan c →
  operating s →
  consider_all (station_heard c) (mkBestForeignRecord (station_port c) ForeignClockRecordsVec_new)
  = Done best → recalls (st_ds c) (station_timeout c) best (parts_of s) cl →
  hears (lan_of lan s) (mkLanClock (st_ds c) s).
Proof.
  intros Hnd Hc (Hw & Hs & Hsrc & Htwice) [Hi Hf] E (Hb & _ & Hn & _).
  destruct (known_all t0 W _ (mkBestForeignRecord (station_port c) ForeignClockRecordsVec_new) eq_refl Hw Hs)
    as (rs & E' & Hk). rewrite E in E'. injection E' as ->.
  unfold hears. cbn [lan_state]. split; [done|]. split; [done|]. rewrite Hb. split; [done|]. split; [done|].
  intros q. cbn [bf_foreign_clock_records fcr_iter Vec_ForeignClockRecords fv_records].
  assert (∀ o o', o ∈ lan → o' ∈ lan → cds_identity (st_ds o) = cds_identity (st_ds o') → o = o')
    as Hinj by (intros; by eapply NoDup_fmap_inj_elem).
  rewrite (known_qualified t0 W (station_heard c) rs q Hw); [split|..|done].
  - intros (h & Hh & _ & ->). destruct (Hsrc h Hh) as (o & Ho & Hne & -> & ->).
    exists (mkLanClock (st_ds o) s). split; [by apply (list_elem_of_fmap_2 (λ o, mkLanClock (st_ds o) s))|]. split; [|done].
    intros [= Eo]. apply Hne, Hinj; [done..|]. by rewrite Eo.
  - intros (o' & (o & -> & Ho)%list_elem_of_fmap & Hne & ->).
    assert (o ≠ c) as Hoc by (intros ->; by apply Hne).
    specialize (Htwice o Ho Hoc). unfold heard_from in Htwice.
    destruct (filter _ _) as [|h l] eqn:Ef; [simpl in Htwice; lia|].
    assert (h ∈ filter (λ h, hd_source h = station_port o) (station_heard c)) as
      [Eh Hh]%list_elem_of_filter by (rewrite Ef; left).
    destruct (Hsrc h Hh) as (o2 & Ho2 & _ & E2 & Ed).
    assert (o2 = o) as -> by (apply Hinj; [done..|]; rewrite Eh in E2; by injection E2).
    exists h. split; [done|]. rewrite Eh, Ed. split; [|done]. unfold heard_from. rewrite Ef. exact Htwice.
  - intros h h' Hh Hh' Eh. destruct (Hsrc h Hh) as (o & Ho & _ & E1 & ->).
    destruct (Hsrc h' Hh') as (o' & Ho' & _ & E2 & ->). f_equal. apply Hinj; [done..|].
    rewrite E1, E2 in Eh. by injection Eh.
Qed.

(** ** Properties *)

(** C8: A port remembers what it heard and nothing else. Whatever datagrams, timers and system
    messages an ordinary clock's port handles after it is initialized, state decision events
    included, and whatever states it passes through, its foreign clock records are what
    considering the Announces of its domain, in their order, makes of no records; its clock holds
    the local dataset and the best of those records, and the last state decision event it has
    scheduled, for at once and on the port's own handle, carries just that, none having been
    scheduled only where there is no best record; unless an announce receipt timeout hits the port
    as a master. No transmission fails. *)
Theorem records_are_what_was_heard (Hsends : sends) c : station_ok c →
  match station_run c with
  | Done (ports, w) =>
      ∃ s best t, ports = [SingleDomainPortMap_new dn s] ∧
        consider_all (station_heard c) (mkBestForeignRecord (station_port c) ForeignClockRecordsVec_new)
        = Done best ∧
        bp_best_foreign (parts_of s) = best ∧
        clock_snapshot (w_shared w) = mkStateDecisionSnapshot (st_ds c) (BestForeignRecord_snapshot best) ∧
        sn_timeout (oc_port_notification (w_shared w)) = Some t ∧
        match scheduled (w_trace w) with
        | Some event => event = (t, clock_snapshot (w_shared w))
        | None => BestForeignRecord_snapshot best = Empty
        end
  | Panic => stopped c
  end.
Proof.
  intros Hc. pose proof (station_run_heard Hsends c Hc) as H.
  destruct (station_run c) as [[ports w]|]; [|done].
  destruct H as (s & best & -> & _ & _ & E & Hb & _ & _ & _ & [Hd Hn] & Hf & Hev).
  exists s, best, (station_timeout c). unfold clock_snapshot. cbn in Hd, Hn, Hf, Hev.
  rewrite Hd, Hn, Hf. by split_and!.
Qed.

(** C7: Announces elect one master. Two or more ordinary clocks with distinct identities start and
    each handles any inputs, among them at least two Announces of every other clock about itself
    and none of anybody else, in the order of their times and within one qualification window.
    Then there is a leader: each clock, unless an announce receipt timeout hits it as a master,
    returns and has scheduled a state decision event, for at once and on its port's own handle; and
    the last one it has scheduled, when it is delivered, makes or leaves the port master of its own
    dataset if the clock is the leader, and otherwise a slave of the leader's port, or passive if
    its dataset is authoritative. No transmission fails. *)
Theorem announces_elect_one_master (Hsends : sends) t0 W lan :
  NoDup ((λ c, cds_identity (st_ds c)) <$> lan) → (1 < length lan)%nat →
  Forall station_ok lan → Forall (well_informed t0 W lan) lan →
  ∃ leader, leader ∈ lan ∧ ∀ c, c ∈ lan →
    match station_run c with
    | Done (ports, w) =>
        ∃ p t snapshot s w', ports = [p] ∧
          sn_timeout (oc_port_notification (w_shared w)) = Some t ∧
          scheduled (w_trace w) = Some (t, snapshot) ∧
          deliver (F := F) (In_System (SM_StateDecisionEvent snapshot)) p w
          = Done (SingleDomainPortMap_new dn s, w') ∧
          role_of s = Some
            (if decide (station_port c = station_port leader) then RoleMaster (st_ds leader)
             else if ClockDS_is_authoritative (st_ds c) then RolePassive
             else RoleSlave (ParentPortIdentity_new (station_port leader)))
    | Panic => stopped c
    end.
Proof.
  intros Hnd Hlen Hok Hinf. rewrite Forall_forall in Hinf.
  destruct (least_clock st_ds lan) as (l & Hl & Hmin); [by intros ->; simpl in Hlen; lia|].
  exists l. split; [done|]. intros c Hc.
  pose proof (station_run_heard Hsends c (proj1 (Forall_forall _ _) Hok c Hc)) as H.
  destruct (station_run c) as [[ports w]|]; [|done].
  destruct H as (s & best & -> & Hop & Hs & E & Hr).
  pose proof (station_hears t0 W lan c s best _ Hnd Hc (Hinf c Hc) Hop E Hr) as Hh.
  edestruct (λ H1 H2 H3 H4 H5 H6, elected (F := F) _ _ _ (lan_of lan s) (mkLanClock (st_ds l) s)
    (mkLanClock (st_ds c) s) H1 H2 H3 H4 H5 H6 Hs Hh) as (Hbest & Hev).
  - unfold lan_of. by rewrite <- list_fmap_compose.
  - unfold lan_of. by rewrite length_fmap.
  - apply Forall_fmap. eapply Forall_impl; [exact Hok|]. by intros x [? _].
  - by apply (list_elem_of_fmap_2 (λ o, mkLanClock (st_ds o) s)).
  - intros x' (x & -> & Hx)%list_elem_of_fmap. by apply Hmin.
  - by apply (list_elem_of_fmap_2 (λ o, mkLanClock (st_ds o) s)).
  - destruct (Hev w) as (s' & w' & E' & _ & Hrole).
    destruct Hr as (Hb & _ & _ & _ & [_ Hn] & _ & Hsched). unfold own_best in *.
    cbn in Hn, Hsched. cbn [lan_ds lan_state] in E', Hbest. rewrite Hb in E', Hbest.
    destruct (scheduled (w_trace w)) as [ev|] eqn:Esch; [|done]. subst ev.
    do 2 eexists. exists (mkStateDecisionSnapshot (st_ds c) (BestForeignRecord_snapshot best)), s', w'.
    split; [done|]. rewrite Hn. split; [done|]. split; [done|]. split; [|exact Hrole].
    unfold deliver, mbind, M_bind. cbn [sm_port_fsm SingleDomainPortMap_new]. by rewrite E'.
Qed.
End stations.
