(* ===== verification/Behaviour.v ===== *)
(** * What the port states do

    Behavioural properties of the state machine: which messages a state listens to, what it
    sends and with which fields and effects, and which states stay emits. *)

From S2P Require Import Prelude Errors Time Clock PortId DataSet Foreign Stores Wire Message.
From S2P Require Import Effects Servo E2e Bmca Profile Handlers PortState PortSafety Clocks System.

Open Scope Z_scope.

(** ** Sent messages, decoded *)

Section sends.
  Context {F : Type} `{HF : !MessageFlagsOps F} `{HL : !MessageFlagsLaws F} `{HE : !Env}.
  Context {S : Type}.

(** The receiver of these bytes parses them as [msg], sent by [p]. *)
Definition carries_general (p : DomainPort) (bytes : list Z) (msg : GeneralMessage) : Prop :=
  length_checked_v2 bytes = Done (Ok bytes) ∧
  MessageHeader_domain_number bytes = Done (dp_domain_number p) ∧
  parse_general (F := F) bytes = Done (Ok (dp_port_identity p, msg)).

Definition carries_event (p : DomainPort) (bytes : list Z) (msg : EventMessage) : Prop :=
  length_checked_v2 bytes = Done (Ok bytes) ∧
  MessageHeader_domain_number bytes = Done (dp_domain_number p) ∧
  parse_event (F := F) bytes = Done (Ok (dp_port_identity p, msg)).

Lemma send_general_eq msg p : DomainPort_wf p → GeneralMessage_wf msg →
  ∃ bytes, carries_general p bytes msg ∧
  ∀ w : World S, DomainPort_send_general (F := F) msg p w
  = let ok := env_send_ok (w_trace w) (dp_port_identity p) bytes in
    Done (if ok then Ok () else Err mkSendError,
          mkWorld (w_trace w ++ [E_SendGeneral (dp_port_identity p) bytes ok]) (w_shared w)).
Proof.
  intros Hp Hm. exists (general_image (F := F) (dp_domain_number p) (dp_port_identity p) msg).
  destruct (GeneralMessage_roundtrip_eq (F := F) (dp_domain_number p) (dp_port_identity p) msg)
    as (_ & ? & ? & ?); [done..|]. split; [by split_and!|]. intros w.
  unfold DomainPort_send_general.
  pose proof (GeneralMessage_to_wire_eq (F := F) msg (dp_domain_number p) _ (proj1 Hp) Hm) as E.
  apply outcome_bind_inv in E as (buf & E1 & E2).
  unfold mbind, M_bind, lift. rewrite (E1 : MessageBuffer_new PtpVersion_V2 _ _ = _). by rewrite E2.
Qed.

Lemma send_event_eq msg p : DomainPort_wf p → EventMessage_wf msg →
  ∃ bytes, carries_event p bytes msg ∧
  ∀ w : World S, DomainPort_send_event (F := F) msg p w
  = let ok := env_send_ok (w_trace w) (dp_port_identity p) bytes in
    Done (if ok then Ok () else Err mkSendError,
          mkWorld (w_trace w ++ E_SendEvent (dp_port_identity p) bytes ok ::
                     (if ok then [E_StampEgress (dp_port_identity p) msg] else [])) (w_shared w)).
Proof.
  intros Hp Hm. exists (event_image (F := F) (dp_domain_number p) (dp_port_identity p) msg).
  destruct (EventMessage_roundtrip_eq (F := F) (dp_domain_number p) (dp_port_identity p) msg)
    as (_ & ? & ? & ?); [done..|]. split; [by split_and!|]. intros w.
  unfold DomainPort_send_event.
  pose proof (EventMessage_to_wire_eq (F := F) msg (dp_domain_number p) _ (proj1 Hp)) as E.
  apply outcome_bind_inv in E as (buf & E1 & E2).
  unfold mbind, M_bind, lift. rewrite (E1 : MessageBuffer_new PtpVersion_V2 _ _ = _). rewrite E2. unfold get_trace, emit. simpl.
  destruct (env_send_ok _ _ _); simpl; [by rewrite <- app_assoc|done].
Qed.
End sends.

(** ** The master's transmissions *)

Section master.
  Context {F : Type} `{HF : !MessageFlagsOps F} `{HL : !MessageFlagsLaws F} `{HE : !Env}.
  Context {S : Type} `{HS : !StateDecisionEvent S} {R : Type} `{HR : !ForeignClockRecords R}.

(** What the master's own fields must satisfy for its messages to be encodable. *)
Definition master_ok (p : MasterPort R) : Prop :=
  DomainPort_wf (mp_port p) ∧ ClockDS_wf (gb_grandmaster_ds (mp_bmca p)) ∧
  SequenceId_wf (ac_sequence_id (mp_announce_cycle p)) ∧
  LogInterval_wf (ac_log_interval (mp_announce_cycle p)) ∧
  SequenceId_wf (sc_sequence_id (mp_sync_cycle p)) ∧
  LogInterval_wf (sc_log_interval (mp_sync_cycle p)) ∧
  LogInterval_wf (mp_log_min_delay_request_interval p).

(** The state machine after a send failure, and its effects. *)
Definition fault_of (p : MasterPort R) : PortFsm R :=
  PortFsm_new (Faulty (mkFaultyPort (mp_port p) (gb_parts (mp_bmca p)) (mp_profile p))).
Definition fault_log (p : MasterPort R) : Effect :=
  E_Log (dp_port_identity (mp_port p)) (PE_Static "Become FaultyPort").

Lemma master_fault p (w : World S) :
  PortFsm_apply_decision FaultDetected (mkPortFsm (Some (Master p))) w
  = Done (fault_of p, mkWorld (w_trace w ++ [fault_log p]) (w_shared w)).
Proof. reflexivity. Qed.

(** C30: On the announce timer a master sends bytes that parse as its Announce (current sequence
    id, its grandmaster dataset, the clock's time scale), then restarts the timer by the announce
    interval and increments the 16-bit sequence id with wrap-around; if the send fails the port
    becomes faulty and neither happens. *)
Theorem master_announces p : master_ok p →
  let id := dp_port_identity (mp_port p) in
  let c := mp_announce_cycle p in
  ∀ w : World S, ∃ bytes,
    carries_general (F := F) (mp_port p) bytes
      (Announce (mkAnnounceMessage (ac_sequence_id c) (LogInterval_log_message_interval (ac_log_interval c))
                   (gb_grandmaster_ds (mp_bmca p)) (env_time_scale (w_trace w)))) ∧
    PortFsm_process_system_message (F := F) SM_AnnounceSendTimeout (PortFsm_new (Master p)) w
    = if env_send_ok (w_trace w) id bytes then
        Done (PortFsm_new (Master (MasterPort_with_announce_cycle
                (mkAnnounceCycle (mkSequenceId ((seq_id (ac_sequence_id c) + 1) mod 2 ^ 16))
                   (ac_timeout c) (ac_log_interval c)) p)),
              mkWorld (w_trace w ++ [E_SendGeneral id bytes true;
                         E_Restart (ac_timeout c) (LogInterval_duration (ac_log_interval c));
                         E_Log id (PE_MessageSent "Announce")]) (w_shared w))
      else
        Done (fault_of p, mkWorld (w_trace w ++ [E_SendGeneral id bytes false; fault_log p])
                            (w_shared w)).
Proof.
  intros (Hp & Hg & Ha & Hla & _) id c w.
  destruct (send_general_eq (F := F) (S := S)
    (Announce (mkAnnounceMessage (ac_sequence_id c) (LogInterval_log_message_interval (ac_log_interval c))
                   (gb_grandmaster_ds (mp_bmca p)) (env_time_scale (w_trace w)))) (mp_port p) Hp)
    as (bytes & Hc & E); [split_and!; simpl; auto using LogInterval_message_wf|].
  exists bytes. split; [exact Hc|].
  unfold PortFsm_process_system_message, PortFsm_drive, PortState_dispatch_system, sent,
    MasterPort_send_announce, DomainPort_time_scale, mbind, M_bind, get_trace, mret, M_ret;
    cbn [fsm_state PortFsm_new].
  unfold AnnounceCycle_announce, GrandMaster_announce. fold c.
  rewrite E. cbn zeta. fold id.
  destruct (env_send_ok _ _ _); simpl; [|rewrite master_fault; simpl]; by rewrite <- !app_assoc.
Qed.

(** C31: A master answers a delay request with bytes that parse as a DelayResp with the request's
    sequence id, the ingress timestamp as receive timestamp and the requester's identity; a failed
    send makes the port faulty. *)
Theorem master_answers_delay_requests p req src ts : master_ok p →
  DelayRequestMessage_wf req → PortIdentity_wf src → TimeStamp_wf ts →
  let id := dp_port_identity (mp_port p) in
  ∃ bytes,
    carries_general (F := F) (mp_port p) bytes
      (DelayResp (mkDelayResponseMessage (dr_sequence_id req)
         (LogInterval_log_message_interval (mp_log_min_delay_request_interval p)) ts src)) ∧
    ∀ w : World S,
    let received := [E_Log id (PE_MessageReceived "DelayReq")] in
    PortFsm_process_event_message (F := F) src (DelayReq req) ts (PortFsm_new (Master p)) w
    = if env_send_ok (w_trace w ++ received) id bytes then
        Done (PortFsm_new (Master p),
              mkWorld (w_trace w ++ received ++ [E_SendGeneral id bytes true;
                         E_Log id (PE_MessageSent "DelayResp")]) (w_shared w))
      else
        Done (fault_of p,
              mkWorld (w_trace w ++ received ++ [E_SendGeneral id bytes false; fault_log p])
                (w_shared w)).
Proof.
  intros (Hp & Hg & Ha & Hla & _ & _ & Hl) Hreq Hsrc Hts id.
  destruct (send_general_eq (F := F) (S := S)
    (DelayResp (mkDelayResponseMessage (dr_sequence_id req)
         (LogInterval_log_message_interval (mp_log_min_delay_request_interval p)) ts src))
    (mp_port p) Hp) as (bytes & Hc & E); [split_and!; simpl; auto using LogInterval_message_wf|].
  exists bytes. split; [exact Hc|]. intros w received.
  unfold PortFsm_process_event_message, PortFsm_drive, PortState_dispatch_event, sent,
    MasterPort_process_delay_request, DomainPort_log, emit, mbind, M_bind, mret, M_ret;
    cbn [fsm_state PortFsm_new w_trace w_shared].
  unfold DelayRequestMessage_response. rewrite E. cbn zeta. fold id received. cbn [w_trace w_shared].
  destruct (env_send_ok _ _ _); simpl; [|rewrite master_fault; simpl]; by rewrite <- !app_assoc.
Qed.

(** On the sync timer a master sends a two-step Sync, asks for its egress timestamp and
    advances its cycle; when the timestamp of that Sync is delivered it sends a FollowUp with the
    same sequence id and that timestamp as precise origin. *)
Theorem master_two_step_sync p t1 : master_ok p → TimeStamp_wf t1 →
  let id := dp_port_identity (mp_port p) in
  let c := mp_sync_cycle p in
  let log := LogInterval_log_message_interval (sc_log_interval c) in
  let sync := mkTwoStepSyncMessage (sc_sequence_id c) log in
  let p' := MasterPort_with_sync_cycle
              (mkSyncCycle (mkSequenceId ((seq_id (sc_sequence_id c) + 1) mod 2 ^ 16))
                 (sc_timeout c) (sc_log_interval c)) p in
  ∃ sync_bytes follow_up_bytes,
    carries_event (F := F) (mp_port p) sync_bytes (TwoStepSync sync) ∧
    carries_general (F := F) (mp_port p) follow_up_bytes
      (FollowUp (mkFollowUpMessage (sc_sequence_id c) log t1)) ∧
    ∀ w : World S,
    PortFsm_process_system_message (F := F) SM_SyncTimeout (PortFsm_new (Master p)) w
    = (if env_send_ok (w_trace w) id sync_bytes then
         Done (PortFsm_new (Master p'),
               mkWorld (w_trace w ++ [E_SendEvent id sync_bytes true;
                          E_StampEgress id (TwoStepSync sync);
                          E_Restart (sc_timeout c) (LogInterval_duration (sc_log_interval c));
                          E_Log id (PE_MessageSent "TwoStepSync")]) (w_shared w))
       else
         Done (fault_of p, mkWorld (w_trace w ++ [E_SendEvent id sync_bytes false; fault_log p])
                             (w_shared w))) ∧
    PortFsm_process_system_message (F := F)
      (SM_Timestamp (mkTimestampMessage (TwoStepSync sync) t1)) (PortFsm_new (Master p')) w
    = (if env_send_ok (w_trace w) id follow_up_bytes then
         Done (PortFsm_new (Master p'),
               mkWorld (w_trace w ++ [E_SendGeneral id follow_up_bytes true;
                          E_Log id (PE_MessageSent "FollowUp")]) (w_shared w))
       else
         Done (fault_of p',
               mkWorld (w_trace w ++ [E_SendGeneral id follow_up_bytes false; fault_log p'])
                 (w_shared w))).
Proof.
  intros (Hp & Hg & Ha & Hla & Hs & Hls & Hl) Ht id c log sync p'.
  destruct (send_event_eq (F := F) (S := S) (TwoStepSync sync) (mp_port p) Hp)
    as (sb & Hsb & Es); [split; [done|by apply LogInterval_message_wf]|].
  destruct (send_general_eq (F := F) (S := S)
    (FollowUp (mkFollowUpMessage (sc_sequence_id c) log t1)) (mp_port p) Hp)
    as (fb & Hfb & Ef); [split_and!; simpl; auto; by apply LogInterval_message_wf|].
  exists sb, fb. split; [exact Hsb|]. split; [exact Hfb|]. intros w.
  unfold PortFsm_process_system_message, PortFsm_drive, PortState_dispatch_system, sent,
    MasterPort_send_sync, MasterPort_send_follow_up, mbind, M_bind, mret, M_ret;
    cbn [fsm_state PortFsm_new tm_event_msg tm_egress_timestamp].
  change (SyncCycle_two_step_sync (mp_sync_cycle p)) with sync. rewrite Es. cbn zeta. fold id.
  change (mp_port p') with (mp_port p).
  change (TwoStepSyncMessage_follow_up t1 sync) with (mkFollowUpMessage (sc_sequence_id c) log t1).
  rewrite Ef. cbn zeta. fold id.
  split; destruct (env_send_ok _ _ _); simpl; try (rewrite master_fault; simpl);
    by rewrite <- ?app_assoc.
Qed.
End master.

(** ** Who is listened to *)

Section listening.
  Context {F : Type} `{HF : !MessageFlagsOps F} `{HE : !Env}.
  Context {S : Type} `{HS : !StateDecisionEvent S} {R : Type} `{HR : !ForeignClockRecords R}.

Definition tracked_parent (s : PortState R) : option PortIdentity :=
  match s with
  | Slave p => Some (ppi_identity (pb_parent_port_identity (sp_bmca p)))
  | Uncalibrated p => Some (ppi_identity (pb_parent_port_identity (up_bmca p)))
  | _ => None
  end.

Definition is_log (e : Effect) : Prop := match e with E_Log _ _ => True | _ => False end.

(** The state machine is as before and only wrote to the log. *)
Definition ignored (s : PortState R) (m : M S (PortFsm R)) (w : World S) : Prop :=
  ∃ es, Forall is_log es ∧
    m w = Done (PortFsm_new s, mkWorld (w_trace w ++ es) (w_shared w)).

Lemma ignored_silently s dispatch w : dispatch s w = Done ((None, s), w) →
  ignored s (PortFsm_drive dispatch (PortFsm_new s)) w.
Proof.
  intros E. exists []. split; [constructor|]. unfold PortFsm_drive, mbind, M_bind.
  cbn [fsm_state PortFsm_new]. rewrite E. rewrite app_nil_r. by destruct w.
Qed.

Lemma ignored_logged s dispatch id ev w :
  dispatch s w = Done ((None, s), mkWorld (w_trace w ++ [E_Log id ev]) (w_shared w)) →
  ignored s (PortFsm_drive dispatch (PortFsm_new s)) w.
Proof.
  intros E. exists [E_Log id ev]. split; [by constructor|]. unfold PortFsm_drive, mbind, M_bind.
  cbn [fsm_state PortFsm_new]. by rewrite E.
Qed.

(** C26: In SLAVE and UNCALIBRATED, every Sync, FollowUp, DelayReq or DelayResp whose sender is
    not the tracked parent leaves the state machine and the shared state as they were and only
    writes to the log. *)
Theorem only_the_parent_is_heard s parent src w :
  tracked_parent s = Some parent → src ≠ parent →
  (∀ msg ts, ignored s (PortFsm_process_event_message (F := F) src msg ts (PortFsm_new s)) w) ∧
  (∀ msg now, (∀ a, msg ≠ Announce a) →
     ignored s (PortFsm_process_general_message src msg now (PortFsm_new s)) w).
Proof.
  intros Hp Hne. destruct s as [p|p|p|p|p|p|p|p]; try done; injection Hp as <-.
  all: assert (∀ b : ParentTrackingBmca R, src ≠ ppi_identity (pb_parent_port_identity b) →
    ParentTrackingBmca_matches_parent src b = false) as Hb
    by (intros b Hb; apply bool_decide_eq_false; congruence).
  all: split; [intros msg ts | intros msg now Ha];
    unfold PortFsm_process_event_message, PortFsm_process_general_message.
  all: destruct msg; try (by destruct (Ha m));
    first [ by apply ignored_silently | eapply ignored_logged ].
  all: unfold PortState_dispatch_event, PortState_dispatch_general, decided,
    SlavePort_process_one_step_sync, SlavePort_process_two_step_sync, SlavePort_process_follow_up,
    SlavePort_process_delay_response, UncalibratedPort_process_one_step_sync,
    UncalibratedPort_process_two_step_sync, UncalibratedPort_process_follow_up,
    UncalibratedPort_process_delay_response, DomainPort_log, emit, mbind, M_bind.
  all: rewrite Hb by done; reflexivity.
Qed.
End listening.

(** ** Silent states *)

(** Effects that neither reach the network nor touch the clock. *)
Definition is_silent (e : Effect) : Prop :=
  match e with
  | E_Log _ _ | E_NewTimeout _ | E_Restart _ _ | E_RestartWithMessage _ _ _ => True
  | _ => False
  end.

Section silent.
  Context {F : Type} `{HF : !MessageFlagsOps F} `{HE : !Env}.
  Context {S : Type} `{HS : !StateDecisionEvent S} {R : Type} `{HR : !ForeignClockRecords R}.
  Context (Htrigger : ∀ port s, emits is_silent (sde_trigger (S := S) port s)).

Lemma consider_silent src ds l now (p : BmcaParts R) : emits is_silent (consider_parts src ds l now p).
Proof.
  unfold consider_parts, StateDecisionEventTrigger_gated_trigger, StateDecisionEventTrigger_trigger.
  emits.
Qed.

Lemma local_grandmaster_silent (p : BmcaParts R) : emits is_silent (local_grandmaster_tracking p).
Proof.
  unfold local_grandmaster_tracking, StateDecisionEventTrigger_trigger. emits.
Qed.
Lemma log_silent ev port : emits (S := S) is_silent (DomainPort_log ev port).
Proof. by apply emits_emit. Qed.

Lemma announce_receipt_timeout_silent port profile :
  emits (S := S) is_silent (start_announce_receipt_timeout port profile).
Proof. unfold start_announce_receipt_timeout, DomainPort_timeout, new_timeout, AnnounceReceiptTimeout_restart, Timeout_restart. emits. Qed.

Hint Resolve consider_silent local_grandmaster_silent log_silent announce_receipt_timeout_silent
  : emits.

(** Every transition is silent: the states it enters only log and start timeouts. *)
Lemma apply_silent d (s : PortState R) : emits is_silent (PortState_apply d s).
Proof.
  destruct d, s; cbn [PortState_apply]; try apply emits_panic; autounfold with transitions;
    unfold PortProfile_uncalibrated, PortProfile_slave, PortProfile_passive, PortProfile_listening,
      PortProfile_faulty, PortProfile_initializing, PortProfile_master, PortProfile_pre_master,
      UncalibratedPort_new, SlavePort_new, PassivePort_new, ListeningPort_new, FaultyPort_new,
      InitializingPort_new, MasterPort_new, PreMasterPort_new, DomainPort_timeout, new_timeout,
      Timeout_restart; emits.
Qed.

(** The states that neither send nor follow a master. *)
Definition silent_kind (k : StateKind) : bool :=
  match k with KMaster | KSlave | KUncalibrated => false | _ => true end.

Lemma drive_silent dispatch (f : PortFsm R) :
  (∀ s, fsm_state f = Some s → emits (S := S) is_silent (dispatch s)) →
  emits is_silent (PortFsm_drive dispatch f).
Proof.
  intros Hd. unfold PortFsm_drive, PortFsm_apply_decision.
  destruct (fsm_state f) as [s|]; [|emits].
  apply emits_bind; [by apply Hd|]. intros [[d|] s']; cbn [fsm_state]; [|emits].
  apply emits_bind; [apply apply_silent | intros; emits].
Qed.

(** In INITIALIZING, LISTENING, PRE_MASTER, PASSIVE and FAULTY no delivered message makes the
    port send a datagram, request a transmit timestamp or touch the clock: it only logs and
    handles timeouts. *)
Theorem silent_states_do_not_transmit (s : PortState R) : silent_kind (kind s) = true →
  (∀ src msg ts, emits (S := S) is_silent
     (PortFsm_process_event_message (F := F) src msg ts (PortFsm_new s))) ∧
  (∀ src msg now, emits (S := S) is_silent
     (PortFsm_process_general_message src msg now (PortFsm_new s))) ∧
  (∀ msg, emits (S := S) is_silent (PortFsm_process_system_message (F := F) msg (PortFsm_new s))).
Proof.
  intros Hk. split; [|split]; intros; apply drive_silent; intros ? [= <-].
  - destruct s; try discriminate Hk; destruct msg; apply emits_ret.
  - destruct s as [p|p|p|p|p|p|p|p]; try discriminate Hk; destruct msg; try apply emits_ret;
      cbn [PortState_dispatch_general]; unfold handled, ListeningPort_process_announce,
        PreMasterPort_process_announce, PassivePort_process_announce, AnnounceMessage_feed_bmca,
        AnnounceReceiptTimeout_restart, Timeout_restart; cbn [bmca_consider ListeningBmca_Bmca
        GrandMasterTrackingBmca_Bmca PassiveBmca_Bmca];
      unfold ListeningBmca_consider, GrandMasterTrackingBmca_consider, PassiveBmca_consider; emits.
  - destruct s; try discriminate Hk; destruct msg; try apply emits_ret;
      cbn [PortState_dispatch_system]; unfold decided; emits.
Qed.
End silent.

(** ** Losing the parent *)

Section transitions.
  Context {S : Type} `{HS : !StateDecisionEvent S} {R : Type} `{HR : !ForeignClockRecords R}.

Lemma local_grandmaster_eq (parts : BmcaParts R) tr (c : S) tr' c' :
  let current := BestForeignRecord_snapshot (bp_best_foreign parts) in
  sde_trigger (tr_received_on_port (bp_trigger parts)) current (mkWorld tr c)
  = Done (tt, mkWorld tr' c') →
  local_grandmaster_tracking parts (mkWorld tr c)
  = Done (mkGrandMasterTrackingBmca
            (mkBmcaParts (bp_bmca parts) (bp_best_foreign parts)
               (mkStateDecisionEventTrigger current (tr_received_on_port (bp_trigger parts))))
            (bm_d_0 (bp_bmca parts)), mkWorld tr' c').
Proof.
  intros current E. unfold local_grandmaster_tracking, StateDecisionEventTrigger_trigger.
  unfold mbind, M_bind. cbn [tr_received_on_port]. fold current. by rewrite E.
Qed.

Lemma master_entered port bmca profile (w : World S) :
  ∃ q w', PortProfile_master (R := R) port bmca profile w = Done (Master q, w') ∧
    mp_bmca q = bmca ∧ mp_port q = port ∧ mp_profile q = profile ∧
    w_shared w' = w_shared w ∧ ∀ e, e ∈ w_trace w → e ∈ w_trace w'.
Proof.
  unfold PortProfile_master, MasterPort_new, DomainPort_timeout, new_timeout, Timeout_restart,
    DomainPort_log. change (Duration_from_secs 0) with (Done (mkDuration 0)).
  unfold mbind, M_bind, lift, emit, get_trace, mret, M_ret.
  do 2 eexists. split; [reflexivity|]. do 4 (split; [done|]). intros e He. simpl.
  by repeat (apply elem_of_app; left).
Qed.

Lemma uncalibrated_entered port bmca profile (w : World S) :
  ∃ u w', PortProfile_uncalibrated (R := R) port bmca profile w = Done (Uncalibrated u, w') ∧
    up_bmca u = bmca.
Proof.
  unfold PortProfile_uncalibrated, UncalibratedPort_new, start_announce_receipt_timeout,
    DomainPort_timeout, new_timeout, AnnounceReceiptTimeout_restart, Timeout_restart,
    DomainPort_log. change (Duration_from_secs 0) with (Done (mkDuration 0)).
  unfold mbind, M_bind, lift, emit, get_trace, mret, M_ret.
  do 2 eexists. split; [reflexivity|]. done.
Qed.

(** A better candidate received on the port itself is followed. *)
Lemma decide_parts_slave d_0 ds src r (parts : BmcaParts R) :
  ClockDS_is_authoritative d_0 = false → cds_identity d_0 ≠ cds_identity ds →
  ClockDS_tuple_cmp d_0 ds = Gt → pi_port_number r = bm_port_number (bp_bmca parts) →
  ∃ parts', decide_parts d_0 (Qualified ds src r) parts
    = (BestForeignRecord_snapshot (bp_best_foreign parts), BD_Slave (mkParentPortIdentity src),
       parts').
Proof.
  intros Ha Hid Hc Hr. eexists. unfold decide_parts, BestMasterClockAlgorithm_decision.
  rewrite Ha. unfold NonAuthoritativeDecision_decision.
  rewrite LocalDS_better_eq by done. unfold d0_better. rewrite Hc.
  unfold ReceivedOnPortDecision_decision, QualifiedForeignSnapshot_parent_if_received_on_port,
    PortIdentity_port_number. cbn [qs_receiver bm_port_number].
  by rewrite bool_decide_eq_true_2.
Qed.
End transitions.

(** C38: When the Announces of a slave's better parent stop, the announce receipt timeout makes
    the port master of its own dataset, but the event it triggers carries the vanished parent's
    unpruned record, and delivering that event makes the port follow the vanished parent again. *)
Theorem announce_timeout_reinstates_vanished_parent `{MessageFlagsOps F} `{Env}
    `{ForeignClockRecords R} (p : SlavePort R) (c : OrdinaryClock) tr t ds src r :
  let parts := pb_parts (sp_bmca p) in
  let d_0 := bm_d_0 (bp_bmca parts) in
  BestForeignRecord_snapshot (bp_best_foreign parts) = Qualified ds src r →
  pi_port_number r = mkPortNumber 1 → tr_received_on_port (bp_trigger parts) = mkPortNumber 1 →
  bm_port_number (bp_bmca parts) = mkPortNumber 1 →
  sn_timeout (oc_port_notification c) = Some t → oc_default_ds c = d_0 →
  ClockDS_is_authoritative d_0 = false →
  cds_identity d_0 ≠ cds_identity ds → ClockDS_tuple_cmp d_0 ds = Gt →
  ∃ q w1 u w2,
    PortFsm_process_system_message (F := F) SM_AnnounceReceiptTimeout (PortFsm_new (Slave p))
      (mkWorld tr c) = Done (PortFsm_new (Master q), w1) ∧
    gb_grandmaster_ds (mp_bmca q) = d_0 ∧
    let event := SM_StateDecisionEvent (mkStateDecisionSnapshot d_0 (Qualified ds src r)) in
    E_RestartWithMessage t event (mkDuration 0) ∈ w_trace w1 ∧
    PortFsm_process_system_message (F := F) event (PortFsm_new (Master q)) w1
    = Done (PortFsm_new (Uncalibrated u), w2) ∧
    tracked_parent (Uncalibrated u) = Some src.
Proof.
  intros parts d_0 Hsnap Hr Ht Hb Hn Hds Hauth Hid Hcmp.
  set (cand := Qualified ds src r) in *.
  assert (fgc_remember (mkPortNumber 1) cand (oc_foreign_candidates c) = Done cand) as Hrem.
  { unfold cand. simpl. unfold PortIdentity_port_number. rewrite Hr. by rewrite bool_decide_eq_true_2. }
  pose proof (λ tr, OrdinaryClock_trigger_eq (mkPortNumber 1) cand c cand tr Hrem) as Htrig.
  rewrite Hds, Hn in Htrig. cbn [option_list fmap list_fmap notified] in Htrig.
  cbn [fgc_best Cell_ForeignGrandMasterCandidates] in Htrig.
  set (log := E_Log (dp_port_identity (sp_port p)) PE_AnnounceReceiptTimeout).
  set (event := SM_StateDecisionEvent (mkStateDecisionSnapshot d_0 cand)).
  pose proof (local_grandmaster_eq (S := OrdinaryClock) parts (tr ++ [log]) c
    ((tr ++ [log]) ++ [E_RestartWithMessage t event (mkDuration 0)])
    (OrdinaryClock_with_candidates cand c)) as E1.
  cbv zeta in E1. rewrite Hsnap, Ht in E1. specialize (E1 (Htrig _)).
  match type of E1 with _ = Done (?b, ?w) =>
    destruct (master_entered (sp_port p) b (sp_profile p) w)
      as (q & w1 & E2 & Hq & Hqp & Hqf & _ & Hw1) end.
  destruct (decide_parts_slave d_0 ds src r (gb_parts (mp_bmca q))) as (parts' & Hdec);
    [done | done | done | by rewrite Hq; simpl; rewrite Hr |].
  destruct (uncalibrated_entered (S := OrdinaryClock) (mp_port q)
    (mkParentTrackingBmca parts' (mkParentPortIdentity src)) (mp_profile q)
    (mkWorld (w_trace w1 ++ [E_Log (dp_port_identity (mp_port q))
       (PE_RecommendedSlave (mkParentPortIdentity src))]) (w_shared w1))) as (u & w2 & E3 & Hu).
  exists q, w1, u, w2. split; [|split; [by rewrite Hq|]]; [|split; [|split]].
  - unfold PortFsm_process_system_message, PortFsm_drive, PortState_dispatch_system,
      PortFsm_apply_decision, PortState_apply, SlavePort_announce_receipt_timeout_expired,
      DomainPort_log, emit, ParentTrackingBmca_into_local_grandmaster_tracking,
      mbind, M_bind, mret, M_ret; cbn [fsm_state PortFsm_new w_trace w_shared].
    fold parts log. rewrite E1. by rewrite E2.
  - apply Hw1. apply elem_of_app. right. left.
  - unfold PortFsm_process_system_message, PortFsm_drive, PortState_dispatch_system, event,
      decided, MasterPort_state_decision_event, decide_state, mbind, M_bind, mret, M_ret;
      cbn [fsm_state PortFsm_new bmca_decision GrandMasterTrackingBmca_Bmca sds_d_0 sds_e_best].
    unfold GrandMasterTrackingBmca_decision. change cand with (Qualified ds src r). rewrite Hdec.
    cbn [BmcaDecision_to_state_decision PortFsm_apply_decision fsm_state PortState_apply].
    unfold MasterPort_recommended_slave, DomainPort_log, emit, mbind, M_bind, mret, M_ret.
    cbn [mp_port mp_bmca mp_profile MasterPort_with_bmca].
    unfold GrandMasterTrackingBmca_into_parent_tracking. cbn [gb_parts]. by rewrite E3.
  - simpl. by rewrite Hu.
Qed.

(** ** What the network sees *)

Section network.
  Context {F : Type} `{HF : !MessageFlagsOps F} `{HL : !MessageFlagsLaws F} `{HE : !Env}.
  Context {R : Type} `{HR : !ForeignClockRecords R} (inv : R → Prop)
    `{!ForeignClockRecordsLaws R inv}.

(** A datagram of [net] decodes, as an event or a general message, to the message it was made
    from, sent by a port of the clock in the clock's domain. *)
Definition on_the_wire (net : PortContract) (e : Effect) : Prop :=
  match e with
  | E_SendEvent p bytes _ => pi_clock_identity p = pc_clock net ∧
      ∃ msg, EventMessage_wf msg ∧ carries_event (F := F) (mkDomainPort p (pc_domain net)) bytes msg
  | E_SendGeneral p bytes _ => pi_clock_identity p = pc_clock net ∧
      ∃ msg, GeneralMessage_wf msg ∧
        carries_general (F := F) (mkDomainPort p (pc_domain net)) bytes msg
  | _ => True
  end.

Lemma effect_ok_on_the_wire net e : effect_ok (F := F) net e → on_the_wire net e.
Proof.
  destruct e; try done.
  - intros (msg & Hm & Hp & Hc & ->). split; [done|]. exists msg. split; [done|].
    destruct (EventMessage_roundtrip_eq (F := F) (pc_domain net) _ msg Hp Hm) as (_ & ? & ? & ?).
    by split_and!.
  - intros (msg & Hm & Hp & Hc & ->). split; [done|]. exists msg. split; [done|].
    destruct (GeneralMessage_roundtrip_eq (F := F) (pc_domain net) _ msg Hp Hm) as (_ & ? & ? & ?).
    by split_and!.
Qed.

Lemma setup_on_the_wire net e : is_setup e → on_the_wire net e.
Proof. by destruct e. Qed.

(** Rewrite the run in [H] with [Er], whose world is convertible to it. *)
Ltac rewrite_run Er H :=
  match type of Er with run _ _ ?w1 = _ =>
    match type of H with context [run _ _ ?w2] => change w1 with w2 in Er end end;
  rewrite Er in H.

(** C20: Every datagram a clock ever sends is well formed: in any run of an ordinary clock's port,
    and in any interleaving over the ports of a boundary clock, on arbitrary received bytes and
    failing sends included, each datagram handed to the network passes the receiver's length
    check, carries the clock's domain and the identity of one of the clock's ports, and parses
    back to a well-formed message. *)
Theorem every_datagram_is_well_formed ds dn profile (store : R) (stores : list R) n
    inputs inputs' :
  ClockDS_wf ds → profile_wf profile → store_ok inv store → Forall PortInput_wf inputs →
  1 <= n < 2 ^ 16 - 1 → Z.of_nat (length stores) = n → Forall (store_ok inv) stores →
  Forall (λ ni, PortInput_wf ni.2) inputs' →
  (∃ c p w, OrdinaryClock_new ds dn profile = Done c ∧
     OrdinaryClock_port store (mkWorld [] c) = Done (Some p, w) ∧
     ∀ ports w', run (F := F) (pair 0%nat <$> inputs) [SingleDomainPortMap_new dn p] w
                 = Done (ports, w') →
       Forall (on_the_wire (clock_contract ds dn profile)) (w_trace w')) ∧
  (∃ c ports w,
     BoundaryClock_new ds dn n MultiPortForeignCandidates_new MultiPortNotification_new = Done c ∧
     create_ports stores (mkWorld [] c) = Done (ports, w) ∧
     ∀ ports' w', run (F := F) inputs' (SingleDomainPortMap_new dn <$> ports) w
                  = Done (ports', w') →
       Forall (on_the_wire (clock_contract ds dn default_profile)) (w_trace w')).
Proof.
  intros Hd Hpf Hs Hi Hn Hl Hss Hi'. split.
  - do 3 eexists. split; [reflexivity|]. split; [apply OrdinaryClock_port_eq|].
    intros ports w' Er.
    pose proof (ordinary_run inv ds dn profile store inputs
      [E_NewTimeout (mkTimeout 0 (SM_StateDecisionEvent (mkStateDecisionSnapshot ds Empty)));
       E_Log (mkPortIdentity (cds_identity ds) (mkPortNumber 1))
         (PE_Static "Become InitializingPort")] Hd Hpf Hs Hi) as H.
    cbv zeta in H. rewrite_run Er H. destruct H as (_ & _ & es & -> & Hes).
    apply Forall_app. split; [by repeat constructor|].
    eapply Forall_impl; [exact Hes | apply effect_ok_on_the_wire].
  - destruct (create_ports_eq stores ds dn n 1 MultiPortForeignCandidates_new [] [])
      as (tr & ts & E & _ & _ & _ & _ & Hdh & su & -> & Hsu); [lia..|].
    do 3 eexists. split; [|split; [exact E|]].
    { unfold BoundaryClock_new, PortEnumeration_sequential.
      by rewrite rassert_true by (apply Z.leb_le; lia). }
    intros ports' w' Er.
    pose proof (boundary_run inv ds dn (mkPortEnumeration n (1 + Z.of_nat (length stores))) stores
      ([] ++ ts) inputs' ([] ++ su) Hd ltac:(lia) Hss Hdh Hi') as H.
    cbv zeta in H. rewrite_run Er H. destruct H as (_ & _ & es & -> & Hes).
    apply Forall_app. split; (eapply Forall_impl; [eassumption|]).
    + intros e. apply setup_on_the_wire.
    + intros e. apply effect_ok_on_the_wire.
Qed.
End network.
