(* ===== verification/Exchange.v ===== *)
(** * What the two ends of a measurement put on the wire (crates/rptp/src/master.rs, slave.rs, uncalibrated.rs)

    For each input of an exchange, what a master and a port that follows it leave behind: the
    datagrams and timestamp requests, the steps of the clock, and the records of the delay
    mechanism. The statements hold for either servo, whether sends succeed or fail, and whatever
    else the port logs, restarts or reports. *)

From S2P Require Import Prelude Errors Time Clock PortId DataSet Foreign Stores Wire Message.
From S2P Require Import Effects Servo E2e Bmca Profile Handlers PortState PortSafety Clocks System.
From S2P Require Import Behaviour.

Open Scope Z_scope.

(** ** Effects on the wire and on the clock *)

(** The effects the other end of a path, or a reader of the clock, can tell. *)
Definition is_outward (e : Effect) : bool :=
  match e with
  | E_SendEvent _ _ _ | E_SendGeneral _ _ _ | E_StampEgress _ _ | E_ClockStep _ => true
  | _ => false
  end.

Definition outward (es : list Effect) : list Effect := filter (λ e, is_outward e = true) es.

Lemma outward_app es es' : outward (es ++ es') = outward es ++ outward es'.
Proof. apply filter_app. Qed.

Definition inward (e : Effect) : Prop := is_outward e = false.

Lemma outward_inward es : Forall inward es → outward es = [].
Proof.
  induction 1 as [|e es He _ IH]; [done|]. unfold outward in *.
  by rewrite filter_cons_False by (unfold inward in He; congruence).
Qed.

Section does.
  Context {S : Type}.

(** Where the computation returns, its value and its outward effects satisfy [Q]. *)
Definition does {A} (Q : A → list Effect → Prop) (m : M S A) : Prop :=
  ∀ w a w', m w = Done (a, w') → ∃ es, w_trace w' = w_trace w ++ es ∧ Q a (outward es).

Lemma does_ret {A} (Q : A → list Effect → Prop) a : Q a [] → does Q (mret a).
Proof. intros H w a' w' [= <- <-]. exists []. by rewrite app_nil_r. Qed.

Lemma does_panic {A} (Q : A → list Effect → Prop) : does Q panic.
Proof. by intros w a w' [=]. Qed.

Lemma does_bind {A B} (P : A → list Effect → Prop) (Q : B → list Effect → Prop) (m : M S A)
    (k : A → M S B) :
  does P m → (∀ a es, P a es → does (λ b es', Q b (es ++ es')) (k a)) → does Q (m ≫= k).
Proof.
  intros Hm Hk w b w' E. unfold mbind, M_bind in E. destruct (m w) as [[a w1]|] eqn:Em; [|done].
  destruct (Hm w a w1 Em) as (es & Et & HP). destruct (Hk a _ HP w1 b w' E) as (es' & Et' & HQ).
  exists (es ++ es'). rewrite Et', Et, app_assoc. split; [done|]. by rewrite outward_app.
Qed.

Lemma does_mono {A} (P Q : A → list Effect → Prop) (m : M S A) :
  does P m → (∀ a es, P a es → Q a es) → does Q m.
Proof.
  intros Hm HQ w a w' E. destruct (Hm w a w' E) as (es & Et & HP). exists es. split; [done|].
  by apply HQ.
Qed.

(** A computation that only touches what stays inside. *)
Lemma does_inward {A B} (Q : B → list Effect → Prop) (m : M S A) (k : A → M S B) :
  emits inward m → (∀ a, does Q (k a)) → does Q (m ≫= k).
Proof.
  intros Hm Hk. eapply (does_bind (λ _ es, es = [])); [|intros a ? ->; apply Hk].
  intros w a w' E. specialize (Hm w). rewrite E in Hm. destruct Hm as (es & Et & He).
  exists es. split; [done|]. by apply outward_inward.
Qed.

Lemma does_lift {A B} (Q : B → list Effect → Prop) (o : outcome A) (k : A → M S B) :
  (∀ a, o = Done a → does Q (k a)) → does Q (lift o ≫= k).
Proof.
  intros H w b w'. unfold mbind, M_bind, lift. destruct o as [a|]; [|done]. by apply H.
Qed.

Lemma does_emit {B} (Q : B → list Effect → Prop) e (k : () → M S B) :
  is_outward e = true → does (λ b es, Q b (e :: es)) (k tt) → does Q (emit e ≫= k).
Proof.
  intros He Hk. eapply (does_bind (λ _ es, es = [e])); [|by intros [] ? ->].
  intros w a w' [= <- <-]. exists [e]. split; [done|]. unfold outward.
  by rewrite filter_cons_True by done.
Qed.

Lemma does_assoc {A B C} (Q : C → list Effect → Prop) (m : M S A) (f : A → M S B) (k : B → M S C) :
  does Q (a ← m; f a ≫= k) → does Q ((m ≫= f) ≫= k).
Proof.
  intros H w c w' E. apply H. revert E. unfold mbind, M_bind. by destruct (m w) as [[a w1]|].
Qed.

Lemma does_ret_bind {A B} (Q : B → list Effect → Prop) a (k : A → M S B) :
  does Q (k a) → does Q (mret a ≫= k).
Proof. done. Qed.
End does.

(** Computations that stay inside. *)
Ltac inside := repeat (cbv beta zeta; first
  [ apply emits_ret | apply emits_lift | apply emits_panic | apply emits_get_trace
  | apply emits_emit; reflexivity | solve [auto with inside nocore] | apply emits_bind; [|intros ?]
  | lazymatch goal with
    | |- emits _ (match ?x with _ => _ end) => destruct x
    | |- emits _ ?m => let h := head_of m in unfold h
    end ]).

Create HintDb inside.

(** Walk over the calls of a computation that stay inside. *)
Ltac walk_inside := repeat (cbv beta zeta; lazymatch goal with
  | |- does _ (mret _ ≫= _) => apply does_ret_bind
  | |- does _ ((_ ≫= _) ≫= _) => apply does_assoc
  | |- does _ (_ ≫= _) => apply does_inward; [solve [inside]|]; intros ?
  end).

(** ** The servo *)

(** A clock step, if any, is to the sample's estimate of the master's time. *)
Definition steps_to_estimate (sample : ServoSample) (es : list Effect) : Prop :=
  es = [] ∨ ∃ to, ServoSample_master_estimate sample = Done (Some to) ∧ es = [E_ClockStep to].

Lemma should_step_to policy sample to policy' :
  StepPolicy_should_step policy sample = Done (StepTo to, policy') →
  ServoSample_master_estimate sample = Done (Some to).
Proof.
  unfold StepPolicy_should_step, step_to_estimate. intros H.
  apply outcome_bind_inv in H as (first & _ & H).
  destruct first; [|apply outcome_bind_inv in H as (beyond & _ & H); destruct beyond; [|done]].
  all: apply outcome_bind_inv in H as (d & E & [= -> _]);
    apply outcome_bind_inv in E as ([ts|] & -> & [= ->]); done.
Qed.

Section servo.
  Context {S : Type}.

Lemma PiServo_step_does sample servo :
  does (S := S) (λ _ es, steps_to_estimate sample es) (PiServo_step sample servo).
Proof.
  unfold PiServo_step. apply does_lift. intros [[to|] policy] E.
  - apply does_emit; [done|]. apply does_ret. right. exists to. split; [|done].
    by eapply should_step_to.
  - apply does_ret. by left.
Qed.

Lemma Servo_feed_does sample servo :
  does (S := S) (λ _ es, steps_to_estimate sample es) (Servo_feed sample servo).
Proof.
  destruct servo as [|servo]; unfold Servo_feed.
  - unfold SteppingServo_feed. apply does_assoc.
    apply does_inward; [by apply emits_emit|]. intros _. apply does_assoc, does_lift.
    intros [to|] E; [|apply does_ret; by left]. apply does_assoc, does_emit; [done|].
    apply does_ret. right. by exists to.
  - unfold PiServo_feed. apply does_assoc.
    apply does_inward; [by apply emits_emit|]. intros _. apply does_assoc.
    eapply does_bind; [apply PiServo_step_does|]. intros [[state|] servo1] es Hes; cbv beta iota.
    { apply does_ret_bind, does_ret. by rewrite app_nil_r. }
    apply does_assoc, does_inward.
    { destruct (ps_state servo1); unfold PiServo_calibrate, PiLoop_feed; inside. }
    intros [state servo2]. apply does_ret_bind, does_ret. by rewrite app_nil_r.
Qed.

(** The stepping servo sets the clock to every estimate there is. *)
Lemma stepping_feed_does sample to : ServoSample_master_estimate sample = Done (Some to) →
  does (S := S) (λ r es, r = (Locked, Servo_Stepping) ∧ es = [E_ClockStep to])
    (Servo_feed sample Servo_Stepping).
Proof.
  intros E. unfold Servo_feed, SteppingServo_feed. apply does_assoc.
  apply does_inward; [by apply emits_emit|]. intros _. apply does_assoc, does_lift. rewrite E. intros ? [= <-]. apply does_assoc, does_emit; [done|].
  by apply does_ret_bind, does_ret.
Qed.
End servo.

(** ** A port that follows a master *)

Section follower.
  Context {F : Type} `{HF : !MessageFlagsOps F} `{HL : !MessageFlagsLaws F} `{HE : !Env}.
  Context {S : Type} `{HS : !StateDecisionEvent S} {R : Type} `{HR : !ForeignClockRecords R}.

(** A port, with its identity and the records of its delay mechanism, that follows [parent]. *)
Definition tracks (port : DomainPort) (parent : PortIdentity) (m : EndToEndDelayMechanism)
    (s : PortState R) : Prop :=
  match s with
  | Slave p => sp_port p = port ∧ ppi_identity (pb_parent_port_identity (sp_bmca p)) = parent ∧
               sp_delay_mechanism p = m
  | Uncalibrated p =>
      up_port p = port ∧ ppi_identity (pb_parent_port_identity (up_bmca p)) = parent ∧
      up_delay_mechanism p = m
  | _ => False
  end.

(** The servo of a port that has one. *)
Definition port_servo (s : PortState R) : option Servo :=
  match s with
  | Slave p => Some (sp_servo p)
  | Uncalibrated p => Some (up_servo p)
  | _ => None
  end.

Context (port : DomainPort) (parent : PortIdentity).

Lemma matches_parent (b : ParentTrackingBmca R) :
  ppi_identity (pb_parent_port_identity b) = parent →
  ParentTrackingBmca_matches_parent parent b = true.
Proof. intros <-. by apply bool_decide_eq_true. Qed.

(** The state machine follows with records [m], and had outward effects [es]. *)
Definition still (m : EndToEndDelayMechanism) (f : PortFsm R) : Prop :=
  ∃ s, f = PortFsm_new s ∧ tracks port parent m s.

(** It still follows, with the servo of [s]. *)
Definition keeps (s : PortState R) (m : EndToEndDelayMechanism) (f : PortFsm R) : Prop :=
  ∃ s', f = PortFsm_new s' ∧ tracks port parent m s' ∧ port_servo s' = port_servo s.

Lemma keeps_still s m f : keeps s m f → still m f.
Proof. intros (s' & -> & Hs & _). by exists s'. Qed.

Lemma log_inside ev p : emits (S := S) inward (DomainPort_log ev p).
Proof. by apply emits_emit. Qed.
Hint Resolve log_inside : inside.

(** A dispatch that logs and leaves a state, without a decision. *)
Lemma drive_plain (P : PortFsm R → Prop) dispatch (s : PortState R) :
  does (S := S) (λ r es, r.1 = None ∧ P (PortFsm_new r.2) ∧ es = []) (dispatch s) →
  does (λ f es, P f ∧ es = []) (PortFsm_drive dispatch (PortFsm_new s)).
Proof.
  intros Hd. unfold PortFsm_drive. cbn [fsm_state PortFsm_new]. eapply does_bind; [exact Hd|].
  intros [d s'] ? (Ed & Hs & ->). simpl in Ed. subst d. by apply does_ret.
Qed.

(** Log, check the sender, record. *)
Ltac record Hb :=
  apply drive_plain; unfold PortState_dispatch_event, PortState_dispatch_general,
    PortState_dispatch_system, decided, UncalibratedPort_process_two_step_sync,
    UncalibratedPort_process_delay_response, UncalibratedPort_process_delay_request,
    SlavePort_process_two_step_sync, SlavePort_process_delay_response,
    SlavePort_process_delay_request;
  cbn [tm_event_msg tm_egress_timestamp];
  apply does_assoc, does_inward; [apply log_inside|]; intros _;
  rewrite ?(matches_parent _ Hb); cbn [negb];
  apply does_ret_bind, does_ret; (split; [done|]); (split; [|done]);
  eexists; (split; [reflexivity|]); by split_and!.

Lemma follower_two_step_sync sync ts m s : tracks port parent m s →
  does (S := S) (λ f es, keeps s (em_record_two_step_sync sync ts m) f ∧ es = [])
    (PortFsm_process_event_message (F := F) parent (TwoStepSync sync) ts (PortFsm_new s)).
Proof.
  intros Hs. destruct s as [p|p|p|p|p|p|p|p]; try done; destruct Hs as (<- & Hb & <-); record Hb.
Qed.

Lemma follower_delay_response resp now m s : tracks port parent m s →
  does (S := S) (λ f es, keeps s (em_record_delay_response resp m) f ∧ es = [])
    (PortFsm_process_general_message parent (DelayResp resp) now (PortFsm_new s)).
Proof.
  intros Hs. destruct s as [p|p|p|p|p|p|p|p]; try done; destruct Hs as (<- & Hb & <-); record Hb.
Qed.

Lemma follower_timestamp req ts m s : tracks port parent m s →
  does (S := S) (λ f es, keeps s (em_record_delay_request req ts m) f ∧ es = [])
    (PortFsm_process_system_message (F := F) (SM_Timestamp (mkTimestampMessage (DelayReq req) ts))
       (PortFsm_new s)).
Proof.
  intros Hs. destruct s as [p|p|p|p|p|p|p|p]; try done; destruct Hs as (<- & Hb & <-); record Hb.
Qed.

(** The effects of feeding the servo what the mechanism measured, if it did. *)
Definition feeds (m : EndToEndDelayMechanism) (es : list Effect) : Prop :=
  es = [] ∨ ∃ sample to, em_sample m = Done (Some sample) ∧
    ServoSample_master_estimate sample = Done (Some to) ∧ es = [E_ClockStep to].

Lemma steps_to_estimate_feeds m sample es : em_sample m = Done (Some sample) →
  steps_to_estimate sample es → feeds m es.
Proof. intros Em [->|(to & Et & ->)]; [by left | right; by exists sample, to]. Qed.

Lemma announce_receipt_timeout_inside p profile :
  emits (S := S) inward (start_announce_receipt_timeout p profile).
Proof. inside. Qed.
Hint Resolve announce_receipt_timeout_inside : inside.

(** The decisions a fed sample leads to keep following. *)
Lemma uncalibrated_locks p' m s : tracks port parent m (Uncalibrated s) →
  does (S := S) (λ s' es, tracks port parent m s' ∧ es = [])
    (PortState_apply (MasterClockSelected p') (Uncalibrated s)).
Proof.
  intros (Hp & Hb & Hm). cbn [PortState_apply]. unfold UncalibratedPort_master_clock_selected,
    PortProfile_slave, SlavePort_new. walk_inside. by apply does_ret.
Qed.

Lemma slave_unlocks m s : tracks port parent m (Slave s) →
  does (S := S) (λ s' es, tracks port parent m s' ∧ es = [])
    (PortState_apply SynchronizationFault (Slave s)).
Proof.
  intros (Hp & Hb & Hm). cbn [PortState_apply]. unfold SlavePort_synchronization_fault,
    UncalibratedPort_new. walk_inside. by apply does_ret.
Qed.

Lemma follower_follow_up fu now m s : tracks port parent m s →
  let m' := em_record_follow_up fu m in
  does (S := S) (λ f es, still m' f ∧ feeds m' es)
    (PortFsm_process_general_message parent (FollowUp fu) now (PortFsm_new s)).
Proof.
  intros Hs m'. unfold PortFsm_process_general_message, PortFsm_drive. cbn [fsm_state PortFsm_new].
  assert (does (S := S) (λ r es, tracks port parent m' r.2 ∧ feeds m' es ∧
    ∀ d, r.1 = Some d → does (S := S) (λ s' es, tracks port parent m' s' ∧ es = []) (PortState_apply d r.2))
    (PortState_dispatch_general (FollowUp fu) parent now s)) as Hd.
  { destruct s as [p|p|p|p|p|p|p|p]; try done; destruct Hs as (Hp & Hb & <-);
      cbn [PortState_dispatch_general]; unfold decided, UncalibratedPort_process_follow_up,
        SlavePort_process_follow_up, UncalibratedPort_feed_sample, SlavePort_feed_sample;
      apply does_assoc, does_inward; try apply log_inside; intros _;
      rewrite (matches_parent _ Hb); cbn [negb]; apply does_assoc, does_lift;
      (intros [sample|] E; [|apply does_ret_bind, does_ret; split_and!; [done | by left | done]]);
      apply does_assoc; (eapply does_bind; [apply Servo_feed_does|]); intros [state servo] es Hes;
      apply does_ret_bind, does_ret; rewrite app_nil_r; cbn [fst snd];
      (split; [done|]); (split; [by eapply steps_to_estimate_feeds|]); intros d Ed;
      destruct state; try discriminate Ed; injection Ed as <-;
      first [by apply slave_unlocks | by apply uncalibrated_locks]. }
  eapply does_bind; [exact Hd|]. intros [[d|] s'] es (Hs' & Hes & Hap); cbn [fst snd] in *.
  - unfold PortFsm_apply_decision. cbn [fsm_state].
    eapply does_bind; [by apply Hap|]. intros s'' ? [Hs'' ->]. apply does_ret.
    rewrite app_nil_r. split; [by exists s''|done].
  - apply does_ret. rewrite app_nil_r. split; [by exists s'|done].
Qed.

(** With the stepping servo, a Follow-up that completes a measurement sets the clock and leaves a
    slave. *)
Lemma follower_steps fu now m s sample to : tracks port parent m s →
  port_servo s = Some Servo_Stepping → em_sample (em_record_follow_up fu m) = Done (Some sample) →
  ServoSample_master_estimate sample = Done (Some to) →
  does (S := S) (λ f es, (∃ q, f = PortFsm_new (Slave q)) ∧ es = [E_ClockStep to])
    (PortFsm_process_general_message parent (FollowUp fu) now (PortFsm_new s)).
Proof.
  intros Hs Hservo Esample Eto.
  unfold PortFsm_process_general_message, PortFsm_drive. cbn [fsm_state PortFsm_new].
  assert (does (S := S) (λ r es, es = [E_ClockStep to] ∧
    match r with
    | (Some d, s') => does (S := S) (λ s'' es, (∃ q, s'' = Slave q) ∧ es = []) (PortState_apply d s')
    | (None, s') => ∃ q, s' = Slave q
    end) (PortState_dispatch_general (FollowUp fu) parent now s)) as Hd.
  { destruct s as [p|p|p|p|p|p|p|p]; try done; destruct Hs as (_ & Hb & <-); injection Hservo as Hservo;
      cbn [PortState_dispatch_general]; unfold decided, UncalibratedPort_process_follow_up,
        SlavePort_process_follow_up, UncalibratedPort_feed_sample, SlavePort_feed_sample;
      apply does_assoc, does_inward; try apply log_inside; intros _;
      rewrite (matches_parent _ Hb); cbn [negb]; apply does_assoc, does_lift; cbn; rewrite Esample; intros ? [= <-]; apply does_assoc; rewrite Hservo;
      (eapply does_bind; [by apply stepping_feed_does|]); intros ? ? [-> ->];
      apply does_ret_bind, does_ret; (split; [done|]); [by eexists|].
    cbn [PortState_apply]. unfold UncalibratedPort_master_clock_selected, PortProfile_slave,
      SlavePort_new. walk_inside. apply does_ret. by split; [eexists|]. }
  eapply does_bind; [exact Hd|]. intros [[d|] s'] es [-> Hr].
  - unfold PortFsm_apply_decision. cbn [fsm_state].
    eapply does_bind; [exact Hr|]. intros ? ? [(q & ->) ->]. apply does_ret. by split; [eexists|].
  - destruct Hr as (q & ->). apply does_ret. by split; [eexists|].
Qed.

(** An Announce moves only the bmca's records. *)
Context (Htrigger : ∀ p s, emits is_silent (sde_trigger (S := S) p s)).

Lemma emits_silent_inward {A} (m : M S A) : emits is_silent m → emits inward m.
Proof.
  intros Hm w. specialize (Hm w). destruct (m w) as [[a w']|]; [|done].
  destruct Hm as (es & E & He). exists es. split; [done|]. eapply Forall_impl; [exact He|].
  by intros [].
Qed.

Lemma feed_bmca_does src now msg (b : ParentTrackingBmca R) :
  does (S := S) (λ b' es, pb_parent_port_identity b' = pb_parent_port_identity b ∧ es = [])
    (AnnounceMessage_feed_bmca src now msg b).
Proof.
  unfold AnnounceMessage_feed_bmca. apply does_lift. intros [li|] _; [|by apply does_ret].
  cbn [bmca_consider ParentTrackingBmca_Bmca]. unfold ParentTrackingBmca_consider.
  apply does_inward; [by apply emits_silent_inward, consider_silent|]. intros p. by apply does_ret.
Qed.

Lemma follower_announce msg src now m s : tracks port parent m s →
  does (S := S) (λ f es, still m f ∧ es = [])
    (PortFsm_process_general_message src (Announce msg) now (PortFsm_new s)).
Proof.
  intros Hs. destruct s as [p|p|p|p|p|p|p|p]; try done; destruct Hs as (Hp & Hb & Hm);
    apply drive_plain; cbn [PortState_dispatch_general];
    unfold handled, SlavePort_process_announce, UncalibratedPort_process_announce;
    apply does_assoc, does_inward; try (by apply log_inside); intros _;
    apply does_assoc, does_inward; try (by inside); intros _; apply does_assoc;
    (eapply does_bind; [apply feed_bmca_does|]); intros b ? [Eb ->];
    apply does_ret_bind, does_ret; (split; [done|]); (split; [|done]); eexists;
    (split; [reflexivity|]); split_and!; simpl; congruence.
Qed.
End follower.

#[export] Hint Resolve log_inside announce_receipt_timeout_inside : inside.

(** ** Sends *)

(** A datagram with the well-formed [msg] left the port, and its timestamp is asked for. *)
Definition sends_event {F} `{MessageFlagsOps F} (port : DomainPort) (msg : EventMessage)
    (es : list Effect) : Prop :=
  ∃ bytes, carries_event (F := F) port bytes msg ∧ EventMessage_wf msg ∧
    es = [E_SendEvent (dp_port_identity port) bytes true; E_StampEgress (dp_port_identity port) msg].

Definition sends_general {F} `{MessageFlagsOps F} (port : DomainPort) (msg : GeneralMessage)
    (es : list Effect) : Prop :=
  ∃ bytes, carries_general (F := F) port bytes msg ∧ GeneralMessage_wf msg ∧
    es = [E_SendGeneral (dp_port_identity port) bytes true].

(** The network takes every datagram. *)
Definition accepting `{Env} : Prop := ∀ tr id bytes, env_send_ok tr id bytes = true.

(** The network refused a datagram, and the port is faulty. *)
Definition refused `{Env} {R} (f : PortFsm R) (es : list Effect) : Prop :=
  (∃ p, f = PortFsm_new (Faulty p)) ∧ ¬ accepting ∧
  ∃ id bytes, es = [E_SendEvent id bytes false] ∨ es = [E_SendGeneral id bytes false].

Section sends.
  Context {F : Type} `{HF : !MessageFlagsOps F} `{HL : !MessageFlagsLaws F} `{HE : !Env}.
  Context {S : Type} `{HS : !StateDecisionEvent S} {R : Type} `{HR : !ForeignClockRecords R}.

(** What a send returns, and what it did. *)
Definition sent_event (port : DomainPort) (msg : EventMessage) (r : SendResult) (es : list Effect)
    : Prop :=
  match r with
  | Ok _ => sends_event (F := F) port msg es
  | Err _ => ¬ accepting ∧ ∃ id bytes, es = [E_SendEvent id bytes false]
  end.

Definition sent_general (port : DomainPort) (msg : GeneralMessage) (r : SendResult)
    (es : list Effect) : Prop :=
  match r with
  | Ok _ => sends_general (F := F) port msg es
  | Err _ => ¬ accepting ∧ ∃ id bytes, es = [E_SendGeneral id bytes false]
  end.

Lemma send_event_does msg port : DomainPort_wf port → EventMessage_wf msg →
  does (S := S) (sent_event port msg) (DomainPort_send_event (F := F) msg port).
Proof.
  intros Hp Hm w r w' E. destruct (send_event_eq (F := F) (S := S) msg port Hp Hm) as (bytes & Hc & Es).
  rewrite Es in E.
  destruct (env_send_ok _ _ _) eqn:Eok; injection E as <- <-; eexists; (split; [reflexivity|]).
  - by exists bytes.
  - split; [|by do 2 eexists]. intros Ha. by rewrite Ha in Eok.
Qed.

Lemma send_general_does msg port : DomainPort_wf port → GeneralMessage_wf msg →
  does (S := S) (sent_general port msg) (DomainPort_send_general (F := F) msg port).
Proof.
  intros Hp Hm w r w' E.
  destruct (send_general_eq (F := F) (S := S) msg port Hp Hm) as (bytes & Hc & Es).
  rewrite Es in E.
  destruct (env_send_ok _ _ _) eqn:Eok; injection E as <- <-; eexists; (split; [reflexivity|]).
  - by exists bytes.
  - split; [|by do 2 eexists]. intros Ha. by rewrite Ha in Eok.
Qed.

(** A step that sends, and is over with a fault where it could not. *)
Lemma drive_sends {P} (Q : PortFsm R → list Effect → Prop) (wrap : P → PortState R)
    (m : M S (SendResult * P)) dispatch s :
  dispatch s = sent wrap m →
  (∀ p, does (S := S) (λ s' es, (∃ q, s' = Faulty q) ∧ es = []) (PortState_apply FaultDetected (wrap p))) →
  does (S := S) (λ r es, match r.1 with
                         | Ok _ => Q (PortFsm_new (wrap r.2)) es
                         | Err _ => ¬ accepting ∧ ∃ id bytes,
                             es = [E_SendEvent id bytes false] ∨ es = [E_SendGeneral id bytes false]
                         end) m →
  does (λ f es, Q f es ∨ refused f es) (PortFsm_drive dispatch (PortFsm_new s)).
Proof.
  intros Ed Hf Hm. unfold PortFsm_drive. cbn [fsm_state PortFsm_new]. rewrite Ed. unfold sent.
  apply does_assoc. eapply does_bind; [exact Hm|]. intros [[[]|e] p] es Hes; cbn [fst snd] in Hes.
  - apply does_ret_bind, does_ret. left. by rewrite app_nil_r.
  - apply does_ret_bind. unfold PortFsm_apply_decision. cbn [fsm_state].
    eapply does_bind; [apply Hf|]. intros s' ? [[q ->] ->]. apply does_ret. right.
    rewrite !app_nil_r. split; [by exists q|exact Hes].
Qed.

Lemma faults_inside port (parts : BmcaParts R) profile :
  does (S := S) (λ s' es, (∃ q, s' = Faulty q) ∧ es = []) (PortProfile_faulty port parts profile).
Proof.
  unfold PortProfile_faulty, FaultyPort_new. walk_inside. apply does_ret. by split; [eexists|].
Qed.

(** *** The follower's delay request *)

(** The mechanism after a request: the next sequence id. *)
Definition requested (m : EndToEndDelayMechanism) : EndToEndDelayMechanism :=
  mkEndToEndDelayMechanism
    (mkDelayCycle (SequenceId_next (dc_sequence_id (em_delay_cycle m)))
       (dc_timeout (em_delay_cycle m)) (dc_log_interval (em_delay_cycle m)))
    (em_sync_exchange m) (em_delay_exchange m) (em_sync_ingress_timestamp m).

Lemma em_delay_request_does m :
  does (S := S) (λ r es, r = (DelayCycle_delay_request (em_delay_cycle m), requested m) ∧ es = [])
    (em_delay_request m).
Proof. unfold em_delay_request, DelayCycle_next. walk_inside. by apply does_ret. Qed.

Lemma follower_delay_request port parent m s : tracks port parent m s → DomainPort_wf port →
  SequenceId_wf (dc_sequence_id (em_delay_cycle m)) →
  does (S := S) (λ f es, keeps port parent s (requested m) f ∧
      sends_event (F := F) port (DelayReq (DelayCycle_delay_request (em_delay_cycle m))) es ∨
      refused f es)
    (PortFsm_process_system_message (F := F) SM_DelayRequestTimeout (PortFsm_new (R := R) s)).
Proof.
  intros Hs Hp Hq. destruct s as [p|p|p|p|p|p|p|p]; try done; destruct Hs as (<- & Hb & <-).
  all: eapply (drive_sends (λ f es, keeps _ parent _ _ f ∧ sends_event _ _ es));
    [reflexivity | intros ?; apply faults_inside|];
    unfold SlavePort_send_delay_request, UncalibratedPort_send_delay_request;
    (eapply does_bind; [apply em_delay_request_does|]); intros [? ?] ? [[= -> ->] ->];
    (eapply does_bind; [by apply send_event_does|]); intros [[]|e] es Hes; walk_inside;
    apply does_ret; rewrite app_nil_r; cbn [fst snd app].
  1,3: split; [|exact Hes]; eexists; (split; [reflexivity|]); by split_and!.
  all: destruct Hes as (Hno & id & bytes & ->); split; [done|]; exists id, bytes; by left.
Qed.

(** *** The master *)

(** A master at [port] whose next Sync has sequence id [seq]. *)
Definition serves (port : DomainPort) (seq : SequenceId) (s : PortState R) : Prop :=
  match s with
  | Master p => mp_port p = port ∧ sc_sequence_id (mp_sync_cycle p) = seq ∧ master_ok p
  | _ => False
  end.

Definition serving (port : DomainPort) (seq : SequenceId) (f : PortFsm R) : Prop :=
  ∃ s, f = PortFsm_new s ∧ serves port seq s.

(** A handler that sends once, and what it leaves if it could. *)
Ltac master_sends Q :=
  eapply (drive_sends Q); [reflexivity | intros ?; apply faults_inside|].

Lemma master_sync_does port seq s : serves port seq s →
  does (S := S) (λ f es, serving port (SequenceId_next seq) f ∧
      (∃ log, sends_event (F := F) port (TwoStepSync (mkTwoStepSyncMessage seq log)) es) ∨ refused f es)
    (PortFsm_process_system_message (F := F) SM_SyncTimeout (PortFsm_new s)).
Proof.
  intros Hs. destruct s as [p|p|p|p|p|p|p|p]; try done. destruct Hs as (<- & <- & Hok).
  pose proof Hok as (Hp & ? & ? & ? & Hseq & Hl & ?).
  master_sends (λ f es, serving (mp_port p) (SequenceId_next (sc_sequence_id (mp_sync_cycle p))) f ∧
    ∃ log, sends_event (F := F) (mp_port p)
      (TwoStepSync (mkTwoStepSyncMessage (sc_sequence_id (mp_sync_cycle p)) log)) es).
  unfold MasterPort_send_sync, SyncCycle_next. cbv zeta.
  eapply does_bind; [apply send_event_does; [done|]; split; [done | by apply LogInterval_message_wf]|].
  intros [[]|e] es Hes; walk_inside; apply does_ret; rewrite app_nil_r; cbn [fst snd].
  - split; [|by eexists]. eexists. split; [reflexivity|]. split; [done|]. split; [done|].
    unfold master_ok. cbn. split_and!; try done. by apply SequenceId_next_wf.
  - destruct Hes as (Hno & id & bytes & ->). split; [done|]. exists id, bytes. by left.
Qed.

Lemma master_announce_does port seq s : serves port seq s →
  does (S := S) (λ f es, serving port seq f ∧ (∃ a, sends_general (F := F) port (Announce a) es) ∨
      refused f es)
    (PortFsm_process_system_message (F := F) SM_AnnounceSendTimeout (PortFsm_new s)).
Proof.
  intros Hs. destruct s as [p|p|p|p|p|p|p|p]; try done. destruct Hs as (<- & <- & Hok).
  pose proof Hok as (Hp & Hg & Ha & Hla & ?).
  master_sends (λ f es, serving (mp_port p) (sc_sequence_id (mp_sync_cycle p)) f ∧
    ∃ a, sends_general (F := F) (mp_port p) (Announce a) es).
  unfold MasterPort_send_announce, AnnounceCycle_next. cbv zeta.
  apply does_inward; [inside|]. intros scale.
  eapply does_bind; [apply send_general_does; [done|]; split_and!; simpl;
    auto using LogInterval_message_wf|].
  intros [[]|e] es Hes; walk_inside; apply does_ret; rewrite app_nil_r; cbn [fst snd].
  - split; [|by eexists]. eexists. split; [reflexivity|]. split; [done|]. split; [done|].
    unfold master_ok. cbn. split_and!; try done; try apply H. by apply SequenceId_next_wf.
  - destruct Hes as (Hno & id & bytes & ->). split; [done|]. exists id, bytes. by right.
Qed.

Lemma master_follow_up_does port seq s sync ts : serves port seq s →
  TwoStepSyncMessage_wf sync → TimeStamp_wf ts →
  does (S := S) (λ f es, serving port seq f ∧
      sends_general (F := F) port (FollowUp (TwoStepSyncMessage_follow_up ts sync)) es ∨ refused f es)
    (PortFsm_process_system_message (F := F) (SM_Timestamp (mkTimestampMessage (TwoStepSync sync) ts))
       (PortFsm_new s)).
Proof.
  intros Hs [Hsy Hl] Ht. destruct s as [p|p|p|p|p|p|p|p]; try done. destruct Hs as (<- & <- & Hok).
  master_sends (λ f es, serving (mp_port p) (sc_sequence_id (mp_sync_cycle p)) f ∧
    sends_general (F := F) (mp_port p) (FollowUp (TwoStepSyncMessage_follow_up ts sync)) es).
  cbn [tm_event_msg tm_egress_timestamp]. unfold MasterPort_send_follow_up.
  eapply does_bind; [apply send_general_does; [apply Hok|]; by split_and!|].
  intros [[]|e] es Hes; walk_inside; apply does_ret; rewrite app_nil_r; cbn [fst snd].
  - split; [|done]. eexists. split; [reflexivity|]. by split_and!.
  - destruct Hes as (Hno & id & bytes & ->). split; [done|]. exists id, bytes. by right.
Qed.

Lemma master_response_does port seq s req src ts : serves port seq s →
  DelayRequestMessage_wf req → PortIdentity_wf src → TimeStamp_wf ts →
  does (S := S) (λ f es, serving port seq f ∧
      (∃ log, sends_general (F := F) port (DelayResp (DelayRequestMessage_response log ts src req)) es) ∨
      refused f es)
    (PortFsm_process_event_message (F := F) src (DelayReq req) ts (PortFsm_new s)).
Proof.
  intros Hs Hr Hsrc Ht. destruct s as [p|p|p|p|p|p|p|p]; try done. destruct Hs as (<- & <- & Hok).
  pose proof Hok as (Hp & _ & _ & _ & _ & _ & Hl).
  master_sends (λ f es, serving (mp_port p) (sc_sequence_id (mp_sync_cycle p)) f ∧
    ∃ log, sends_general (F := F) (mp_port p) (DelayResp (DelayRequestMessage_response log ts src req)) es).
  unfold MasterPort_process_delay_request. apply does_inward; [inside|]. intros _. cbv zeta.
  eapply does_bind; [apply send_general_does; [done|]; split_and!; simpl;
    auto using LogInterval_message_wf|].
  intros [[]|e] es Hes; walk_inside; apply does_ret; rewrite app_nil_r; cbn [fst snd].
  - split; [|by eexists]. eexists. split; [reflexivity|]. by split_and!.
  - destruct Hes as (Hno & id & bytes & ->). split; [done|]. exists id, bytes. by right.
Qed.

(** *** A faulty port *)

(** It hears nothing of an exchange. *)
Lemma faulty_deaf p : let f := PortFsm_new (Faulty p) in
  (∀ src msg ts w, PortFsm_process_event_message (F := F) (S := S) (R := R) src msg ts f w = Done (f, w)) ∧
  (∀ src msg now w, PortFsm_process_general_message (S := S) src msg now f w = Done (f, w)) ∧
  (∀ msg w, msg ≠ SM_FaultCleared →
     PortFsm_process_system_message (F := F) (S := S) msg f w = Done (f, w)).
Proof.
  intros f. split_and!; [done..|]. intros msg w Hm. by destruct msg.
Qed.

(** ** Datagrams that carry a message *)

(** A port of the sender's domain processes the message a datagram carries. *)
Lemma deliver_event_carried p bytes msg ts d f (w : World S) : carries_event (F := F) p bytes msg →
  dp_domain_number p = d →
  deliver (F := F) (R := R) (In_Event bytes ts) (mkSingleDomainPortMap d f) w
  = (f ← PortFsm_process_event_message (F := F) (dp_port_identity p) msg ts f;
     mret (mkSingleDomainPortMap d f)) w.
Proof.
  intros (Hl & Hd & Hp) <-. cbn [deliver]. unfold MessageIngress_receive_event, try_parse,
    DomainMessage_dispatch_event, mbind, M_bind, lift. rewrite Hl, Hd.
  cbn [port_by_domain SingleDomainPortMap_PortMap]. unfold SingleDomainPortMap_port_by_domain.
  cbn [sm_domain_number sm_port_fsm]. rewrite bool_decide_eq_true_2 by done.
  unfold try_parse, mbind, M_bind, lift. rewrite Hp. unfold mret, M_ret.
  cbn [process_event_message PortFsm_PortIngress].
  by destruct (PortFsm_process_event_message _ _ _ _ _) as [[? ?]|].
Qed.

Lemma deliver_general_carried p bytes msg now d f (w : World S) : carries_general (F := F) p bytes msg →
  dp_domain_number p = d →
  deliver (F := F) (R := R) (In_General bytes now) (mkSingleDomainPortMap d f) w
  = (f ← PortFsm_process_general_message (dp_port_identity p) msg now f;
     mret (mkSingleDomainPortMap d f)) w.
Proof.
  intros (Hl & Hd & Hp) <-. cbn [deliver]. unfold MessageIngress_receive_general, try_parse,
    DomainMessage_dispatch_general, mbind, M_bind, lift. rewrite Hl, Hd.
  cbn [port_by_domain SingleDomainPortMap_PortMap]. unfold SingleDomainPortMap_port_by_domain.
  cbn [sm_domain_number sm_port_fsm]. rewrite bool_decide_eq_true_2 by done.
  unfold try_parse, mbind, M_bind, lift. rewrite Hp. unfold mret, M_ret.
  cbn [process_general_message PortFsm_PortIngress].
  by destruct (PortFsm_process_general_message _ _ _ _ _) as [[? ?]|].
Qed.
End sends.
