(* ===== verification/Link.v ===== *)
(** * A master and its slave at the two ends of a path (crates/rptp/src/master.rs, slave.rs, uncalibrated.rs, e2e.rs, servo.rs)

    The two ports, their clocks and the path between them as one system. Event messages take a
    fixed delay in either direction; general messages and timestamps arrive at any time, in any
    order, any number of times or never; the timers of the exchange fire at any time and the
    slave's clock drifts in any way. The theorem says what the clock's steps make of that. *)

From S2P Require Import Prelude Errors Time Clock PortId DataSet Foreign Stores Wire Message.
From S2P Require Import Effects Servo E2e Bmca Profile Handlers PortState PortSafety Clocks System.
From S2P Require Import Behaviour Exchange.

Open Scope Z_scope.

(** ** The ends *)

(** A port, how far its clock is ahead of the time of the link (in nanoseconds), the event and
    general datagrams that left it and the egress timestamps taken for it. An event datagram is kept
    with the instant it left at and the clock's offset at that instant, which no step reads. *)
Record Endpoint (S R : Type) := mkEndpoint {
  ep_ports : SingleDomainPortMap R;
  ep_world : World S;
  ep_offset : Z;
  ep_events : list (Z * Z * list Z);
  ep_generals : list (list Z);
  ep_stamps : list TimestampMessage;
}.
Arguments mkEndpoint {S R}.
Arguments ep_ports {S R}.
Arguments ep_world {S R}.
Arguments ep_offset {S R}.
Arguments ep_events {S R}.
Arguments ep_generals {S R}.
Arguments ep_stamps {S R}.

(** The link at an instant: both ends, and, which no step reads, the instant and the slave's offset
    at the latest arrival of a Sync, and at the departure of the latest timestamped delay request. *)
Record Link (S R : Type) := mkLink {
  lk_now : Z;
  lk_master : Endpoint S R;
  lk_slave : Endpoint S R;
  lk_heard : option (Z * Z);
  lk_asked : option (Z * Z);
}.
Arguments mkLink {S R}.
Arguments lk_now {S R}.
Arguments lk_master {S R}.
Arguments lk_slave {S R}.
Arguments lk_heard {S R}.
Arguments lk_asked {S R}.

(** What can happen on the link; datagrams and timestamps are named by their position in the list of
    those that left the end. *)
Inductive LinkEvent :=
| Lk_Elapse (nanos : Z)
| Lk_Drift (nanos : Z)
| Lk_MasterTimer (msg : SystemMessage)
| Lk_DelayRequest
| Lk_MasterStamp (k : nat)
| Lk_SlaveStamp (k : nat)
| Lk_Sync (k : nat)
| Lk_General (k : nat) (now : Instant)
| Lk_Request (k : nat).

Section link.
  Context {F : Type} `{HF : !MessageFlagsOps F} `{HE : !Env}.
  Context {S : Type} `{HS : !StateDecisionEvent S} {R : Type} `{HR : !ForeignClockRecords R}.

Definition with_port (p : SingleDomainPortMap R) (w : World S) (ep : Endpoint S R) : Endpoint S R :=
  mkEndpoint p w (ep_offset ep) (ep_events ep) (ep_generals ep) (ep_stamps ep).
Definition with_offset (o : Z) (ep : Endpoint S R) : Endpoint S R :=
  mkEndpoint (ep_ports ep) (ep_world ep) o (ep_events ep) (ep_generals ep) (ep_stamps ep).

(** The clock's reading. *)
Definition ep_read (now : Z) (ep : Endpoint S R) : option TimeStamp := ts_of_ns (now + ep_offset ep).

(** One effect of a step of the port: a datagram the network takes leaves, a timestamp is taken, the
    clock is set. The rate of the slave's clock is anything at any time, and the rest stays inside. *)
Definition endpoint_effect (now : Z) (e : Effect) (ep : Endpoint S R) : option (Endpoint S R) :=
  match e with
  | E_SendEvent _ bytes true =>
      Some (mkEndpoint (ep_ports ep) (ep_world ep) (ep_offset ep)
              (ep_events ep ++ [(now, ep_offset ep, bytes)]) (ep_generals ep) (ep_stamps ep))
  | E_SendGeneral _ bytes true =>
      Some (mkEndpoint (ep_ports ep) (ep_world ep) (ep_offset ep) (ep_events ep)
              (ep_generals ep ++ [bytes]) (ep_stamps ep))
  | E_StampEgress _ msg =>
      ts ← ep_read now ep;
      Some (mkEndpoint (ep_ports ep) (ep_world ep) (ep_offset ep) (ep_events ep) (ep_generals ep)
              (ep_stamps ep ++ [mkTimestampMessage msg ts]))
  | E_ClockStep to => Some (with_offset (ts_ns to - now) ep)
  | _ => Some ep
  end.

Fixpoint endpoint_effects (now : Z) (es : list Effect) (ep : Endpoint S R)
    : option (Endpoint S R) :=
  match es with
  | [] => Some ep
  | e :: es => ep ← endpoint_effect now e ep; endpoint_effects now es ep
  end.

(** An input of the port, and its effects; [None] where a clock is out of range. *)
Definition endpoint_input (now : Z) (i : PortInput) (ep : Endpoint S R)
    : option (outcome (Endpoint S R)) :=
  match deliver (F := F) i (ep_ports ep) (ep_world ep) with
  | Panic => Some Panic
  | Done (p, w) =>
      ep ← endpoint_effects now (drop (length (w_trace (ep_world ep))) (w_trace w)) (with_port p w ep);
      Some (Done ep)
  end.

Definition with_master (L : Link S R) (r : outcome (Endpoint S R)) : outcome (Link S R) :=
  ep ← r; Done (mkLink (lk_now L) ep (lk_slave L) (lk_heard L) (lk_asked L)).
Definition with_slave (heard asked : option (Z * Z)) (L : Link S R) (r : outcome (Endpoint S R))
    : outcome (Link S R) :=
  ep ← r; Done (mkLink (lk_now L) (lk_master L) ep heard asked).

(** An event of a link whose event messages take [delay]; [None] where it cannot happen. *)
Definition link_step (delay : Z) (e : LinkEvent) (L : Link S R) : option (outcome (Link S R)) :=
  let now := lk_now L in
  let m := lk_master L in
  let s := lk_slave L in
  match e with
  | Lk_Elapse nanos =>
      if 0 <=? nanos then Some (Done (mkLink (now + nanos) m s (lk_heard L) (lk_asked L))) else None
  | Lk_Drift nanos =>
      Some (Done (mkLink now m (with_offset (ep_offset s + nanos) s) (lk_heard L) (lk_asked L)))
  | Lk_MasterTimer msg =>
      match msg with
      | SM_SyncTimeout | SM_AnnounceSendTimeout =>
          with_master L <$> endpoint_input now (In_System msg) m
      | _ => None
      end
  | Lk_DelayRequest =>
      with_slave (lk_heard L) (lk_asked L) L <$> endpoint_input now (In_System SM_DelayRequestTimeout) s
  | Lk_MasterStamp k =>
      t ← ep_stamps m !! k;
      with_master L <$> endpoint_input now (In_System (SM_Timestamp t)) m
  | Lk_SlaveStamp k =>
      t ← ep_stamps s !! k;
      '(at_, o, _) ← ep_events s !! k;
      with_slave (lk_heard L) (Some (at_, o)) L <$> endpoint_input now (In_System (SM_Timestamp t)) s
  | Lk_Sync k =>
      '(at_, _, bytes) ← ep_events m !! k;
      if now =? at_ + delay then
        ts ← ep_read now s;
        with_slave (Some (now, ep_offset s)) (lk_asked L) L <$> endpoint_input now (In_Event bytes ts) s
      else None
  | Lk_General k i =>
      bytes ← ep_generals m !! k;
      with_slave (lk_heard L) (lk_asked L) L <$> endpoint_input now (In_General bytes i) s
  | Lk_Request k =>
      '(at_, _, bytes) ← ep_events s !! k;
      if now =? at_ + delay then
        ts ← ep_read now m;
        with_master L <$> endpoint_input now (In_Event bytes ts) m
      else None
  end.

Definition link_run (delay : Z) : list LinkEvent → Link S R → option (outcome (Link S R)) :=
  steps_run (link_step delay).

(** The master's clock is the time of the link; nothing has left; the slave has measured nothing. *)
Definition link_start (now offset : Z) (dn : DomainNumber) (master slave : PortState R) (wm ws : World S)
    : Link S R :=
  mkLink now (mkEndpoint (SingleDomainPortMap_new dn master) wm 0 [] [] [])
    (mkEndpoint (SingleDomainPortMap_new dn slave) ws offset [] [] []) None None.

(** ** What is true on the link *)

Context `{!MessageFlagsLaws F}.
Context (I : S → Prop) (port_ok : PortNumber → Prop) (inv : R → Prop)
  `{!ForeignClockRecordsLaws R inv}.
Context (Hlaws : ∀ net, StateDecisionEventLaws S I (effect_ok (F := F) net) port_ok).
Context (Htrigger : ∀ p s, emits is_silent (sde_trigger (S := S) p s)).
Context (delay : Z) (mport sport : DomainPort) (s0 q0 : Z).

(** The sequence id of the [k]-th message of a cycle that starts at [start]. *)
Definition nth_seq (start : Z) (k : nat) : SequenceId := mkSequenceId (u_wrap 16 (start + Z.of_nat k)).

Abbreviation departures := (list (Z * Z * list Z)).

(** The [k]-th event datagram of a cycle, with its sequence id, left at [at_] when the sender's clock
    was ahead by [o]. *)
Definition departed (start : Z) (evs : departures) (k : nat) (seq : SequenceId) (at_ o : Z) : Prop :=
  seq = nth_seq start k ∧ ∃ bytes, evs !! k = Some (at_, o, bytes).

(** [evm] left the master and [evs] the slave. *)
Section truth.
  Context (evm evs : departures).

(** A general message tells the truth. *)
Definition truthful (msg : GeneralMessage) : Prop :=
  match msg with
  | Announce _ => True
  | FollowUp f => ∃ k, departed s0 evm k (fu_sequence_id f) (ts_ns (fu_precise_origin_timestamp f)) 0
  | DelayResp r => ∃ k at_ o, departed q0 evs k (ds_sequence_id r) at_ o ∧
                              ts_ns (ds_receive_timestamp r) = at_ + delay
  end.

(** What the slave has recorded is true, and of the latest arrival and request. *)
Definition records_true (heard asked : option (Z * Z)) (m : EndToEndDelayMechanism) : Prop :=
  let sx := em_sync_exchange m in
  let dx := em_delay_exchange m in
  se_one_step_sync sx = None ∧
  (∀ sync ts, mw_current (se_two_step_sync_window sx) = Some (sync, ts) →
     em_sync_ingress_timestamp m = Some ts ∧
     ∃ k at_ o, departed s0 evm k (tw_sequence_id sync) at_ 0 ∧ heard = Some (at_ + delay, o) ∧
                ts_ns ts = at_ + delay + o) ∧
  (∀ f, mw_current (se_follow_up_window sx) = Some f → truthful (FollowUp f)) ∧
  (∀ r ts, mw_current (dx_delay_request_window dx) = Some (r, ts) →
     ∃ k at_ o, departed q0 evs k (dr_sequence_id r) at_ o ∧ asked = Some (at_, o) ∧
                ts_ns ts = at_ + o) ∧
  (∀ r, mw_current (dx_delay_response_window dx) = Some r → truthful (DelayResp r)).
End truth.

Definition faulty (f : PortFsm R) : Prop := ∃ p, f = PortFsm_new (Faulty p).

(** A port of the domain that satisfies the invariant of its state machine. *)
Definition endpoint_ok (port : DomainPort) (ep : Endpoint S R) : Prop :=
  (∃ net, map_ok net port_ok inv (ep_ports ep)) ∧ I (w_shared (ep_world ep)) ∧
  sm_domain_number (ep_ports ep) = dp_domain_number port.

(** The datagrams that left the master carry its Syncs, and their timestamps are true. *)
Definition syncs_true (evm : departures) (stamps : list TimestampMessage) : Prop :=
  length stamps = length evm ∧
  (∀ k at_ o bytes, evm !! k = Some (at_, o, bytes) → o = 0 ∧
     ∃ sync, carries_event (F := F) mport bytes (TwoStepSync sync) ∧ TwoStepSyncMessage_wf sync ∧
             tw_sequence_id sync = nth_seq s0 k) ∧
  (∀ k t, stamps !! k = Some t → TimeStamp_wf (tm_egress_timestamp t) ∧
     ∃ sync, tm_event_msg t = TwoStepSync sync ∧ TwoStepSyncMessage_wf sync ∧
             departed s0 evm k (tw_sequence_id sync) (ts_ns (tm_egress_timestamp t)) 0).

(** Those that left the slave carry its requests. *)
Definition requests_true (evs : departures) (stamps : list TimestampMessage) : Prop :=
  length stamps = length evs ∧
  (∀ k at_ o bytes, evs !! k = Some (at_, o, bytes) →
     ∃ req, carries_event (F := F) sport bytes (DelayReq req) ∧ DelayRequestMessage_wf req ∧
            dr_sequence_id req = nth_seq q0 k) ∧
  (∀ k t, stamps !! k = Some t → TimeStamp_wf (tm_egress_timestamp t) ∧
     ∃ req at_ o bytes, tm_event_msg t = DelayReq req ∧ DelayRequestMessage_wf req ∧
       dr_sequence_id req = nth_seq q0 k ∧ evs !! k = Some (at_, o, bytes) ∧
       ts_ns (tm_egress_timestamp t) = at_ + o).

Definition generals_true (evm evs : departures) (generals : list (list Z)) : Prop :=
  ∀ bytes, bytes ∈ generals → ∃ msg, carries_general (F := F) mport bytes msg ∧
    GeneralMessage_wf msg ∧ truthful evm evs msg.

(** The roles of the two ends. *)
Definition master_role (ep : Endpoint S R) : Prop :=
  let f := sm_port_fsm (ep_ports ep) in
  endpoint_ok mport ep ∧ ep_offset ep = 0 ∧
  (serving mport (nth_seq s0 (length (ep_events ep))) f ∨ faulty f).

Definition slave_role (evm : departures) (heard asked : option (Z * Z)) (ep : Endpoint S R) : Prop :=
  let f := sm_port_fsm (ep_ports ep) in
  endpoint_ok sport ep ∧
  ((∃ m, still sport (dp_port_identity mport) m f ∧ records_true evm (ep_events ep) heard asked m ∧
         dc_sequence_id (em_delay_cycle m) = nth_seq q0 (length (ep_events ep))) ∨ faulty f).

(** The link after at most [n] events. *)
Definition link_true (n : nat) (L : Link S R) : Prop :=
  let m := lk_master L in
  let s := lk_slave L in
  (length (ep_events m) <= n)%nat ∧ (length (ep_events s) <= n)%nat ∧
  master_role m ∧ slave_role (ep_events m) (lk_heard L) (lk_asked L) s ∧
  syncs_true (ep_events m) (ep_stamps m) ∧ requests_true (ep_events s) (ep_stamps s) ∧
  generals_true (ep_events m) (ep_events s) (ep_generals m).

(** ** Growth *)

Lemma departed_app start evs x k seq at_ o : departed start evs k seq at_ o →
  departed start (evs ++ x) k seq at_ o.
Proof. intros (E & bytes & H). split; [done|]. exists bytes. by apply lookup_app_l_Some. Qed.

Lemma truthful_app evm evs xm xs msg : truthful evm evs msg → truthful (evm ++ xm) (evs ++ xs) msg.
Proof.
  destruct msg as [a|r|f]; simpl; [done|..].
  - intros (k & at_ & o & H & E). exists k, at_, o. split; [|done]. by apply departed_app.
  - intros (k & H). exists k. by apply departed_app.
Qed.

Lemma records_true_app evm evs xm xs heard asked m : records_true evm evs heard asked m →
  records_true (evm ++ xm) (evs ++ xs) heard asked m.
Proof.
  intros (H1 & H2 & H3 & H4 & H5). split; [done|]. split_and!.
  - intros sync ts E. destruct (H2 sync ts E) as (? & k & at_ & o & Hd & ?). split; [done|].
    exists k, at_, o. split; [|done]. by apply departed_app.
  - intros f E. by apply (truthful_app _ _ _ _ (FollowUp f)), H3.
  - intros r ts E. destruct (H4 r ts E) as (k & at_ & o & Hd & ?). exists k, at_, o.
    split; [|done]. by apply departed_app.
  - intros r E. by apply (truthful_app _ _ _ _ (DelayResp r)), H5.
Qed.

Lemma generals_true_app evm evs xm xs gs : generals_true evm evs gs →
  generals_true (evm ++ xm) (evs ++ xs) gs.
Proof.
  intros H bytes Hb. destruct (H bytes Hb) as (msg & ? & ? & ?). exists msg. split_and!; [done..|].
  by apply truthful_app.
Qed.

Lemma slave_role_grows evm xm heard asked ep : slave_role evm heard asked ep →
  slave_role (evm ++ xm) heard asked ep.
Proof.
  intros [Hok [(m & Hs & Hr & Hq)|Hf]]; (split; [done|]); [left|by right].
  exists m. split; [done|]. split; [|done].
  rewrite <- (app_nil_r (ep_events ep)). by apply records_true_app.
Qed.

(** Sequence ids tell the messages of fewer than 65536 departures apart. *)
Lemma nth_seq_inj start k k' : Z.of_nat k < 2 ^ 16 → Z.of_nat k' < 2 ^ 16 →
  nth_seq start k = nth_seq start k' → k = k'.
Proof.
  unfold nth_seq, u_wrap. intros H H' [= E]. apply Nat2Z.inj.
  pose proof (Z.div_mod (start + Z.of_nat k) (2 ^ 16)).
  pose proof (Z.div_mod (start + Z.of_nat k') (2 ^ 16)). nia.
Qed.

Lemma nth_seq_next start k : SequenceId_next (nth_seq start k) = nth_seq start (Datatypes.S k).
Proof.
  unfold SequenceId_next, nth_seq, u_wrap. f_equal. cbn [seq_id].
  rewrite Zplus_mod_idemp_l. f_equal. lia.
Qed.

Lemma departed_inj start evs k k' seq at_ o at' o' : Z.of_nat (length evs) <= 2 ^ 16 →
  departed start evs k seq at_ o → departed start evs k' seq at' o' → at_ = at' ∧ o = o'.
Proof.
  intros Hl (E & b & H) (E' & b' & H').
  pose proof (lookup_lt_Some _ _ _ H). pose proof (lookup_lt_Some _ _ _ H').
  assert (k = k') as <- by (apply (nth_seq_inj start); [lia..|congruence]).
  rewrite H in H'. by injection H' as -> -> _.
Qed.

(** A measurement is the mean of the clock's offsets at the latest arrival of a Sync and at the
    departure of the latest timestamped request, whichever messages came in between, and the estimate
    is that much before the arrival. *)
Lemma measured_mean evm evs heard asked m sample to :
  Z.of_nat (length evm) <= 2 ^ 16 → Z.of_nat (length evs) <= 2 ^ 16 → em_wf m →
  records_true evm evs heard asked m →
  em_sample m = Done (Some sample) → ServoSample_master_estimate sample = Done (Some to) →
  ∃ th os td od, heard = Some (th, os) ∧ asked = Some (td, od) ∧
    ts_ns to = th + os - Z.quot (os + od) 2.
Proof.
  intros Hlm Hls Hm (H1 & H2 & H3 & H4 & H5) Es Et. pose proof Hm as (_ & Hsx & Hdx & Hi).
  pose proof (em_sample_wf m sample Hm Es) as [Hti Hof].
  rewrite em_sample_eq in Es by done. unfold sample_ns, ms_ns in Es. rewrite H1 in Es.
  destruct (mw_current (se_two_step_sync_window _)) as [[sync ts]|] eqn:Ew; [|done].
  destruct (mw_current (se_follow_up_window _)) as [f|] eqn:Ef; [|done].
  destruct (bool_decide _) eqn:Eseq; [|done]. apply bool_decide_eq_true in Eseq.
  destruct (sm_ns _) as [sm|] eqn:Esm; [|done]. pose proof (sm_ns_bound _ _ Hdx Esm) as Hbsm.
  unfold sm_ns in Esm.
  destruct (mw_current (dx_delay_request_window _)) as [[r tr]|] eqn:Er; [|done].
  destruct (mw_current (dx_delay_response_window _)) as [a|] eqn:Ea; [|done].
  destruct (bool_decide _) eqn:Eseq' in Esm; [|done]. apply bool_decide_eq_true in Eseq'.
  injection Esm as <-.
  destruct (H2 _ _ eq_refl) as (Ei & k & at_ & os & Hd & Eh & Ets). rewrite Ei in Es.
  pose proof (ts_ns_range _ (proj1 (proj2 Hsx) _ _ Ew)) as Hb1.
  pose proof (ts_ns_range _ (proj2 (proj2 Hsx) _ Ef)) as Hb2.
  destruct (H3 _ eq_refl) as (k' & Hd').
  destruct (H4 _ _ eq_refl) as (j & atr & od & Hr & Ek & Etr).
  destruct (H5 _ eq_refl) as (j' & atr' & od' & Hr' & Etr').
  rewrite Eseq in Hd'. rewrite Eseq' in Hr'.
  destruct (departed_inj _ _ _ _ _ _ _ _ _ Hlm Hd Hd') as [E1 _].
  destruct (departed_inj _ _ _ _ _ _ _ _ _ Hls Hr Hr') as [<- <-].
  simpl in Es. injection Es as <-.
  do 4 eexists. split; [exact Eh|]. split; [exact Ek|].
  unfold ServoSample_master_estimate in Et. cbn [sa_ingress sa_offset] in *.
  assert (ts_ns ts - ts_ns (fu_precise_origin_timestamp f) = delay + os) as Ems by lia.
  assert (ts_ns (ds_receive_timestamp a) - ts_ns tr = delay - od) as Esm by lia.
  rewrite Ems, Esm in *. replace (delay + os - (delay - od)) with (os + od) in * by lia.
  assert (Z.abs (Z.quot (os + od) 2) < 2 ^ 49 * NANOS_PER_SECOND) as Hq.
  { pose proof (Z.quot_rem (os + od) 2). pose proof (Z.rem_bound_abs (os + od) 2).
    unfold NANOS_PER_SECOND in *. lia. }
  rewrite TimeStamp_checked_sub_eq in Et by
    (done || apply ti_wf_of_ns; unfold NANOS_PER_SECOND in *; lia).
  injection Et as Et. apply ts_of_ns_Some in Et as [_ ->].
  rewrite ti_ns_of_ns. lia.
Qed.

(** ** Effects on an end *)

Lemma endpoint_effects_outward now es ep :
  endpoint_effects now es ep = endpoint_effects now (outward es) ep.
Proof.
  revert ep. induction es as [|e es IH]; intros ep; [done|]. unfold outward in *.
  destruct (is_outward e) eqn:Ee.
  - rewrite filter_cons_True by done. simpl. destruct (endpoint_effect now e ep); [apply IH | done].
  - rewrite filter_cons_False by congruence. simpl.
    assert (endpoint_effect now e ep = Some ep) as -> by by destruct e. apply IH.
Qed.

(** A port's step as part of an input of its end. *)
Lemma endpoint_input_does now i port ep (m : M S (PortFsm R)) (Q : PortFsm R → list Effect → Prop) r :
  endpoint_ok port ep →
  (∀ w, deliver (F := F) i (ep_ports ep) w
        = (f ← m; mret (mkSingleDomainPortMap (sm_domain_number (ep_ports ep)) f)) w) →
  (∀ net, map_ok net port_ok inv (ep_ports ep) →
     safe I (effect_ok (F := F) net) (fsm_ok net port_ok inv) m) →
  does Q m → endpoint_input now i ep = Some r →
  ∃ f w es ep', Q f es ∧
    let ep1 := with_port (mkSingleDomainPortMap (sm_domain_number (ep_ports ep)) f) w ep in
    endpoint_ok port ep1 ∧ endpoint_effects now es ep1 = Some ep' ∧ r = Done ep'.
Proof.
  intros ((net & Hp) & Hw & Hd) Edel Hsafe Hdoes E. unfold endpoint_input in E. rewrite Edel in E.
  pose proof (Hsafe net Hp (ep_world ep) Hw) as Hwp. apply wp_Done in Hwp as (f & w & Em & Hw' & Hf & _).
  destruct (Hdoes _ _ _ Em) as (es & Et & HQ).
  unfold mbind at 1, M_bind at 1 in E. rewrite Em in E. cbn [mret M_ret] in E.
  rewrite Et, drop_app_length, endpoint_effects_outward in E.
  apply bind_Some in E as (ep' & E & [= <-]).
  exists f, w, (outward es), ep'. split; [exact HQ|]. split; [|by split].
  split; [|by split]. by exists net.
Qed.

Lemma endpoint_ok_ports port ep ep' : ep_ports ep' = ep_ports ep → ep_world ep' = ep_world ep →
  endpoint_ok port ep → endpoint_ok port ep'.
Proof. unfold endpoint_ok. by intros -> ->. Qed.

Lemma event_sent now port msg es ep ep' : sends_event (F := F) port msg es →
  endpoint_effects now es ep = Some ep' →
  ∃ bytes ts, carries_event (F := F) port bytes msg ∧ EventMessage_wf msg ∧ TimeStamp_wf ts ∧
    ts_ns ts = now + ep_offset ep ∧
    ep' = mkEndpoint (ep_ports ep) (ep_world ep) (ep_offset ep)
            (ep_events ep ++ [(now, ep_offset ep, bytes)]) (ep_generals ep)
            (ep_stamps ep ++ [mkTimestampMessage msg ts]).
Proof.
  intros (bytes & Hc & Hm & ->) E. simpl in E. unfold ep_read in E. simpl in E.
  destruct (ts_of_ns _) as [ts|] eqn:Ets; [|done]. injection E as <-.
  apply ts_of_ns_Some in Ets as [? ?]. by exists bytes, ts.
Qed.

Lemma general_sent now port msg es ep ep' : sends_general (F := F) port msg es →
  endpoint_effects now es ep = Some ep' →
  ∃ bytes, carries_general (F := F) port bytes msg ∧ GeneralMessage_wf msg ∧
    ep' = mkEndpoint (ep_ports ep) (ep_world ep) (ep_offset ep) (ep_events ep)
            (ep_generals ep ++ [bytes]) (ep_stamps ep).
Proof. intros (bytes & Hc & Hm & ->) [= <-]. by exists bytes. Qed.

(** ** One step of either end *)

(** What a faulty port does, or one that just became faulty. *)
Definition fell_silent (f : PortFsm R) (es : list Effect) : Prop :=
  faulty f ∧ (es = [] ∨ ∃ id bytes, es = [E_SendEvent id bytes false] ∨ es = [E_SendGeneral id bytes false]).

Lemma refused_fell_silent f es : refused f es → fell_silent f es.
Proof. intros (Hf & _ & He). split; [done | by right]. Qed.

Lemma silent_effects now f es ep ep' : fell_silent f es → endpoint_effects now es ep = Some ep' → ep' = ep.
Proof.
  by intros [_ [->|(id & bytes & [->| ->])]] [= <-].
Qed.

(** A step of the master on a link with these departures. *)
Definition master_did (evm evs : departures) (f : PortFsm R) (es : list Effect) : Prop :=
  serving mport (nth_seq s0 (length evm)) f ∧
    (∃ msg, sends_general (F := F) mport msg es ∧ truthful evm evs msg) ∨
  serving mport (nth_seq s0 (Datatypes.S (length evm))) f ∧
    (∃ log, sends_event (F := F) mport
              (TwoStepSync (mkTwoStepSyncMessage (nth_seq s0 (length evm)) log)) es) ∨
  fell_silent f es.

Lemma syncs_true_snoc now evm stamps bytes log ts :
  let sync := mkTwoStepSyncMessage (nth_seq s0 (length evm)) log in
  syncs_true evm stamps → carries_event (F := F) mport bytes (TwoStepSync sync) →
  TwoStepSyncMessage_wf sync → TimeStamp_wf ts → ts_ns ts = now →
  syncs_true (evm ++ [(now, 0, bytes)]) (stamps ++ [mkTimestampMessage (TwoStepSync sync) ts]).
Proof.
  intros sync (Hl & He & Hs) Hc Hw Ht Ets. split; [by rewrite !length_app, Hl|]. split.
  - intros k at_ o b [[_ H]|[-> [= <- <- <-]]]%lookup_snoc_Some; [by apply (He k at_ o b)|].
    split; [done|]. by exists sync.
  - intros k t [[_ H]|[-> <-]]%lookup_snoc_Some.
    + destruct (Hs k t H) as (? & s & ? & ? & Hd). split; [done|]. exists s. split_and!; [done..|].
      by apply departed_app.
    + split; [done|]. exists sync. split_and!; [done..|]. cbn [tm_egress_timestamp]. rewrite Ets.
      split; [cbn; by rewrite Hl|]. exists bytes. by apply list_lookup_middle.
Qed.

Lemma master_did_true n L f es w ep' :
  let ep := lk_master L in
  let ep1 := with_port (mkSingleDomainPortMap (sm_domain_number (ep_ports ep)) f) w ep in
  link_true n L → master_did (ep_events ep) (ep_events (lk_slave L)) f es →
  endpoint_ok mport ep1 → endpoint_effects (lk_now L) es ep1 = Some ep' →
  link_true (Datatypes.S n) (mkLink (lk_now L) ep' (lk_slave L) (lk_heard L) (lk_asked L)).
Proof.
  intros ep ep1 (Hn & Hn' & (Hm & Ho & _) & Hsr & Hsy & Hrq & Hg) Hdid Hok E. subst ep.
  destruct Hdid as [[Hf (msg & Hs & Ht)]|[[Hf (log & Hs)]|Hs]].
  - destruct (general_sent _ _ _ _ _ _ Hs E) as (bytes & Hc & Hw & ->).
    split; [simpl; lia|]. split; [simpl; lia|]. split; [split_and!; [done..|by left]|].
    split; [done|]. split; [done|]. split; [done|]. simpl.
    intros b [Hb| ->%list_elem_of_singleton]%elem_of_app; [by apply Hg|]. by exists msg.
  - destruct (event_sent _ _ _ _ _ _ Hs E) as (bytes & ts & Hc & Hw & Hts & Ets & ->).
    change (ep_offset ep1) with (ep_offset (lk_master L)) in *. rewrite Ho in *.
    rewrite Z.add_0_r in Ets. cbn [ep_events ep_ports ep_world ep1 with_port ep_generals ep_stamps].
    split; [simpl; rewrite length_app; simpl; lia|]. split; [simpl; lia|].
    split; [split_and!; [done|done|left]|].
    { simpl. rewrite length_app. simpl. by rewrite Nat.add_1_r. }
    split; [by apply slave_role_grows|]. split; [by apply syncs_true_snoc|]. split; [done|].
    pose proof (generals_true_app _ _ [(lk_now L, 0, bytes)] [] _ Hg) as Hg'.
    by rewrite app_nil_r in Hg'.
  - rewrite (silent_effects _ _ _ _ _ Hs E). destruct Hs as [Hs _].
    split; [simpl; lia|]. split; [simpl; lia|]. by split; [split_and!; [done..|by right]|].
Qed.

(** The new offset [o'] of a clock that was set, at [now]: the slave is behind by the time since the
    Sync it measured with arrived, give or take half of what its offset changed between its request
    and that arrival. *)
Definition mean_step (now : Z) (heard asked : option (Z * Z)) (o' : Z) : Prop :=
  ∃ th os td od, heard = Some (th, os) ∧ asked = Some (td, od) ∧
    o' = os - Z.quot (os + od) 2 - (now - th).

(** A step of the slave, which leaves it with records [m]. *)
Definition slave_did (now : Z) (evm evs : departures) (heard asked : option (Z * Z)) (f : PortFsm R)
    (es : list Effect) : Prop :=
  (∃ m, still sport (dp_port_identity mport) m f ∧ records_true evm evs heard asked m ∧
     ((dc_sequence_id (em_delay_cycle m) = nth_seq q0 (length evs) ∧ (es = [] ∨ feeds m es)) ∨
      (dc_sequence_id (em_delay_cycle m) = nth_seq q0 (Datatypes.S (length evs)) ∧
       sends_event (F := F) sport (DelayReq (mkDelayRequestMessage (nth_seq q0 (length evs)))) es))) ∨
  fell_silent f es.

Lemma requests_true_snoc now o evs stamps bytes ts :
  let req := mkDelayRequestMessage (nth_seq q0 (length evs)) in
  requests_true evs stamps → carries_event (F := F) sport bytes (DelayReq req) →
  DelayRequestMessage_wf req → TimeStamp_wf ts → ts_ns ts = now + o →
  requests_true (evs ++ [(now, o, bytes)]) (stamps ++ [mkTimestampMessage (DelayReq req) ts]).
Proof.
  intros req (Hl & He & Hs) Hc Hw Ht Ets. split; [by rewrite !length_app, Hl|]. split.
  - intros k at_ o' b [[_ H]|[-> [= <- <- <-]]]%lookup_snoc_Some; [by apply (He k at_ o' b)|].
    by exists req.
  - intros k t [[_ H]|[-> <-]]%lookup_snoc_Some.
    + destruct (Hs k t H) as (? & r & at_ & o' & b & ? & ? & ? & Hb & ?). split; [done|].
      exists r, at_, o', b. split_and!; try done. by apply lookup_app_l_Some.
    + split; [done|]. exists req, now, o, bytes. rewrite Hl. split_and!; try done.
      by apply list_lookup_middle.
Qed.

(** The state machine's invariant bounds what its mechanism has recorded. *)
Lemma still_em_wf net port parent m f : fsm_ok net port_ok inv f → still (R := R) port parent m f → em_wf m.
Proof.
  intros (s & E & Hs) (s' & -> & Ht). injection E as <-.
  destruct s' as [p|p|p|p|p|p|p|p]; try done; destruct Ht as (_ & _ & <-); apply Hs.
Qed.

Lemma slave_did_true n L f es w ep' heard asked :
  let ep := lk_slave L in
  let ep1 := with_port (mkSingleDomainPortMap (sm_domain_number (ep_ports ep)) f) w ep in
  link_true n L →
  slave_did (lk_now L) (ep_events (lk_master L)) (ep_events ep) heard asked f es →
  endpoint_ok sport ep1 → endpoint_effects (lk_now L) es ep1 = Some ep' →
  link_true (Datatypes.S n) (mkLink (lk_now L) (lk_master L) ep' heard asked) ∧
  (Z.of_nat n <= 2 ^ 16 →
     ep_offset ep' = ep_offset ep ∨ mean_step (lk_now L) heard asked (ep_offset ep')).
Proof.
  intros ep ep1 (Hn & Hn' & Hm & (_ & _) & Hsy & Hrq & Hg) Hdid Hok E. subst ep.
  assert (∀ o, Forall (λ m, still sport (dp_port_identity mport) m f ∧
      records_true (ep_events (lk_master L)) (ep_events (lk_slave L)) heard asked m ∧
      dc_sequence_id (em_delay_cycle m) = nth_seq q0 (length (ep_events (lk_slave L)))) o → o ≠ [] →
    ∀ x, link_true (Datatypes.S n) (mkLink (lk_now L) (lk_master L) (with_offset x ep1) heard asked)) as Hkeep.
  { intros [|m o] Ho Hne x; [done|]. apply Forall_cons in Ho as [Ho _].
    split; [simpl; lia|]. split; [simpl; lia|]. split; [done|]. split; [|by split].
    split; [by apply (endpoint_ok_ports _ ep1)|]. left. by exists m. }
  destruct Hdid as [(m & Hf & Hr & [[Hq Hes]|[Hq Hs]])|Hs].
  - assert (ep1 = with_offset (ep_offset ep1) ep1) as Eo by done.
    destruct Hes as [->|[->|(sample & to & Esa & Eto & ->)]].
    1,2: injection E as <-; split; [rewrite Eo; by apply (Hkeep [m]); [constructor|]|by left].
    injection E as <-. split; [by apply (Hkeep [m]); [constructor|]|]. intros Hlt. right.
    destruct Hok as ((net & Hok) & _).
    pose proof (still_em_wf _ _ _ _ _ Hok Hf) as Hwf.
    edestruct (measured_mean (ep_events (lk_master L)) (ep_events (lk_slave L)))
      as (th & os & td & od & ? & ? & Ens); [lia | lia | exact Hwf | exact Hr | exact Esa | exact Eto|].
    exists th, os, td, od. split_and!; [done..|]. simpl. lia.
  - destruct (event_sent _ _ _ _ _ _ Hs E) as (bytes & ts & Hc & Hw & Hts & Ets & ->).
    change (ep_offset ep1) with (ep_offset (lk_slave L)) in *.
    cbn [ep_events ep_ports ep_world ep1 with_port ep_generals ep_stamps ep_offset].
    split; [|by left]. split; [simpl; lia|]. split; [simpl; rewrite length_app; simpl; lia|].
    split; [done|]. split; [|split; [done|split]]; simpl.
    + split; [done|]. left. exists m. split; [done|]. split.
      * pose proof (records_true_app _ _ [] [(lk_now L, ep_offset (lk_slave L), bytes)] _ _ _ Hr) as Hr'.
        by rewrite app_nil_r in Hr'.
      * simpl. rewrite length_app. simpl. by rewrite Nat.add_1_r.
    + by apply requests_true_snoc.
    + pose proof (generals_true_app _ _ [] [(lk_now L, ep_offset (lk_slave L), bytes)] _ Hg) as Hg'.
      by rewrite app_nil_r in Hg'.
  - rewrite (silent_effects _ _ _ _ _ Hs E). destruct Hs as [Hs _]. split; [|by left].
    split; [simpl; lia|]. split; [simpl; lia|]. split; [done|]. split; [|by split].
    split; [done|]. by right.
Qed.

(** ** The events of the link *)

Lemma system_safe net msg ports : map_ok net port_ok inv ports → SystemMessage_wf msg →
  msg ≠ SM_AnnounceReceiptTimeout →
  safe I (effect_ok (F := F) net) (fsm_ok net port_ok inv)
    (PortFsm_process_system_message (F := F) msg (sm_port_fsm ports)).
Proof.
  intros Hp Hm Hne.
  eapply (safe_impl _ _ (stepped net port_ok inv (is_timeout msg) (sm_port_fsm ports)));
    [|intros f Hf; exact (proj1 Hf)].
  apply (process_system_safe I net port_ok inv); [done..|]. intros s _ Hst. apply Hne, Hst.
Qed.

Lemma event_safe net src msg ts ports : map_ok net port_ok inv ports → PortIdentity_wf src →
  EventMessage_wf msg → TimeStamp_wf ts →
  safe I (effect_ok (F := F) net) (fsm_ok net port_ok inv)
    (PortFsm_process_event_message (F := F) src msg ts (sm_port_fsm ports)).
Proof.
  intros. eapply (safe_impl _ _ (stepped net port_ok inv False (sm_port_fsm ports)));
    [|intros f Hf; exact (proj1 Hf)].
  by apply (process_event_safe I net port_ok inv).
Qed.

Lemma general_safe net src msg now ports : map_ok net port_ok inv ports → GeneralMessage_wf msg →
  safe I (effect_ok (F := F) net) (fsm_ok net port_ok inv)
    (PortFsm_process_general_message src msg now (sm_port_fsm ports)).
Proof.
  intros. eapply (safe_impl _ _ (stepped net port_ok inv False (sm_port_fsm ports)));
    [|intros f Hf; exact (proj1 Hf)].
  by apply (process_general_safe I net port_ok inv).
Qed.

(** A computation that changes nothing. *)
Lemma does_nothing {A} (Q : A → list Effect → Prop) (m : M S A) a :
  (∀ w, m w = Done (a, w)) → Q a [] → does Q m.
Proof. intros Hm HQ w b w' E. rewrite Hm in E. injection E as <- <-. exists []. by rewrite app_nil_r. Qed.

(** What the link is after [n] events and an event that keeps [P]. *)
Definition reaches (n : nat) (P : Link S R → Prop) (r : outcome (Link S R)) : Prop :=
  ∃ L, r = Done L ∧ link_true n L ∧ P L.

Lemma master_input n L i (m : M S (PortFsm R)) r : link_true n L →
  (∀ w, deliver (F := F) i (ep_ports (lk_master L)) w
        = (f ← m; mret (mkSingleDomainPortMap (sm_domain_number (ep_ports (lk_master L))) f)) w) →
  (∀ net, map_ok net port_ok inv (ep_ports (lk_master L)) →
     safe I (effect_ok (F := F) net) (fsm_ok net port_ok inv) m) →
  does (master_did (ep_events (lk_master L)) (ep_events (lk_slave L))) m →
  with_master L <$> endpoint_input (lk_now L) i (lk_master L) = Some r →
  reaches (Datatypes.S n) (λ L', ep_offset (lk_slave L') = ep_offset (lk_slave L)) r.
Proof.
  intros HL Hd Hs Hm (x & E & ->)%fmap_Some. pose proof HL as (_ & _ & (Hok & _) & _).
  destruct (endpoint_input_does _ _ _ _ _ _ _ Hok Hd Hs Hm E) as (f & w & es & ep' & Hdid & Hok' & Ee & ->).
  eexists. split; [reflexivity|]. split; [|done]. by eapply master_did_true.
Qed.

Lemma slave_input n L i (m : M S (PortFsm R)) heard asked r : link_true n L →
  (∀ w, deliver (F := F) i (ep_ports (lk_slave L)) w
        = (f ← m; mret (mkSingleDomainPortMap (sm_domain_number (ep_ports (lk_slave L))) f)) w) →
  (∀ net, map_ok net port_ok inv (ep_ports (lk_slave L)) →
     safe I (effect_ok (F := F) net) (fsm_ok net port_ok inv) m) →
  does (slave_did (lk_now L) (ep_events (lk_master L)) (ep_events (lk_slave L)) heard asked) m →
  with_slave heard asked L <$> endpoint_input (lk_now L) i (lk_slave L) = Some r →
  reaches (Datatypes.S n) (λ L', Z.of_nat n <= 2 ^ 16 →
    ep_offset (lk_slave L') = ep_offset (lk_slave L) ∨
    mean_step (lk_now L') (lk_heard L') (lk_asked L') (ep_offset (lk_slave L'))) r.
Proof.
  intros HL Hd Hs Hm (x & E & ->)%fmap_Some. pose proof HL as (_ & _ & _ & (Hok & _) & _).
  destruct (endpoint_input_does _ _ _ _ _ _ _ Hok Hd Hs Hm E) as (f & w & es & ep' & Hdid & Hok' & Ee & ->).
  destruct (slave_did_true n L f es w ep' heard asked HL Hdid Hok' Ee) as [? ?].
  eexists. by split; [reflexivity|].
Qed.

(** System messages, which an end's infrastructure delivers as they are. *)
Lemma master_system n L msg r : link_true n L → SystemMessage_wf msg →
  msg ≠ SM_AnnounceReceiptTimeout →
  does (master_did (ep_events (lk_master L)) (ep_events (lk_slave L)))
    (PortFsm_process_system_message (F := F) msg (sm_port_fsm (ep_ports (lk_master L)))) →
  with_master L <$> endpoint_input (lk_now L) (In_System msg) (lk_master L) = Some r →
  reaches (Datatypes.S n) (λ L', ep_offset (lk_slave L') = ep_offset (lk_slave L)) r.
Proof.
  intros HL Hm Hne Hd. eapply master_input; [done | reflexivity | | exact Hd].
  intros. by apply system_safe.
Qed.

Lemma slave_system n L msg heard asked r : link_true n L → SystemMessage_wf msg →
  msg ≠ SM_AnnounceReceiptTimeout →
  does (slave_did (lk_now L) (ep_events (lk_master L)) (ep_events (lk_slave L)) heard asked)
    (PortFsm_process_system_message (F := F) msg (sm_port_fsm (ep_ports (lk_slave L)))) →
  with_slave heard asked L <$> endpoint_input (lk_now L) (In_System msg) (lk_slave L) = Some r →
  reaches (Datatypes.S n) (λ L', Z.of_nat n <= 2 ^ 16 →
    ep_offset (lk_slave L') = ep_offset (lk_slave L) ∨
    mean_step (lk_now L') (lk_heard L') (lk_asked L') (ep_offset (lk_slave L'))) r.
Proof.
  intros HL Hm Hne Hd. eapply slave_input; [done | reflexivity | | exact Hd].
  intros. by apply system_safe.
Qed.

(** What the slave records keeps its records true. *)
Section records.
  Context (evm evs : departures) (heard asked : option (Z * Z)) (m : EndToEndDelayMechanism).
  Context (Hm : records_true evm evs heard asked m).

Lemma records_sync sync ts now k at_ o : departed s0 evm k (tw_sequence_id sync) at_ 0 →
  now = at_ + delay → ts_ns ts = now + o →
  records_true evm evs (Some (now, o)) asked (em_record_two_step_sync sync ts m).
Proof.
  intros Hd -> Et. destruct Hm as (H1 & H2 & H3 & H4 & H5). split; [done|]. split; [|by split].
  intros ? ? [= <- <-]. split; [done|]. by exists k, at_, o.
Qed.

Lemma records_follow_up f : truthful evm evs (FollowUp f) →
  records_true evm evs heard asked (em_record_follow_up f m).
Proof.
  intros Hf. destruct Hm as (H1 & H2 & H3 & H4 & H5). split; [done|]. split; [done|].
  split; [|by split]. by intros ? [= <-].
Qed.

Lemma records_request r ts k at_ o : departed q0 evs k (dr_sequence_id r) at_ o → ts_ns ts = at_ + o →
  records_true evm evs heard (Some (at_, o)) (em_record_delay_request r ts m).
Proof.
  intros Hd Et. destruct Hm as (H1 & H2 & H3 & H4 & H5). split_and!; [done..| |done].
  intros ? ? [= <- <-]. by exists k, at_, o.
Qed.

Lemma records_response r : truthful evm evs (DelayResp r) →
  records_true evm evs heard asked (em_record_delay_response r m).
Proof.
  intros Hf. destruct Hm as (H1 & H2 & H3 & H4 & H5). split_and!; [done..|]. by intros ? [= <-].
Qed.
End records.

Context (Hmwf : DomainPort_wf mport) (Hswf : DomainPort_wf sport)
  (Hdomain : dp_domain_number mport = dp_domain_number sport).

(** What holds of the slave's clock after an event. *)
Definition clock_follows (e : LinkEvent) (L L' : Link S R) : Prop :=
  ep_offset (lk_slave L')
  = ep_offset (lk_slave L) + match e with Lk_Drift nanos => nanos | _ => 0 end ∨
  mean_step (lk_now L') (lk_heard L') (lk_asked L') (ep_offset (lk_slave L')).

Lemma eta_ports (p : SingleDomainPortMap R) :
  p = mkSingleDomainPortMap (sm_domain_number p) (sm_port_fsm p).
Proof. by destruct p. Qed.

(** The master's events. *)
Lemma master_timer_true n L msg r : link_true n L →
  link_step delay (Lk_MasterTimer msg) L = Some r →
  reaches (Datatypes.S n) (λ L', ep_offset (lk_slave L') = ep_offset (lk_slave L)) r.
Proof.
  intros HL E. pose proof HL as (_ & _ & (_ & _ & Hrole) & _). simpl in E.
  destruct msg; try discriminate E.
  all: eapply master_system with (5 := E); [exact HL | done | done |].
  all: destruct Hrole as [(s & -> & Hs)|(p & ->)];
    [|eapply does_nothing; [by intros w; apply faulty_deaf|]; right; right; split; [by exists p | by left]].
  - eapply does_mono; [by apply master_announce_does|]. intros f es [[Hf (a & Hes)]|Hes].
    + left. split; [done|]. by exists (Announce a).
    + right; right. by apply refused_fell_silent.
  - eapply does_mono; [by apply master_sync_does|]. intros f es [[Hf Hes]|Hes].
    + right; left. by rewrite nth_seq_next in Hf.
    + right; right. by apply refused_fell_silent.
Qed.

Lemma master_stamp_true n L k r : link_true n L → link_step delay (Lk_MasterStamp k) L = Some r →
  reaches (Datatypes.S n) (λ L', ep_offset (lk_slave L') = ep_offset (lk_slave L)) r.
Proof.
  intros HL E. pose proof HL as (_ & _ & (_ & _ & Hrole) & _ & (_ & _ & Hst) & _ & _). simpl in E.
  apply bind_Some in E as ([m ts] & Et & E).
  destruct (Hst k _ Et) as (Hts & sync & Em & Hsync & Hd). simpl in Em, Hts, Hd. subst m.
  eapply master_system with (5 := E); [exact HL | by split | done |].
  destruct Hrole as [(s & -> & Hs)|(p & ->)];
    [|eapply does_nothing; [by intros w; apply faulty_deaf|]; right; right; split; [by exists p | by left]].
  eapply does_mono; [by apply master_follow_up_does|]. intros f es [[Hf Hes]|Hes].
  - left. split; [done|]. eexists. split; [exact Hes|]. by exists k.
  - right; right. by apply refused_fell_silent.
Qed.

Lemma request_true n L k r : link_true n L → link_step delay (Lk_Request k) L = Some r →
  reaches (Datatypes.S n) (λ L', ep_offset (lk_slave L') = ep_offset (lk_slave L)) r.
Proof.
  intros HL E. pose proof HL as (_ & _ & ((_ & _ & Hdn) & Ho & Hrole) & _ & _ & (_ & Hrq & _) & _).
  simpl in E. apply bind_Some in E as ([[at_ o] bytes] & Eb & E).
  destruct (Z.eqb_spec (lk_now L) (at_ + delay)) as [En|]; [|done].
  apply bind_Some in E as (ts & Ets & E). unfold ep_read in Ets.
  apply ts_of_ns_Some in Ets as [Hts Ets]. rewrite Ho, Z.add_0_r in Ets.
  destruct (Hrq k at_ o bytes Eb) as (req & Hc & Hreq & Eseq).
  eapply (master_input _ _ _ (PortFsm_process_event_message (F := F) (dp_port_identity sport)
    (DelayReq req) ts (sm_port_fsm (ep_ports (lk_master L))))); [exact HL | | | |exact E].
  - intros w. rewrite (eta_ports (ep_ports (lk_master L))).
    apply (deliver_event_carried sport); [done|]. simpl. congruence.
  - intros. by apply event_safe.
  - destruct Hrole as [(s & -> & Hs)|(p & ->)];
      [|eapply does_nothing; [by intros w; apply faulty_deaf|]; right; right; split; [by exists p | by left]].
    eapply does_mono; [by apply master_response_does|]. intros f es [[Hf (log & Hes)]|Hes].
    + left. split; [done|]. eexists. split; [exact Hes|]. exists k, at_, o.
      split; [|simpl; lia]. split; [done|]. by exists bytes.
    + right; right. by apply refused_fell_silent.
Qed.

(** The slave's events. *)
Definition slave_reaches (n : nat) (L : Link S R) (r : outcome (Link S R)) : Prop :=
  reaches (Datatypes.S n) (λ L', Z.of_nat n <= 2 ^ 16 →
    ep_offset (lk_slave L') = ep_offset (lk_slave L) ∨
    mean_step (lk_now L') (lk_heard L') (lk_asked L') (ep_offset (lk_slave L'))) r.

Lemma silent_slave_did now evm evs heard asked p :
  slave_did now evm evs heard asked (PortFsm_new (Faulty p)) [].
Proof. right. split; [by exists p | by left]. Qed.

Lemma nth_seq_wf start k : SequenceId_wf (nth_seq start k).
Proof. unfold SequenceId_wf, nth_seq, u_wrap. cbn [seq_id]. apply Z.mod_pos_bound. lia. Qed.

Lemma delay_request_true n L r : link_true n L → link_step delay Lk_DelayRequest L = Some r →
  slave_reaches n L r.
Proof.
  intros HL E. pose proof HL as (_ & _ & _ & (_ & Hrole) & _). simpl in E.
  eapply slave_system with (5 := E); [exact HL | done | done |].
  destruct Hrole as [(m & (s & -> & Hs) & Hr & Hq)|(p & ->)];
    [|eapply does_nothing; [by intros w; apply faulty_deaf | apply silent_slave_did]].
  eapply does_mono;
    [apply (follower_delay_request (F := F) sport (dp_port_identity mport) m); [done..|]|].
  { rewrite Hq. apply nth_seq_wf. }
  intros f es [[Hf Hes]|Hes]; [|right; by apply refused_fell_silent].
  left. exists (requested m). split; [by eapply keeps_still|]. split; [exact Hr|]. right.
  unfold DelayCycle_delay_request in Hes. rewrite Hq in Hes. split; [|done]. simpl.
  by rewrite Hq, nth_seq_next.
Qed.

Lemma slave_stamp_true n L k r : link_true n L → link_step delay (Lk_SlaveStamp k) L = Some r →
  slave_reaches n L r.
Proof.
  intros HL E. pose proof HL as (_ & _ & _ & (_ & Hrole) & _ & (_ & _ & Hst) & _). simpl in E.
  apply bind_Some in E as ([msg ts] & Et & E). apply bind_Some in E as ([[at_ o] b] & Eb & E).
  destruct (Hst k _ Et) as (Hts & req & at' & o' & b' & Em & Hreq & Eq & Eb' & Ens).
  rewrite Eb in Eb'. injection Eb' as <- <- <-. simpl in Em, Hts, Ens. subst msg.
  eapply slave_system with (5 := E); [exact HL | by split | done |].
  destruct Hrole as [(m & (s & -> & Hs) & Hr & Hq)|(p & ->)];
    [|eapply does_nothing; [by intros w; apply faulty_deaf | apply silent_slave_did]].
  eapply does_mono; [by apply follower_timestamp|]. intros f es [Hf%keeps_still ->]. left.
  eexists. split; [exact Hf|]. split; [|left; split; [exact Hq | by left]].
  apply (records_request _ _ _ _ _ Hr req ts k); [|done]. split; [done|]. by exists b.
Qed.

Lemma sync_true n L k r : link_true n L → link_step delay (Lk_Sync k) L = Some r →
  slave_reaches n L r.
Proof.
  intros HL E. pose proof HL as (_ & _ & _ & ((_ & _ & Hdn) & Hrole) & (_ & Hsy & _) & _). simpl in E.
  apply bind_Some in E as ([[at_ o] bytes] & Eb & E).
  destruct (Z.eqb_spec (lk_now L) (at_ + delay)) as [En|]; [|done].
  apply bind_Some in E as (ts & Ets & E). unfold ep_read in Ets.
  apply ts_of_ns_Some in Ets as [Hts Ets].
  destruct (Hsy k at_ o bytes Eb) as (-> & sync & Hc & Hsync & Eseq).
  eapply slave_input with (5 := E) (m := PortFsm_process_event_message (F := F)
    (dp_port_identity mport) (TwoStepSync sync) ts (sm_port_fsm (ep_ports (lk_slave L)))); [exact HL|..].
  - intros w. rewrite (eta_ports (ep_ports (lk_slave L))).
    apply (deliver_event_carried mport); [done|]. simpl. congruence.
  - intros. by apply event_safe.
  - destruct Hrole as [(m & (s & -> & Hs) & Hr & Hq)|(p & ->)];
      [|eapply does_nothing; [by intros w; apply faulty_deaf | apply silent_slave_did]].
    eapply does_mono; [by apply follower_two_step_sync|]. intros f es [Hf%keeps_still ->]. left.
    eexists. split; [exact Hf|]. split; [|left; split; [exact Hq | by left]].
    apply (records_sync _ _ _ _ _ Hr sync ts _ k at_); [|done..]. split; [done|]. by exists bytes.
Qed.

Lemma general_true n L k now r : link_true n L → link_step delay (Lk_General k now) L = Some r →
  slave_reaches n L r.
Proof.
  intros HL E. pose proof HL as (_ & _ & _ & ((_ & _ & Hdn) & Hrole) & _ & _ & Hg). simpl in E.
  apply bind_Some in E as (bytes & Eb & E).
  destruct (Hg bytes) as (msg & Hc & Hw & Ht); [by eapply list_elem_of_lookup_2|].
  eapply slave_input with (5 := E) (m := PortFsm_process_general_message
    (dp_port_identity mport) msg now (sm_port_fsm (ep_ports (lk_slave L)))); [exact HL|..].
  - intros w. rewrite (eta_ports (ep_ports (lk_slave L))).
    apply (deliver_general_carried mport); [done|]. simpl. congruence.
  - intros. by apply general_safe.
  - destruct Hrole as [(m & (s & -> & Hs) & Hr & Hq)|(p & ->)];
      [|eapply does_nothing; [by intros w; apply faulty_deaf | apply silent_slave_did]].
    destruct msg as [a|resp|fu].
    + eapply does_mono; [by apply follower_announce|]. intros f es [Hf ->]. left.
      exists m. split; [done|]. split; [done|]. left. split; [done | by left].
    + eapply does_mono; [by apply follower_delay_response|]. intros f es [Hf%keeps_still ->]. left.
      eexists. split; [exact Hf|]. split; [by apply records_response|]. left. split; [done | by left].
    + eapply does_mono; [by apply follower_follow_up|]. intros f es [Hf Hes]. left.
      eexists. split; [exact Hf|]. split; [by apply records_follow_up|]. left. split; [done | by right].
Qed.

(** Every event. *)
Lemma link_step_true n e L r : link_true n L → link_step delay e L = Some r →
  reaches (Datatypes.S n) (λ L', Z.of_nat n <= 2 ^ 16 → clock_follows e L L') r.
Proof.
  intros HL E.
  assert (∀ e, match e with Lk_Drift _ => False | _ => True end → slave_reaches n L r →
    reaches (Datatypes.S n) (λ L', Z.of_nat n <= 2 ^ 16 → clock_follows e L L') r) as Hslave.
  { intros e' He (L' & -> & HL' & H). exists L'. split; [done|]. split; [done|]. intros Hn.
    unfold clock_follows. destruct (H Hn) as [->|?]; [left | by right]. destruct e'; lia || done. }
  assert (∀ e, match e with Lk_Drift _ => False | _ => True end →
    reaches (Datatypes.S n) (λ L', ep_offset (lk_slave L') = ep_offset (lk_slave L)) r →
    reaches (Datatypes.S n) (λ L', Z.of_nat n <= 2 ^ 16 → clock_follows e L L') r) as Hmaster.
  { intros e' He (L' & -> & HL' & H). apply Hslave; [done|]. exists L'. by split_and!; [..|left]. }
  destruct e as [nanos|nanos|msg| |k|k|k|k now|k].
  - simpl in E. destruct (0 <=? nanos); [|done]. injection E as <-. apply Hmaster; [done|].
    eexists. split; [done|]. split; [|done]. destruct HL as (? & ? & HL).
    split; [simpl; lia|]. split; [simpl; lia | exact HL].
  - injection E as <-. eexists. split; [done|]. split; [|by left].
    destruct HL as (? & ? & HL). split; [simpl; lia|]. split; [simpl; lia | exact HL].
  - apply Hmaster; [done|]. by eapply master_timer_true.
  - apply Hslave; [done|]. by apply delay_request_true.
  - apply Hmaster; [done|]. by eapply master_stamp_true.
  - apply Hslave; [done|]. by eapply slave_stamp_true.
  - apply Hslave; [done|]. by eapply sync_true.
  - apply Hslave; [done|]. by eapply general_true.
  - apply Hmaster; [done|]. by eapply request_true.
Qed.

Lemma link_run_true es : ∀ n L r, link_true n L → link_run delay es L = Some r →
  ∃ L', r = Done L' ∧ link_true (n + length es) L'.
Proof.
  induction es as [|e es IH]; intros n L r HL E; simpl in E.
  - injection E as <-. exists L. split; [done|]. by rewrite Nat.add_0_r.
  - destruct (link_step delay e L) as [r1|] eqn:E1; [|done].
    destruct (link_step_true n e L r1 HL E1) as (L1 & -> & HL1 & _).
    destruct (IH _ _ _ HL1 E) as (L' & -> & HL'). exists L'. split; [done|].
    simpl. by rewrite Nat.add_succ_r.
Qed.

(** A link starts in truth. *)
Lemma link_start_true netm nets now offset dn (master : MasterPort R) slave (wm ws : World S) cycle :
  state_ok netm port_ok inv (Master master) → state_ok nets port_ok inv slave →
  I (w_shared wm) → I (w_shared ws) → mp_port master = mport → dp_domain_number mport = dn →
  sc_sequence_id (mp_sync_cycle master) = mkSequenceId s0 → dc_sequence_id cycle = mkSequenceId q0 →
  tracks sport (dp_port_identity mport) (EndToEndDelayMechanism_new cycle) slave →
  link_true 0 (link_start now offset dn (Master master) slave wm ws).
Proof.
  intros Hm Hs Hwm Hws Ep Ed Es Eq Ht.
  assert (∀ z, SequenceId_wf (mkSequenceId z) → nth_seq z 0 = mkSequenceId z) as Hz.
  { intros z Hz. unfold nth_seq, u_wrap. rewrite Z.add_0_r. f_equal. by apply Z.mod_small. }
  pose proof Hm as ((Hport & _) & Hg & Ha & Hla & Hsq & Hlg & Hlm & _).
  split; [done|]. split; [done|]. split; [|split; [|split_and!; try done; intros ? ?%elem_of_nil; done]].
  - split; [split_and!; [exists netm; by eexists | done | by simpl]|]. split; [done|]. left.
    eexists. split; [reflexivity|]. rewrite Hz by congruence. split_and!; [done..|].
    split_and!; try done. by rewrite Ep.
  - split; [split_and!; [exists nets; by eexists | done | simpl; congruence]|]. left.
    eexists. split; [by eexists|]. split; [by split_and!|]. simpl. rewrite Eq, Hz; [done|].
    destruct slave as [p|p|p|p|p|p|p|p]; try done; destruct Ht as (_ & _ & Emech);
      destruct Hs as (_ & _ & ((Hq & _) & _) & _); rewrite Emech in Hq; cbn in Hq; congruence.
Qed.
End link.

(** ** Properties *)

Section properties.
  Context {F : Type} `{HF : !MessageFlagsOps F} `{!MessageFlagsLaws F} `{HE : !Env}.
  Context {S : Type} `{HS : !StateDecisionEvent S} {R : Type} `{HR : !ForeignClockRecords R}.
  Context (I : S → Prop) (port_ok : PortNumber → Prop) (inv : R → Prop)
    `{!ForeignClockRecordsLaws R inv}.
  Context (Hlaws : ∀ net, StateDecisionEventLaws S I (effect_ok (F := F) net) port_ok).
  Context (Htrigger : ∀ p s, emits is_silent (sde_trigger (S := S) p s)).

(** C10: A slave's clock measures truly. Over a path that delays event messages alike in both
    directions, in a run of at most 65536 events, whatever is lost, repeated, reordered or late
    among Follow-ups, delay responses, Announces and timestamps, however the slave's clock drifts
    and whichever servo disciplines it, nothing panics, and the clock is only ever set to the
    estimate that makes it behind the master's by the time since the latest Sync arrived, give or
    take half of what its offset changed between its latest delay request and that arrival. *)
Theorem clock_is_set_to_the_mean delay netm nets now offset dn (master : MasterPort R) sport slave
    (wm ws : World S) cycle es e r :
  state_ok netm port_ok inv (Master master) → state_ok nets port_ok inv slave →
  I (w_shared wm) → I (w_shared ws) →
  dp_domain_number (mp_port master) = dn → dp_domain_number sport = dn →
  tracks sport (dp_port_identity (mp_port master)) (EndToEndDelayMechanism_new cycle) slave →
  Z.of_nat (length es) < 2 ^ 16 →
  let start := link_start now offset dn (Master master) slave wm ws in
  link_run (F := F) delay (es ++ [e]) start = Some r →
  ∃ L L', link_run (F := F) delay es start = Some (Done L) ∧
    link_step (F := F) delay e L = Some (Done L') ∧ r = Done L' ∧
    (ep_offset (lk_slave L')
     = ep_offset (lk_slave L) + match e with Lk_Drift nanos => nanos | _ => 0 end ∨
     ∃ th os td od, lk_heard L' = Some (th, os) ∧ lk_asked L' = Some (td, od) ∧
       ep_offset (lk_slave L') = os - Z.quot (os + od) 2 - (lk_now L' - th)).
Proof.
  intros Hm Hs Hwm Hws Edm Eds Ht Hl start E.
  assert (DomainPort_wf (mp_port master)) as Hmwf by apply Hm.
  assert (dp_domain_number (mp_port master) = dp_domain_number sport) as Hd by congruence.
  assert (DomainPort_wf sport) as Hswf.
  { destruct slave as [p|p|p|p|p|p|p|p]; try done; destruct Ht as (<- & _); apply Hs. }
  destruct (sc_sequence_id (mp_sync_cycle master)) as [s0] eqn:E0.
  destruct (dc_sequence_id cycle) as [q0] eqn:E1.
  pose proof (link_start_true (F := F) I port_ok inv delay (mp_port master) sport s0 q0 Hmwf Hd netm nets now
    offset dn master slave wm ws cycle Hm Hs Hwm Hws eq_refl Edm E0 E1 Ht) as H0.
  destruct (link_run delay es start) as [[L|]|] eqn:Ees.
  - unfold link_run in *. rewrite (steps_run_app _ _ _ _ _ Ees) in E. simpl in E.
    destruct (link_run_true (F := F) I port_ok inv Hlaws Htrigger delay (mp_port master) sport s0 q0
      Hmwf Hswf Hd es _ _ _ H0 Ees) as (L1 & [= <-] & HL).
    destruct (link_step delay e L) as [r1|] eqn:Er; [|done].
    destruct (link_step_true (F := F) I port_ok inv Hlaws Htrigger delay (mp_port master) sport s0 q0
      Hmwf Hswf Hd _ e L r1 HL Er) as (L' & -> & _ & Hf).
    injection E as <-. exists L, L'. split_and!; [done..|]. apply Hf. simpl. lia.
  - by destruct (link_run_true (F := F) I port_ok inv Hlaws Htrigger delay (mp_port master) sport s0 q0
      Hmwf Hswf Hd es _ _ _ H0 Ees) as (? & ? & _).
  - exfalso. clear -E Ees. unfold link_run in *. revert E Ees. generalize start. 
    induction es as [|e' es IH]; intros s E Ees; simpl in *; [done|].
    destruct (link_step delay e' s) as [[s1|]|]; [by eapply IH | done..].
Qed.
End properties.
