(* ===== verification/Recovery.v ===== *)
(** * One undisturbed exchange (crates/rptp/src/master.rs, slave.rs, uncalibrated.rs, e2e.rs, servo.rs)

    The master and the slave of Link.v, when nothing comes between the messages of one exchange:
    whatever the slave has recorded before and whatever its clock shows, the exchange sets it right,
    as far as the Follow-up's way allows. *)

From S2P Require Import Prelude Errors Time Clock PortId DataSet Foreign Stores Wire Message.
From S2P Require Import Effects Servo E2e Bmca Profile Handlers PortState PortSafety Clocks System.
From S2P Require Import Behaviour Exchange Link.

Open Scope Z_scope.

(** A clock can show the instant. *)
Definition readable (ns : Z) : Prop := 0 <= ns < 2 ^ 48 * NANOS_PER_SECOND.

Lemma ts_of_readable ns : readable ns → ∃ ts, ts_of_ns ns = Some ts ∧ TimeStamp_wf ts ∧ ts_ns ts = ns.
Proof.
  intros [H1 H2]. destruct (ts_of_ns ns) as [ts|] eqn:E; [|exfalso].
  - exists ts. split; [done|]. by apply ts_of_ns_Some.
  - revert E. unfold ts_of_ns. by rewrite (proj2 (Z.leb_le 0 ns)), (proj2 (Z.ltb_lt ns _)) by done.
Qed.

(** The events of an exchange: the slave's request, whose timestamp comes back at once, and the
    response, heard after [wait]; then the master's Sync and the Follow-up, which comes [lag] after
    it. [kr] and [ks] datagrams left the slave and the master before, and [g] general ones. *)
Definition requesting (delay wait : Z) (kr g : nat) (i : Instant) : list LinkEvent :=
  [Lk_DelayRequest; Lk_SlaveStamp kr; Lk_Elapse delay; Lk_Request kr; Lk_Elapse wait; Lk_General g i].
Definition syncing (delay lag : Z) (ks g : nat) (i : Instant) : list LinkEvent :=
  [Lk_MasterTimer SM_SyncTimeout; Lk_MasterStamp ks; Lk_Elapse delay; Lk_Sync ks; Lk_Elapse lag;
   Lk_General g i].
Definition undisturbed (delay wait lag : Z) (kr ks g : nat) (i1 i2 : Instant) : list LinkEvent :=
  requesting delay wait kr g i1 ++ syncing delay lag ks (S g) i2.

Section recovery.
  Context {F : Type} `{HF : !MessageFlagsOps F} `{!MessageFlagsLaws F} `{HE : !Env}.
  Context {S : Type} `{HS : !StateDecisionEvent S} {R : Type} `{HR : !ForeignClockRecords R}.
  Context (I : S → Prop) (port_ok : PortNumber → Prop) (inv : R → Prop)
    `{!ForeignClockRecordsLaws R inv}.
  Context (Hlaws : ∀ net, StateDecisionEventLaws S I (effect_ok (F := F) net) port_ok).
  Context (Hacc : accepting) (mport sport : DomainPort).
  Context (Hmwf : DomainPort_wf mport) (Hswf : DomainPort_wf sport).
  Context (Hdomain : dp_domain_number mport = dp_domain_number sport).

Lemma not_refused f es : ¬ refused (R := R) f es.
Proof. by intros (_ & Hn & _). Qed.

(** An input of an end whose port's step can be told. *)
Lemma endpoint_input_runs now i port ep (m : M S (PortFsm R)) (Q : PortFsm R → list Effect → Prop)
    (P : Endpoint S R → Prop) :
  endpoint_ok I port_ok inv port ep →
  (∀ w, deliver (F := F) i (ep_ports ep) w
        = (f ← m; mret (mkSingleDomainPortMap (sm_domain_number (ep_ports ep)) f)) w) →
  (∀ net, map_ok net port_ok inv (ep_ports ep) →
     safe I (effect_ok (F := F) net) (fsm_ok net port_ok inv) m) →
  does Q m →
  (∀ f w es, Q f es →
     let ep1 := with_port (mkSingleDomainPortMap (sm_domain_number (ep_ports ep)) f) w ep in
     endpoint_ok I port_ok inv port ep1 → ∃ ep', endpoint_effects now es ep1 = Some ep' ∧ P ep') →
  ∃ ep', endpoint_input (F := F) now i ep = Some (Done ep') ∧ P ep'.
Proof.
  intros ((net & Hp) & Hw & Hd) Edel Hsafe Hdoes HP. unfold endpoint_input. rewrite Edel.
  pose proof (Hsafe net Hp (ep_world ep) Hw) as Hwp. apply wp_Done in Hwp as (f & w & Em & Hw' & Hf & _).
  destruct (Hdoes _ _ _ Em) as (es & Et & HQ).
  destruct (HP f w _ HQ) as (ep' & E & H); [split; [by exists net | by split]|].
  exists ep'. split; [|done].
  assert ((f ← m; mret (mkSingleDomainPortMap (sm_domain_number (ep_ports ep)) f)) (ep_world ep)
          = Done (mkSingleDomainPortMap (sm_domain_number (ep_ports ep)) f, w)) as ->
    by (unfold mbind, M_bind; by rewrite Em).
  rewrite Et, drop_app_length, endpoint_effects_outward. cbv zeta in E. by rewrite E.
Qed.

(** ** What leaves an end *)

Lemma event_leaves now port msg es ep : sends_event (F := F) port msg es →
  readable (now + ep_offset ep) →
  ∃ bytes ts, carries_event (F := F) port bytes msg ∧ EventMessage_wf msg ∧ TimeStamp_wf ts ∧
    ts_ns ts = now + ep_offset ep ∧
    endpoint_effects now es ep
    = Some (mkEndpoint (S := S) (R := R) (ep_ports ep) (ep_world ep) (ep_offset ep)
              (ep_events ep ++ [(now, ep_offset ep, bytes)]) (ep_generals ep)
              (ep_stamps ep ++ [mkTimestampMessage msg ts])).
Proof.
  intros (bytes & Hc & Hm & ->) (ts & Ets & Hts & Ens)%ts_of_readable. exists bytes, ts.
  split_and!; [done..|]. simpl. unfold ep_read. simpl. by rewrite Ets.
Qed.

Lemma general_leaves now port msg es ep : sends_general (F := F) port msg es →
  ∃ bytes, carries_general (F := F) port bytes msg ∧ GeneralMessage_wf msg ∧
    endpoint_effects now es ep
    = Some (mkEndpoint (S := S) (R := R) (ep_ports ep) (ep_world ep) (ep_offset ep) (ep_events ep)
              (ep_generals ep ++ [bytes]) (ep_stamps ep)).
Proof. intros (bytes & Hc & Hm & ->). by exists bytes. Qed.

(** ** The master's end *)

Definition master_end (seq : SequenceId) (evs : list (Z * Z * list Z)) (gens : list (list Z))
    (stamps : list TimestampMessage) (ep : Endpoint S R) : Prop :=
  endpoint_ok I port_ok inv mport ep ∧ ep_offset ep = 0 ∧
  serving mport seq (sm_port_fsm (ep_ports ep)) ∧
  ep_events ep = evs ∧ ep_generals ep = gens ∧ ep_stamps ep = stamps.

Lemma master_syncs now seq evs gens stamps ep : master_end seq evs gens stamps ep → readable now →
  ∃ ep', endpoint_input (F := F) now (In_System SM_SyncTimeout) ep = Some (Done ep') ∧
    ∃ sync bytes ts, TwoStepSyncMessage_wf sync ∧ carries_event (F := F) mport bytes (TwoStepSync sync) ∧
      TimeStamp_wf ts ∧ ts_ns ts = now ∧
      master_end (SequenceId_next seq) (evs ++ [(now, 0, bytes)]) gens
        (stamps ++ [mkTimestampMessage (TwoStepSync sync) ts]) ep'.
Proof.
  intros (Hok & Ho & (s & Es & Hs) & He & Hg & Hst) Hr.
  eapply endpoint_input_runs; [exact Hok | reflexivity | intros; by apply (system_safe I port_ok inv)|..].
  { rewrite Es. by apply master_sync_does. }
  intros f w es [[Hf (log & Hes)]|[]%not_refused] ep1 Hok1.
  destruct (event_leaves now _ _ _ ep1 Hes) as (bytes & ts & Hc & Hw & Hts & Ens & E).
  { simpl. by rewrite Ho, Z.add_0_r. }
  eexists. split; [exact E|]. simpl in Ens, E |- *. rewrite Ho in *. rewrite Z.add_0_r in Ens.
  eexists _, bytes, ts.
  split_and!; [exact Hw | exact Hc | done..|].
  split_and!; [exact Hok1 | done | exact Hf |..]; simpl; congruence.
Qed.

Lemma master_follows_up now seq evs gens stamps ep sync ts : master_end seq evs gens stamps ep →
  TwoStepSyncMessage_wf sync → TimeStamp_wf ts →
  ∃ ep', endpoint_input (F := F) now (In_System (SM_Timestamp (mkTimestampMessage (TwoStepSync sync) ts))) ep
         = Some (Done ep') ∧
    ∃ bytes, let fu := TwoStepSyncMessage_follow_up ts sync in
      carries_general (F := F) mport bytes (FollowUp fu) ∧ FollowUpMessage_wf fu ∧
      master_end seq evs (gens ++ [bytes]) stamps ep'.
Proof.
  intros (Hok & Ho & (s & Es & Hs) & He & Hg & Hst) Hsy Hts.
  eapply endpoint_input_runs; [exact Hok | reflexivity | intros; apply (system_safe I port_ok inv);
    [done..|by split|done]|..].
  { rewrite Es. by apply master_follow_up_does. }
  intros f w es [[Hf Hes]|[]%not_refused] ep1 Hok1.
  destruct (general_leaves now _ _ _ ep1 Hes) as (bytes & Hc & Hw & E).
  eexists. split; [exact E|]. exists bytes. split_and!; [done..|].
  split_and!; [exact Hok1 | done | exact Hf |..]; simpl; congruence.
Qed.

Lemma master_responds now seq evs gens stamps ep req bytes : master_end seq evs gens stamps ep →
  carries_event (F := F) sport bytes (DelayReq req) → DelayRequestMessage_wf req → readable now →
  ∃ ts ep', ep_read now ep = Some ts ∧
    endpoint_input (F := F) now (In_Event bytes ts) ep = Some (Done ep') ∧
    ∃ bytes' resp, carries_general (F := F) mport bytes' (DelayResp resp) ∧
      DelayResponseMessage_wf resp ∧ ds_sequence_id resp = dr_sequence_id req ∧
      ts_ns (ds_receive_timestamp resp) = now ∧ master_end seq evs (gens ++ [bytes']) stamps ep'.
Proof.
  intros (Hok & Ho & (s & Es & Hs) & He & Hg & Hst) Hc Hreq (ts & Ets & Hts & Ens)%ts_of_readable.
  exists ts. assert (∀ P, (∃ ep', endpoint_input (F := F) now (In_Event bytes ts) ep = Some (Done ep') ∧ P ep') →
    ∃ ep', ep_read now ep = Some ts ∧ endpoint_input (F := F) now (In_Event bytes ts) ep = Some (Done ep') ∧
      P ep') as Hex.
  { intros P (ep' & ? & ?). exists ep'. split_and!; [|done..]. unfold ep_read. by rewrite Ho, Z.add_0_r. }
  apply Hex. clear Hex.
  eapply (endpoint_input_runs _ _ _ _ (PortFsm_process_event_message (F := F) (dp_port_identity sport)
    (DelayReq req) ts (sm_port_fsm (ep_ports ep)))); [exact Hok|..].
  { intros w. rewrite (eta_ports (ep_ports ep)). apply (deliver_event_carried sport); [done|].
    destruct Hok as (_ & _ & Hdn). simpl. congruence. }
  { intros. by apply (event_safe I port_ok inv). }
  { rewrite Es. by apply master_response_does. }
  intros f w es [[Hf (log & Hes)]|[]%not_refused] ep1 Hok1.
  destruct (general_leaves now _ _ _ ep1 Hes) as (bytes' & Hc' & Hw & E).
  eexists. split; [exact E|]. exists bytes'. eexists. split_and!; [done..|].
  split_and!; [exact Hok1 | done | exact Hf |..]; simpl; congruence.
Qed.

(** ** The slave's end *)

Definition slave_end (m : EndToEndDelayMechanism) (o : Z) (evs : list (Z * Z * list Z))
    (stamps : list TimestampMessage) (ep : Endpoint S R) : Prop :=
  endpoint_ok I port_ok inv sport ep ∧
  (∃ s, sm_port_fsm (ep_ports ep) = PortFsm_new s ∧ tracks sport (dp_port_identity mport) m s ∧
        port_servo s = Some Servo_Stepping) ∧
  ep_offset ep = o ∧ ep_events ep = evs ∧ ep_stamps ep = stamps.

Lemma slave_end_em_wf m o evs stamps ep : slave_end m o evs stamps ep → em_wf m.
Proof.
  intros (((net & Hok) & _) & (s & E & Hs & _) & _).
  eapply (still_em_wf port_ok inv net sport (dp_port_identity mport)); [exact Hok|]. by exists s.
Qed.

(** A step that only records. *)
Lemma slave_records now i m m' o evs stamps ep (x : M S (PortFsm R)) : slave_end m o evs stamps ep →
  (∀ w, deliver (F := F) i (ep_ports ep) w
        = (f ← x; mret (mkSingleDomainPortMap (sm_domain_number (ep_ports ep)) f)) w) →
  (∀ net, map_ok net port_ok inv (ep_ports ep) →
     safe I (effect_ok (F := F) net) (fsm_ok net port_ok inv) x) →
  (∀ s, sm_port_fsm (ep_ports ep) = PortFsm_new s → tracks sport (dp_port_identity mport) m s →
     does (λ f es, keeps sport (dp_port_identity mport) s m' f ∧ es = []) x) →
  ∃ ep', endpoint_input (F := F) now i ep = Some (Done ep') ∧ slave_end m' o evs stamps ep'.
Proof.
  intros (Hok & (s & Es & Hs & Hservo) & Ho & He & Hst) Hdel Hsafe Hx.
  eapply endpoint_input_runs; [exact Hok | exact Hdel | exact Hsafe | by eapply Hx|].
  intros f w es [(s' & -> & Hs' & Ek) ->] ep1 Hok1. exists ep1. split; [done|].
  split_and!; [exact Hok1 | exists s'; split_and!; [done..|congruence] | done..].
Qed.

Lemma slave_requests now m o evs stamps ep : slave_end m o evs stamps ep → readable (now + o) →
  ∃ ep', endpoint_input (F := F) now (In_System SM_DelayRequestTimeout) ep = Some (Done ep') ∧
    ∃ req bytes ts, DelayRequestMessage_wf req ∧ carries_event (F := F) sport bytes (DelayReq req) ∧
      TimeStamp_wf ts ∧ ts_ns ts = now + o ∧
      slave_end (requested m) o (evs ++ [(now, o, bytes)])
        (stamps ++ [mkTimestampMessage (DelayReq req) ts]) ep'.
Proof.
  intros Hend Hr. pose proof (slave_end_em_wf _ _ _ _ _ Hend) as [Hq _].
  destruct Hend as (Hok & (s & Es & Hs & Hservo) & Ho & He & Hst).
  eapply endpoint_input_runs; [exact Hok | reflexivity | intros; by apply (system_safe I port_ok inv)|..].
  { rewrite Es. by apply follower_delay_request. }
  intros f w es [[(s' & -> & Hs' & Ek) Hes]|[]%not_refused] ep1 Hok1.
  destruct (event_leaves now _ _ _ ep1 Hes) as (bytes & ts & Hc & Hw & Hts & Ens & E).
  { simpl. by rewrite Ho. }
  eexists. split; [exact E|]. simpl in Ens, E |- *. rewrite Ho in *.
  eexists _, bytes, ts. split_and!; [exact Hw | exact Hc | done..|].
  split_and!; [exact Hok1 | exists s'; split_and!; [done..|congruence] |..]; simpl; congruence.
Qed.

Lemma slave_stamped now m o evs stamps ep req ts : slave_end m o evs stamps ep →
  DelayRequestMessage_wf req → TimeStamp_wf ts →
  ∃ ep', endpoint_input (F := F) now (In_System (SM_Timestamp (mkTimestampMessage (DelayReq req) ts))) ep
         = Some (Done ep') ∧ slave_end (em_record_delay_request req ts m) o evs stamps ep'.
Proof.
  intros Hend Hreq Hts. eapply slave_records; [exact Hend | reflexivity |..].
  - intros. apply (system_safe I port_ok inv); [done..| by split | done].
  - intros s -> Hs. by apply follower_timestamp.
Qed.

Lemma slave_hears_response now i m o evs stamps ep resp bytes : slave_end m o evs stamps ep →
  carries_general (F := F) mport bytes (DelayResp resp) → DelayResponseMessage_wf resp →
  ∃ ep', endpoint_input (F := F) now (In_General bytes i) ep = Some (Done ep') ∧
    slave_end (em_record_delay_response resp m) o evs stamps ep'.
Proof.
  intros Hend Hc Hw. eapply (slave_records _ _ _ _ _ _ _ _ (PortFsm_process_general_message
    (dp_port_identity mport) (DelayResp resp) i (sm_port_fsm (ep_ports ep)))); [exact Hend|..].
  - intros w. rewrite (eta_ports (ep_ports ep)). apply (deliver_general_carried mport); [done|].
    destruct Hend as ((_ & _ & Hdn) & _). simpl. congruence.
  - intros. by apply (general_safe I port_ok inv).
  - intros s -> Hs. by apply follower_delay_response.
Qed.

Lemma slave_hears_sync now m o evs stamps ep sync bytes : slave_end m o evs stamps ep →
  carries_event (F := F) mport bytes (TwoStepSync sync) → TwoStepSyncMessage_wf sync →
  readable (now + o) →
  ∃ ts ep', ep_read now ep = Some ts ∧ TimeStamp_wf ts ∧ ts_ns ts = now + o ∧
    endpoint_input (F := F) now (In_Event bytes ts) ep = Some (Done ep') ∧
    slave_end (em_record_two_step_sync sync ts m) o evs stamps ep'.
Proof.
  intros Hend Hc Hw (ts & Ets & Hts & Ens)%ts_of_readable.
  destruct (slave_records now (In_Event bytes ts) m (em_record_two_step_sync sync ts m) o evs stamps ep
    (PortFsm_process_event_message (F := F) (dp_port_identity mport) (TwoStepSync sync) ts
       (sm_port_fsm (ep_ports ep))) Hend) as (ep' & E & Hend').
  - intros w. rewrite (eta_ports (ep_ports ep)). apply (deliver_event_carried mport); [done|].
    destruct Hend as ((_ & _ & Hdn) & _). simpl. congruence.
  - intros. by apply (event_safe I port_ok inv).
  - intros s -> Hs. by apply follower_two_step_sync.
  - exists ts, ep'. split_and!; try done. unfold ep_read. by destruct Hend as (_ & _ & -> & _).
Qed.

(** The Follow-up that completes a measurement sets the clock to the estimate. *)
Lemma slave_steps now i m o evs stamps ep fu bytes sample to : slave_end m o evs stamps ep →
  carries_general (F := F) mport bytes (FollowUp fu) → FollowUpMessage_wf fu →
  em_sample (em_record_follow_up fu m) = Done (Some sample) →
  ServoSample_master_estimate sample = Done (Some to) →
  ∃ ep', endpoint_input (F := F) now (In_General bytes i) ep = Some (Done ep') ∧
    (∃ q, sm_port_fsm (ep_ports ep') = PortFsm_new (Slave q)) ∧ ep_offset ep' = ts_ns to - now.
Proof.
  intros (Hok & (s & Es & Hs & Hservo) & Ho & He & Hst) Hc Hw Esample Eto.
  eapply (endpoint_input_runs _ _ _ _ (PortFsm_process_general_message
    (dp_port_identity mport) (FollowUp fu) i (sm_port_fsm (ep_ports ep)))); [exact Hok|..].
  - intros w. rewrite (eta_ports (ep_ports ep)). apply (deliver_general_carried mport); [done|].
    destruct Hok as (_ & _ & Hdn). simpl. congruence.
  - intros. by apply (general_safe I port_ok inv).
  - rewrite Es. by apply (follower_steps sport _ fu i m s sample to).
  - intros f w es [(q & ->) ->] ep1 Hok1. eexists. split; [reflexivity|].
    split; [by exists q | done].
Qed.

(** ** What is measured *)

Lemma exchange_measures m req t1 resp sync t4 fu theta th : em_wf m → TimeStamp_wf t1 →
  DelayResponseMessage_wf resp → TwoStepSyncMessage_wf sync → TimeStamp_wf t4 → FollowUpMessage_wf fu →
  ds_sequence_id resp = dr_sequence_id req → fu_sequence_id fu = tw_sequence_id sync →
  (ts_ns t4 - ts_ns (fu_precise_origin_timestamp fu))
    - (ts_ns (ds_receive_timestamp resp) - ts_ns t1) = 2 * theta →
  ts_ns t4 = th + theta → readable th →
  ∃ sample to,
    em_sample (em_record_follow_up fu (em_record_two_step_sync sync t4
      (em_record_delay_response resp (em_record_delay_request req t1 m)))) = Done (Some sample) ∧
    ServoSample_master_estimate sample = Done (Some to) ∧ ts_ns to = th.
Proof.
  intros Hm Ht1 Hresp Hsync Ht4 Hfu Eresp Efu Etheta Eth (to & Eto & Hto & Ens)%ts_of_readable.
  rewrite em_sample_eq.
  2:{ apply em_record_follow_up_wf; [|done]. apply em_record_two_step_sync_wf; [|done].
      apply em_record_delay_response_wf; [|done]. by apply em_record_delay_request_wf. }
  unfold sample_ns, ms_ns, sm_ns. simpl. rewrite !bool_decide_eq_true_2 by done.
  eexists _, to. split; [reflexivity|]. split; [|done].
  replace (Z.quot _ 2) with theta.
  2:{ rewrite Etheta, Z.mul_comm. symmetry. by apply Z.quot_mul. }
  pose proof (ts_ns_range _ Ht1). pose proof (ts_ns_range _ Ht4). pose proof (ts_ns_range _ Hto).
  unfold ServoSample_master_estimate. cbn [sa_ingress sa_offset].
  rewrite TimeStamp_checked_sub_eq by
    (done || apply ti_wf_of_ns; unfold NANOS_PER_SECOND in *; lia).
  rewrite ti_ns_of_ns. replace (ts_ns t4 - theta) with th by lia. by rewrite Eto.
Qed.

(** ** The exchange *)

Lemma link_run_cons delay e es L L1 : link_step (F := F) delay e L = Some (Done L1) →
  link_run (F := F) delay (e :: es) L = link_run (F := F) delay es L1.
Proof. intros E. unfold link_run. simpl. by rewrite E. Qed.

Lemma elapses delay nanos now (M Sl : Endpoint S R) heard asked : 0 <= nanos →
  link_step (F := F) delay (Lk_Elapse nanos) (mkLink now M Sl heard asked)
  = Some (Done (mkLink (now + nanos) M Sl heard asked)).
Proof. intros H. simpl. by rewrite (proj2 (Z.leb_le 0 nanos)) by done. Qed.

Lemma request_runs delay wait now seq evm gm stm m theta evs sts M0 S0 heard asked i :
  master_end seq evm gm stm M0 → slave_end m theta evs sts S0 → length sts = length evs →
  0 <= delay → 0 <= wait → readable (now + theta) → readable (now + delay) →
  ∃ M1 S1 bytes req t1 resp asked' evs' sts',
    link_run (F := F) delay (requesting delay wait (length evs) (length gm) i)
      (mkLink now M0 S0 heard asked) = Some (Done (mkLink (now + delay + wait) M1 S1 heard asked')) ∧
    master_end seq evm (gm ++ [bytes]) stm M1 ∧
    slave_end (em_record_delay_response resp (em_record_delay_request req t1 (requested m))) theta
      evs' sts' S1 ∧
    em_wf (requested m) ∧ TimeStamp_wf t1 ∧ ts_ns t1 = now + theta ∧ DelayResponseMessage_wf resp ∧
    ds_sequence_id resp = dr_sequence_id req ∧ ts_ns (ds_receive_timestamp resp) = now + delay.
Proof.
  intros HM HS0 Hl Hd Hw Hr1 Hr2.
  destruct (slave_requests now _ _ _ _ _ HS0 Hr1) as (S1 & E1 & req & b & t1 & Hreq & Hc & Ht1 & En1 & HS1).
  destruct (slave_stamped now _ _ _ _ _ req t1 HS1 Hreq Ht1) as (S2 & E2 & HS2).
  destruct (master_responds (now + delay) _ _ _ _ _ req b HM Hc Hreq Hr2)
    as (t2 & M1 & Et2 & E3 & b' & resp & Hc' & Hresp & Eid & En2 & HM1).
  destruct (slave_hears_response (now + delay + wait) i _ _ _ _ _ resp b' HS2 Hc' Hresp)
    as (S3 & E4 & HS3).
  pose proof (slave_end_em_wf _ _ _ _ _ HS1).
  exists M1, S3, b', req, t1, resp, (Some (now, theta)), (evs ++ [(now, theta, b)]),
    (sts ++ [mkTimestampMessage (DelayReq req) t1]).
  split; [|by split_and!]. unfold requesting.
  destruct HS1 as (_ & _ & _ & Eev1 & Est1), HS2 as (_ & _ & _ & Eev2 & _), HM1 as (_ & _ & _ & _ & Eg1 & _).
  rewrite (link_run_cons _ _ _ _ (mkLink now M0 S1 heard asked)) by (simpl; by rewrite E1).
  rewrite (link_run_cons _ _ _ _ (mkLink now M0 S2 heard (Some (now, theta)))).
  2:{ simpl. rewrite Est1, list_lookup_middle by done. cbn [mbind option_bind].
      rewrite Eev1, list_lookup_middle by done. simpl. by rewrite E2. }
  rewrite (link_run_cons _ _ _ _ _ (elapses delay delay now M0 S2 _ _ Hd)).
  rewrite (link_run_cons _ _ _ _ (mkLink (now + delay) M1 S2 heard (Some (now, theta)))).
  2:{ simpl. rewrite Eev2, list_lookup_middle by done. simpl. rewrite Z.eqb_refl, Et2. simpl. by rewrite E3. }
  rewrite (link_run_cons _ _ _ _ _ (elapses delay wait (now + delay) M1 S2 _ _ Hw)).
  rewrite (link_run_cons _ _ _ _ (mkLink (now + delay + wait) M1 S3 heard (Some (now, theta)))); [done|].
  simpl. rewrite Eg1, list_lookup_middle by done. simpl. by rewrite E4.
Qed.

(** The master's Sync and Follow-up, and what they do to the slave's clock. *)
Lemma sync_runs delay lag now seq evm gm stm m theta evs sts M0 S0 heard asked i :
  master_end seq evm gm stm M0 → slave_end m theta evs sts S0 → length stm = length evm →
  0 <= delay → 0 <= lag → readable now → readable (now + delay + theta) → readable (now + delay) →
  (∀ sync t4 fu, TwoStepSyncMessage_wf sync → TimeStamp_wf t4 → FollowUpMessage_wf fu →
     fu_sequence_id fu = tw_sequence_id sync → ts_ns (fu_precise_origin_timestamp fu) = now →
     ts_ns t4 = now + delay + theta →
     ∃ sample to, em_sample (em_record_follow_up fu (em_record_two_step_sync sync t4 m)) = Done (Some sample) ∧
       ServoSample_master_estimate sample = Done (Some to) ∧ ts_ns to = now + delay) →
  ∃ L', link_run (F := F) delay (syncing delay lag (length evm) (length gm) i)
      (mkLink now M0 S0 heard asked) = Some (Done L') ∧
    lk_now L' = now + delay + lag ∧ ep_offset (lk_slave L') = - lag ∧
    (∃ q, sm_port_fsm (ep_ports (lk_slave L')) = PortFsm_new (Slave q)) ∧
    serving mport (SequenceId_next seq) (sm_port_fsm (ep_ports (lk_master L'))).
Proof.
  intros HM HS0 Hl Hd Hlag Hr1 Hr2 Hr3 Hmeasure.
  destruct (master_syncs now _ _ _ _ _ HM Hr1) as (M1 & E1 & sync & b & t3 & Hsync & Hc & Ht3 & En3 & HM1).
  destruct (master_follows_up now _ _ _ _ _ sync t3 HM1 Hsync Ht3) as (M2 & E2 & b' & Hc' & Hfu & HM2).
  destruct (slave_hears_sync (now + delay) _ _ _ _ _ sync b HS0 Hc Hsync Hr2)
    as (t4 & S1 & Et4 & Ht4 & En4 & E3 & HS1).
  destruct (Hmeasure sync t4 _ Hsync Ht4 Hfu eq_refl En3 En4) as (sample & to & Esample & Eto & Ens).
  destruct (slave_steps (now + delay + lag) i _ _ _ _ _ _ b' sample to HS1 Hc' Hfu Esample Eto)
    as (S2 & E4 & Hq & Ho).
  exists (mkLink (now + delay + lag) M2 S2 (Some (now + delay, theta)) asked).
  destruct HM1 as (_ & _ & _ & Eev1 & _ & Est1), HM2 as (_ & _ & Hserve & Eev2 & Eg2 & _).
  destruct HS0 as (_ & _ & Eo & _).
  split; [|split; [done|]; split; [cbn [lk_slave]; rewrite Ho; lia|]; by split]. unfold syncing.
  rewrite (link_run_cons _ _ _ _ (mkLink now M1 S0 heard asked)) by (simpl; by rewrite E1).
  rewrite (link_run_cons _ _ _ _ (mkLink now M2 S0 heard asked)).
  2:{ simpl. rewrite Est1, list_lookup_middle by done. simpl. by rewrite E2. }
  rewrite (link_run_cons _ _ _ _ _ (elapses delay delay now M2 S0 _ _ Hd)).
  rewrite (link_run_cons _ _ _ _ (mkLink (now + delay) M2 S1 (Some (now + delay, theta)) asked)).
  2:{ simpl. rewrite Eev2, list_lookup_middle by done. simpl. rewrite Z.eqb_refl, Et4. simpl.
      by rewrite E3, Eo. }
  rewrite (link_run_cons _ _ _ _ _ (elapses delay lag (now + delay) M2 S1 _ _ Hlag)).
  rewrite (link_run_cons _ _ _ _ (mkLink (now + delay + lag) M2 S2 (Some (now + delay, theta)) asked)); [done|].
  simpl. rewrite Eg2, list_lookup_middle by done. simpl. by rewrite E4.
Qed.
End recovery.

(** ** Property *)

Section properties.
  Context {F : Type} `{HF : !MessageFlagsOps F} `{!MessageFlagsLaws F} `{HE : !Env}.
  Context {S : Type} `{HS : !StateDecisionEvent S} {R : Type} `{HR : !ForeignClockRecords R}.
  Context (I : S → Prop) (port_ok : PortNumber → Prop) (inv : R → Prop)
    `{!ForeignClockRecordsLaws R inv}.
  Context (Hlaws : ∀ net, StateDecisionEventLaws S I (effect_ok (F := F) net) port_ok).

(** C11: One exchange sets a clock right, whatever came before. A master, and a port with a
    stepping servo that follows it, uncalibrated or slave, with whatever its delay mechanism has
    recorded and whatever has left either end, exchange a delay request, its response, a Sync and
    its Follow-up over a path with the same delay both ways that takes what they send: nothing
    panics, the port is then a slave, and its clock, whatever it showed before, is behind the
    master's by exactly the time the Follow-up came after its Sync. *)
Theorem one_exchange_recovers delay wait lag i1 i2 netm nets now theta dn (master : MasterPort R)
    sport slave m wm ws evm gm stm evs gs sts heard asked :
  accepting → state_ok netm port_ok inv (Master master) → state_ok nets port_ok inv slave →
  I (w_shared wm) → I (w_shared ws) →
  dp_domain_number (mp_port master) = dn → dp_domain_number sport = dn →
  tracks sport (dp_port_identity (mp_port master)) m slave → port_servo slave = Some Servo_Stepping →
  length stm = length evm → length sts = length evs →
  0 <= delay → 0 <= wait → 0 <= lag →
  let heard_at := now + delay + wait + delay in
  readable now → readable heard_at → readable (now + theta) → readable (heard_at + theta) →
  let L := mkLink now (mkEndpoint (SingleDomainPortMap_new dn (Master master)) wm 0 evm gm stm)
             (mkEndpoint (SingleDomainPortMap_new dn slave) ws theta evs gs sts) heard asked in
  ∃ L', link_run (F := F) delay
      (undisturbed delay wait lag (length evs) (length evm) (length gm) i1 i2) L = Some (Done L') ∧
    lk_now L' = heard_at + lag ∧ ep_offset (lk_slave L') = - lag ∧
    (∃ q, sm_port_fsm (ep_ports (lk_slave L')) = PortFsm_new (Slave q)) ∧
    (∃ p, sm_port_fsm (ep_ports (lk_master L')) = PortFsm_new (Master p)).
Proof.
  intros Hacc Hm Hs Hwm Hws Edm Eds Ht Hservo Hlm Hls Hd Hwait Hlag heard_at Hr1 Hr2 Hr3 Hr4 L.
  assert (DomainPort_wf (mp_port master)) as Hmwf by apply Hm.
  assert (DomainPort_wf sport) as Hswf.
  { destruct slave as [p|p|p|p|p|p|p|p]; try done; destruct Ht as (<- & _); apply Hs. }
  assert (dp_domain_number (mp_port master) = dp_domain_number sport) as Hdom by congruence.
  pose proof Hm as ((Hport & _) & Hg & Ha & Hla & Hsq & Hlg & Hlm' & _).
  set (M0 := lk_master L). set (S0 := lk_slave L). unfold readable in *.
  assert (master_end I port_ok inv (mp_port master) (sc_sequence_id (mp_sync_cycle master)) evm gm stm M0)
    as HM.
  { split; [split_and!; [exists netm; by eexists | done | by simpl]|]. split; [done|].
    split; [|by split]. exists (Master master). split; [done|]. by split_and!. }
  assert (slave_end I port_ok inv (mp_port master) sport m theta evs sts S0) as HS0.
  { split; [split_and!; [exists nets; by eexists | done | done]|]. split; [by exists slave | done]. }
  edestruct (request_runs (F := F) I port_ok inv Hlaws Hacc (mp_port master) sport Hswf Hdom
    delay wait now _ _ _ _ _ _ _ _ M0 S0 heard asked i1 HM HS0 Hls)
    as (M1 & S1 & b & req & t1 & resp & asked' & evs' & sts' & E1 & HM1 & HS1 & Hwf & Ht1 & En1 & Hresp & Eid & En2);
    [done..| | |]; [by unfold readable | unfold readable; lia|].
  edestruct (sync_runs (F := F) I port_ok inv Hlaws Hacc (mp_port master) sport Hmwf Hdom
    delay lag (now + delay + wait) _ _ _ _ _ _ _ _ M1 S1 heard asked' i2 HM1 HS1 Hlm)
    as (L' & E2 & En & Ho & Hq & Hserve); [done..| | | | |].
  1,2,3: unfold readable, heard_at in *; lia.
  { intros sync t4 fu Hsync Ht4 Hfu Efu En3 En4.
    apply (exchange_measures _ _ _ _ _ _ _ theta); try done. lia. }
  exists L'. split; [|split_and!; [done..|]].
  - unfold undisturbed, link_run in *. rewrite (steps_run_app _ _ _ _ _ E1).
    by rewrite length_app, Nat.add_1_r in E2.
  - destruct Hserve as (s & E & Hs'). destruct s as [p|p|p|p|p|p|p|p]; try done. by exists p.
Qed.
End properties.
