(* ===== verification/Tracking.v ===== *)
(** * How a port comes to follow its master (crates/rptp/src/uncalibrated.rs, e2e.rs, servo.rs)

    The messages of one exchange as they reach the state machine, and what the port and its clock
    do when the exchange is complete. *)

From S2P Require Import Prelude Errors Time Clock PortId DataSet Foreign Stores Wire Message.
From S2P Require Import Effects Servo E2e Bmca Profile Handlers PortState PortSafety Clocks System.

Open Scope Z_scope.

(** Effects that only write logs or handle timeouts. *)
Definition is_bookkeeping (e : Effect) : bool :=
  match e with
  | E_Log _ _ | E_NewTimeout _ | E_Restart _ _ | E_RestartWithMessage _ _ _ => true
  | _ => false
  end.

Lemma filter_bookkeeping es : Forall (λ e, is_bookkeeping e = true) es →
  filter (λ e, is_bookkeeping e = false) es = [].
Proof. induction 1 as [|e es He _ IH]; [done|]. by rewrite filter_cons_False by congruence. Qed.

Section tracking.
  Context {F : Type} `{HF : !MessageFlagsOps F} `{HE : !Env}.
  Context {S : Type} `{HS : !StateDecisionEvent S} {R : Type} `{HR : !ForeignClockRecords R}.
  Context (parent : PortIdentity) (now : Instant).

(** A message of an exchange as the port's infrastructure delivers it: Sync, Follow-up and delay
    response come from the parent, the delay request is the port's own, timestamped on egress. *)
Definition exchange_input (e : ExchangeEvent) (fsm : PortFsm R) : M S (PortFsm R) :=
  match e with
  | XOneStepSync m t => PortFsm_process_event_message (F := F) parent (OneStepSync m) t fsm
  | XTwoStepSync m t => PortFsm_process_event_message (F := F) parent (TwoStepSync m) t fsm
  | XFollowUp m => PortFsm_process_general_message parent (FollowUp m) now fsm
  | XDelayReq m t =>
      PortFsm_process_system_message (F := F) (SM_Timestamp (mkTimestampMessage (DelayReq m) t)) fsm
  | XDelayResp m => PortFsm_process_general_message parent (DelayResp m) now fsm
  end.

Fixpoint exchange_run (es : list ExchangeEvent) (fsm : PortFsm R) : M S (PortFsm R) :=
  match es with
  | [] => mret fsm
  | e :: es => fsm ← exchange_input e fsm; exchange_run es fsm
  end.

(** The messages that complete no offset, and those that may. *)
Definition only_records (e : ExchangeEvent) : Prop :=
  match e with XTwoStepSync _ _ | XDelayReq _ _ | XDelayResp _ => True | _ => False end.
Definition completes (e : ExchangeEvent) : Prop :=
  match e with XOneStepSync _ _ | XFollowUp _ => True | _ => False end.

(** A port that follows [parent] with a stepping servo, calibrated or not, and has recorded [m]. *)
Definition follows (s : PortState R) (bmca : ParentTrackingBmca R) (m : EndToEndDelayMechanism)
    : Prop :=
  match s with
  | Uncalibrated p =>
      up_servo p = Servo_Stepping ∧ up_bmca p = bmca ∧ up_delay_mechanism p = m
  | Slave p => sp_servo p = Servo_Stepping ∧ sp_bmca p = bmca ∧ sp_delay_mechanism p = m
  | _ => False
  end.

Section follower.
  Context (bmca : ParentTrackingBmca R).
  Context (Hparent : ParentTrackingBmca_matches_parent parent bmca = true).

Lemma exchange_input_records e s m (w : World S) : follows s bmca m → only_records e →
  ∃ s' port ev, exchange_input e (PortFsm_new s) w
  = Done (PortFsm_new s', mkWorld (w_trace w ++ [E_Log port ev]) (w_shared w)) ∧
  follows s' bmca (em_record m e) ∧ kind s' = kind s.
Proof.
  intros Hs He. destruct s as [p|p|p|p|p|p|p|p]; try done; destruct Hs as (Hs & Hb & Hm);
    destruct e; try done; do 3 eexists;
    (split; [unfold exchange_input, PortFsm_process_event_message, PortFsm_process_general_message,
      PortFsm_process_system_message, PortFsm_drive; cbn [fsm_state PortFsm_new];
      unfold PortState_dispatch_event, PortState_dispatch_general, PortState_dispatch_system,
        decided, UncalibratedPort_process_two_step_sync, UncalibratedPort_process_delay_request,
        UncalibratedPort_process_delay_response, SlavePort_process_two_step_sync,
        SlavePort_process_delay_request, SlavePort_process_delay_response,
        DomainPort_log, emit, mbind, M_bind;
      rewrite ?Hb, ?Hparent; reflexivity |]); subst m; by split_and!.
Qed.

Lemma exchange_run_records es : Forall only_records es → ∀ s m (w : World S),
  follows s bmca m →
  ∃ s' tr, exchange_run es (PortFsm_new s) w
  = Done (PortFsm_new s', mkWorld (w_trace w ++ tr) (w_shared w)) ∧
    Forall (λ e, is_bookkeeping e = true) tr ∧
    follows s' bmca (fold_left em_record es m) ∧ kind s' = kind s.
Proof.
  induction 1 as [|e es He Hes IH]; intros s m w Hs; simpl.
  { exists s, []. rewrite app_nil_r. by destruct w. }
  destruct (exchange_input_records e s m w Hs He) as (s1 & port & ev & E & Hs1 & Hk).
  destruct (IH s1 _ (mkWorld (w_trace w ++ [E_Log port ev]) (w_shared w)) Hs1)
    as (s' & tr & E' & Htr & Hs' & Hk').
  unfold mbind, M_bind. rewrite E, E'. exists s', (E_Log port ev :: tr). simpl.
  rewrite <- app_assoc. split_and!; [done | by constructor | done | congruence].
Qed.

(** The message that completes an offset steps the clock to the master's time and leaves a
    slave. *)
Lemma exchange_input_completes e s m t2 offset to (w : World S) : follows s bmca m → completes e →
  em_sample (em_record m e) = Done (Some (mkServoSample t2 offset)) →
  TimeStamp_checked_sub t2 offset = Done (Some to) →
  ∃ q tr, exchange_input e (PortFsm_new s) w
  = Done (PortFsm_new (Slave q), mkWorld (w_trace w ++ tr) (w_shared w)) ∧
  follows (Slave q) bmca (em_record m e) ∧
  filter (λ e, is_bookkeeping e = false) tr = [E_Metric offset; E_ClockStep to].
Proof.
  intros Hs He Hsa Hto. destruct s as [p|p|p|p|p|p|p|p]; try done; destruct Hs as (Hs & Hb & Hm);
    destruct e as [sync t|? ?|fu|? ?|?]; try done; cbn [em_record] in Hsa;
    unfold exchange_input, PortFsm_process_event_message, PortFsm_process_general_message,
      PortFsm_drive; cbn [fsm_state PortFsm_new];
    unfold PortState_dispatch_event, PortState_dispatch_general, decided,
      UncalibratedPort_process_one_step_sync, UncalibratedPort_process_follow_up,
      SlavePort_process_one_step_sync, SlavePort_process_follow_up,
      UncalibratedPort_feed_sample, SlavePort_feed_sample, DomainPort_log, emit, mbind, M_bind, lift;
    rewrite Hb, Hparent;
    cbn [negb up_delay_mechanism UncalibratedPort_with_delay_mechanism sp_delay_mechanism
         SlavePort_with_delay_mechanism up_servo sp_servo];
    rewrite Hm, Hsa, Hs;
    unfold Servo_feed, SteppingServo_feed, ServoSample_log, ServoSample_master_estimate, emit, mbind,
      M_bind, lift; cbn [sa_ingress sa_offset]; rewrite Hto;
    unfold mret, M_ret, PortFsm_apply_decision; cbn [fsm_state PortState_apply];
    unfold UncalibratedPort_master_clock_selected, PortProfile_slave, SlavePort_new,
      start_announce_receipt_timeout, DomainPort_timeout, new_timeout,
      AnnounceReceiptTimeout_restart, Timeout_restart, DomainPort_log, emit, get_trace, mbind, M_bind,
      mret, M_ret;
    cbn [w_trace w_shared]; rewrite <- ?app_assoc;
    do 2 eexists; (split; [reflexivity|]); subst m bmca; by split_and!.
Qed.
End follower.

Lemma exchange_run_app es es' fsm (w : World S) :
  exchange_run (es ++ es') fsm w = (exchange_run es fsm ≫= exchange_run es') w.
Proof.
  revert fsm w. induction es as [|e es IH]; intros fsm w; simpl; [done|].
  unfold mbind, M_bind. destruct (exchange_input e fsm w) as [[fsm' w']|]; [apply IH | done].
Qed.

(** ** Rounds of measurement *)

(** The master time a sample steps to. *)
Lemma master_time_of_exchange t1 t2 t3 t4 theta delay : exchange_times t1 t2 t3 t4 theta delay →
  0 <= ts_ns t1 + delay < 2 ^ 48 * NANOS_PER_SECOND →
  ∃ to, TimeStamp_checked_sub t2 (ti_of_ns theta) = Done (Some to) ∧ ts_ns to = ts_ns t1 + delay.
Proof.
  intros (H1 & H2 & _ & _ & E2 & _) Hto. pose proof (ts_ns_range _ H2). pose proof (ts_ns_range _ H1).
  rewrite TimeStamp_checked_sub_eq, ti_ns_of_ns by
    (try apply ti_wf_of_ns; done || unfold NANOS_PER_SECOND in *; lia).
  destruct (ts_of_ns (ts_ns t2 - theta)) as [to|] eqn:E.
  - exists to. split; [done|]. apply ts_of_ns_Some in E as [_ ->]. lia.
  - exfalso. unfold ts_of_ns in E. case_match eqn:Eb; [done|]. unfold NANOS_PER_SECOND in *. lia.
Qed.

(** The Sync of a round, in one message or two. *)
Inductive RoundSync :=
| OneStepRound (sync : OneStepSyncMessage)
| TwoStepRound (sync : TwoStepSyncMessage) (follow_up : FollowUpMessage).

(** One round: the messages of the exchange, its timestamps on the slave's clock, the order in
    which the messages before the completing one arrive. *)
Record Round := mkRound {
  rd_sync : RoundSync;
  rd_ingress : TimeStamp;
  rd_request : DelayRequestMessage;
  rd_egress : TimeStamp;
  rd_response : DelayResponseMessage;
  rd_order : list ExchangeEvent;
}.

Definition round_origin (r : Round) : TimeStamp :=
  match rd_sync r with
  | OneStepRound sync => os_origin_timestamp sync
  | TwoStepRound _ fu => fu_precise_origin_timestamp fu
  end.

(** The message that carries the origin timestamp comes last. *)
Definition round_last (r : Round) : ExchangeEvent :=
  match rd_sync r with
  | OneStepRound sync => XOneStepSync sync (rd_ingress r)
  | TwoStepRound _ fu => XFollowUp fu
  end.

Definition round_recorded (r : Round) : list ExchangeEvent :=
  match rd_sync r with OneStepRound _ => [] | TwoStepRound sync _ => [XTwoStepSync sync (rd_ingress r)] end
  ++ [XDelayReq (rd_request r) (rd_egress r); XDelayResp (rd_response r)].

Definition round_events (r : Round) : list ExchangeEvent := rd_order r ++ [round_last r].

(** Messages that belong together, over a symmetric path of [delay], with the slave's clock ahead
    by [theta]; the master's time at the ingress of the Sync is in range. *)
Definition round_ok (r : Round) (theta delay : Z) : Prop :=
  rd_order r ≡ₚ round_recorded r ∧
  ds_sequence_id (rd_response r) = dr_sequence_id (rd_request r) ∧
  match rd_sync r with
  | OneStepRound _ => True
  | TwoStepRound sync fu => fu_sequence_id fu = tw_sequence_id sync
  end ∧
  exchange_times (round_origin r) (rd_ingress r) (rd_egress r)
    (ds_receive_timestamp (rd_response r)) theta delay ∧
  0 <= ts_ns (round_origin r) + delay < 2 ^ 48 * NANOS_PER_SECOND.

(** What a round does to the clock. *)
Definition round_effects (r : Round) (theta delay : Z) (es : list Effect) : Prop :=
  ∃ to, es = [E_Metric (ti_of_ns theta); E_ClockStep to] ∧ ts_ns to = ts_ns (round_origin r) + delay.

Lemma round_sample r theta delay m : round_ok r theta delay →
  em_sample (fold_left em_record (round_events r) m)
  = Done (Some (mkServoSample (rd_ingress r) (ti_of_ns theta))).
Proof.
  intros (Hp & Er & Es & Ht & _). unfold round_events, round_origin, round_recorded, round_last in *.
  destruct (rd_sync r) as [sync|sync fu].
  - apply (one_step_sample _ sync (rd_request r) (rd_response r) _ (rd_egress r) _ theta delay);
      [done..|]. rewrite Hp. unfold one_step_exchange. solve_Permutation.
  - apply (two_step_sample _ sync fu (rd_request r) (rd_response r) _ (rd_egress r) _ theta delay);
      [done..|]. rewrite Hp. unfold two_step_exchange. solve_Permutation.
Qed.

Lemma round_tracks bmca r theta delay s m (w : World S) :
  ParentTrackingBmca_matches_parent parent bmca = true →
  follows s bmca m → round_ok r theta delay →
  ∃ q m' tr, exchange_run (round_events r) (PortFsm_new s) w
    = Done (PortFsm_new (Slave q), mkWorld (w_trace w ++ tr) (w_shared w)) ∧
    follows (Slave q) bmca m' ∧
    round_effects r theta delay (filter (λ e, is_bookkeeping e = false) tr).
Proof.
  intros Hb Hs Hr. pose proof (round_sample r theta delay m Hr) as Hsa.
  destruct Hr as (Hp & _ & _ & Ht & Hto).
  destruct (master_time_of_exchange _ _ _ _ _ _ Ht Hto) as (to & Est & Eto).
  assert (Forall only_records (rd_order r)) as Ho
    by (rewrite Hp; unfold round_recorded; destruct (rd_sync r); by repeat constructor).
  assert (completes (round_last r)) as Hl by (unfold round_last; by destruct (rd_sync r)).
  destruct (exchange_run_records bmca Hb (rd_order r) Ho s m w Hs) as (s1 & tr & E & Htr & Hs1 & _).
  unfold round_events in *. rewrite fold_left_app in Hsa.
  destruct (exchange_input_completes bmca Hb (round_last r) s1 _ _ _ _
    (mkWorld (w_trace w ++ tr) (w_shared w)) Hs1 Hl Hsa Est) as (q & tr' & E' & Hq & Hf).
  rewrite exchange_run_app. unfold mbind at 1, M_bind at 1. rewrite E. cbn [exchange_run].
  unfold mbind, M_bind. rewrite E'. cbn [w_trace w_shared].
  eexists q, _, (tr ++ tr'). rewrite <- app_assoc. split; [reflexivity|]. split; [exact Hq|].
  exists to. by rewrite filter_app, (filter_bookkeeping tr Htr), Hf.
Qed.

Lemma rounds_track bmca rounds : ∀ s m (w : World S),
  ParentTrackingBmca_matches_parent parent bmca = true → follows s bmca m →
  Forall (λ '(r, theta, delay), round_ok r theta delay) rounds → rounds ≠ [] →
  ∃ q tr ess, exchange_run (concat ((λ x, round_events x.1.1) <$> rounds)) (PortFsm_new s) w
    = Done (PortFsm_new (Slave q), mkWorld (w_trace w ++ tr) (w_shared w)) ∧
    sp_bmca q = bmca ∧
    filter (λ e, is_bookkeeping e = false) tr = concat ess ∧
    Forall2 (λ '(r, theta, delay) es, round_effects r theta delay es) rounds ess.
Proof.
  induction rounds as [|[[r theta] delay] rounds IH]; intros s m w Hb Hs Hr Hne; [done|].
  apply Forall_cons in Hr as [Hr Hrs].
  destruct (round_tracks bmca r theta delay s m w Hb Hs Hr) as (q & m' & tr & E & Hq & Hf).
  rewrite fmap_cons. cbn [concat fst]. rewrite exchange_run_app. unfold mbind at 1, M_bind at 1.
  rewrite E. destruct rounds as [|x rounds].
  { exists q, tr, [filter (λ e, is_bookkeeping e = false) tr]. split; [done|].
    split; [apply Hq|]. cbn [concat]. rewrite app_nil_r. split; [done|]. by repeat constructor. }
  destruct (IH (Slave q) m' (mkWorld (w_trace w ++ tr) (w_shared w)) Hb Hq Hrs)
    as (q' & tr' & ess & E' & Hq' & Hf' & Hes); [done|].
  exists q', (tr ++ tr'), (filter (λ e, is_bookkeeping e = false) tr :: ess).
  rewrite E'. cbn [w_trace w_shared]. rewrite app_assoc, filter_app, Hf'. split_and!; try done.
  by constructor.
Qed.

(** ** Syncs without a delay response *)

(** A Sync alone, with the slave's clock ahead by [x]. *)
Record SyncRound := mkSyncRound {
  sr_sync : TwoStepSyncMessage;
  sr_follow_up : FollowUpMessage;
  sr_ingress : TimeStamp;
}.

Definition sync_events (r : SyncRound) : list ExchangeEvent :=
  [XTwoStepSync (sr_sync r) (sr_ingress r); XFollowUp (sr_follow_up r)].

(** The master's time at the ingress of the Sync. *)
Definition sync_arrival (delay : Z) (r : SyncRound) : Z :=
  ts_ns (fu_precise_origin_timestamp (sr_follow_up r)) + delay.

Definition in_range (ns : Z) : Prop := 0 <= ns < 2 ^ 48 * NANOS_PER_SECOND.

(** The offset a clock that is ahead by [x] is set to, when the recorded delay exchange is of a time
    when it was ahead by [theta]. *)
Definition after_sync (theta x : Z) : Z := x - Z.quot (x + theta) 2.

(** Sync after Sync, each from a clock that the one before has set. *)
Fixpoint syncs_ok (theta delay x : Z) (rounds : list SyncRound) : Prop :=
  match rounds with
  | [] => True
  | r :: rounds =>
      TimeStamp_wf (fu_precise_origin_timestamp (sr_follow_up r)) ∧ TimeStamp_wf (sr_ingress r) ∧
      fu_sequence_id (sr_follow_up r) = tw_sequence_id (sr_sync r) ∧
      ts_ns (sr_ingress r) = sync_arrival delay r + x ∧
      in_range (sync_arrival delay r + after_sync theta x) ∧
      syncs_ok theta delay (after_sync theta x) rounds
  end.

(** The offsets after each Sync. *)
Fixpoint offsets (theta x : Z) (n : nat) : list Z :=
  match n with
  | O => []
  | Datatypes.S n => after_sync theta x :: offsets theta (after_sync theta x) n
  end.

Lemma sync_alone bmca theta delay x r s m (w : World S) :
  ParentTrackingBmca_matches_parent parent bmca = true → follows s bmca m → em_wf m →
  FollowUpMessage_wf (sr_follow_up r) →
  sm_ns (em_delay_exchange m) = Some (delay - theta) → syncs_ok theta delay x [r] →
  ∃ q m' tr to, exchange_run (sync_events r) (PortFsm_new s) w
    = Done (PortFsm_new (Slave q), mkWorld (w_trace w ++ tr) (w_shared w)) ∧
    follows (Slave q) bmca m' ∧ em_wf m' ∧ em_delay_exchange m' = em_delay_exchange m ∧
    filter (λ e, is_bookkeeping e = false) tr
    = [E_Metric (ti_of_ns (Z.quot (x + theta) 2)); E_ClockStep to] ∧
    ts_ns to = sync_arrival delay r + after_sync theta x.
Proof.
  intros Hb Hs Hm Hfu Hd (Ho & Hi & Eseq & Ei & Hr & _). destruct r as [sync fu t2]; simpl in *.
  set (m' := em_record_follow_up fu (em_record_two_step_sync sync t2 m)).
  assert (em_wf m') as Hm' by (by apply em_record_follow_up_wf; [apply em_record_two_step_sync_wf|]).
  assert (em_sample m' = Done (Some (mkServoSample t2 (ti_of_ns (Z.quot (x + theta) 2))))) as Hsa.
  { rewrite em_sample_eq by done. unfold sample_ns, ms_ns. simpl. rewrite Hd, Eseq.
    rewrite bool_decide_eq_true_2 by done. simpl. do 5 f_equal. unfold sync_arrival in Ei. simpl in Ei. lia. }
  pose proof (ts_ns_range _ Ho). pose proof (ts_ns_range _ Hi).
  assert (∃ to, TimeStamp_checked_sub t2 (ti_of_ns (Z.quot (x + theta) 2)) = Done (Some to) ∧
    ts_ns to = sync_arrival delay (mkSyncRound sync fu t2) + after_sync theta x) as (to & Est & Eto).
  { unfold after_sync, in_range in *.
    rewrite TimeStamp_checked_sub_eq, ti_ns_of_ns by
      (try apply ti_wf_of_ns; done || unfold NANOS_PER_SECOND in *; lia).
    rewrite Ei. unfold ts_of_ns. case_match eqn:Eb; [|exfalso; unfold NANOS_PER_SECOND in *; lia].
    eexists. split; [reflexivity|]. unfold ts_ns. simpl. unfold NANOS_PER_SECOND.
    match goal with |- ?a / ?b * ?b + _ = _ => pose proof (Z.div_mod a b) end. lia. }
  destruct (exchange_input_records bmca Hb (XTwoStepSync sync t2) s m w Hs Logic.I)
    as (s1 & port & ev & E1 & Hs1 & _).
  destruct (exchange_input_completes bmca Hb (XFollowUp fu) s1 _ _ _ _
    (mkWorld (w_trace w ++ [E_Log port ev]) (w_shared w)) Hs1 Logic.I Hsa Est) as (q & tr & E2 & Hq & Hf).
  exists q, m', (E_Log port ev :: tr), to. unfold sync_events. cbn [exchange_run sr_sync sr_ingress sr_follow_up].
  cbn [exchange_input] in E1, E2. unfold mbind, M_bind. rewrite E1, E2. cbn [w_trace w_shared].
  rewrite <- app_assoc. split; [reflexivity|]. split; [exact Hq|]. split; [done|]. split; [done|].
  split; [exact Hf | exact Eto].
Qed.

Lemma syncs_alone bmca theta delay rounds : ∀ x s m (w : World S),
  ParentTrackingBmca_matches_parent parent bmca = true → follows s bmca m → em_wf m →
  Forall (λ r, FollowUpMessage_wf (sr_follow_up r)) rounds →
  sm_ns (em_delay_exchange m) = Some (delay - theta) → syncs_ok theta delay x rounds → rounds ≠ [] →
  ∃ q tr ess, exchange_run (concat (sync_events <$> rounds)) (PortFsm_new s) w
    = Done (PortFsm_new (Slave q), mkWorld (w_trace w ++ tr) (w_shared w)) ∧
    sp_bmca q = bmca ∧
    filter (λ e, is_bookkeeping e = false) tr = concat ess ∧
    Forall2 (λ ro es, ∃ measured to, es = [E_Metric measured; E_ClockStep to] ∧
                        ts_ns to = sync_arrival delay ro.1 + ro.2)
      (zip rounds (offsets theta x (length rounds))) ess.
Proof.
  induction rounds as [|r rounds IH]; intros x s m w Hb Hs Hm Hfu Hd Hok Hne; [done|].
  apply Forall_cons in Hfu as [Hr Hfu]. destruct Hok as (H1 & H2 & H3 & H4 & H5 & Hok).
  destruct (sync_alone bmca theta delay x r s m w Hb Hs Hm Hr Hd)
    as (q & m' & tr & to & E & Hq & Hm' & Ed & Hf & Hto); [by split_and!|].
  rewrite fmap_cons. cbn [concat length offsets zip zip_with]. rewrite exchange_run_app.
  unfold mbind at 1, M_bind at 1. rewrite E. destruct rounds as [|r' rounds].
  { exists q, tr, [filter (λ e, is_bookkeeping e = false) tr]. split; [done|]. split; [apply Hq|].
    cbn [concat]. rewrite app_nil_r. split; [done|]. constructor; [by do 2 eexists | constructor]. }
  destruct (IH (after_sync theta x) (Slave q) m' (mkWorld (w_trace w ++ tr) (w_shared w)) Hb Hq Hm' Hfu)
    as (q' & tr' & ess & E' & Hq' & Hf' & Hes); [by rewrite Ed | done | done|].
  exists q', (tr ++ tr'), (filter (λ e, is_bookkeeping e = false) tr :: ess).
  rewrite E'. cbn [w_trace w_shared]. rewrite app_assoc, filter_app, Hf'. split_and!; try done.
  constructor; [by do 2 eexists | exact Hes].
Qed.

(** The offsets approach the opposite of [theta]: the distance halves, down to a nanosecond. *)
Lemma offsets_mirror theta n : ∀ x A, Z.abs (x + theta) <= A + 1 →
  ∀ k o, offsets theta x n !! k = Some o → Z.abs (o + theta) <= A / 2 ^ Z.of_nat (Datatypes.S k) + 1.
Proof.
  induction n as [|n IH]; intros x A HA k o Ho; [done|].
  assert (Z.abs (after_sync theta x + theta) <= A / 2 + 1) as H1.
  { unfold after_sync. pose proof (Z.div_mod A 2). pose proof (Z.mod_pos_bound A 2).
    destruct (Z.le_ge_cases 0 (x + theta)).
    - rewrite Z.quot_div_nonneg by lia. pose proof (Z.div_mod (x + theta) 2).
      pose proof (Z.mod_pos_bound (x + theta) 2). lia.
    - replace (x + theta) with (- (- (x + theta))) at 1 by lia.
      rewrite Z.quot_opp_l, Z.quot_div_nonneg by lia. pose proof (Z.div_mod (- (x + theta)) 2).
      pose proof (Z.mod_pos_bound (- (x + theta)) 2). lia. }
  destruct k as [|k]; simpl in Ho; [by injection Ho as <-|].
  pose proof (IH _ _ H1 k o Ho) as H2.
  rewrite Z.div_div in H2 by lia.
  replace (2 ^ Z.of_nat (Datatypes.S (Datatypes.S k))) with (2 * 2 ^ Z.of_nat (Datatypes.S k)); [done|].
  rewrite <- Z.pow_succ_r by lia. f_equal. lia.
Qed.

(** ** Properties *)

(** An uncalibrated port with a stepping servo locks on its parent: once the parent's Sync and
    delay response and the port's own timestamped delay request were recorded, in any order and
    whatever was recorded before, the Follow-up steps the clock, once, to the master's time at the
    ingress of the Sync (its origin plus the path delay, whatever the clock's offset was), and the
    port is a slave of the same parent; nothing is sent and no other effect reaches the clock. *)
Theorem exchange_locks_port (p : UncalibratedPort R) (w : World S) sync fu req resp t2 t3 es theta
    delay :
  up_servo p = Servo_Stepping → ParentTrackingBmca_matches_parent parent (up_bmca p) = true →
  TimeStamp_wf (fu_precise_origin_timestamp fu) → TimeStamp_wf t2 → TimeStamp_wf t3 →
  TimeStamp_wf (ds_receive_timestamp resp) →
  fu_sequence_id fu = tw_sequence_id sync → ds_sequence_id resp = dr_sequence_id req →
  ts_ns t2 = ts_ns (fu_precise_origin_timestamp fu) + delay + theta →
  ts_ns (ds_receive_timestamp resp) = ts_ns t3 + delay - theta →
  0 <= ts_ns (fu_precise_origin_timestamp fu) + delay < 2 ^ 48 * NANOS_PER_SECOND →
  es ≡ₚ [XTwoStepSync sync t2; XDelayReq req t3; XDelayResp resp] →
  ∃ q tr to,
    exchange_run (es ++ [XFollowUp fu]) (PortFsm_new (Uncalibrated p)) w
    = Done (PortFsm_new (Slave q), mkWorld (w_trace w ++ tr) (w_shared w)) ∧
    sp_bmca q = up_bmca p ∧
    filter (λ e, is_bookkeeping e = false) tr = [E_Metric (ti_of_ns theta); E_ClockStep to] ∧
    ts_ns to = ts_ns (fu_precise_origin_timestamp fu) + delay.
Proof.
  intros Hservo Hm H1 H2 H3 H4 Es Er E2 E4 Hto Hp.
  destruct (round_tracks (up_bmca p) (mkRound (TwoStepRound sync fu) t2 req t3 resp es) theta delay
    (Uncalibrated p) (up_delay_mechanism p) w Hm) as (q & m' & tr & E & Hq & to & Hf & Hs);
    [done | unfold round_ok, exchange_times; cbn; destruct Hto; by split_and! |].
  exists q, tr, to. split; [exact E|]. split; [apply Hq|]. by split.
Qed.

(** C12: A slave tracks its master through any number of rounds. A port that follows a parent with
    a stepping servo, calibrated or not, is a slave of the same parent after one or more rounds of
    measurement, one-step and two-step Syncs mixed, the recorded messages of each round in any
    order and whatever was recorded before; each round steps the clock once, to the master's time
    at the ingress of its Sync, and nothing is sent and no other effect reaches the clock. *)
Theorem slave_tracks_every_round (s : PortState R) bmca m rounds (w : World S) :
  ParentTrackingBmca_matches_parent parent bmca = true → follows s bmca m →
  Forall (λ '(r, theta, delay), round_ok r theta delay) rounds → rounds ≠ [] →
  ∃ q tr ess, exchange_run (concat ((λ x, round_events x.1.1) <$> rounds)) (PortFsm_new s) w
    = Done (PortFsm_new (Slave q), mkWorld (w_trace w ++ tr) (w_shared w)) ∧
    sp_bmca q = bmca ∧
    filter (λ e, is_bookkeeping e = false) tr = concat ess ∧
    Forall2 (λ '(r, theta, delay) es, round_effects r theta delay es) rounds ess.
Proof. apply rounds_track. Qed.

(** C13: A lost delay response turns a slave with the stepping servo away from its master. The
    delay exchange that a step of the clock has made obsolete is not forgotten: when it is of a time
    the clock was ahead by theta, and the clock is now right, then each Sync that arrives before the next delay response,
    which finds the clock where the one before has set it, sets it nearer to the opposite error:
    after the k-th one it is behind by theta, up to theta over 2 to the k and a nanosecond. *)
Theorem stale_delay_mirrors_offset (s : PortState R) bmca m theta delay rounds (w : World S) :
  ParentTrackingBmca_matches_parent parent bmca = true → follows s bmca m → em_wf m →
  sm_ns (em_delay_exchange m) = Some (delay - theta) →
  Forall (λ r, FollowUpMessage_wf (sr_follow_up r)) rounds → syncs_ok theta delay 0 rounds →
  rounds ≠ [] →
  ∃ q tr ess, exchange_run (concat (sync_events <$> rounds)) (PortFsm_new s) w
    = Done (PortFsm_new (Slave q), mkWorld (w_trace w ++ tr) (w_shared w)) ∧
    filter (λ e, is_bookkeeping e = false) tr = concat ess ∧ length ess = length rounds ∧
    ∀ k es, ess !! k = Some es → ∃ r measured to o, rounds !! k = Some r ∧
      es = [E_Metric measured; E_ClockStep to] ∧ ts_ns to = sync_arrival delay r + o ∧
      Z.abs (o + theta) <= Z.abs theta / 2 ^ Z.of_nat (Datatypes.S k) + 1.
Proof.
  intros Hb Hs Hm Hd Hfu Hok Hne.
  destruct (syncs_alone bmca theta delay rounds 0 s m w Hb Hs Hm Hfu Hd Hok Hne)
    as (q & tr & ess & E & _ & Hf & Hes).
  assert (∀ n x, length (offsets theta x n) = n) as Hlen
    by (induction n as [|n IH]; intros x; simpl; [done | by rewrite IH]).
  exists q, tr, ess. split_and!; [done..| |].
  - rewrite <- (Forall2_length _ _ _ Hes), length_zip_with, Hlen. lia.
  - intros k es Hk. destruct (Forall2_lookup_r _ _ _ _ _ Hes Hk) as ([r o] & Hro & measured & to & -> & Hto).
    apply lookup_zip_with_Some in Hro as (r' & o' & [= -> ->] & Hr & Ho).
    exists r', measured, to, o'. split_and!; [done..|].
    apply (offsets_mirror theta _ 0 (Z.abs theta) ltac:(lia) k o' Ho).
Qed.
End tracking.
#[local] Existing Instance always_sends.

(** A slave clock two seconds ahead of its master, half a second away. *)
Definition locking_port : UncalibratedPort ForeignClockRecordsVec :=
  mkUncalibratedPort (mkDomainPort (sample_port 9 1) (mkDomainNumber 0))
    (mkParentTrackingBmca
       (mkBmcaParts (mkBestMasterClockAlgorithm (sample_ds 9 128 0) (mkPortNumber 1))
          (mkBestForeignRecord (sample_port 9 1) ForeignClockRecordsVec_new)
          (mkStateDecisionEventTrigger Empty (mkPortNumber 1)))
       (mkParentPortIdentity (sample_port 4 1)))
    (mkAnnounceReceiptTimeout (mkTimeout 1 SM_AnnounceReceiptTimeout) (mkDuration 5000000000))
    (EndToEndDelayMechanism_new w_cycle) Servo_Stepping default_profile.

Definition default_clock : OrdinaryClock :=
  mkOrdinaryClock (sample_ds 9 128 0) (mkDomainNumber 0) (mkPortEnumeration 1 2) Empty
    (mkSinglePortNotification None) default_profile.

Lemma exchange_locks_port_witness :
  ∃ q tr to,
    exchange_run (F := FlagBits) (sample_port 4 1) (mkInstant 0)
      ([XDelayReq w_delay_req (mkTimeStamp 20 0); XTwoStepSync w_two_step (mkTimeStamp 12 500000000);
        XDelayResp w_delay_resp] ++ [XFollowUp w_follow_up])
      (PortFsm_new (Uncalibrated locking_port)) (mkWorld [] default_clock)
    = Done (PortFsm_new (Slave q), mkWorld tr default_clock) ∧
    filter (λ e, is_bookkeeping e = false) tr
    = [E_Metric (ti_of_ns 2000000000); E_ClockStep to] ∧ ts_ns to = 10500000000.
Proof.
  destruct (exchange_locks_port (F := FlagBits) (sample_port 4 1) (mkInstant 0) locking_port
    (mkWorld [] default_clock) w_two_step w_follow_up w_delay_req w_delay_resp
    (mkTimeStamp 12 500000000) (mkTimeStamp 20 0)
    [XDelayReq w_delay_req (mkTimeStamp 20 0); XTwoStepSync w_two_step (mkTimeStamp 12 500000000);
     XDelayResp w_delay_resp] 2000000000 500000000) as (q & tr & to & E & _ & Hf & Ht).
  1-2: reflexivity.
  1-4: unfold TimeStamp_wf, NANOS_PER_SECOND; simpl; lia.
  1-4: reflexivity.
  - unfold ts_ns, NANOS_PER_SECOND; simpl; lia.
  - solve_Permutation.
  - exists q, tr, to. split; [exact E|]. split; [exact Hf | exact Ht].
Defined.

(** The same exchange again, then a one-step one a second later, on the slave's stepped clock. *)
Definition w_rounds : list (Round * Z * Z) :=
  [(mkRound (TwoStepRound w_two_step w_follow_up) (mkTimeStamp 12 500000000) w_delay_req
      (mkTimeStamp 20 0) w_delay_resp
      [XDelayReq w_delay_req (mkTimeStamp 20 0); XTwoStepSync w_two_step (mkTimeStamp 12 500000000);
       XDelayResp w_delay_resp], 2000000000, 500000000);
   (mkRound (OneStepRound (mkOneStepSyncMessage (mkSequenceId 6) (mkLogMessageInterval 0)
                             (mkTimeStamp 30 0)))
      (mkTimeStamp 30 500000000) w_delay_req (mkTimeStamp 18 0) w_delay_resp
      [XDelayResp w_delay_resp; XDelayReq w_delay_req (mkTimeStamp 18 0)], 0, 500000000)].

Lemma slave_tracks_every_round_witness :
  ∃ q tr t1 t2,
    exchange_run (F := FlagBits) (sample_port 4 1) (mkInstant 0)
      (concat ((λ x, round_events x.1.1) <$> w_rounds))
      (PortFsm_new (Uncalibrated locking_port)) (mkWorld [] default_clock)
    = Done (PortFsm_new (Slave q), mkWorld tr default_clock) ∧
    filter (λ e, is_bookkeeping e = false) tr
    = [E_Metric (ti_of_ns 2000000000); E_ClockStep t1; E_Metric (ti_of_ns 0); E_ClockStep t2] ∧
    ts_ns t1 = 10500000000 ∧ ts_ns t2 = 30500000000.
Proof.
  destruct (slave_tracks_every_round (F := FlagBits) (sample_port 4 1) (mkInstant 0)
    (Uncalibrated locking_port) (up_bmca locking_port) (up_delay_mechanism locking_port) w_rounds
    (mkWorld [] default_clock)) as (q & tr & ess & E & _ & Hf & Hes).
  - reflexivity.
  - by split_and!.
  - constructor; [|constructor; [|constructor]]; unfold round_ok, exchange_times; split_and!; try done;
      unfold TimeStamp_wf, ts_ns, NANOS_PER_SECOND; cbn; try lia;
      unfold round_recorded; cbn; solve_Permutation.
  - discriminate.
  - unfold w_rounds in Hes. inversion Hes as [|? e1 ? ess1 He1 Hes1]; subst.
    inversion Hes1 as [|? e2 ? ess2 He2 Hes2]; subst. inversion Hes2; subst.
    destruct He1 as (t1 & -> & H1). destruct He2 as (t2 & -> & H2).
    exists q, tr, t1, t2. split; [exact E|]. split; [exact Hf|]. split; [exact H1 | exact H2].
Defined.

(** The port of the exchange above, set right by it, and two Syncs before the next delay response. *)
Definition stale_port : UncalibratedPort ForeignClockRecordsVec :=
  UncalibratedPort_with_delay_mechanism
    (em_record_delay_response w_delay_resp
       (em_record_delay_request w_delay_req (mkTimeStamp 20 0) (up_delay_mechanism locking_port)))
    locking_port.

Definition w_sync_rounds : list SyncRound :=
  [mkSyncRound w_two_step w_follow_up (mkTimeStamp 10 500000000);
   mkSyncRound w_two_step
     (mkFollowUpMessage (mkSequenceId 5) (mkLogMessageInterval 0) (mkTimeStamp 11 0))
     (mkTimeStamp 10 500000000)].

Lemma stale_delay_mirrors_offset_witness :
  ∃ q tr i1 t1 i2 t2,
    exchange_run (F := FlagBits) (sample_port 4 1) (mkInstant 0)
      (concat (sync_events <$> w_sync_rounds))
      (PortFsm_new (Uncalibrated stale_port)) (mkWorld [] default_clock)
    = Done (PortFsm_new (Slave q), mkWorld tr default_clock) ∧
    filter (λ e, is_bookkeeping e = false) tr = [E_Metric i1; E_ClockStep t1; E_Metric i2; E_ClockStep t2] ∧
    Z.abs (ts_ns t1 - 10500000000 + 2000000000) <= 1000000001 ∧
    Z.abs (ts_ns t2 - 11500000000 + 2000000000) <= 500000001.
Proof.
  destruct (stale_delay_mirrors_offset (F := FlagBits) (sample_port 4 1) (mkInstant 0)
    (Uncalibrated stale_port) (up_bmca stale_port) (up_delay_mechanism stale_port)
    2000000000 500000000 w_sync_rounds (mkWorld [] default_clock)) as (q & tr & ess & E & Hf & Hl & Hes).
  - reflexivity.
  - by split_and!.
  - unfold em_wf, SyncExchange_wf, DelayExchange_wf. split_and!; try by (intros; simplify_eq/=).
    all: try (unfold SequenceId_wf; simpl; lia).
    all: intros; simplify_eq/=; unfold TimeStamp_wf, NANOS_PER_SECOND; simpl; lia.
  - reflexivity.
  - repeat constructor; unfold FollowUpMessage_wf, SequenceId_wf, TimeStamp_wf, NANOS_PER_SECOND; simpl; lia.
  - simpl. unfold TimeStamp_wf, in_range, sync_arrival, ts_ns, NANOS_PER_SECOND. simpl. split_and!; try done; lia.
  - discriminate.
  - destruct ess as [|e1 [|e2 [|]]]; try discriminate Hl.
    destruct (Hes 0%nat _ eq_refl) as (r1 & i1 & t1 & o1 & [= <-] & -> & Ht1 & Hb1).
    destruct (Hes 1%nat _ eq_refl) as (r2 & i2 & t2 & o2 & [= <-] & -> & Ht2 & Hb2).
    exists q, tr, i1, t1, i2, t2. split; [exact E|]. split; [exact Hf|].
    change (Z.abs 2000000000 / 2 ^ Z.of_nat 1) with 1000000000 in Hb1.
    change (Z.abs 2000000000 / 2 ^ Z.of_nat 2) with 500000000 in Hb2.
    unfold sync_arrival, ts_ns, NANOS_PER_SECOND in *. simpl in *. lia.
Defined.
