(* ===== verification/VirtualClock.v ===== *)
(** * System clocks and the virtual clock (crates/rptp-daemon/src/virtualclock.rs)

    The interface a node's infrastructure expects of the local clock ([now], [step], [adjust]
    against a monotonic host instant), its laws, and the daemon's [VirtualClock] with the binary64
    arithmetic it uses: reads never run behind the base, steps and adjustments do not jump, and
    where a negative rate leads. *)

From S2P Require Import Prelude Errors Time Clock PortId DataSet Foreign Wire Message.
From S2P Require Import Effects Servo.

Open Scope Z_scope.

(** ** Binary64 casts and remainder *)

(** The integer part of the magnitude of a finite number. *)
Definition f64_magnitude (m : positive) (e : Z) : Z := Z.shiftl (Zpos m) e.

(** [x as iN] and [x as uN]: truncate, saturate, NaN is 0. *)
Definition f64_as_i (w : Z) (x : f64) : Z :=
  match x with
  | S754_nan | S754_zero _ => 0
  | S754_infinity s => if s then - 2 ^ (w - 1) else 2 ^ (w - 1) - 1
  | S754_finite s m e =>
      let t := f64_magnitude m e in
      Z.max (- 2 ^ (w - 1)) (Z.min (if s then - t else t) (2 ^ (w - 1) - 1))
  end.
Definition f64_as_u (w : Z) (x : f64) : Z :=
  match x with
  | S754_nan | S754_zero _ => 0
  | S754_infinity s => if s then 0 else 2 ^ w - 1
  | S754_finite s m e =>
      let t := f64_magnitude m e in
      Z.max 0 (Z.min (if s then - t else t) (2 ^ w - 1))
  end.

(** [x % y]: the exact remainder of the truncated quotient, with the sign of [x]. The result is
    left at the common exponent, its value is what a cast sees. *)
Definition f64_rem (x y : f64) : f64 :=
  match x, y with
  | S754_nan, _ | _, S754_nan => S754_nan
  | S754_infinity _, _ | _, S754_zero _ => S754_nan
  | S754_zero s, _ => S754_zero s
  | S754_finite _ _ _, S754_infinity _ => x
  | S754_finite sx mx ex, S754_finite _ my ey =>
      let e := Z.min ex ey in
      match Z.modulo (Z.shiftl (Zpos mx) (ex - e)) (Z.shiftl (Zpos my) (ey - e)) with
      | Zpos r => S754_finite sx r e
      | _ => S754_zero sx
      end
  end.

Definition f64_giga : f64 := f64_of_Z 1000000000.

(** ** The clock interface *)

(** [Clock::now], [SynchronizableClock::step] and [SynchronizableClock::adjust], at a monotonic
    host instant in nanoseconds. *)
Class SystemClock (C : Type) := {
  sc_now : Z → C → outcome TimeStamp;
  sc_step : Z → TimeStamp → C → C;
  sc_adjust : Z → f64 → C → outcome C;
}.

(** What a node relies on: reads return well-formed timestamps, steps keep the invariant and, where
    the servo steers the clock, adjustments do. *)
Class SystemClockLaws (C : Type) `{!SystemClock C} (inv : C → Prop) (steered : bool) : Prop := {
  sc_now_ok : ∀ t c, inv c → ∃ ts, sc_now t c = Done ts ∧ TimeStamp_wf ts;
  sc_step_ok : ∀ t to c, inv c → TimeStamp_wf to → inv (sc_step t to c);
  sc_adjust_ok : ∀ t rate c, steered = true → inv c →
    ∃ c', sc_adjust t rate c = Done c' ∧ inv c';
}.

(** ** The virtual clock *)

(** The [Mutex]es are uncontended: the daemon's runtime is single-threaded. *)
Record VirtualClock := mkVirtualClock {
  vc_start : Z;
  vc_ts : TimeStamp;
  vc_rate : f64;
  vc_time_scale : TimeScale;
}.

(** [VirtualClock::new] at host instant [at_]. *)
Definition VirtualClock_new (at_ : Z) (start_ts : TimeStamp) (rate : f64) (time_scale : TimeScale)
    : VirtualClock :=
  mkVirtualClock at_ start_ts rate time_scale.

(** [StdInstant::elapsed], which saturates at zero. *)
Definition elapsed_nanos (since now : Z) : Z := Z.max 0 (now - since).

Definition VirtualClock_now (at_ : Z) (self : VirtualClock) : outcome TimeStamp :=
  let dt_nanos := f64_mul (f64_of_Z (elapsed_nanos (vc_start self) at_)) (vc_rate self) in
  let dt_secs := f64_as_i 64 (f64_div dt_nanos f64_giga) in
  let dt_rem_nanos := f64_as_u 32 (f64_rem dt_nanos f64_giga) in
  dt ← TimeInterval_new dt_secs dt_rem_nanos;
  t ← TimeStamp_checked_add (vc_ts self) dt;
  Done (default (vc_ts self) t).

Definition VirtualClock_step (at_ : Z) (to : TimeStamp) (self : VirtualClock) : VirtualClock :=
  mkVirtualClock at_ to (vc_rate self) (vc_time_scale self).

Definition VirtualClock_adjust (at_ : Z) (rate : f64) (self : VirtualClock)
    : outcome VirtualClock :=
  current ← VirtualClock_now at_ self;
  Done (mkVirtualClock at_ current rate (vc_time_scale self)).

#[export] Instance VirtualClock_SystemClock : SystemClock VirtualClock := {
  sc_now := VirtualClock_now;
  sc_step := VirtualClock_step;
  sc_adjust := VirtualClock_adjust;
}.

(** ** Signs *)

(** Not negative: zero, NaN or of positive sign. *)
Definition forward (x : f64) : Prop :=
  match x with
  | S754_nan | S754_zero _ => True
  | S754_infinity s | S754_finite s _ _ => s = false
  end.

Lemma round_aux_forward m e l : forward (binary_round_aux 53 1024 false m e l).
Proof. unfold binary_round_aux. by repeat case_match. Qed.

Lemma f64_of_Z_forward z : 0 <= z → forward (f64_of_Z z).
Proof.
  intros Hz. unfold f64_of_Z, binary_normalize. destruct z as [|p|p]; [done| |lia].
  unfold binary_round. case_match. apply round_aux_forward.
Qed.

Lemma f64_mul_forward x y : forward x → forward y → forward (f64_mul x y).
Proof.
  unfold f64_mul, SFmul. destruct x as [?|?| |? ? ?], y as [?|?| |? ? ?]; simpl; try done;
    intros -> ->; try done; apply round_aux_forward.
Qed.

Lemma f64_div_giga_forward x : forward x → forward (f64_div x f64_giga).
Proof.
  assert (∃ m e, f64_giga = S754_finite false m e) as (m & e & ->) by (by do 2 eexists).
  unfold f64_div, SFdiv. destruct x as [?|?| |? ? ?]; simpl; try done; intros ->; [done|].
  case_match. case_match. apply round_aux_forward.
Qed.

Lemma f64_magnitude_nonneg m e : 0 <= f64_magnitude m e.
Proof. unfold f64_magnitude. by apply Z.shiftl_nonneg. Qed.

Lemma f64_as_i64_forward x : forward x → 0 <= f64_as_i 64 x < 2 ^ 63.
Proof.
  destruct x as [s|s| |s m e]; simpl; try lia; intros ->; [lia|].
  pose proof (f64_magnitude_nonneg m e). lia.
Qed.

(** The remainder of a division by a second, in whole nanoseconds, is less than a second. *)
Lemma f64_rem_giga x : 0 <= f64_as_u 32 (f64_rem x f64_giga) < NANOS_PER_SECOND.
Proof.
  assert (f64_giga = S754_finite false 8388608000000000 (-23)) as -> by reflexivity.
  unfold NANOS_PER_SECOND. destruct x as [s|s| |s m e]; try (simpl; lia).
  cbn [f64_rem]. set (e' := Z.min e (-23)).
  assert (0 < Z.shiftl 8388608000000000 (-23 - e')) as Hpos.
  { rewrite Z.shiftl_mul_pow2 by lia. apply Z.mul_pos_pos; [lia | apply Z.pow_pos_nonneg; lia]. }
  pose proof (Z.mod_pos_bound (Z.shiftl (Zpos m) (e - e')) _ Hpos) as Hr.
  destruct (Z.modulo _ _) as [|r|r]; simpl; [lia| |lia].
  assert (f64_magnitude r e' < 1000000000).
  { unfold f64_magnitude. replace e' with (- (- e')) by lia.
    rewrite Z.shiftl_opp_r, Z.shiftr_div_pow2 by lia.
    apply Z.div_lt_upper_bound; [apply Z.pow_pos_nonneg; lia|].
    rewrite Z.shiftl_mul_pow2 in Hr by lia.
    replace (- e') with (23 + (-23 - e')) by lia. rewrite Z.pow_add_r by lia. lia. }
  pose proof (f64_magnitude_nonneg r e'). destruct s; lia.
Qed.

(** ** Reading the clock *)

Definition VirtualClock_wf (c : VirtualClock) : Prop :=
  TimeStamp_wf (vc_ts c) ∧ forward (vc_rate c).

Lemma VirtualClock_now_eq at_ c : VirtualClock_wf c →
  ∃ d, 0 <= d ∧ (at_ <= vc_start c → d = 0) ∧
    VirtualClock_now at_ c = Done (default (vc_ts c) (ts_of_ns (ts_ns (vc_ts c) + d))).
Proof.
  intros [Ht Hr]. unfold VirtualClock_now.
  set (x := f64_mul (f64_of_Z (elapsed_nanos (vc_start c) at_)) (vc_rate c)).
  assert (forward x) as Hx by (apply f64_mul_forward, Hr; apply f64_of_Z_forward, Z.le_max_l).
  pose proof (f64_as_i64_forward _ (f64_div_giga_forward x Hx)) as Hs.
  pose proof (f64_rem_giga x) as Hn.
  exists (ti_ns (mkTimeInterval (f64_as_i 64 (f64_div x f64_giga)) (f64_as_u 32 (f64_rem x f64_giga)))).
  split; [|split].
  - unfold ti_ns, NANOS_PER_SECOND; simpl. lia.
  - intros Hle. assert (x = S754_nan ∨ ∃ b, x = S754_zero b) as [-> | [b ->]]; [|done..].
    unfold x, elapsed_nanos. rewrite Z.max_l by lia.
    destruct (vc_rate c) as [b|b| |b ? ?]; cbn; eauto.
  - rewrite TimeInterval_new_Done by lia. simpl.
    rewrite TimeStamp_checked_add_eq; [done..|].
    unfold TimeInterval_wf; simpl. lia.
Qed.

Lemma VirtualClock_now_wf at_ c : VirtualClock_wf c →
  ∃ t, VirtualClock_now at_ c = Done t ∧ TimeStamp_wf t ∧ ts_ns (vc_ts c) <= ts_ns t ∧
       (at_ <= vc_start c → t = vc_ts c).
Proof.
  intros Hc. destruct (VirtualClock_now_eq at_ c Hc) as (d & Hd & H0 & ->).
  eexists. split; [done|]. destruct (ts_of_ns _) as [t|] eqn:E; simpl.
  - apply ts_of_ns_Some in E as [Hw E]. split; [done|]. split; [lia|]. intros Hle.
    rewrite H0, Z.add_0_r in E by done.
    pose proof (ts_of_ns_ts_ns t Hw) as E1. rewrite E, ts_of_ns_ts_ns in E1 by apply Hc.
    by injection E1.
  - split; [apply Hc|]. split; [lia | done].
Qed.

(** At its base the clock shows the base, whatever its rate. *)
Lemma VirtualClock_now_base at_ c : TimeStamp_wf (vc_ts c) → at_ <= vc_start c →
  VirtualClock_now at_ c = Done (vc_ts c).
Proof.
  intros Ht Hle. unfold VirtualClock_now, elapsed_nanos. rewrite Z.max_l by lia.
  assert (TimeStamp_checked_add (vc_ts c) (mkTimeInterval 0 0) = Done (Some (vc_ts c))) as E.
  { rewrite TimeStamp_checked_add_eq; [|done|unfold TimeInterval_wf, NANOS_PER_SECOND; simpl; lia].
    change (ti_ns (mkTimeInterval 0 0)) with 0. by rewrite Z.add_0_r, ts_of_ns_ts_ns. }
  assert (∀ x y : Z, x = 0 → y = 0 →
    (dt ← TimeInterval_new x y; u ← TimeStamp_checked_add (vc_ts c) dt; Done (default (vc_ts c) u))
    = Done (vc_ts c)) as Hd.
  { intros x y -> ->. rewrite TimeInterval_new_Done by (unfold NANOS_PER_SECOND; lia).
    by rewrite outcome_bind_Done, E. }
  apply Hd; by destruct (vc_rate c).
Qed.

#[export] Instance VirtualClock_laws : SystemClockLaws VirtualClock VirtualClock_wf false.
Proof.
  split; [|by intros t to c [? ?] ?|done]. intros t c Hc.
  destruct (VirtualClock_now_wf t c Hc) as (ts & E & Hw & _). by exists ts.
Qed.

(** ** Properties *)

(** C36: With a rate that is not negative the virtual clock never panics and never runs behind its
    base: every read is a well-formed timestamp at or after the base; a step makes the clock read
    exactly the target at once and never less afterwards; an adjustment to any rate, a negative
    one or one that is not a number included, succeeds and leaves the reading as it is; and where
    the new rate is not negative either, the clock is again one of these and no later read is
    earlier. *)
Theorem virtual_clock_never_runs_behind c at_ : VirtualClock_wf c →
  (∃ t, VirtualClock_now at_ c = Done t ∧ TimeStamp_wf t ∧ ts_ns (vc_ts c) <= ts_ns t) ∧
  (∀ to, TimeStamp_wf to →
     let c' := VirtualClock_step at_ to c in
     VirtualClock_wf c' ∧ VirtualClock_now at_ c' = Done to ∧
     ∀ later, ∃ t, VirtualClock_now later c' = Done t ∧ ts_ns to <= ts_ns t) ∧
  (∀ rate,
     ∃ c' t, VirtualClock_adjust at_ rate c = Done c' ∧
       VirtualClock_now at_ c = Done t ∧ VirtualClock_now at_ c' = Done t ∧ vc_rate c' = rate ∧
       (forward rate → VirtualClock_wf c' ∧
          ∀ later, ∃ t', VirtualClock_now later c' = Done t' ∧ ts_ns t <= ts_ns t')).
Proof.
  intros Hc. split; [|split].
  - destruct (VirtualClock_now_wf at_ c Hc) as (t & ? & ? & ? & _). by exists t.
  - intros to Hto c'. assert (VirtualClock_wf c') as Hc' by (split; [exact Hto | apply Hc]).
    split; [done|]. split.
    + destruct (VirtualClock_now_wf at_ c' Hc') as (t & -> & _ & _ & H0). by rewrite H0.
    + intros later. destruct (VirtualClock_now_wf later c' Hc') as (t & ? & _ & ? & _). by exists t.
  - intros rate. destruct (VirtualClock_now_wf at_ c Hc) as (t & E & Hw & _).
    exists (mkVirtualClock at_ t rate (vc_time_scale c)), t. unfold VirtualClock_adjust. rewrite E.
    split_and!; [done | done | by apply VirtualClock_now_base | done |]. intros Hr.
    assert (VirtualClock_wf (mkVirtualClock at_ t rate (vc_time_scale c))) as Hc' by by split.
    split; [done|]. intros later. destruct (VirtualClock_now_wf later _ Hc') as (t' & ? & _ & ? & _).
    by exists t'.
Qed.

Lemma virtual_clock_never_runs_behind_witness :
  let c := mkVirtualClock 0 (mkTimeStamp 7 500000000) f64_one Ptp in
  VirtualClock_now 1500000000 c = Done (mkTimeStamp 9 0) ∧
  VirtualClock_now 4000000000 (VirtualClock_step 4000000000 (mkTimeStamp 3 1) c)
  = Done (mkTimeStamp 3 1).
Proof.
  split; [vm_compute; reflexivity|].
  refine (proj1 (proj2 (proj1 (proj2 (virtual_clock_never_runs_behind
    (mkVirtualClock 0 (mkTimeStamp 7 500000000) f64_one Ptp) 4000000000 _)) (mkTimeStamp 3 1) _))).
  - split; [|reflexivity]. unfold TimeStamp_wf, NANOS_PER_SECOND; simpl; lia.
  - unfold TimeStamp_wf, NANOS_PER_SECOND; simpl; lia.
Defined.

(** The PI loop can ask for a negative rate, and the virtual clock takes it: an error of
    three seconds at gain one requests the rate -2; a clock adjusted to it reads 100 s and, a
    second later, 98 s; and after an adjustment to -1e14, reading the clock 1e14 ns later panics.
    *)
Theorem virtual_clock_negative_rate :
  let c := mkVirtualClock 0 (mkTimeStamp 100 0) f64_one Ptp in
  let rate := f64_of_Z (-2) in
  (∀ S (w : World S), ∃ pl,
     PiLoop_feed (f64_of_Z 3) (PiLoop_new f64_one f64_zero) w
     = Done (pl, mkWorld (w_trace w ++ [E_ClockAdjust rate]) (w_shared w))) ∧
  (∃ c', VirtualClock_adjust 0 rate c = Done c' ∧
     VirtualClock_now 0 c' = Done (mkTimeStamp 100 0) ∧
     VirtualClock_now 1000000000 c' = Done (mkTimeStamp 98 0)) ∧
  (∃ c', VirtualClock_adjust 0 (f64_of_Z (-100000000000000)) c = Done c' ∧
     VirtualClock_now 100000000000000 c' = Panic).
Proof.
  split; [|split].
  - intros S w. eexists. unfold PiLoop_feed, mbind, M_bind, emit.
    match goal with |- context [E_ClockAdjust ?r] =>
      replace r with (f64_of_Z (-2)) by (vm_compute; reflexivity) end. reflexivity.
  - eexists. split; [vm_compute; reflexivity|]. split; vm_compute; reflexivity.
  - eexists. split; [vm_compute; reflexivity|]. vm_compute; reflexivity.
Qed.
