(* ===== verification/Daemon.v ===== *)
(** * The Tokio daemon (crates/rptp-daemon/src/node.rs, timestamping.rs, ordinary.rs, boundary.rs)

    The infrastructure that drives ports on a single-threaded Tokio runtime: timeouts as sleeping
    tasks, the unbounded channel of system messages, the clock-backed timestamping adapters and
    the [TokioPortsLoop]. A node is any number of loops around one clock; it interprets the effects
    of every core step, and its events (datagrams, receive errors, fired tasks, queued system
    messages, the passing of time, shutdown) may come in any order. *)

From S2P Require Import Prelude Errors Time Clock PortId DataSet Foreign Stores Wire Message.
From S2P Require Import Effects Servo E2e Bmca Profile Handlers PortState PortSafety Clocks System.
From S2P Require Import VirtualClock.

Open Scope Z_scope.

(** ** Timeouts (node.rs) *)

(** [TokioTimeoutInner]; the task spawned by [reset] is its deadline and the message it captured.
    The sender is that of the loop the timeout belongs to. *)
Record TokioTimeoutInner := mkTokioTimeoutInner {
  tt_domain_number : DomainNumber;
  tt_msg : SystemMessage;
  tt_handle : option (Z * SystemMessage);
}.

Definition TokioTimeout_new (domain_number : DomainNumber) (msg : SystemMessage)
    : TokioTimeoutInner :=
  mkTokioTimeoutInner domain_number msg None.

(** [spawn]: a task that sleeps for [delay] from now. *)
Definition TokioTimeout_spawn (now : Z) (msg : SystemMessage) (delay : Duration)
    : Z * SystemMessage :=
  (now + Duration_as_u64_nanos delay, msg).

(** [cancel]: the task, if any, is aborted. *)
Definition TokioTimeout_cancel (self : TokioTimeoutInner) : TokioTimeoutInner :=
  mkTokioTimeoutInner (tt_domain_number self) (tt_msg self) None.

(** [reset]: the task scheduled before is aborted, its place taken by the new one. *)
Definition TokioTimeout_reset (now : Z) (delay : Duration) (self : TokioTimeoutInner)
    : TokioTimeoutInner :=
  let self := TokioTimeout_cancel self in
  mkTokioTimeoutInner (tt_domain_number self) (tt_msg self)
    (Some (TokioTimeout_spawn now (tt_msg self) delay)).

(** [restart_with_message]; the second component is what it sends at once. *)
Definition TokioTimeout_restart_with_message (now : Z) (msg : SystemMessage) (delay : Duration)
    (self : TokioTimeoutInner) : TokioTimeoutInner * option (DomainNumber * SystemMessage) :=
  let self := mkTokioTimeoutInner (tt_domain_number self) msg (tt_handle self) in
  if Duration_as_u64_nanos delay =? 0
  then (self, Some (tt_domain_number self, tt_msg self))
  else (TokioTimeout_reset now delay self, None).

(** ** The ports loop *)

(** A queued system message; [q_at] is the instant it was sent, which no operation reads. *)
Record Queued := mkQueued {
  q_at : Z;
  q_domain_number : DomainNumber;
  q_msg : SystemMessage;
}.

(** [run_until] has not begun, runs since [start], or has returned. *)
Inductive LoopStatus := Starting | Running (start : Z) | Stopped.

(** The timeouts of a loop's timer host are keyed by their handle. *)
Record TokioPortsLoop (R : Type) := mkTokioPortsLoop {
  tl_portmap : SingleDomainPortMap R;
  tl_system_rx : list Queued;
  tl_timeouts : list (Timeout * TokioTimeoutInner);
  tl_status : LoopStatus;
}.
Arguments mkTokioPortsLoop {R}.
Arguments tl_portmap {R}.
Arguments tl_system_rx {R}.
Arguments tl_timeouts {R}.
Arguments tl_status {R}.

Section ports_loop.
  Context {R : Type}.

Definition tl_domain_number (l : TokioPortsLoop R) : DomainNumber :=
  sm_domain_number (tl_portmap l).

Definition with_portmap (p : SingleDomainPortMap R) (l : TokioPortsLoop R) : TokioPortsLoop R :=
  mkTokioPortsLoop p (tl_system_rx l) (tl_timeouts l) (tl_status l).
Definition with_system_rx (rx : list Queued) (l : TokioPortsLoop R) : TokioPortsLoop R :=
  mkTokioPortsLoop (tl_portmap l) rx (tl_timeouts l) (tl_status l).
Definition with_timeouts (ts : list (Timeout * TokioTimeoutInner)) (l : TokioPortsLoop R)
    : TokioPortsLoop R :=
  mkTokioPortsLoop (tl_portmap l) (tl_system_rx l) ts (tl_status l).
Definition with_status (s : LoopStatus) (l : TokioPortsLoop R) : TokioPortsLoop R :=
  mkTokioPortsLoop (tl_portmap l) (tl_system_rx l) (tl_timeouts l) s.

(** [UnboundedSender::send]. *)
Definition system_tx_send (now : Z) (m : DomainNumber * SystemMessage) (l : TokioPortsLoop R)
    : TokioPortsLoop R :=
  with_system_rx (tl_system_rx l ++ [mkQueued now m.1 m.2]) l.

(** [TokioTimerHost::timeout]: the handle [t] of a fresh timeout. *)
Definition TokioTimerHost_timeout (t : Timeout) (l : TokioPortsLoop R) : TokioPortsLoop R :=
  with_timeouts (tl_timeouts l ++ [(t, TokioTimeout_new (tl_domain_number l) (th_msg t))]) l.

Definition update_timeout (t : Timeout) (f : TokioTimeoutInner → TokioTimeoutInner)
    (l : TokioPortsLoop R) : TokioPortsLoop R :=
  with_timeouts ((λ e, if bool_decide (e.1 = t) then (e.1, f e.2) else e) <$> tl_timeouts l) l.

Definition find_timeout (t : Timeout) (l : TokioPortsLoop R) : option TokioTimeoutInner :=
  snd <$> head (filter (λ e, e.1 = t) (tl_timeouts l)).

(** A restart reaches the timeout the handle belongs to, in whichever loop that is. *)
Definition loop_restart (now : Z) (t : Timeout) (delay : Duration) (l : TokioPortsLoop R)
    : TokioPortsLoop R :=
  update_timeout t (TokioTimeout_reset now delay) l.

Definition loop_restart_with_message (now : Z) (t : Timeout) (msg : SystemMessage)
    (delay : Duration) (l : TokioPortsLoop R) : TokioPortsLoop R :=
  match find_timeout t l with
  | None => l
  | Some inner =>
      let '(inner, sent) := TokioTimeout_restart_with_message now msg delay inner in
      let l := update_timeout t (λ _, inner) l in
      match sent with Some m => system_tx_send now m l | None => l end
  end.

(** The handles a port state owns. *)
Definition state_handles (s : PortState R) : list Timeout :=
  match s with
  | Initializing _ | Faulty _ => []
  | Listening p => [art_timeout (lp_announce_receipt_timeout p)]
  | Slave p => [art_timeout (sp_announce_receipt_timeout p);
                dc_timeout (em_delay_cycle (sp_delay_mechanism p))]
  | Master p => [ac_timeout (mp_announce_cycle p); sc_timeout (mp_sync_cycle p)]
  | PreMaster p => [pp_qualification_timeout p]
  | Uncalibrated p => [art_timeout (up_announce_receipt_timeout p);
                       dc_timeout (em_delay_cycle (up_delay_mechanism p))]
  | Passive p => [art_timeout (vp_announce_receipt_timeout p)]
  end.

(** A port map owns its port's handles until the loop it was moved into returns. *)
Definition loop_handles (l : TokioPortsLoop R) : list Timeout :=
  match tl_status l with
  | Stopped => []
  | _ => match fsm_state (sm_port_fsm (tl_portmap l)) with
         | Some s => state_handles s
         | None => []
         end
  end.

(** [Drop for TokioTimeout]: the timeouts whose handle is gone are cancelled. *)
Definition drop_timeouts (owned : list Timeout) (l : TokioPortsLoop R) : TokioPortsLoop R :=
  with_timeouts (filter (λ e, e.1 ∈ loop_handles l ++ owned) (tl_timeouts l)) l.
End ports_loop.

(** ** Nodes *)

(** The handles a clock keeps for notifying its ports. *)
Class ClockHandles (S : Type) := clock_handles : S → list Timeout.
#[export] Instance OrdinaryClock_handles : ClockHandles OrdinaryClock :=
  λ c, option_list (sn_timeout (oc_port_notification c)).
#[export] Instance BoundaryClock_handles {FGC}
  : ClockHandles (BoundaryClock FGC MultiPortNotification) :=
  λ c, mn_timeouts (bc_port_notification c).

(** The loops around one clock, and the host's monotonic time. *)
Record Node (S R C : Type) := mkNode {
  nd_loops : list (TokioPortsLoop R);
  nd_world : World S;
  nd_clock : C;
  nd_now : Z;
}.
Arguments mkNode {S R C}.
Arguments nd_loops {S R C}.
Arguments nd_world {S R C}.
Arguments nd_clock {S R C}.
Arguments nd_now {S R C}.

(** What reaches a loop from outside, and what its tasks do. *)
Inductive NodeEvent :=
| Ev_Start (i : nat)
| Ev_RecvEvent (i : nat) (datagram : list Z)
| Ev_RecvGeneral (i : nat) (datagram : list Z)
| Ev_RecvError (i : nat)
| Ev_System (i : nat)
| Ev_Shutdown (i : nat)
| Ev_Fire (i : nat) (t : Timeout)
| Ev_Elapse (nanos : Z).

(** [TxTimestamping] and [RxTimestamping]: what goes into the channel for a transmitted event
    message, if anything, and the stamp of a received one. *)
Class Timestamping (C : Type) := {
  tm_stamp_egress : Z → EventMessage → C → outcome (option SystemMessage);
  tm_ingress_stamp : Z → C → outcome TimeStamp;
}.

(** [ClockTxTimestamping] and [ClockRxTimestamping] read the clock at once. *)
Definition ClockTxTimestamping_stamp_egress {C} `{SystemClock C} (now : Z) (msg : EventMessage)
    (clock : C) : outcome (option SystemMessage) :=
  ts ← sc_now now clock;
  Done (Some (SM_Timestamp (mkTimestampMessage msg ts))).
Definition ClockRxTimestamping_ingress_stamp {C} `{SystemClock C} (now : Z) (clock : C)
    : outcome TimeStamp :=
  sc_now now clock.
#[export] Instance ClockTimestamping {C} `{SystemClock C} : Timestamping C := {
  tm_stamp_egress := ClockTxTimestamping_stamp_egress;
  tm_ingress_stamp := ClockRxTimestamping_ingress_stamp;
}.

Section node.
  Context {F : Type} `{HF : !MessageFlagsOps F} `{HE : !Env}.
  Context {S : Type} `{HS : !StateDecisionEvent S} `{HH : !ClockHandles S}.
  Context {R : Type} `{HR : !ForeignClockRecords R}.
  Context {C : Type} `{HC : !SystemClock C} `{HT : !Timestamping C}.

Definition with_loops (ls : list (TokioPortsLoop R)) (n : Node S R C) : Node S R C :=
  mkNode ls (nd_world n) (nd_clock n) (nd_now n).
Definition with_world (w : World S) (n : Node S R C) : Node S R C :=
  mkNode (nd_loops n) w (nd_clock n) (nd_now n).
Definition with_clock (c : C) (n : Node S R C) : Node S R C :=
  mkNode (nd_loops n) (nd_world n) c (nd_now n).
Definition with_now (t : Z) (n : Node S R C) : Node S R C :=
  mkNode (nd_loops n) (nd_world n) (nd_clock n) t.
Definition in_loop (i : nat) (f : TokioPortsLoop R → TokioPortsLoop R) (n : Node S R C)
    : Node S R C :=
  with_loops (alter f i (nd_loops n)) n.
Definition in_loops (f : TokioPortsLoop R → TokioPortsLoop R) (n : Node S R C) : Node S R C :=
  with_loops (f <$> nd_loops n) n.

(** [TxTimestamping::stamp_egress] by the adapter of loop [i]: what it sends goes into the channel. *)
Definition stamp_egress (i : nat) (msg : EventMessage) (n : Node S R C) : outcome (Node S R C) :=
  sent ← tm_stamp_egress (nd_now n) msg (nd_clock n);
  match sent with
  | Some system_msg =>
      Done (in_loop i (λ l, system_tx_send (nd_now n) (tl_domain_number l, system_msg) l) n)
  | None => Done n
  end.

(** One effect of a step of loop [i]'s port: the timer host, the timeouts' channels, the transmit
    timestamping and the clock. A sent datagram was handed to the loop's socket, whose answer was
    part of the step; logs and metrics change nothing here. *)
Definition apply_effect (i : nat) (e : Effect) (n : Node S R C) : outcome (Node S R C) :=
  match e with
  | E_NewTimeout t => Done (in_loop i (TokioTimerHost_timeout t) n)
  | E_Restart t delay => Done (in_loops (loop_restart (nd_now n) t delay) n)
  | E_RestartWithMessage t msg delay =>
      Done (in_loops (loop_restart_with_message (nd_now n) t msg delay) n)
  | E_StampEgress _ msg => stamp_egress i msg n
  | E_ClockStep to => Done (with_clock (sc_step (nd_now n) to (nd_clock n)) n)
  | E_ClockAdjust rate =>
      c ← sc_adjust (nd_now n) rate (nd_clock n);
      Done (with_clock c n)
  | E_SendEvent _ _ _ | E_SendGeneral _ _ _ | E_Log _ _ | E_Metric _ => Done n
  end.

Fixpoint apply_effects (i : nat) (es : list Effect) (n : Node S R C) : outcome (Node S R C) :=
  match es with
  | [] => Done n
  | e :: es => n ← apply_effect i e n; apply_effects i es n
  end.

(** Run core code on loop [i]'s port map, then let the infrastructure act on its effects; what the
    port no longer owns is dropped. *)
Definition core_step (i : nat) (m : M S (SingleDomainPortMap R)) (n : Node S R C)
    : outcome (Node S R C) :=
  match m (nd_world n) with
  | Panic => Panic
  | Done (p, w) =>
      let effects := drop (length (w_trace (nd_world n))) (w_trace w) in
      n ← apply_effects i effects (with_world w (in_loop i (with_portmap p) n));
      Done (in_loop i (drop_timeouts (clock_handles (w_shared w))) n)
  end.

(** The loop returns; its port map goes out of scope. *)
Definition stop_loop (i : nat) (n : Node S R C) : Node S R C :=
  in_loop i (λ l, drop_timeouts (clock_handles (w_shared (nd_world n))) (with_status Stopped l)) n.

(** The receive buffers. *)
Definition BUF_LEN : nat := 2048.

Inductive RxKind := RX_Event | RX_General.

(** [process_datagram]; the result of the ingress is only logged. *)
Definition process_datagram (i : nat) (kind : RxKind) (datagram : list Z) (now : Instant)
    (l : TokioPortsLoop R) (n : Node S R C) : outcome (Node S R C) :=
  let buf := take BUF_LEN datagram in
  match kind with
  | RX_Event =>
      ts ← tm_ingress_stamp (nd_now n) (nd_clock n);
      core_step i (deliver (F := F) (In_Event buf ts) (tl_portmap l)) n
  | RX_General => core_step i (deliver (F := F) (In_General buf now) (tl_portmap l)) n
  end.

(** [run_until] up to its loop: kick the port of domain 0, or fail. *)
Definition run_until_start (i : nat) (l : TokioPortsLoop R) (n : Node S R C)
    : outcome (Node S R C) :=
  match port_by_domain (P := PortFsm R) (mkDomainNumber 0) (tl_portmap l) with
  | Err _ => Done (stop_loop i n)
  | Ok _ =>
      core_step i (deliver (F := F) (In_System SM_Initialized) (tl_portmap l))
        (in_loop i (with_status (Running (nd_now n))) n)
  end.

(** A received system message: the port of its domain, if any, processes it. *)
Definition process_system (i : nat) (q : Queued) (l : TokioPortsLoop R) (n : Node S R C)
    : outcome (Node S R C) :=
  match port_by_domain (P := PortFsm R) (q_domain_number q) (tl_portmap l) with
  | Err _ => Done n
  | Ok _ => core_step i (deliver (F := F) (In_System (q_msg q)) (tl_portmap l)) n
  end.

(** The sleep of the timeout's task is over: it sends the message it captured. *)
Definition fire_timeout (t : Timeout) (now : Z) (l : TokioPortsLoop R)
    : option (TokioPortsLoop R) :=
  inner ← find_timeout t l;
  '(deadline, msg) ← tt_handle inner;
  if deadline <=? now
  then Some (system_tx_send now (tt_domain_number inner, msg) (update_timeout t TokioTimeout_cancel l))
  else None.

(** A running loop with the instant it started at. *)
Definition running (i : nat) (n : Node S R C) : option (TokioPortsLoop R * Z) :=
  l ← nd_loops n !! i;
  match tl_status l with Running start => Some (l, start) | _ => None end.

(** An event of a node, [None] where it cannot happen. [Instant::from_nanos] truncates the elapsed
    nanoseconds to 64 bits. *)
Definition node_step (e : NodeEvent) (n : Node S R C) : option (outcome (Node S R C)) :=
  match e with
  | Ev_Start i =>
      l ← nd_loops n !! i;
      match tl_status l with Starting => Some (run_until_start i l n) | _ => None end
  | Ev_RecvEvent i datagram =>
      '(l, start) ← running i n;
      let now := Instant_from_nanos (as_u 64 (elapsed_nanos start (nd_now n))) in
      Some (process_datagram i RX_Event datagram now l n)
  | Ev_RecvGeneral i datagram =>
      '(l, start) ← running i n;
      let now := Instant_from_nanos (as_u 64 (elapsed_nanos start (nd_now n))) in
      Some (process_datagram i RX_General datagram now l n)
  | Ev_RecvError i => _ ← running i n; Some (Done n)
  | Ev_System i =>
      '(l, _) ← running i n;
      match tl_system_rx l with
      | [] => None
      | q :: rx => Some (process_system i q l (in_loop i (with_system_rx rx) n))
      end
  | Ev_Shutdown i => _ ← running i n; Some (Done (stop_loop i n))
  | Ev_Fire i t =>
      l ← nd_loops n !! i;
      l' ← fire_timeout t (nd_now n) l;
      Some (Done (in_loop i (λ _, l') n))
  | Ev_Elapse nanos => if 0 <=? nanos then Some (Done (with_now (nd_now n + nanos) n)) else None
  end.

(** A sequence of events, [None] where one of them cannot happen. *)
Fixpoint node_run (es : list NodeEvent) (n : Node S R C) : option (outcome (Node S R C)) :=
  match es with
  | [] => Some (Done n)
  | e :: es =>
      match node_step e n with
      | Some (Done n) => node_run es n
      | r => r
      end
  end.

(** ** Assembly (ordinary.rs, boundary.rs, main.rs) *)

(** Ask the clock for a port, and put a loop around it: [new_port] is the clock's [port], the loop
    is [TokioPortsLoop::new] over [SingleDomainPortMap::new]. *)
Definition add_loop (domain_number : DomainNumber) (new_port : M S (option (PortState R)))
    (n : Node S R C) : outcome (option (Node S R C)) :=
  match new_port (nd_world n) with
  | Panic => Panic
  | Done (None, w) => Done None
  | Done (Some p, w) =>
      let effects := drop (length (w_trace (nd_world n))) (w_trace w) in
      let l := mkTokioPortsLoop (SingleDomainPortMap_new domain_number p) [] [] Starting in
      let i := length (nd_loops n) in
      n ← apply_effects i effects (with_world w (with_loops (nd_loops n ++ [l]) n));
      Done (Some (in_loop i (drop_timeouts (clock_handles (w_shared w))) n))
  end.
End node.

(** [main]: an ordinary clock in its domain, one port, one loop. *)
Definition ordinary_node {C} `{SystemClock C} (clock : C) (default_ds : ClockDS)
    (domain_number : DomainNumber) (profile : PortProfile) (now : Z)
    : outcome (option (Node OrdinaryClock ForeignClockRecordsVec C)) :=
  c ← OrdinaryClock_new default_ds domain_number profile;
  add_loop domain_number (OrdinaryClock_port ForeignClockRecordsVec_new)
    (mkNode [] (mkWorld [] c) clock now).

(** Loops for the next [count] ports of a boundary clock. *)
Fixpoint add_boundary_loops {C} `{SystemClock C} (count : nat) (domain_number : DomainNumber)
    (n : Node (BoundaryClock MultiPortForeignCandidates MultiPortNotification)
           ForeignClockRecordsVec C)
    : outcome (option (Node (BoundaryClock MultiPortForeignCandidates MultiPortNotification)
                        ForeignClockRecordsVec C)) :=
  match count with
  | O => Done (Some n)
  | S count =>
      n' ← add_loop domain_number (BoundaryClock_port ForeignClockRecordsVec_new) n;
      match n' with
      | Some n => add_boundary_loops count domain_number n
      | None => Done None
      end
  end.

Definition boundary_node {C} `{SystemClock C} (clock : C) (default_ds : ClockDS)
    (domain_number : DomainNumber) (num_ports : nat) (now : Z)
    : outcome (option (Node (BoundaryClock MultiPortForeignCandidates MultiPortNotification)
                        ForeignClockRecordsVec C)) :=
  c ← BoundaryClock_new default_ds domain_number (Z.of_nat num_ports)
        MultiPortForeignCandidates_new MultiPortNotification_new;
  add_boundary_loops num_ports domain_number (mkNode [] (mkWorld [] c) clock now).

(** [main] of the daemon. *)
Definition main_default_ds : ClockDS :=
  mkClockDS (mkClockIdentity [0; 27; 25; 255; 254; 0; 0; 1]) (mkPriority1 127) (mkPriority2 127)
    (mkClockQuality CC_Default CA_Within1ms 65535) (mkStepsRemoved 0).

Definition main_node (now : Z)
    : outcome (option (Node OrdinaryClock ForeignClockRecordsVec VirtualClock)) :=
  start ← TimeStamp_new 0 0;
  let virtual_clock := VirtualClock_new now start f64_one Ptp in
  profile ← PortProfile_default;
  let profile := PortProfile_with_servo_config SC_Stepping profile in
  ordinary_node virtual_clock main_default_ds (mkDomainNumber 0) profile now.
