(* ===== verification/DaemonSafety.v ===== *)
(** * The daemon is safe

    What a node keeps invariant, whatever the network sends and however its events interleave, and
    why an announce receipt timeout cannot hit a master as long as no message waits in a channel
    for a whole announce receipt interval. *)

From S2P Require Import Prelude Errors Time Clock PortId DataSet Foreign Stores Wire Message.
From S2P Require Import Effects Servo E2e Bmca Profile Handlers PortState PortSafety Clocks System.
From S2P Require Import VirtualClock Daemon.

Open Scope Z_scope.

(** ** Messages and timeouts *)

Definition is_decision (m : SystemMessage) : Prop := ∃ s, m = SM_StateDecisionEvent s.

(** What a timeout with handle [t] may hold: its own message or, for a notification handle, any
    state decision event. *)
Definition carries (t : Timeout) (m : SystemMessage) : Prop :=
  SystemMessage_wf m ∧ (m = th_msg t ∨ is_decision (th_msg t) ∧ is_decision m).

Definition timeout_handle (t : Timeout) : Prop := is_timeout (th_msg t).

Lemma decision_not_timeout m : is_decision m → ¬ is_timeout m.
Proof. by intros [s ->] [|]. Qed.

Lemma timestamp_not_timeout t : ¬ is_timeout (SM_Timestamp t).
Proof. by intros [|]. Qed.

Lemma carries_timeout t m : carries t m → is_timeout m → m = th_msg t.
Proof. intros [_ [?|[_ Hd]]] Hm; [done|]. by destruct (decision_not_timeout m). Qed.

Section invariant.
  Context {F : Type} `{HF : !MessageFlagsOps F} {R : Type} `{HR : !ForeignClockRecords R}.
  Context (net : PortContract) (port_ok : PortNumber → Prop) (inv : R → Prop).

Definition K : Z := d_nanos (pc_receipt net).

(** ** The invariant of a loop *)

Definition queued_ok (now : Z) (q : Queued) : Prop := SystemMessage_wf (q_msg q) ∧ q_at q <= now.

Definition inner_ok (t : Timeout) (inner : TokioTimeoutInner) : Prop :=
  carries t (tt_msg inner) ∧ ∀ deadline m, tt_handle inner = Some (deadline, m) → carries t m.

Definition timeouts_ok (ts : list (Timeout * TokioTimeoutInner)) : Prop :=
  ∀ t inner, (t, inner) ∈ ts → inner_ok t inner.

(** Nothing that makes a master is queued ahead of an announce receipt timeout. *)
Definition in_order (rx : list Queued) : Prop :=
  ∀ pre q post, rx = pre ++ q :: post → q_msg q = SM_AnnounceReceiptTimeout →
    Forall (λ q, ¬ is_timeout (q_msg q)) pre.

(** While one is queued, no announce receipt timeout fires within the interval. *)
Definition spaced (rx : list Queued) (ts : list (Timeout * TokioTimeoutInner)) : Prop :=
  ∀ q t inner deadline, q ∈ rx → is_timeout (q_msg q) → (t, inner) ∈ ts →
    tt_handle inner = Some (deadline, SM_AnnounceReceiptTimeout) → q_at q + K <= deadline.

Definition no_receipt (rx : list Queued) : Prop :=
  ∀ q, q ∈ rx → q_msg q ≠ SM_AnnounceReceiptTimeout.

(** What holds between the effects of a step, too. *)
Definition loop_mid (now : Z) (l : TokioPortsLoop R) : Prop :=
  map_ok net port_ok inv (tl_portmap l) ∧
  Forall (queued_ok now) (tl_system_rx l) ∧ timeouts_ok (tl_timeouts l) ∧
  in_order (tl_system_rx l) ∧ spaced (tl_system_rx l) (tl_timeouts l) ∧
  (map_master (tl_portmap l) → no_receipt (tl_system_rx l)).

(** The port's timeouts of the two kinds belong to its state. *)
Definition owned (l : TokioPortsLoop R) : Prop :=
  ∀ t, t ∈ (tl_timeouts l).*1 → timeout_handle t → t ∈ loop_handles l.

Definition loop_ok (now : Z) (l : TokioPortsLoop R) : Prop := loop_mid now l ∧ owned l.

(** ** What a state owns *)

Lemma state_handles_timeout (s : PortState R) t t' : state_ok net port_ok inv s →
  t ∈ state_handles s → t' ∈ state_handles s → timeout_handle t → timeout_handle t' → t = t'.
Proof.
  unfold timeout_handle. destruct s; simpl; intros Hs Ht Ht' Hm Hm'; repeat match goal with
    | H : _ ∈ [] |- _ => by apply not_elem_of_nil in H
    | H : _ ∈ _ :: _ |- _ => apply elem_of_cons in H as [->|H]
    end; try done; exfalso; decompose [and] Hs; unfold mechanism_ok, receipt_ok in *;
    destruct_and?; repeat match goal with
    | H : th_msg ?t = _, H' : is_timeout (th_msg ?t) |- _ => rewrite H in H'; by destruct H'
    end.
Qed.

Lemma master_handles (s : PortState R) t : state_ok net port_ok inv s → kind s = KMaster →
  t ∈ state_handles s → ¬ timeout_handle t.
Proof.
  unfold timeout_handle. destruct s as [| | |p| | | |]; try done. simpl.
  intros (_ & _ & _ & _ & _ & _ & _ & Ha & Hs) _.
  intros [->|[->|[]%not_elem_of_nil]%elem_of_cons]%elem_of_cons; rewrite ?Ha, ?Hs; by intros [|].
Qed.

Lemma loop_handles_state (l : TokioPortsLoop R) t : t ∈ loop_handles l →
  ∃ s, fsm_state (sm_port_fsm (tl_portmap l)) = Some s ∧ t ∈ state_handles s.
Proof.
  unfold loop_handles. destruct (tl_status l), (fsm_state _) as [s|];
    try (by intros []%not_elem_of_nil); intros H; by exists s.
Qed.

Lemma owned_unique now l t t' : loop_ok now l →
  t ∈ (tl_timeouts l).*1 → t' ∈ (tl_timeouts l).*1 → timeout_handle t → timeout_handle t' → t = t'.
Proof.
  intros [[(s & E & Hs) _] Ho] Ht Ht' Hm Hm'.
  destruct (loop_handles_state l t) as (s1 & E1 & H1); [by apply Ho|].
  destruct (loop_handles_state l t') as (s2 & E2 & H2); [by apply Ho|].
  rewrite E in E1, E2. injection E1 as <-. injection E2 as <-.
  by eapply state_handles_timeout.
Qed.

Lemma owned_not_master now l t : loop_ok now l → t ∈ (tl_timeouts l).*1 → timeout_handle t →
  ¬ map_master (tl_portmap l).
Proof.
  intros [[(s & E & Hs) _] Ho] Ht Hm (s' & E' & Hk).
  destruct (loop_handles_state l t) as (s1 & E1 & H1); [by apply Ho|].
  rewrite E in E1, E'. injection E1 as <-. injection E' as <-.
  by apply (master_handles s t Hs Hk).
Qed.
(** ** The operations of a loop keep the invariant *)

Lemma in_order_snoc rx q : in_order rx →
  (q_msg q = SM_AnnounceReceiptTimeout → Forall (λ q, ¬ is_timeout (q_msg q)) rx) →
  in_order (rx ++ [q]).
Proof.
  intros Ho Hq pre q' post E Hm. destruct post as [|x post _] using rev_ind.
  - apply app_inj_tail in E as [<- <-]. by apply Hq.
  - rewrite app_comm_cons, app_assoc in E. apply app_inj_tail in E as [-> _].
    by eapply Ho.
Qed.

Lemma in_order_tail q rx : in_order (q :: rx) → in_order rx.
Proof.
  intros Ho pre q' post -> Hm. specialize (Ho (q :: pre) q' post eq_refl Hm).
  by apply Forall_cons in Ho as [_ Ho].
Qed.

Lemma in_order_head q rx : in_order (q :: rx) → is_timeout (q_msg q) → no_receipt rx.
Proof.
  intros Ho Hq q' (pre & post & ->)%list_elem_of_split Hm.
  specialize (Ho (q :: pre) q' post eq_refl Hm). by apply Forall_cons in Ho as [Hn _].
Qed.

(** A message that is none of the two timeouts may be queued at any time. *)
Lemma send_mid now d m l : loop_mid now l → SystemMessage_wf m → ¬ is_timeout m →
  loop_mid now (system_tx_send now (d, m) l).
Proof.
  intros (Hp & Hq & Ht & Ho & Hs & Hn) Hm Hnt. split; [done|]. split; [|split; [done|split; [|split]]].
  - apply Forall_app. split; [done|]. repeat constructor; simpl; [done | lia].
  - apply in_order_snoc; [done|]. intros E. destruct Hnt. by left.
  - intros q t inner dl [Hq'| ->%list_elem_of_singleton]%elem_of_app Hm'; [by eapply Hs | done].
  - intros Hmm q [Hq'| ->%list_elem_of_singleton]%elem_of_app; [by apply (Hn Hmm)|].
    simpl. intros E. destruct Hnt. by left.
Qed.

Lemma timers_mid now l ts : loop_mid now l → timeouts_ok ts → spaced (tl_system_rx l) ts →
  loop_mid now (with_timeouts ts l).
Proof. intros (Hp & Hq & Ht & Ho & Hs & Hn) Hts Hsp. by split_and!. Qed.

Lemma host_mid now t l : loop_mid now l → SystemMessage_wf (th_msg t) →
  loop_mid now (TokioTimerHost_timeout t l).
Proof.
  intros Hl Hm. pose proof Hl as (_ & _ & Ht & _ & Hs & _). apply timers_mid; [done| |].
  - intros t' inner [H|[= -> ->]%list_elem_of_singleton]%elem_of_app; [by apply Ht|].
    split; [|done]. by split; [|left].
  - intros q t' inner dl Hq Hqt [H|[= -> ->]%list_elem_of_singleton]%elem_of_app E; [|done].
    by eapply Hs.
Qed.

Lemma update_timeout_elem t f (l : TokioPortsLoop R) t' inner :
  (t', inner) ∈ tl_timeouts (update_timeout t f l) →
  t' ≠ t ∧ (t', inner) ∈ tl_timeouts l ∨
  t' = t ∧ ∃ inner0, (t, inner0) ∈ tl_timeouts l ∧ inner = f inner0.
Proof.
  intros ([t1 i1] & E & H)%list_elem_of_fmap. simpl in E. case_bool_decide; injection E as -> ->; [|by left].
  subst. right. split; [done|]. by exists i1.
Qed.

Lemma update_timeout_keys t f (l : TokioPortsLoop R) :
  (tl_timeouts (update_timeout t f l)).*1 = (tl_timeouts l).*1.
Proof.
  simpl. rewrite <- list_fmap_compose. apply list_fmap_ext. intros _ [t1 i1] _. simpl.
  by case_bool_decide.
Qed.

(** Replacing a timeout's task by one that, for an announce receipt timeout, is a whole interval
    away. *)
Lemma update_mid now t f l : loop_mid now l →
  (∀ inner, inner_ok t inner → inner_ok t (f inner)) →
  (∀ inner deadline, inner_ok t inner →
     tt_handle (f inner) = Some (deadline, SM_AnnounceReceiptTimeout) →
     tt_handle inner = Some (deadline, SM_AnnounceReceiptTimeout) ∨ now + K <= deadline) →
  loop_mid now (update_timeout t f l).
Proof.
  intros Hl Hf Hd. pose proof Hl as (_ & Hq & Ht & _ & Hs & _). apply timers_mid; [done| |].
  - intros t' inner [[_ H]|(-> & i0 & H & ->)]%update_timeout_elem; [by apply Ht|].
    by apply Hf, Ht.
  - intros q t' inner dl Hq' Hqt [[_ H]|(-> & i0 & H & ->)]%update_timeout_elem E; [by eapply Hs|].
    destruct (Hd i0 dl (Ht _ _ H) E) as [E'|Hle]; [by eapply Hs|].
    rewrite Forall_forall in Hq. destruct (Hq q Hq') as [_ Hat]. lia.
Qed.

Lemma restart_mid now t d l : loop_mid now l → effect_ok (F := F) net (E_Restart t d) →
  loop_mid now (loop_restart now t d l).
Proof.
  intros Hl He. apply update_mid; [done| |].
  - intros inner [Hm _]. split; [done|]. intros dl m [= _ <-]. done.
  - intros inner dl [Hm _]. simpl. intros [= <- E]. right.
    rewrite E in Hm. apply carries_timeout in Hm; [|by left].
    simpl in He. rewrite <- Hm in He. subst d. done.
Qed.

Lemma find_timeout_elem t (l : TokioPortsLoop R) inner :
  find_timeout t l = Some inner → (t, inner) ∈ tl_timeouts l.
Proof.
  unfold find_timeout. destruct (filter _ _) as [|[t' i'] fl] eqn:E; [done|]. intros [= <-].
  assert ((t', i') ∈ filter (λ e, e.1 = t) (tl_timeouts l)) as H by (rewrite E; left).
  by apply list_elem_of_filter in H as [<- H].
Qed.

Lemma restart_with_message_mid now t m d l : loop_mid now l →
  effect_ok (F := F) net (E_RestartWithMessage t m d) →
  loop_mid now (loop_restart_with_message now t m d l).
Proof.
  intros Hl (-> & Ht & Hm & Hwf). unfold loop_restart_with_message.
  destruct (find_timeout t l) as [inner|] eqn:E; [|done]. simpl.
  assert (inner_ok t inner) as [_ Hh].
  { apply Hl. by apply find_timeout_elem. }
  apply send_mid; [|done|by apply decision_not_timeout].
  apply update_mid; [done| |].
  - intros _ _. split; [|done]. by split; [|right].
  - intros i0 dl _ Eh. simpl in Eh. destruct (Hh _ _ Eh) as [_ [E'|[_ [s E']]]]; [|done].
    destruct Ht as [s Ht]. by rewrite Ht in E'.
Qed.
End invariant.

(** ** The effects of a step *)

Section effects.
  Context {F : Type} `{HF : !MessageFlagsOps F} {S : Type}.
  Context {R : Type} `{HR : !ForeignClockRecords R} {C : Type} `{HC : !SystemClock C}.
  Context (net : PortContract) (cinv : C → Prop) `{!SystemClockLaws C cinv (pc_steered net)}.

(** A property of the loops, at an instant, that what a port may ask for preserves. *)
Record loop_stable (J : Z → TokioPortsLoop R → Prop) : Prop := {
  ls_send : ∀ now d m l, J now l → SystemMessage_wf m → ¬ is_timeout m →
    J now (system_tx_send now (d, m) l);
  ls_timeout : ∀ now t l, J now l → SystemMessage_wf (th_msg t) → J now (TokioTimerHost_timeout t l);
  ls_restart : ∀ now t d l, J now l → effect_ok (F := F) net (E_Restart t d) →
    J now (loop_restart now t d l);
  ls_restart_with_message : ∀ now t m d l, J now l →
    effect_ok (F := F) net (E_RestartWithMessage t m d) →
    J now (loop_restart_with_message now t m d l);
}.

Context (J : Z → TokioPortsLoop R → Prop).

Definition node_with (n : Node S R C) : Prop :=
  Forall (J (nd_now n)) (nd_loops n) ∧ cinv (nd_clock n).

(** What the effects of loop [i]'s port leave alone. *)
Definition evolves (i : nat) (n n' : Node S R C) : Prop :=
  nd_world n' = nd_world n ∧ nd_now n' = nd_now n ∧
  ∀ j l', nd_loops n' !! j = Some l' → ∃ l, nd_loops n !! j = Some l ∧
    tl_portmap l' = tl_portmap l ∧ tl_status l' = tl_status l ∧
    (j ≠ i → (tl_timeouts l').*1 = (tl_timeouts l).*1).

Lemma evolves_refl i n : evolves i n n.
Proof. split; [done|]. split; [done|]. intros j l' E. by exists l'. Qed.

Lemma evolves_clock i c n : evolves i n (with_clock c n).
Proof. exact (evolves_refl i n). Qed.

Lemma evolves_trans i n n' n'' : evolves i n n' → evolves i n' n'' → evolves i n n''.
Proof.
  intros (E1 & E2 & H) (E1' & E2' & H'). split; [congruence|]. split; [congruence|].
  intros j l2 (l1 & Hl1 & P1 & S1 & K1)%H'. destruct (H j l1 Hl1) as (l & Hl & P0 & S0 & K0).
  exists l. split; [done|]. split; [congruence|]. split; [congruence|].
  intros Hj. by rewrite K1, K0.
Qed.

(** An operation on loop [i], or on all loops. *)
Lemma in_loop_evolves i f n :
  (∀ l, tl_portmap (f l) = tl_portmap l ∧ tl_status (f l) = tl_status l) →
  evolves i n (in_loop i f n).
Proof.
  intros Hf. split; [done|]. split; [done|]. intros j l'. simpl.
  destruct (decide (j = i)) as [->|Hj].
  - rewrite list_lookup_alter_eq. intros (l & Hl & ->)%fmap_Some. exists l.
    destruct (Hf l). by split_and!.
  - rewrite list_lookup_alter_ne by done. intros Hl. by exists l'.
Qed.

Lemma in_loops_evolves i f n :
  (∀ l, tl_portmap (f l) = tl_portmap l ∧ tl_status (f l) = tl_status l ∧
        (tl_timeouts (f l)).*1 = (tl_timeouts l).*1) →
  evolves i n (in_loops f n).
Proof.
  intros Hf. split; [done|]. split; [done|]. intros j l'. simpl. rewrite list_lookup_fmap.
  intros (l & Hl & ->)%fmap_Some. exists l. destruct (Hf l) as (? & ? & ?). by split_and!.
Qed.

Lemma in_loop_with i f n : node_with n → (∀ l, J (nd_now n) l → J (nd_now n) (f l)) →
  node_with (in_loop i f n).
Proof.
  intros [Hl Hc] Hf. split; [|done]. simpl. apply Forall_alter; [done|]. intros l _. apply Hf.
Qed.

Lemma in_loops_with f n : node_with n → (∀ l, J (nd_now n) l → J (nd_now n) (f l)) →
  node_with (in_loops f n).
Proof.
  intros [Hl Hc] Hf. split; [|done]. simpl. apply Forall_fmap. eapply Forall_impl; [done|].
  exact Hf.
Qed.

Lemma restart_with_message_frame now t m d (l : TokioPortsLoop R) :
  let l' := loop_restart_with_message now t m d l in
  tl_portmap l' = tl_portmap l ∧ tl_status l' = tl_status l ∧
  (tl_timeouts l').*1 = (tl_timeouts l).*1.
Proof.
  unfold loop_restart_with_message. destruct (find_timeout t l) as [i|]; [|done].
  unfold TokioTimeout_restart_with_message. destruct (_ =? 0); (split; [done|]; split; [done|]);
    apply update_timeout_keys.
Qed.

Context (HJ : loop_stable J).

Lemma apply_effect_ok i e n : node_with n → effect_ok (F := F) net e →
  ∃ n', apply_effect i e n = Done n' ∧ node_with n' ∧ evolves i n n'.
Proof.
  intros Hn He. destruct e as [p ev|t|t d|t m d|p b o|p b o|p m|to|r|x]; simpl.
  - eexists. split; [done|]. split; [done | apply evolves_refl].
  - eexists. split; [done|]. split; [|by apply in_loop_evolves].
    apply in_loop_with; [done|]. intros l Hl. by apply (ls_timeout J HJ).
  - eexists. split; [done|]. split.
    + apply in_loops_with; [done|]. intros l Hl. by apply (ls_restart J HJ).
    + apply in_loops_evolves. intros l. split; [done|]. split; [done|]. apply update_timeout_keys.
  - eexists. split; [done|]. split.
    + apply in_loops_with; [done|]. intros l Hl. by apply (ls_restart_with_message J HJ).
    + apply in_loops_evolves. apply restart_with_message_frame.
  - eexists. split; [done|]. split; [done | apply evolves_refl].
  - eexists. split; [done|]. split; [done | apply evolves_refl].
  - unfold stamp_egress. cbn [tm_stamp_egress ClockTimestamping].
    unfold ClockTxTimestamping_stamp_egress. destruct (sc_now_ok (nd_now n) (nd_clock n)) as (ts & -> & Hts); [apply Hn|].
    eexists. split; [done|]. split; [|by apply in_loop_evolves].
    apply in_loop_with; [done|]. intros l Hl.
    apply (ls_send J HJ); [done | by split | apply timestamp_not_timeout].
  - eexists. split; [done|]. split; [|apply evolves_clock]. destruct Hn. split; [done|].
    by apply (sc_step_ok (inv := cinv) (steered := pc_steered net)).
  - destruct Hn as [Hl Hc].
    destruct (sc_adjust_ok (steered := pc_steered net) (nd_now n) r (nd_clock n)) as (c & E & Hc');
      [done..|].
    rewrite E. eexists. split; [done|]. split; [|apply evolves_clock]. by split.
  - eexists. split; [done|]. split; [done | apply evolves_refl].
Qed.

Lemma apply_effects_ok i es : ∀ n, node_with n → Forall (effect_ok (F := F) net) es →
  ∃ n', apply_effects i es n = Done n' ∧ node_with n' ∧ evolves i n n'.
Proof.
  induction es as [|e es IH]; intros n Hn Hes; simpl.
  { exists n. split; [done|]. split; [done | apply evolves_refl]. }
  apply Forall_cons in Hes as [He Hes].
  destruct (apply_effect_ok i e n Hn He) as (n1 & -> & Hn1 & H1). rewrite outcome_bind_Done.
  destruct (IH n1 Hn1 Hes) as (n2 & E & Hn2 & H2). exists n2. split; [done|]. split; [done|].
  by eapply evolves_trans.
Qed.

End effects.

(** ** The invariant of a node *)

Section node_safety.
  Context {F : Type} `{HF : !MessageFlagsOps F} `{HE : !Env}.
  Context {S : Type} `{HS : !StateDecisionEvent S} `{HH : !ClockHandles S}.
  Context {R : Type} `{HR : !ForeignClockRecords R} {C : Type} `{HC : !SystemClock C}.
  Context (I : S → Prop) (net : PortContract) (port_ok : PortNumber → Prop).
  Context `{!StateDecisionEventLaws S I (effect_ok (F := F) net) port_ok}.
  Context (Hhandles : ∀ s, I s → decision_handles (clock_handles s)).
  Context (inv : R → Prop) `{!ForeignClockRecordsLaws R inv}.
  Context (cinv : C → Prop) `{!SystemClockLaws C cinv (pc_steered net)}.
  #[local] Abbreviation mid := (loop_mid net port_ok inv).
  #[local] Abbreviation ok := (loop_ok net port_ok inv).

Definition node_mid (n : Node S R C) : Prop := node_with cinv mid n.

Lemma mid_stable : loop_stable (F := F) net mid.
Proof.
  split; [apply send_mid | apply host_mid | apply (restart_mid (F := F))
         | apply (restart_with_message_mid (F := F))].
Qed.

Definition node_ok (n : Node S R C) : Prop :=
  Forall (ok (nd_now n)) (nd_loops n) ∧ cinv (nd_clock n) ∧ I (w_shared (nd_world n)).

(** No message has waited for the interval. *)
Definition responsive (n : Node S R C) : Prop :=
  Forall (λ l, Forall (λ q, nd_now n < q_at q + K net) (tl_system_rx l)) (nd_loops n).

#[export] Instance responsive_dec n : Decision (responsive n).
Proof. unfold responsive. apply _. Defined.

(** ** Steps of the core *)

Lemma drop_timeouts_mid now hs (l : TokioPortsLoop R) :
  mid now l → mid now (drop_timeouts hs l).
Proof.
  intros Hl. pose proof Hl as (_ & _ & Ht & _ & Hs & _). apply timers_mid; [done| |].
  - intros t inner [_ H]%list_elem_of_filter. by apply Ht.
  - intros q t inner dl Hq Hqt [_ H]%list_elem_of_filter. by eapply Hs.
Qed.

Lemma drop_timeouts_owned hs (l : TokioPortsLoop R) : decision_handles hs →
  owned (drop_timeouts hs l).
Proof.
  intros Hd t Hin Ht. simpl in Hin.
  apply list_elem_of_fmap in Hin as ([t' inner] & -> & [Ho _]%list_elem_of_filter). simpl in *.
  apply elem_of_app in Ho as [Ho|Ho]; [exact Ho|].
  unfold decision_handles in Hd. rewrite Forall_forall in Hd. by destruct (decision_not_timeout _ (Hd _ Ho)).
Qed.

Lemma with_portmap_mid now p (l : TokioPortsLoop R) : mid now l → map_ok net port_ok inv p →
  (map_master p → no_receipt (tl_system_rx l)) → mid now (with_portmap p l).
Proof. intros (_ & Hq & Ht & Ho & Hs & _) Hp Hm. by split_and!. Qed.

(** The other loops keep what they own. *)
Definition others_owned (i : nat) (n : Node S R C) : Prop :=
  ∀ j l, j ≠ i → nd_loops n !! j = Some l → owned l.

Lemma settle i n hs : node_mid n → others_owned i n → decision_handles hs →
  Forall (ok (nd_now n)) (nd_loops (in_loop i (drop_timeouts hs) n)).
Proof.
  intros [Hl _] Ho Hd. apply Forall_lookup. intros j l'. simpl.
  destruct (decide (j = i)) as [->|Hj].
  - rewrite list_lookup_alter_eq. intros (l & E & ->)%fmap_Some. split.
    + apply drop_timeouts_mid. by eapply Forall_lookup in Hl.
    + by apply drop_timeouts_owned.
  - rewrite list_lookup_alter_ne by done. intros E. split; [by eapply Forall_lookup in Hl|].
    by apply (Ho j).
Qed.

Lemma core_step_ok i l n inp : nd_loops n !! i = Some l → node_mid n → others_owned i n →
  I (w_shared (nd_world n)) → PortInput_wf inp → (∀ k, ¬ hits_master k inp [tl_portmap l]) →
  (makes_master inp → no_receipt (tl_system_rx l)) →
  ∃ n', core_step i (deliver (F := F) inp (tl_portmap l)) n = Done n' ∧ node_ok n' ∧
        nd_now n' = nd_now n.
Proof.
  intros El Hn Hoth HI Hi Hh Hmm. assert (mid (nd_now n) l) as Hl by by eapply Forall_lookup, El; apply Hn.
  assert (wp (deliver (F := F) inp (tl_portmap l)) (λ p w, I (w_shared w) ∧
    delivered net port_ok inv inp (tl_portmap l) p ∧
    ∃ es, w_trace w = w_trace (nd_world n) ++ es ∧ Forall (effect_ok (F := F) net) es)
    (nd_world n)) as Hd.
  { apply deliver_safe; try done. apply Hl. }
  apply wp_Done in Hd as (p & w & E & HI' & (Hp & Hpm & _) & es & Et & Hes).
  unfold core_step. rewrite E, Et, drop_app_length.
  set (n1 := with_world w (in_loop i (with_portmap p) n)).
  assert (node_mid n1) as Hn1.
  { split; [|apply Hn]. simpl. apply Forall_alter; [apply Hn|]. intros l' El' Hl'.
    rewrite El in El'. injection El' as <-. apply with_portmap_mid; [done..|].
    intros Hm. destruct (Hpm Hm) as [Hm'|Hm']; [by apply Hl | by apply Hmm]. }
  destruct (apply_effects_ok net cinv mid mid_stable i es n1 Hn1 Hes) as (n2 & -> & Hn2 & Ew & Enow & Hev).
  rewrite outcome_bind_Done. eexists. split; [done|]. split; [|exact Enow].
  split; [|split; [apply Hn2|]].
  - apply (settle i n2); [done| |by apply Hhandles]. intros j l' Hj E'.
    destruct (Hev j l' E') as (l1 & E1 & Ep & Es & Ek). simpl in E1.
    rewrite list_lookup_alter_ne in E1 by done. pose proof (Hoth j l1 Hj E1) as Ho.
    intros t Ht Htt. rewrite (Ek Hj) in Ht. specialize (Ho t Ht Htt).
    unfold loop_handles in *. by rewrite Ep, Es.
  - simpl. rewrite Ew. exact HI'.
Qed.

(** ** Events *)

Definition NodeEvent_wf (e : NodeEvent) : Prop :=
  match e with
  | Ev_RecvEvent _ datagram | Ev_RecvGeneral _ datagram => Forall is_byte datagram
  | _ => True
  end.

Lemma node_ok_mid n : node_ok n → node_mid n.
Proof. intros (Hl & Hc & _). split; [|done]. eapply Forall_impl; [done|]. by intros l [? _]. Qed.

Lemma node_ok_lookup n i l : node_ok n → nd_loops n !! i = Some l → ok (nd_now n) l.
Proof. intros (Hl & _) E. by eapply Forall_lookup in Hl. Qed.

Lemma running_lookup i (n : Node S R C) l start : running i n = Some (l, start) → nd_loops n !! i = Some l.
Proof.
  unfold running. intros (l' & E & H)%bind_Some. by destruct (tl_status l'); try done; injection H as -> _.
Qed.

Lemma others_in_loop i f n : node_ok n → others_owned i (in_loop i f n).
Proof.
  intros Hn j l Hj E. simpl in E. rewrite list_lookup_alter_ne in E by done.
  by apply (node_ok_lookup n j l).
Qed.

Lemma in_loop_id (n : Node S R C) i : in_loop i id n = n.
Proof.
  destruct n as [ls w c t]. unfold in_loop, with_loops. simpl. f_equal.
  by apply list_alter_id.
Qed.

Lemma node_ok_others i n : node_ok n → others_owned i n.
Proof. intros Hn. rewrite <- (in_loop_id n i). by apply others_in_loop. Qed.

Lemma stop_loop_ok i n : node_ok n → node_ok (stop_loop i n).
Proof.
  intros Hn. pose proof Hn as (Hl & Hc & HI). split; [|done].
  assert (nd_loops (stop_loop i n) = nd_loops (in_loop i
    (drop_timeouts (clock_handles (w_shared (nd_world n)))) (in_loop i (with_status Stopped) n)))
    as ->.
  { simpl. by rewrite list_alter_alter_eq. }
  apply (settle i (in_loop i (with_status Stopped) n)).
  - apply (in_loop_with cinv mid); [by apply node_ok_mid | by intros l (? & ?)].
  - by apply others_in_loop.
  - by apply Hhandles.
Qed.

(** A step from a node whose loop [i] was prepared by [f]. *)
Lemma prepared_step_ok i f l n inp : node_ok n → nd_loops n !! i = Some l →
  (∀ l, mid (nd_now n) l → mid (nd_now n) (f l)) → tl_portmap (f l) = tl_portmap l →
  PortInput_wf inp → (∀ k, ¬ hits_master k inp [tl_portmap l]) →
  (makes_master inp → no_receipt (tl_system_rx (f l))) →
  ∃ n', core_step i (deliver (F := F) inp (tl_portmap l)) (in_loop i f n) = Done n' ∧ node_ok n'.
Proof.
  intros Hn El Hf Hp Hi Hh Hm.
  assert (nd_loops (in_loop i f n) !! i = Some (f l)) as El'
    by (simpl; by rewrite list_lookup_alter_eq, El).
  destruct (core_step_ok i (f l) (in_loop i f n) inp El') as (n' & E & Hn' & _);
    [apply (in_loop_with cinv mid); [by apply node_ok_mid | done] | by apply others_in_loop | apply Hn
    | done | by rewrite Hp | done |].
  rewrite Hp in E. by exists n'.
Qed.

Lemma plain_step_ok i l n inp : node_ok n → nd_loops n !! i = Some l →
  PortInput_wf inp → (∀ msg, inp ≠ In_System msg) →
  ∃ n', core_step i (deliver (F := F) inp (tl_portmap l)) n = Done n' ∧ node_ok n'.
Proof.
  intros Hn El Hi Hs. rewrite <- (in_loop_id n i). apply prepared_step_ok; try done.
  - intros k [-> _]. by eapply Hs.
  - intros Hm. destruct inp; [done..|]. by destruct (Hs msg).
Qed.

Lemma process_system_ok i l q rx n : node_ok n → nd_loops n !! i = Some l →
  tl_system_rx l = q :: rx →
  ∃ n', process_system (F := F) i q l (in_loop i (with_system_rx rx) n) = Done n' ∧ node_ok n'.
Proof.
  intros Hn El Eq. pose proof (node_ok_lookup n i l Hn El) as [Hl Ho].
  assert (mid (nd_now n) (with_system_rx rx l)) as Hpop.
  { destruct Hl as (Hp & Hq & Ht & Hord & Hs & Hm). rewrite Eq in *.
    apply Forall_cons in Hq as [_ Hq]. split; [done|]. split; [done|]. split; [done|].
    split; [by eapply in_order_tail|]. split.
    - intros q' t inner dl Hq'. apply Hs. by right.
    - intros Hmm q' Hq'. apply (Hm Hmm). by right. }
  unfold process_system.
  cbn [port_by_domain SingleDomainPortMap_PortMap]. unfold SingleDomainPortMap_port_by_domain.
  case_bool_decide.
  - destruct (core_step_ok i (with_system_rx rx l) (in_loop i (with_system_rx rx) n)
      (In_System (q_msg q))) as (n' & E & Hn' & _).
    + simpl. by rewrite list_lookup_alter_eq, El.
    + split; [|apply Hn]. simpl. apply Forall_alter; [by apply node_ok_mid|].
      intros l' El' _. rewrite El in El'. by injection El' as <-.
    + by apply others_in_loop.
    + apply Hn.
    + destruct Hl as (_ & Hq & _). rewrite Eq in Hq. by apply Forall_cons in Hq as [[Hq _] _].
    + intros k ([= Em] & d & p & E). destruct Hl as (_ & _ & _ & _ & _ & Hm).
      apply (Hm ltac:(destruct k as [|k]; [injection E as E|by destruct k];
        unfold map_master, fsm_master; rewrite E; by eexists) q); [rewrite Eq; left | done].
    + intros Hmk. destruct Hl as (_ & _ & _ & Hord & _). rewrite Eq in Hord.
      by eapply in_order_head.
    + by exists n'.
  - eexists. split; [done|]. pose proof Hn as (Hls & Hc & HI). split; [|done].
    simpl. apply Forall_alter; [done|]. intros l' El' _. rewrite El in El'. injection El' as <-.
    split; [exact Hpop | exact Ho].
Qed.

Lemma find_timeout_key t (l : TokioPortsLoop R) inner :
  find_timeout t l = Some inner → t ∈ (tl_timeouts l).*1.
Proof. intros H%find_timeout_elem. by apply list_elem_of_fmap; exists (t, inner). Qed.

Lemma cancel_mid now t l : mid now l → mid now (update_timeout t TokioTimeout_cancel l).
Proof. intros Hl. apply update_mid; [done| |done]. by intros inner [? _]. Qed.

Lemma is_timeout_dec m : is_timeout m ∨ ¬ is_timeout m.
Proof. unfold is_timeout. destruct m; try (right; by intros [|]); auto. Qed.

(** Of the two kinds of timeout at most one is pending, so firing it leaves none. *)
Lemma fire_timeout_ok i l l' t n : node_ok n → responsive n → nd_loops n !! i = Some l →
  fire_timeout t (nd_now n) l = Some l' → ok (nd_now n) l'.
Proof.
  intros Hn Hresp El. pose proof (node_ok_lookup n i l Hn El) as Hok. pose proof Hok as [Hl Ho].
  unfold fire_timeout. intros (inner & Ef & E)%bind_Some.
  apply bind_Some in E as ([dl msg] & Eh & E). case_match eqn:Hdl; [|done]. injection E as <-.
  apply Z.leb_le in Hdl. pose proof (find_timeout_key _ _ _ Ef) as Hk.
  pose proof (find_timeout_elem _ _ _ Ef) as Hin.
  assert (carries t msg) as Hc by by eapply (proj2 (proj1 (proj2 (proj2 Hl)) t inner Hin)).
  split; [|intros t' Ht'; apply Ho; rewrite <- (update_timeout_keys t TokioTimeout_cancel l);
             exact Ht'].
  pose proof (cancel_mid (nd_now n) t l Hl) as Hcan.
  destruct (is_timeout_dec msg) as [Hm|Hm]; [|by apply send_mid; [| apply Hc |]].
  pose proof (carries_timeout _ _ Hc Hm) as Em.
  assert (timeout_handle t) as Hth by (unfold timeout_handle; by rewrite <- Em).
  destruct Hcan as (Hp & Hq & Hts & Hord & _ & _).
  split; [done|]. split; [|split; [done|split; [|split]]].
  - apply Forall_app. split; [done|]. repeat constructor; simpl; [apply Hc | lia].
  - apply in_order_snoc; [done|]. simpl. intros ->. apply Forall_forall. intros q Hq' Hqt.
    pose proof (proj1 (proj2 (proj2 (proj2 (proj2 Hl)))) q t inner dl Hq' Hqt Hin Eh).
    eapply Forall_lookup in Hresp; [|exact El]. rewrite Forall_forall in Hresp.
    specialize (Hresp q Hq'). lia.
  - intros q t' inner' dl' _ _ [[Hne H]|(-> & i0 & H & ->)]%update_timeout_elem E; [|done].
    destruct Hne. apply (owned_unique net port_ok inv (nd_now n) l); try done.
    + by apply list_elem_of_fmap; exists (t', inner').
    + destruct (proj2 (proj1 (proj2 (proj2 Hl)) t' inner' H) _ _ E) as [? Hor].
      unfold timeout_handle. rewrite <- (carries_timeout t' SM_AnnounceReceiptTimeout); [by left|done|by left].
  - intros Hmm. by destruct (owned_not_master net port_ok inv (nd_now n) l t).
Qed.

Ltac unfold_step :=
  cbn -[process_datagram run_until_start process_system stop_loop fire_timeout running core_step
        with_status with_system_rx in_loop with_now Z.leb].

(** Any event keeps the invariant and does not panic, as long as the node is responsive. *)
Lemma node_step_ok e n : node_ok n → NodeEvent_wf e → responsive n →
  match node_step (F := F) e n with
  | Some (Done n') => node_ok n'
  | Some Panic => False
  | None => True
  end.
Proof.
  intros Hn He Hresp. pose proof Hn as (Hls & Hc & HI). destruct e as [i|i d|i d|i|i|i|i t|ns];
    unfold_step.
  - destruct (nd_loops n !! i) as [l|] eqn:El; [|done]. unfold_step.
    destruct (tl_status l) eqn:Es; try done. unfold run_until_start.
    cbn [port_by_domain SingleDomainPortMap_PortMap]. unfold SingleDomainPortMap_port_by_domain. case_bool_decide; [|by apply stop_loop_ok].
    destruct (prepared_step_ok i (with_status (Running (nd_now n))) l n (In_System SM_Initialized))
      as (n' & -> & Hn'); try done; [by intros k [? _] | by intros [|]].
  - destruct (running i n) as [[l start]|] eqn:Er; [|done]. unfold_step.
    apply running_lookup in Er. unfold process_datagram.
    cbn [tm_ingress_stamp ClockTimestamping]. unfold ClockRxTimestamping_ingress_stamp.
    destruct (sc_now_ok (nd_now n) (nd_clock n) Hc) as (ts & -> & Hts). rewrite outcome_bind_Done.
    destruct (plain_step_ok i l n (In_Event (take BUF_LEN d) ts)) as (n' & -> & Hn'); try done.
    split; [by apply Forall_take | done].
  - destruct (running i n) as [[l start]|] eqn:Er; [|done]. unfold_step.
    apply running_lookup in Er. unfold process_datagram.
    match goal with |- context [In_General ?b ?t] =>
      destruct (plain_step_ok i l n (In_General b t)) as (n' & -> & Hn'); try done end.
    by apply Forall_take.
  - by destruct (running i n).
  - destruct (running i n) as [[l start]|] eqn:Er; [|done]. unfold_step.
    apply running_lookup in Er. destruct (tl_system_rx l) as [|q rx] eqn:Eq; [done|].
    by destruct (process_system_ok i l q rx n Hn Er Eq) as (n' & -> & Hn').
  - destruct (running i n) as [[l start]|]; [|done]. by apply stop_loop_ok.
  - destruct (nd_loops n !! i) as [l|] eqn:El; [|done]. simpl.
    destruct (fire_timeout t (nd_now n) l) as [l'|] eqn:Ef; [|done]. simpl.
    split; [|done]. simpl. apply Forall_alter; [done|]. intros l0 _ _.
    by eapply fire_timeout_ok.
  - destruct (0 <=? ns) eqn:E; [|done]. apply Z.leb_le in E. split; [|done]. simpl.
    eapply Forall_impl; [exact Hls|]. intros l [(? & Hq & ?) ?]. split; [|done].
    split; [done|]. split; [|done]. eapply Forall_impl; [exact Hq|]. intros q [? ?].
    split; [done|]. lia.
Qed.

(** Some prefix of the events reaches a node in which a message has waited for the interval. *)
Definition stalls (es : list NodeEvent) (n : Node S R C) : Prop :=
  ∃ pre post n', es = pre ++ post ∧ node_run (F := F) pre n = Some (Done n') ∧ ¬ responsive n'.

Lemma node_run_ok es : ∀ n, node_ok n → Forall NodeEvent_wf es →
  match node_run (F := F) es n with
  | Some (Done n') => node_ok n' ∨ stalls es n
  | Some Panic => stalls es n
  | None => True
  end.
Proof.
  induction es as [|e es IH]; intros n Hn Hes; simpl; [by left|].
  apply Forall_cons in Hes as [He Hes].
  destruct (decide (responsive n)) as [Hr|Hr].
  - pose proof (node_step_ok e n Hn He Hr) as Hstep.
    destruct (node_step e n) as [[n1|]|] eqn:E; [|done|done].
    specialize (IH n1 Hstep Hes).
    assert (stalls es n1 → stalls (e :: es) n) as Hst.
    { intros (pre & post & n' & -> & Hrun & Hnr). exists (e :: pre), post, n'.
      split; [done|]. split; [|done]. simpl. by rewrite E. }
    destruct (node_run es n1) as [[n'|]|]; [|by apply Hst|done].
    destruct IH; [by left | right; by apply Hst].
  - assert (stalls (e :: es) n) as Hst by by exists [], (e :: es), n.
    repeat case_match; auto.
Qed.

(** ** Assembly *)

Lemma new_loop_mid now dn p : state_ok net port_ok inv p →
  mid now (mkTokioPortsLoop (SingleDomainPortMap_new dn p) [] [] Starting).
Proof.
  intros Hp. split; [by exists p|]. split; [constructor|].
  split; [by intros t inner ?%not_elem_of_nil|]. split; [by intros [] ? ?|].
  split; [by intros q t inner dl ?%not_elem_of_nil | by intros _ q ?%not_elem_of_nil].
Qed.

Lemma add_loop_ok dn (new_port : M S (option (PortState R))) n p w es :
  node_ok n → new_port (nd_world n) = Done (Some p, w) → w_trace w = w_trace (nd_world n) ++ es →
  Forall (effect_ok (F := F) net) es → state_ok net port_ok inv p → I (w_shared w) →
  ∃ n', add_loop dn new_port n = Done (Some n') ∧ node_ok n' ∧ nd_world n' = w.
Proof.
  intros Hn E Et Hes Hp HI. unfold add_loop. rewrite E, Et, drop_app_length.
  set (i := length (nd_loops n)).
  set (n1 := with_world w (with_loops _ n)).
  assert (node_mid n1) as Hn1.
  { split; [|apply Hn]. simpl. apply Forall_app. split; [by apply node_ok_mid|].
    apply Forall_singleton. by apply new_loop_mid. }
  destruct (apply_effects_ok net cinv mid mid_stable i es n1 Hn1 Hes) as (n2 & -> & Hn2 & Ew & Enow & Hev).
  rewrite outcome_bind_Done. eexists. split; [done|]. split; [|by simpl; rewrite Ew].
  split; [|split; [apply Hn2 | simpl; by rewrite Ew]].
  apply (settle i n2); [done| |by apply Hhandles]. intros j l' Hj E'.
  destruct (Hev j l' E') as (l1 & E1 & Ep & Es & Ek). simpl in E1.
  apply lookup_app_Some in E1 as [E1|[Hle E1]].
  - pose proof (node_ok_lookup n j l1 Hn E1) as [_ Ho]. intros t Ht Htt.
    rewrite (Ek Hj) in Ht. specialize (Ho t Ht Htt). unfold loop_handles in *. by rewrite Ep, Es.
  - apply list_lookup_singleton_Some in E1 as [Hz _]. unfold i in Hj. lia.
Qed.

Lemma empty_node_ok w c now : cinv c → I (w_shared w) → node_ok (mkNode [] w c now).
Proof. intros Hc HI. by split; [constructor|]. Qed.
End node_safety.

(** ** The daemon's clocks *)

Section assembled.
  Context {F : Type} `{HF : !MessageFlagsOps F} `{HE : !Env} {C : Type} `{HC : !SystemClock C}.
  Context (cinv : C → Prop).
  #[local] Abbreviation OrdinaryNode := (Node OrdinaryClock ForeignClockRecordsVec C).
  #[local] Abbreviation BoundaryNode :=
    (Node (BoundaryClock MultiPortForeignCandidates MultiPortNotification)
       ForeignClockRecordsVec C).

Definition ordinary_node_ok (ds : ClockDS) (dn : DomainNumber) (profile : PortProfile)
    (n : OrdinaryNode) : Prop :=
  node_ok ordinary_ok (clock_contract ds dn profile) (λ p, p = PortNumber_new 1) Vec_inv cinv n.

Lemma ordinary_handles s : ordinary_ok s → decision_handles (clock_handles s).
Proof. by intros (_ & _ & H). Qed.

Lemma boundary_handles (s : BoundaryClock MultiPortForeignCandidates MultiPortNotification) :
  boundary_ok MultiPort_ok mn_timeouts s → decision_handles (clock_handles s).
Proof. by intros (_ & _ & H). Qed.

Lemma empty_store_ok : store_ok Vec_inv ForeignClockRecordsVec_new.
Proof. split; constructor. Qed.

Lemma ordinary_node_new clock ds dn profile now :
  cinv clock → SystemClockLaws C cinv (pc_steered (clock_contract ds dn profile)) →
  ClockDS_wf ds → profile_wf profile →
  ∃ n, ordinary_node clock ds dn profile now = Done (Some n) ∧ ordinary_node_ok ds dn profile n.
Proof.
  intros Hc HL Hd Hpf. set (net := clock_contract ds dn profile).
  set (w0 := mkWorld [] (mkOrdinaryClock ds dn (mkPortEnumeration 1 1) Empty
                           SinglePortNotification_new profile)).
  assert (ordinary_ok (w_shared w0)) as HI by (split; [done | split; [done | constructor]]).
  destruct (add_loop_ok (F := F) ordinary_ok net (λ p, p = PortNumber_new 1) ordinary_handles
    Vec_inv cinv dn (OrdinaryClock_port ForeignClockRecordsVec_new) (mkNode [] w0 clock now)
    (initial_port ds dn profile 1 ForeignClockRecordsVec_new) _
    [E_NewTimeout (mkTimeout 0 (SM_StateDecisionEvent (mkStateDecisionSnapshot ds Empty)));
     E_Log (mkPortIdentity (cds_identity ds) (mkPortNumber 1)) (PE_Static "Become InitializingPort")]
    (empty_node_ok _ _ _ _ _ w0 clock now Hc HI)
    (OrdinaryClock_port_eq ds dn profile ForeignClockRecordsVec_new []) eq_refl)
    as (n & E & Hn & _).
  - constructor; [by split | by constructor].
  - by apply initial_port_ok; [..|apply empty_store_ok|].
  - split_and!; [done..|]. by apply Forall_singleton; eexists.
  - by exists n.
Qed.

Definition boundary_node_ok (ds : ClockDS) (dn : DomainNumber) (n : BoundaryNode) : Prop :=
  node_ok (boundary_ok MultiPort_ok mn_timeouts) (clock_contract ds dn default_profile) (λ _, True)
    Vec_inv cinv n.

Lemma add_boundary_loops_ok ds dn total count : SystemClockLaws C cinv false → ClockDS_wf ds →
  ∀ (n : BoundaryNode) k fc ts,
  boundary_node_ok ds dn n → 1 <= k → k + Z.of_nat count <= total + 1 → total < 2 ^ 16 - 1 →
  w_shared (nd_world n) = mkBoundaryClock ds dn (mkPortEnumeration total k) fc
                            (mkMultiPortNotification ts) →
  ∃ n', add_boundary_loops count dn n = Done (Some n') ∧ boundary_node_ok ds dn n'.
Proof.
  intros HL Hd. induction count as [|count IH]; intros n k fc ts Hn Hk Hl Ht Ew;
    cbn [add_boundary_loops]; [by exists n|].
  destruct (nd_world n) as [tr s] eqn:Ewn. simpl in Ew. subst s.
  pose proof (BoundaryClock_port_eq ds dn total k fc ts tr ForeignClockRecordsVec_new
    ltac:(lia) Ht) as E. cbv zeta in E. rewrite <- Ewn in E.
  pose proof (proj2 (proj2 Hn)) as HI. rewrite Ewn in HI.
  destruct (add_loop_ok (F := F) (boundary_ok MultiPort_ok mn_timeouts)
    (clock_contract ds dn default_profile) (λ _, True) boundary_handles Vec_inv cinv dn
    (BoundaryClock_port ForeignClockRecordsVec_new) n _ _
    [E_NewTimeout (mkTimeout (length tr) (SM_StateDecisionEvent (mkStateDecisionSnapshot ds Empty)));
     E_Log (mkPortIdentity (cds_identity ds) (mkPortNumber k)) (PE_Static "Become InitializingPort")]
    Hn E ltac:(rewrite Ewn; simpl; by rewrite <- app_assoc)) as (n1 & -> & Hn1 & Ew1).
  - constructor; [by split | by constructor].
  - apply initial_port_ok; [done | done | exact default_profile_wf | exact empty_store_ok | lia].
  - destruct HI as (? & ? & Hts). split_and!; [done..|]. apply Forall_app. split; [done|].
    by apply Forall_singleton; eexists.
  - rewrite outcome_bind_Done. eapply (IH n1 (k + 1) fc); [done | lia | lia | lia |].
    by rewrite Ew1.
Qed.

Lemma boundary_node_new clock ds dn num now :
  cinv clock → SystemClockLaws C cinv false → ClockDS_wf ds →
  1 <= Z.of_nat num < 2 ^ 16 - 1 →
  ∃ n, boundary_node clock ds dn num now = Done (Some n) ∧ boundary_node_ok ds dn n.
Proof.
  intros Hc HL Hd Hnum. unfold boundary_node, BoundaryClock_new, PortEnumeration_sequential.
  rewrite rassert_true by (apply Z.leb_le; lia). rewrite !outcome_bind_Done.
  eapply (add_boundary_loops_ok ds dn (Z.of_nat num)); try done; try lia.
  apply empty_node_ok; [done|]. split; [done|]. split; [exact MultiPort_new_ok | constructor].
Qed.

(** ** Properties *)

(** C3: The daemon around an ordinary clock assembles, and no sequence of events makes it panic:
    datagrams of any bytes and length on either socket, receive errors, failing sends, timeouts
    and queued messages in any order, time passing in any steps, as long as no system message
    waits in the channel for a whole announce receipt interval. The invariant of the loop, its
    port and its clock holds throughout. The clock is any that keeps the laws of [SystemClock]: it
    can be read and stepped within an invariant, and, where the profile has the PI servo, every
    adjustment it is asked for succeeds. *)
Theorem ordinary_daemon_never_panics clock ds dn profile now es :
  cinv clock → SystemClockLaws C cinv (pc_steered (clock_contract ds dn profile)) →
  ClockDS_wf ds → profile_wf profile → Forall NodeEvent_wf es →
  ∃ n, ordinary_node clock ds dn profile now = Done (Some n) ∧
    ((∀ pre post n', es = pre ++ post → node_run (F := F) pre n = Some (Done n') →
        responsive (clock_contract ds dn profile) n') →
     node_run (F := F) es n ≠ Some Panic ∧
     ∀ n', node_run (F := F) es n = Some (Done n') → ordinary_node_ok ds dn profile n').
Proof.
  intros Hc HL Hd Hpf Hes. destruct (ordinary_node_new clock ds dn profile now) as (n & E & Hn);
    [done..|].
  exists n. split; [done|]. intros Hr.
  pose proof (node_run_ok (F := F) ordinary_ok _ _ ordinary_handles Vec_inv cinv es n Hn Hes)
    as Hrun.
  assert (¬ stalls (F := F) (clock_contract ds dn profile) es n) as Hst
    by (intros (pre & post & n' & ? & ? & ?); by eapply Hr in H0).
  split; [by intros E'; rewrite E' in Hrun|]. intros n' E'. rewrite E' in Hrun. by destruct Hrun.
Qed.

(** C4: The daemon's loops around a boundary clock of any number of ports (1 to 65534) assemble,
    and no interleaving of their events makes any of them panic: datagrams of any bytes, receive
    errors, failing sends, fired timeouts, the state decision events the ports send each other,
    shutdown of some loops, time passing, as long as no system message waits in a channel for a
    whole announce receipt interval. The clock is any that can be read and stepped within an
    invariant. *)
Theorem boundary_daemon_never_panics clock ds dn num now es :
  cinv clock → SystemClockLaws C cinv false → ClockDS_wf ds →
  1 <= Z.of_nat num < 2 ^ 16 - 1 → Forall NodeEvent_wf es →
  ∃ n, boundary_node clock ds dn num now = Done (Some n) ∧
    ((∀ pre post n', es = pre ++ post → node_run (F := F) pre n = Some (Done n') →
        responsive (clock_contract ds dn default_profile) n') →
     node_run (F := F) es n ≠ Some Panic ∧
     ∀ n', node_run (F := F) es n = Some (Done n') → boundary_node_ok ds dn n').
Proof.
  intros Hc HL Hd Hnum Hes. destruct (boundary_node_new clock ds dn num now) as (n & E & Hn);
    [done..|].
  exists n. split; [done|]. intros Hr.
  pose proof (node_run_ok (F := F) (boundary_ok MultiPort_ok mn_timeouts)
    (clock_contract ds dn default_profile) (λ _, True) boundary_handles Vec_inv cinv es n
    Hn Hes) as Hrun.
  assert (¬ stalls (F := F) (clock_contract ds dn default_profile) es n) as Hst
    by (intros (pre & post & n' & ? & ? & ?); by eapply Hr in H0).
  split; [by intros E'; rewrite E' in Hrun|]. intros n' E'. rewrite E' in Hrun. by destruct Hrun.
Qed.
End assembled.

(** The announce receipt timeout of the daemon's port once it listens. *)
Definition main_receipt : Timeout := mkTimeout 3 SM_AnnounceReceiptTimeout.

(** An Announce as another clock would send it in domain 0. *)
Definition other_announce : list Z :=
  general_image (F := FlagBits) (mkDomainNumber 0) (sample_port 4 1)
    (Announce (mkAnnounceMessage (mkSequenceId 0) (mkLogMessageInterval 0) (sample_ds 4 200 0) Ptp)).

(** The loop leaves its queue alone for two intervals while timers fire and datagrams arrive. *)
Definition starvation : list NodeEvent :=
  [Ev_Start 0; Ev_Elapse 5000000000; Ev_Fire 0 main_receipt; Ev_RecvGeneral 0 other_announce;
   Ev_Elapse 5000000000; Ev_Fire 0 main_receipt; Ev_System 0; Ev_System 0].

(** Left alone, the daemon serves time: started and hearing nothing for the announce receipt
    interval of five seconds, its port is master with its own dataset as grandmaster, and its
    announce and sync timers are due at once. *)
Theorem silent_daemon_becomes_master `{MessageFlagsOps F} `{Env} :
  ∃ n n' l q, main_node 0 = Done (Some n) ∧
    node_run (F := F) [Ev_Start 0; Ev_Elapse 5000000000; Ev_Fire 0 main_receipt; Ev_System 0] n
      = Some (Done n') ∧
    nd_loops n' = [l] ∧
    tl_portmap l = mkSingleDomainPortMap (mkDomainNumber 0) (PortFsm_new (Master q)) ∧
    gb_grandmaster_ds (mp_bmca q) = main_default_ds ∧
    tt_handle <$> find_timeout (ac_timeout (mp_announce_cycle q)) l
      = Some (Some (5000000000, SM_AnnounceSendTimeout)) ∧
    tt_handle <$> find_timeout (sc_timeout (mp_sync_cycle q)) l
      = Some (Some (5000000000, SM_SyncTimeout)).
Proof.
  do 4 eexists. split; [vm_compute; reflexivity|]. split; [vm_compute; reflexivity|].
  split; [reflexivity|]. split; [reflexivity|]. split; [reflexivity|].
  split; vm_compute; reflexivity.
Qed.

(** Responsiveness is needed: in this run the loop handles an Announce and lets its queue wait over
    two expiries of the announce receipt timeout, the second queued expiry reaches the master the
    first one made, and the daemon panics. *)
Theorem starved_daemon_panics `{Env} :
  ∃ n, main_node 0 = Done (Some n) ∧ Forall NodeEvent_wf starvation ∧
    node_run (F := FlagBits) starvation n = Some Panic.
Proof.
  eexists. split; [vm_compute; reflexivity|]. split; [|vm_compute; reflexivity].
  wf_concrete.
Qed.

(** ** Instances *)

Section witnesses.
  #[local] Existing Instance always_sends.

Definition w_clock : VirtualClock := mkVirtualClock 0 (mkTimeStamp 0 0) f64_one Ptp.
Definition w_events : list NodeEvent :=
  [Ev_Start 0; Ev_RecvEvent 0 [1; 2; 3]; Ev_Elapse 4000000000; Ev_RecvGeneral 0 other_announce;
   Ev_RecvError 0; Ev_Elapse 5000000000; Ev_Fire 0 main_receipt; Ev_System 0].

Lemma w_clock_ok : VirtualClock_wf w_clock.
Proof. split; [unfold TimeStamp_wf, NANOS_PER_SECOND; simpl; lia | reflexivity]. Qed.

Lemma main_ds_wf : ClockDS_wf main_default_ds.
Proof. wf_concrete. Qed.

Lemma w_events_wf : Forall NodeEvent_wf w_events.
Proof. wf_concrete. Qed.

Lemma prefixes_responsive {S R C} `{StateDecisionEvent S} `{!ClockHandles S}
    `{ForeignClockRecords R} `{SystemClock C} net es (n : Node S R C) :
  forallb (λ k, match node_run (F := FlagBits) (take k es) n with
                | Some (Done n') => bool_decide (responsive net n') | _ => true end)
    (seq 0 (Datatypes.S (length es))) = true →
  ∀ pre post n', es = pre ++ post → node_run (F := FlagBits) pre n = Some (Done n') →
    responsive net n'.
Proof.
  intros Hall pre post n' -> E. rewrite forallb_forall in Hall.
  specialize (Hall (length pre)). rewrite take_app_length, E in Hall.
  apply (bool_decide_eq_true_1 _), Hall, in_seq. rewrite length_app. lia.
Qed.

Lemma ordinary_daemon_never_panics_witness :
  ∃ n, ordinary_node w_clock main_default_ds (mkDomainNumber 0) default_profile 0 = Done (Some n) ∧
    node_run (F := FlagBits) w_events n ≠ Some Panic.
Proof.
  destruct (ordinary_daemon_never_panics (F := FlagBits) VirtualClock_wf w_clock main_default_ds
    (mkDomainNumber 0) default_profile 0 w_events w_clock_ok VirtualClock_laws main_ds_wf
    default_profile_wf w_events_wf) as (n & E & Hn).
  exists n. split; [exact E|]. refine (proj1 (Hn (prefixes_responsive _ _ _ _))).
  vm_compute in E. injection E as <-. vm_compute. reflexivity.
Defined.

Lemma boundary_daemon_never_panics_witness :
  ∃ n, boundary_node w_clock main_default_ds (mkDomainNumber 0) 2 0 = Done (Some n) ∧
    node_run (F := FlagBits) [Ev_Start 0; Ev_Start 1; Ev_RecvGeneral 1 other_announce] n
      ≠ Some Panic.
Proof.
  destruct (boundary_daemon_never_panics (F := FlagBits) VirtualClock_wf w_clock main_default_ds
    (mkDomainNumber 0) 2 0 [Ev_Start 0; Ev_Start 1; Ev_RecvGeneral 1 other_announce] w_clock_ok
    VirtualClock_laws main_ds_wf) as (n & E & Hn).
  - lia.
  - wf_concrete.
  - exists n. split; [exact E|]. refine (proj1 (Hn (prefixes_responsive _ _ _ _))).
    vm_compute in E. injection E as <-. vm_compute. reflexivity.
Defined.
End witnesses.
