(* ===== verification/DaemonPanics.v ===== *)
(** * What makes the daemon panic (crates/rptp-daemon/src/node.rs)

    Without any assumption on how long messages wait: the part of a node's invariant that no delay
    can break, and the one event that makes a node panic, an announce receipt timeout that its loop
    takes out of the channel after its port has become master. *)

From S2P Require Import Prelude Errors Time Clock PortId DataSet Foreign Stores Wire Message.
From S2P Require Import Effects Servo E2e Bmca Profile Handlers PortState PortSafety Clocks System.
From S2P Require Import VirtualClock Daemon DaemonSafety.

Open Scope Z_scope.

(** ** What no delay can break *)

Section node.
  Context {F : Type} `{HF : !MessageFlagsOps F} `{HE : !Env}.
  Context {S : Type} `{HS : !StateDecisionEvent S} `{HH : !ClockHandles S}.
  Context {R : Type} `{HR : !ForeignClockRecords R} {C : Type} `{HC : !SystemClock C}.
  Context (I : S → Prop) (net : PortContract) (port_ok : PortNumber → Prop).
  Context `{!StateDecisionEventLaws S I (effect_ok (F := F) net) port_ok}.
  Context (inv : R → Prop) `{!ForeignClockRecordsLaws R inv}.
  Context (cinv : C → Prop) `{!SystemClockLaws C cinv (pc_steered net)}.

(** The port is in a state of its invariant, and what is queued and scheduled are messages. *)
Definition loop_sound (now : Z) (l : TokioPortsLoop R) : Prop :=
  map_ok net port_ok inv (tl_portmap l) ∧
  Forall (λ q, SystemMessage_wf (q_msg q)) (tl_system_rx l) ∧ timeouts_ok (tl_timeouts l).

Lemma update_sound now t f l : loop_sound now l → (∀ inner, inner_ok t inner → inner_ok t (f inner)) →
  loop_sound now (update_timeout t f l).
Proof.
  intros (Hp & Hq & Ht) Hf. split; [done|]. split; [done|].
  intros t' inner [[_ H]|(-> & i0 & H & ->)]%update_timeout_elem; [by apply Ht | by apply Hf, Ht].
Qed.

Lemma send_sound now d m l : loop_sound now l → SystemMessage_wf m →
  loop_sound now (system_tx_send now (d, m) l).
Proof.
  intros (Hp & Hq & Ht) Hm. split; [done|]. split; [|done].
  apply Forall_app. split; [done|]. by apply Forall_singleton.
Qed.

Lemma sound_stable : loop_stable (F := F) net loop_sound.
Proof.
  split.
  - intros now d m l Hl Hm _. by apply send_sound.
  - intros now t l (Hp & Hq & Ht) Hm. split; [done|]. split; [done|].
    intros t' inner [H|[= -> ->]%list_elem_of_singleton]%elem_of_app; [by apply Ht|].
    split; [|done]. by split; [|left].
  - intros now t d l Hl _. apply update_sound; [done|]. intros inner [Hm _]. split; [done|].
    by intros dl m [= _ <-].
  - intros now t m d l Hl (-> & Ht & Hm & Hwf). unfold loop_restart_with_message.
    destruct (find_timeout t l) as [inner|] eqn:E; [|done]. simpl. apply send_sound; [|done].
    apply update_sound; [done|]. intros _ _. apply find_timeout_elem in E.
    destruct Hl as (_ & _ & Hts). destruct (Hts _ _ E) as [_ Hh].
    split; [by split; [|right] | exact Hh].
Qed.

Lemma drop_sound now hs l : loop_sound now l → loop_sound now (drop_timeouts hs l).
Proof.
  intros (Hp & Hq & Ht). split; [done|]. split; [done|].
  intros t inner [_ H]%list_elem_of_filter. by apply Ht.
Qed.

Definition node_sound (n : Node S R C) : Prop :=
  node_with cinv loop_sound n ∧ I (w_shared (nd_world n)).

(** A node after a step: its ports did what ports may do. *)
Definition continues (n n' : Node S R C) : Prop :=
  node_sound n' ∧
  ∃ es, w_trace (nd_world n') = w_trace (nd_world n) ++ es ∧ Forall (effect_ok (F := F) net) es.

Lemma continues_same n n' : node_sound n' → w_trace (nd_world n') = w_trace (nd_world n) →
  continues n n'.
Proof. intros Hn E. split; [done|]. exists []. by rewrite app_nil_r. Qed.

Lemma in_loop_sound i f n : node_sound n → (∀ l, loop_sound (nd_now n) l → loop_sound (nd_now n) (f l)) →
  node_sound (in_loop i f n).
Proof. intros [Hn HI] Hf. split; [|done]. by apply (in_loop_with cinv loop_sound). Qed.

Lemma sound_lookup n i l : node_sound n → nd_loops n !! i = Some l → loop_sound (nd_now n) l.
Proof. intros [[Hl _] _] E. by eapply Forall_lookup in Hl. Qed.

(** Core code on loop [i]'s port, of a node that [f] prepared. *)
Lemma core_step_sound i f l n inp : node_sound n → nd_loops n !! i = Some l →
  (∀ l, loop_sound (nd_now n) l → loop_sound (nd_now n) (f l)) →
  PortInput_wf inp → (∀ k, ¬ hits_master k inp [tl_portmap l]) →
  ∃ n', core_step i (deliver (F := F) inp (tl_portmap l)) (in_loop i f n) = Done n' ∧ continues n n'.
Proof.
  intros Hn El Hf Hi Hh. pose proof (sound_lookup n i l Hn El) as (Hp & _).
  pose proof (in_loop_sound i f n Hn Hf) as [Hn0 HI]. set (n0 := in_loop i f n) in *.
  pose proof (deliver_safe I net port_ok inv inp _ Hp Hi Hh (nd_world n) HI) as Hd.
  apply wp_Done in Hd as (p & w & E & HI' & (Hp' & _) & es & Et & Hes).
  unfold core_step. change (nd_world n0) with (nd_world n). rewrite E, Et, drop_app_length.
  set (n1 := with_world w (in_loop i (with_portmap p) n0)).
  assert (node_with cinv loop_sound n1) as Hn1.
  { apply (in_loop_with cinv loop_sound); [done|]. by intros l' (_ & ? & ?). }
  destruct (apply_effects_ok net cinv loop_sound sound_stable i es n1 Hn1 Hes)
    as (n2 & -> & Hn2 & Ew & Enow & _).
  rewrite outcome_bind_Done. eexists. split; [done|]. split.
  - apply in_loop_sound; [split; [done|]; by rewrite Ew|]. intros l'. apply drop_sound.
  - exists es. split; [|done]. simpl. by rewrite Ew.
Qed.

Lemma plain_step_sound i l n inp : node_sound n → nd_loops n !! i = Some l →
  PortInput_wf inp → (∀ msg, inp ≠ In_System msg) →
  ∃ n', core_step i (deliver (F := F) inp (tl_portmap l)) n = Done n' ∧ continues n n'.
Proof.
  intros Hn El Hi Hs. destruct (core_step_sound i id l n inp Hn El) as (n' & E & Hn'); [done | done | |].
  - intros k [-> _]. by eapply Hs.
  - rewrite in_loop_id in E. by exists n'.
Qed.

Lemma stop_loop_sound i n : node_sound n → node_sound (stop_loop i n).
Proof.
  intros Hn. apply in_loop_sound; [done|]. intros l Hl. apply drop_sound.
  by destruct Hl as (? & ? & ?).
Qed.

(** ** The event that makes a node panic *)

(** Loop [i] takes an announce receipt timeout of its domain out of its channel, and its port is
    master. *)
Definition stale_expiry (e : NodeEvent) (n : Node S R C) : Prop :=
  ∃ i l start q rx p, e = Ev_System i ∧ running i n = Some (l, start) ∧ tl_system_rx l = q :: rx ∧
    q_domain_number q = tl_domain_number l ∧ q_msg q = SM_AnnounceReceiptTimeout ∧
    sm_port_fsm (tl_portmap l) = PortFsm_new (Master p).

Lemma stale_expiry_panics e n : stale_expiry e n → node_step (F := F) e n = Some Panic.
Proof.
  intros (i & l & start & q & rx & p & -> & Er & Eq & Ed & Em & Ep).
  cbn -[process_system in_loop with_system_rx running]. rewrite Er. cbn -[process_system in_loop with_system_rx].
  rewrite Eq. unfold process_system. cbn [port_by_domain SingleDomainPortMap_PortMap].
  unfold SingleDomainPortMap_port_by_domain. change (sm_domain_number (tl_portmap l)) with (tl_domain_number l).
  rewrite bool_decide_eq_true_2 by done. rewrite Em. unfold core_step.
  destruct (tl_portmap l) as [d f]. simpl in Ep. subst f. reflexivity.
Qed.

Lemma stale_expiry_dec e n : stale_expiry e n ∨ ¬ stale_expiry e n.
Proof.
  destruct e as [| | | |i| | |]; try (right; by intros (? & ? & ? & ? & ? & ? & [=] & _)).
  destruct (running i n) as [[l start]|] eqn:Er;
    [|right; intros (? & ? & ? & ? & ? & ? & [= <-] & E & _); congruence].
  destruct (tl_system_rx l) as [|q rx] eqn:Eq;
    [right; intros (? & ? & ? & ? & ? & ? & [= <-] & E & Eq' & _); congruence|].
  destruct (decide (q_domain_number q = tl_domain_number l ∧ q_msg q = SM_AnnounceReceiptTimeout))
    as [[Hd Hm]|Hn];
    [|right; intros (? & ? & ? & ? & ? & ? & [= <-] & E & Eq' & ? & ? & _); apply Hn;
      rewrite Er in E; injection E as <- <-; rewrite Eq in Eq'; by injection Eq' as <- <-].
  destruct (sm_port_fsm (tl_portmap l)) as [[[]|]] eqn:Ep;
    try (right; intros (? & ? & ? & ? & ? & ? & [= <-] & E & _ & _ & _ & Ep'); 
         rewrite Er in E; injection E as <- <-; by rewrite Ep in Ep').
  left. by do 6 eexists.
Qed.

Lemma process_system_sound i l start q rx n : node_sound n → running i n = Some (l, start) →
  tl_system_rx l = q :: rx → ¬ stale_expiry (Ev_System i) n →
  ∃ n', process_system (F := F) i q l (in_loop i (with_system_rx rx) n) = Done n' ∧ continues n n'.
Proof.
  intros Hn Er Eq Hst. pose proof (running_lookup _ _ _ _ Er) as El.
  pose proof (sound_lookup n i l Hn El) as (Hp & Hq & Ht).
  rewrite Eq in Hq. apply Forall_cons in Hq as [Hm Hrx].
  assert (node_sound (in_loop i (with_system_rx rx) n)) as Hpop.
  { destruct Hn as [[Hl Hc] HI]. split; [split; [|done]|done]. simpl. apply Forall_alter; [done|].
    intros l' El' _. rewrite El in El'. injection El' as <-. by split_and!. }
  unfold process_system. cbn [port_by_domain SingleDomainPortMap_PortMap].
  unfold SingleDomainPortMap_port_by_domain. case_bool_decide as Hd.
  2: { eexists. split; [done|]. by apply continues_same. }
  set (n0 := in_loop i (with_system_rx rx) n) in *.
  assert (nd_loops n0 !! i = Some (with_system_rx rx l)) as El0
    by (simpl; by rewrite list_lookup_alter_eq, El).
  destruct (core_step_sound i id (with_system_rx rx l) n0 (In_System (q_msg q)) Hpop El0)
    as (n' & E & Hn'); [done | done | | rewrite in_loop_id in E; by exists n'].
  intros k ([= Em] & d & p & Ek). apply Hst. exists i, l, start, q, rx, p.
  destruct k as [|k]; [|by destruct k]. injection Ek as Ek. change (tl_portmap l = mkSingleDomainPortMap d (PortFsm_new (Master p))) in Ek.
  split_and!; try done. by rewrite Ek.
Qed.

Ltac unfold_step :=
  cbn -[process_datagram run_until_start process_system stop_loop fire_timeout running core_step
        with_status with_system_rx in_loop with_now Z.leb].

(** Any other event does not, however long its loop has left its channel alone. *)
Lemma node_step_sound e n : node_sound n → NodeEvent_wf e →
  match node_step (F := F) e n with
  | Some (Done n') => continues n n'
  | Some Panic => stale_expiry e n
  | None => True
  end.
Proof.
  intros Hn He. pose proof Hn as ((Hls & Hc) & HI). destruct e as [i|i d|i d|i|i|i|i t|ns];
    unfold_step.
  - destruct (nd_loops n !! i) as [l|] eqn:El; [|done]. unfold_step.
    destruct (tl_status l) eqn:Es; try done. unfold run_until_start.
    cbn [port_by_domain SingleDomainPortMap_PortMap]. unfold SingleDomainPortMap_port_by_domain.
    case_bool_decide; [|by apply continues_same; [apply stop_loop_sound|]].
    destruct (core_step_sound i (with_status (Running (nd_now n))) l n (In_System SM_Initialized))
      as (n' & -> & Hn'); try done. by intros k [? _].
  - destruct (running i n) as [[l start]|] eqn:Er; [|done]. unfold_step.
    apply running_lookup in Er. unfold process_datagram.
    cbn [tm_ingress_stamp ClockTimestamping]. unfold ClockRxTimestamping_ingress_stamp.
    destruct (sc_now_ok (nd_now n) (nd_clock n) Hc) as (ts & -> & Hts). rewrite outcome_bind_Done.
    destruct (plain_step_sound i l n (In_Event (take BUF_LEN d) ts)) as (n' & -> & Hn'); try done.
    split; [by apply Forall_take | done].
  - destruct (running i n) as [[l start]|] eqn:Er; [|done]. unfold_step.
    apply running_lookup in Er. unfold process_datagram.
    match goal with |- context [In_General ?b ?t] =>
      destruct (plain_step_sound i l n (In_General b t)) as (n' & -> & Hn'); try done end.
    by apply Forall_take.
  - destruct (running i n); [by apply continues_same | done].
  - destruct (running i n) as [[l start]|] eqn:Er; [|done]. unfold_step.
    destruct (tl_system_rx l) as [|q rx] eqn:Eq; [done|].
    destruct (stale_expiry_dec (Ev_System i) n) as [Hst|Hst].
    + pose proof (stale_expiry_panics _ _ Hst) as E. revert E. unfold_step. rewrite Er. unfold_step.
      rewrite Eq. by intros [= ->].
    + by destruct (process_system_sound i l start q rx n Hn Er Eq Hst) as (n' & -> & Hn').
  - destruct (running i n) as [[l start]|]; [|done]. apply continues_same; [by apply stop_loop_sound | done].
  - destruct (nd_loops n !! i) as [l|] eqn:El; [|done]. simpl.
    destruct (fire_timeout t (nd_now n) l) as [l'|] eqn:Ef; [|done]. simpl.
    apply continues_same; [|done]. split; [split; [|done]|done]. simpl. apply Forall_alter; [done|].
    intros l0 El0 Hl. rewrite El in El0. injection El0 as <-. unfold fire_timeout in Ef.
    apply bind_Some in Ef as (inner & Ef & E). apply bind_Some in E as ([dl msg] & Eh & E).
    case_match; [|done]. injection E as <-. apply find_timeout_elem in Ef.
    destruct Hl as (Hp & Hq & Ht). destruct (Ht _ _ Ef) as [_ Hmsg].
    apply send_sound; [|by apply (Hmsg _ _ Eh)]. apply update_sound; [done|]. by intros i0 [? _].
  - destruct (0 <=? ns); [|done]. by apply continues_same.
Qed.

(** A run and where it is stopped. *)
Lemma node_run_app pre es n n' : node_run (F := F) pre n = Some (Done n') →
  node_run (F := F) (pre ++ es) n = node_run (F := F) es n'.
Proof.
  revert n. induction pre as [|e pre IH]; intros n E; simpl in *; [by injection E as <-|].
  destruct (node_step e n) as [[n1|]|]; [by apply IH | done | done].
Qed.

Lemma node_run_panics es : ∀ n, node_sound n → Forall NodeEvent_wf es →
  node_run (F := F) es n = Some Panic ↔
  ∃ pre e post n', es = pre ++ e :: post ∧ node_run (F := F) pre n = Some (Done n') ∧ stale_expiry e n'.
Proof.
  intros n Hn Hes. split.
  - revert n Hn Hes. induction es as [|e es IH]; intros n Hn Hes E; [done|].
    apply Forall_cons in Hes as [He Hes]. simpl in E. pose proof (node_step_sound e n Hn He) as Hs.
    destruct (node_step e n) as [[n1|]|] eqn:E1; [| |done].
    + destruct (IH n1 (proj1 Hs) Hes E) as (pre & e' & post & n' & -> & Er & Hst).
      exists (e :: pre), e', post, n'. split; [done|]. split; [|done]. simpl. by rewrite E1.
    + by exists [], e, es, n.
  - intros (pre & e & post & n' & -> & Er & Hst). rewrite (node_run_app _ _ _ _ Er). simpl.
    by rewrite (stale_expiry_panics _ _ Hst).
Qed.
End node.

(** What was proved of a node in time holds of it at any time. *)
Lemma node_ok_sound {F} `{HF : !MessageFlagsOps F} {S} `{!ClockHandles S} `{HR : ForeignClockRecords R}
    `{HC : SystemClock C} I net port_ok inv cinv (n : Node S R C) :
  node_ok I net port_ok inv cinv n → node_sound I net port_ok inv cinv n.
Proof.
  intros (Hl & Hc & HI). split; [split; [|done]|done]. eapply Forall_impl; [exact Hl|].
  intros l ((Hp & Hq & Ht & _) & _). split; [done|]. split; [|done].
  eapply Forall_impl; [exact Hq|]. by intros q [? _].
Qed.

(** ** Properties *)


