(* ===== verification/GrafanaDemo.v ===== *)
(** * Two daemons on a loopback network (crates/rptp-daemon/src/net.rs, crates/grafana-prometheus-demo)

    The in-memory [LoopbackSocket] pair and the demo that connects two ordinary clocks with PI
    servos through two such pairs, one for event and one for general messages. Each side is a
    [Node] of Daemon.v; what its port sends is queued for the other side. What the sockets deliver in
    any run, and one run of the demo. The metrics exporter and its HTTP server are outside the
    model. *)

From S2P Require Import Prelude Errors Time Clock PortId DataSet Foreign Stores Wire Message.
From S2P Require Import Effects Servo E2e Bmca Profile Handlers PortState PortSafety Clocks System.
From S2P Require Import VirtualClock Daemon.

Open Scope Z_scope.

(** ** Loopback sockets *)

(** The two ends of a pair. *)
Inductive Side := NearSide | FarSide.

#[export] Instance Side_eq_dec : EqDecision Side.
Proof. solve_decision. Defined.

Definition other_side (s : Side) : Side :=
  match s with NearSide => FarSide | FarSide => NearSide end.

(** The receive channel of each end. *)
Record LoopbackSocket := mkLoopbackSocket { lb_near_rx : list (list Z); lb_far_rx : list (list Z) }.

Definition LoopbackSocket_pair : LoopbackSocket := mkLoopbackSocket [] [].

Definition lb_rx (s : Side) (self : LoopbackSocket) : list (list Z) :=
  match s with NearSide => lb_near_rx self | FarSide => lb_far_rx self end.

Definition lb_with_rx (s : Side) (rx : list (list Z)) (self : LoopbackSocket) : LoopbackSocket :=
  match s with
  | NearSide => mkLoopbackSocket rx (lb_far_rx self)
  | FarSide => mkLoopbackSocket (lb_near_rx self) rx
  end.

(** [try_send] of end [s], and the number of bytes it reports. *)
Definition LoopbackSocket_try_send (s : Side) (bytes : list Z) (self : LoopbackSocket)
    : nat * LoopbackSocket :=
  let s' := other_side s in
  (length bytes, lb_with_rx s' (lb_rx s' self ++ [bytes]) self).

(** [recv] of end [s] into a buffer of [buf_len] bytes, [None] while it waits. *)
Definition LoopbackSocket_recv (s : Side) (buf_len : nat) (self : LoopbackSocket)
    : option (list Z * LoopbackSocket) :=
  match lb_rx s self with
  | [] => None
  | msg :: rx => Some (take (Nat.min (length msg) buf_len) msg, lb_with_rx s rx self)
  end.

(** ** A node of the demo *)

(** Sequential steps of the node's clock: sleep, then step by an interval. *)
Record PrometheusNodeConfig := mkPrometheusNodeConfig {
  pg_clock_start : TimeStamp;
  pg_clock_rate : f64;
  pg_default_ds : ClockDS;
  pg_profile : PortProfile;
  pg_servo : PiServoConfig;
  pg_clock_steps : list (Z * TimeInterval);
}.

Abbreviation DaemonNode := (Node OrdinaryClock ForeignClockRecordsVec VirtualClock).

(** A node and its stepping task, if any: when it wakes up, the step it does then, and the rest. *)
Record PrometheusNode := mkPrometheusNode {
  pn_node : DaemonNode;
  pn_stepper : option (Z * TimeInterval * list (Z * TimeInterval));
}.

(** The task at [now], before its next sleep. *)
Definition next_step (now : Z) (steps : list (Z * TimeInterval))
    : option (Z * TimeInterval * list (Z * TimeInterval)) :=
  match steps with
  | [] => None
  | (delay, step_by) :: steps => Some (now + delay, step_by, steps)
  end.

(** [run] up to the ports loop; [None] where the clock has no port to give. *)
Definition PrometheusNode_run (domain : DomainNumber) (config : PrometheusNodeConfig) (now : Z)
    : outcome (option PrometheusNode) :=
  let virtual_clock := VirtualClock_new now (pg_clock_start config) (pg_clock_rate config) Ptp in
  let profile := PortProfile_with_servo_config (SC_Pi (pg_servo config)) (pg_profile config) in
  n ← ordinary_node virtual_clock (pg_default_ds config) domain profile now;
  Done (match n with
        | Some n => Some (mkPrometheusNode n (next_step now (pg_clock_steps config)))
        | None => None
        end).

(** The stepping task wakes up: [None] before its time. *)
Definition PrometheusNode_step_clock (self : PrometheusNode) : option (outcome PrometheusNode) :=
  let n := pn_node self in
  '(wake, step_by, steps) ← pn_stepper self;
  if wake <=? nd_now n then
    Some (now ← VirtualClock_now (nd_now n) (nd_clock n);
          step_to ← TimeStamp_checked_add now step_by;
          let clock := match step_to with
                       | Some step_to => VirtualClock_step (nd_now n) step_to (nd_clock n)
                       | None => nd_clock n
                       end in
          Done (mkPrometheusNode (with_clock clock n) (next_step (nd_now n) steps)))
  else None.

(** ** The demo *)

(** [TimeInterval::new(1, 0)] and the like, the rest of the constants as they stand. *)
Definition demo_profile : PortProfile :=
  mkPortProfile (mkDuration 5000000000) (mkLogInterval 0) (mkLogInterval 0) (mkLogInterval 0)
    SC_Stepping.

Definition master_config : PrometheusNodeConfig :=
  mkPrometheusNodeConfig (mkTimeStamp 2 0) f64_one
    (mkClockDS (mkClockIdentity [0; 27; 25; 255; 254; 0; 0; 66]) (mkPriority1 60) (mkPriority2 127)
       (mkClockQuality CC_Default CA_Unknown 65535) (mkStepsRemoved 0))
    demo_profile
    (mkPiServoConfig TH_Disabled TH_Disabled (Drift_from_ppb (-100000)) (Drift_from_ppb 100000)
       (mkTimeInterval 4 0) (f64_div f64_one (f64_of_Z 1000))
       (f64_div f64_one (f64_of_Z 1000000)))
    [(90000000000, mkTimeInterval 0 750000000); (10000000000, mkTimeInterval 0 250000000)].

Definition slave_config : PrometheusNodeConfig :=
  mkPrometheusNodeConfig (mkTimeStamp 0 0) f64_one
    (mkClockDS (mkClockIdentity [0; 27; 25; 255; 254; 0; 0; 2]) (mkPriority1 180) (mkPriority2 200)
       (mkClockQuality CC_Default CA_Unknown 65535) (mkStepsRemoved 0))
    demo_profile
    (mkPiServoConfig (TH_Enabled (mkTimeInterval 1 0)) (TH_Enabled (mkTimeInterval 0 500000000))
       (Drift_from_ppb (-100000)) (Drift_from_ppb 100000) (mkTimeInterval 4 0)
       (f64_div (f64_of_Z 5) (f64_of_Z 1000)) (f64_div (f64_of_Z 3) (f64_of_Z 1000000)))
    [].

(** The master is at the near ends, the slave at the far ends. *)
Record LoopbackNetwork := mkLoopbackNetwork {
  ln_master : PrometheusNode;
  ln_slave : PrometheusNode;
  ln_event : LoopbackSocket;
  ln_general : LoopbackSocket;
}.

Definition ln_node (s : Side) (n : LoopbackNetwork) : PrometheusNode :=
  match s with NearSide => ln_master n | FarSide => ln_slave n end.

Definition ln_with_node (s : Side) (p : PrometheusNode) (n : LoopbackNetwork) : LoopbackNetwork :=
  match s with
  | NearSide => mkLoopbackNetwork p (ln_slave n) (ln_event n) (ln_general n)
  | FarSide => mkLoopbackNetwork (ln_master n) p (ln_event n) (ln_general n)
  end.

(** [main] up to the two [run]s. *)
Definition demo_network (now : Z) : outcome (option LoopbackNetwork) :=
  master ← PrometheusNode_run (mkDomainNumber 0) master_config now;
  slave ← PrometheusNode_run (mkDomainNumber 0) slave_config now;
  Done (m ← master; s ← slave;
        Some (mkLoopbackNetwork m s LoopbackSocket_pair LoopbackSocket_pair)).

(** What the network carries out for an effect of side [s]'s port. *)
Definition transmit (s : Side) (n : LoopbackNetwork) (e : Effect) : LoopbackNetwork :=
  match e with
  | E_SendEvent _ bytes _ =>
      mkLoopbackNetwork (ln_master n) (ln_slave n)
        (snd (LoopbackSocket_try_send s bytes (ln_event n))) (ln_general n)
  | E_SendGeneral _ bytes _ =>
      mkLoopbackNetwork (ln_master n) (ln_slave n) (ln_event n)
        (snd (LoopbackSocket_try_send s bytes (ln_general n)))
  | _ => n
  end.

(** What can happen: a node's own event, the receipt of a queued datagram, a wake-up of a stepping
    task, and the passing of time, which both nodes share. *)
Inductive NetworkEvent :=
| Nw_Node (s : Side) (e : NodeEvent)
| Nw_RecvEvent (s : Side)
| Nw_RecvGeneral (s : Side)
| Nw_StepClock (s : Side)
| Nw_Elapse (nanos : Z).

(** The node events a network event may be made of. *)
Definition local_event (e : NodeEvent) : bool :=
  match e with Ev_Start _ | Ev_System _ | Ev_Fire _ _ | Ev_Shutdown _ => true | _ => false end.

Section network.
  Context {F : Type} `{HF : !MessageFlagsOps F}.
  #[local] Existing Instance always_sends.

(** An event of side [s]'s node, then the transmission of what its port sent. *)
Definition network_node (s : Side) (e : NodeEvent) (n : LoopbackNetwork)
    : option (outcome LoopbackNetwork) :=
  let p := ln_node s n in
  match node_step (F := F) e (pn_node p) with
  | None => None
  | Some Panic => Some Panic
  | Some (Done node) =>
      let sent := drop (length (w_trace (nd_world (pn_node p)))) (w_trace (nd_world node)) in
      Some (Done (fold_left (transmit s) sent
                    (ln_with_node s (mkPrometheusNode node (pn_stepper p)) n)))
  end.

Definition network_step (e : NetworkEvent) (n : LoopbackNetwork) : option (outcome LoopbackNetwork) :=
  match e with
  | Nw_Node s e => if local_event e then network_node s e n else None
  | Nw_RecvEvent s =>
      '(bytes, event) ← LoopbackSocket_recv s BUF_LEN (ln_event n);
      network_node s (Ev_RecvEvent 0 bytes)
        (mkLoopbackNetwork (ln_master n) (ln_slave n) event (ln_general n))
  | Nw_RecvGeneral s =>
      '(bytes, general) ← LoopbackSocket_recv s BUF_LEN (ln_general n);
      network_node s (Ev_RecvGeneral 0 bytes)
        (mkLoopbackNetwork (ln_master n) (ln_slave n) (ln_event n) general)
  | Nw_StepClock s =>
      p ← PrometheusNode_step_clock (ln_node s n);
      Some (p ← p; Done (ln_with_node s p n))
  | Nw_Elapse nanos =>
      if 0 <=? nanos then
        let later p := mkPrometheusNode (with_now (nd_now (pn_node p) + nanos) (pn_node p))
                         (pn_stepper p) in
        Some (Done (mkLoopbackNetwork (later (ln_master n)) (later (ln_slave n)) (ln_event n)
                      (ln_general n)))
      else None
  end.

Definition network_run : list NetworkEvent → LoopbackNetwork → option (outcome LoopbackNetwork) :=
  steps_run network_step.

(** ** A schedule *)

(** The timeouts of a node that are due, and the instants at which something is. *)
Definition armed (p : PrometheusNode) : list (Timeout * Z) :=
  nd_loops (pn_node p) ≫= λ l,
    omap (λ e, (λ h, (e.1, h.1)) <$> tt_handle e.2) (tl_timeouts l).

Definition deadlines (p : PrometheusNode) : list Z :=
  (snd <$> armed p) ++ option_list ((λ s, s.1.1) <$> pn_stepper p).

(** What a side does next at this instant, if anything: what is queued comes before what is due. *)
Definition side_event (s : Side) (n : LoopbackNetwork) : option NetworkEvent :=
  let p := ln_node s n in
  let now := nd_now (pn_node p) in
  match nd_loops (pn_node p) with
  | [l] =>
      match tl_status l with
      | Starting => Some (Nw_Node s (Ev_Start 0))
      | Stopped => None
      | Running _ =>
          match tl_system_rx l, lb_rx s (ln_event n), lb_rx s (ln_general n) with
          | _ :: _, _, _ => Some (Nw_Node s (Ev_System 0))
          | [], _ :: _, _ => Some (Nw_RecvEvent s)
          | [], [], _ :: _ => Some (Nw_RecvGeneral s)
          | [], [], [] =>
              match head (filter (λ td, td.2 <= now) (armed p)) with
              | Some td => Some (Nw_Node s (Ev_Fire 0 td.1))
              | None =>
                  match pn_stepper p with
                  | Some (wake, _, _) => if wake <=? now then Some (Nw_StepClock s) else None
                  | None => None
                  end
              end
          end
      end
  | _ => None
  end.

(** The next event of a run in which everything is handled when it comes, [until] an instant. *)
Definition next_event (until : Z) (n : LoopbackNetwork) : option NetworkEvent :=
  match side_event NearSide n, side_event FarSide n with
  | Some e, _ | None, Some e => Some e
  | None, None =>
      let now := nd_now (pn_node (ln_master n)) in
      let next := fold_left Z.min (deadlines (ln_master n) ++ deadlines (ln_slave n)) until in
      if now <? next then Some (Nw_Elapse (next - now)) else None
  end.

(** The network at each of the given instants of one such run. *)
Definition checkpoints : nat → list Z → LoopbackNetwork → option (list LoopbackNetwork) :=
  run_checkpoints network_step next_event.
End network.

(** ** What was sent and what was handled *)

Inductive SocketKind := EventSocket | GeneralSocket.

Definition ln_socket (k : SocketKind) (n : LoopbackNetwork) : LoopbackSocket :=
  match k with EventSocket => ln_event n | GeneralSocket => ln_general n end.

(** The datagrams that effects hand to a socket, and all that a side's port has handed to it. *)
Definition sent_on (k : SocketKind) (es : list Effect) : list (list Z) :=
  omap (λ e, match k, e with
             | EventSocket, E_SendEvent _ bytes _ | GeneralSocket, E_SendGeneral _ bytes _ => Some bytes
             | _, _ => None
             end) es.
Definition side_sent (k : SocketKind) (s : Side) (n : LoopbackNetwork) : list (list Z) :=
  sent_on k (w_trace (nd_world (pn_node (ln_node s n)))).

(** The datagrams that a step, and a run, hand to the node of side [s] from its socket. *)
Definition taken (k : SocketKind) (s : Side) (e : NetworkEvent) (n : LoopbackNetwork) : list (list Z) :=
  match k, e with
  | EventSocket, Nw_RecvEvent s' | GeneralSocket, Nw_RecvGeneral s' =>
      if decide (s' = s) then option_list (fst <$> LoopbackSocket_recv s BUF_LEN (ln_socket k n)) else []
  | _, _ => []
  end.
Fixpoint handled (k : SocketKind) (s : Side) (es : list NetworkEvent) (n : LoopbackNetwork)
    : list (list Z) :=
  match es with
  | [] => []
  | e :: es =>
      match network_step (F := FlagBits) e n with
      | Some (Done n') => taken k s e n ++ handled k s es n'
      | _ => []
      end
  end.

(** Core code only adds to the trace. *)
Create HintDb grows.

Ltac grows := repeat (cbv beta zeta; first
  [ apply emits_ret | apply emits_lift | apply emits_panic | apply emits_get_trace
  | apply emits_get_shared | apply emits_put_shared | apply emits_emit; exact Logic.I
  | solve [auto with grows nocore] | apply emits_bind; [|intros ?]
  | lazymatch goal with
    | |- emits _ (match ?x with _ => _ end) => destruct x
    | |- emits _ (bmca_consider _ _ _ _ _) =>
        progress cbn [bmca_consider ListeningBmca_Bmca GrandMasterTrackingBmca_Bmca
                      ParentTrackingBmca_Bmca PassiveBmca_Bmca]
    | |- emits _ ?m => let h := head_of m in unfold h
    end ]).

Section grows.
  Context {F : Type} `{HF : !MessageFlagsOps F} `{HE : !Env}.
  Context {S : Type} `{HS : !StateDecisionEvent S} {R : Type} `{HR : !ForeignClockRecords R}.
  Context (Htrigger : ∀ p s, emits (λ _, True) (sde_trigger (S := S) p s)).
  #[local] Abbreviation grow := (emits (S := S) (λ _, True)).
  #[local] Hint Resolve Htrigger : grows.

Lemma apply_grows d (s : PortState R) : grow (PortState_apply d s).
Proof. destruct d, s; cbn [PortState_apply]; grows. Qed.
Lemma event_grows msg src ts (s : PortState R) : grow (PortState_dispatch_event (F := F) msg src ts s).
Proof. destruct msg, s; cbn [PortState_dispatch_event]; grows. Qed.
Lemma general_grows msg src ts (s : PortState R) : grow (PortState_dispatch_general msg src ts s).
Proof. destruct msg, s; cbn [PortState_dispatch_general]; grows. Qed.
Lemma system_grows msg (s : PortState R) : grow (PortState_dispatch_system (F := F) msg s).
Proof. destruct msg, s; cbn [PortState_dispatch_system]; grows. Qed.

Lemma drive_grows dispatch (f : PortFsm R) : (∀ s, grow (dispatch s)) → grow (PortFsm_drive dispatch f).
Proof.
  intros H. unfold PortFsm_drive. destruct (fsm_state f); [|grows]. apply emits_bind; [apply H|].
  pose proof apply_grows. intros [[d|] s']; grows.
Qed.

Lemma deliver_grows i (p : SingleDomainPortMap R) : grow (deliver (F := F) i p).
Proof.
  destruct i; cbn [deliver];
    unfold MessageIngress_receive_event, MessageIngress_receive_general, DomainMessage_dispatch_event,
      DomainMessage_dispatch_general, try_parse;
    cbn [process_event_message process_general_message process_system_message PortFsm_PortIngress];
    unfold PortFsm_process_event_message, PortFsm_process_general_message,
      PortFsm_process_system_message;
    repeat (cbv beta; first
      [ apply emits_bind; [|intros ?] | apply emits_lift | apply emits_ret
      | lazymatch goal with |- emits _ (match ?x with _ => _ end) => destruct x end ]);
    apply drive_grows; intros ?; [apply event_grows | apply general_grows | apply system_grows].
Qed.
End grows.

Lemma OrdinaryClock_trigger_grows p s : emits (λ _, True) (sde_trigger (S := OrdinaryClock) p s).
Proof.
  cbn [sde_trigger OrdinaryClock_StateDecisionEvent]. unfold OrdinaryClock_trigger.
  cbn [pn_notify_all SinglePortNotification_PortNotification]. grows.
Qed.

(** A node's step only adds to the trace. *)
Section node_grows.
  Context {F : Type} `{HF : !MessageFlagsOps F} `{HE : !Env}.
  Context {S : Type} `{HS : !StateDecisionEvent S} `{HH : !ClockHandles S}.
  Context {R : Type} `{HR : !ForeignClockRecords R} {C : Type} `{HC : !SystemClock C}.
  Context (Htrigger : ∀ p s, emits (λ _, True) (sde_trigger (S := S) p s)).
  #[local] Abbreviation trace n := (w_trace (nd_world n)).

Lemma apply_effects_world i es : ∀ n n' : Node S R C,
  apply_effects i es n = Done n' → nd_world n' = nd_world n.
Proof.
  induction es as [|e es IH]; intros n n' E; simpl in E; [by injection E as <-|].
  apply outcome_bind_inv in E as (n1 & E1 & E2). rewrite (IH _ _ E2).
  destruct e; simpl in E1; try (by injection E1 as <-).
  - unfold stamp_egress in E1. apply outcome_bind_inv in E1 as (m & _ & E1). by destruct m; injection E1 as <-.
  - by apply outcome_bind_inv in E1 as (c & _ & [= <-]).
Qed.

Lemma core_step_grows i (m : M S (SingleDomainPortMap R)) (n n' : Node S R C) :
  emits (λ _, True) m → core_step i m n = Done n' → ∃ es, trace n' = trace n ++ es.
Proof.
  intros Hm E. unfold core_step in E. specialize (Hm (nd_world n)).
  destruct (m (nd_world n)) as [[p w]|]; [|done]. apply outcome_bind_inv in E as (n1 & E & [= <-]).
  apply apply_effects_world in E. destruct Hm as (es & Et & _). exists es. simpl. by rewrite E, <- Et.
Qed.

Lemma node_step_grows e (n n' : Node S R C) : node_step (F := F) e n = Some (Done n') →
  ∃ es, trace n' = trace n ++ es.
Proof.
  assert (∀ n1 n2 : Node S R C, nd_world n2 = nd_world n1 → ∃ es, trace n2 = trace n1 ++ es) as Hsame
    by (intros n1 n2 ->; exists []; by rewrite app_nil_r).
  assert (∀ i inp p (n1 n2 : Node S R C), core_step i (deliver (F := F) inp p) n1 = Done n2 →
    ∃ es, trace n2 = trace n1 ++ es) as Hcore
    by (intros i inp p n1 n2; apply core_step_grows, deliver_grows, Htrigger).
  intros E. destruct e as [i|i d|i d|i|i|i|i t|ns]; cbn [node_step] in E.
  - destruct (nd_loops n !! i) as [l|]; [|done]. cbn [mbind option_bind] in E. destruct (tl_status l); try done.
    injection E as E. unfold run_until_start in E.
    destruct (port_by_domain _ _) as [[]|]; [by apply Hcore in E | injection E as <-; by apply Hsame].
  - destruct (running i n) as [[l start]|]; [|done]. cbn [mbind option_bind] in E. injection E as E.
    unfold process_datagram in E. apply outcome_bind_inv in E as (ts & _ & E).
    by apply (Hcore i (In_Event (take BUF_LEN d) ts) (tl_portmap l)) in E.
  - destruct (running i n) as [[l start]|]; [|done]. cbn [mbind option_bind] in E. injection E as E.
    by eapply (Hcore i (In_General (take BUF_LEN d) _) (tl_portmap l)) in E.
  - destruct (running i n) as [[l start]|]; [|done]. cbn [mbind option_bind] in E. injection E as <-. by apply Hsame.
  - destruct (running i n) as [[l start]|]; [|done]. cbn [mbind option_bind] in E.
    destruct (tl_system_rx l) as [|q rx]; [done|]. injection E as E. unfold process_system in E.
    destruct (port_by_domain _ _) as [[]|]; [by apply Hcore in E | injection E as <-; by apply Hsame].
  - destruct (running i n) as [[l start]|]; [|done]. cbn [mbind option_bind] in E. injection E as <-. by apply Hsame.
  - destruct (nd_loops n !! i) as [l|]; [|done]. cbn [mbind option_bind] in E. destruct (fire_timeout _ _ _); [|done].
    cbn [mbind option_bind] in E. injection E as <-. by apply Hsame.
  - destruct (0 <=? ns); [|done]. injection E as <-. by apply Hsame.
Qed.
End node_grows.

(** ** What a step does to the sockets *)

Lemma lb_rx_with_rx s s' rx self :
  lb_rx s (lb_with_rx s' rx self) = if decide (s' = s) then rx else lb_rx s self.
Proof. by destruct s, s'. Qed.

Lemma sent_on_app k es es' : sent_on k (es ++ es') = sent_on k es ++ sent_on k es'.
Proof. apply omap_app. Qed.

(** The effects of side [s']'s port queue what they send for the other side, and nothing else. *)
Lemma transmit_all k s s' es : ∀ n,
  let n' := fold_left (transmit s') es n in
  lb_rx s (ln_socket k n')
  = lb_rx s (ln_socket k n) ++ (if decide (s' = other_side s) then sent_on k es else []) ∧
  ∀ side, ln_node side n' = ln_node side n.
Proof.
  induction es as [|e es IH]; intros n; simpl.
  { split; [|done]. destruct (decide _); by rewrite app_nil_r. }
  destruct (IH (transmit s' n e)) as [-> Hn]. split; [|intros side; rewrite Hn; by destruct side, e].
  destruct e, k, s, s'; simpl; try done; by rewrite <- app_assoc.
Qed.

(** A step hands on what it takes off the sockets, and queues what is sent. *)
Definition conveys (k : SocketKind) (s : Side) (got : list (list Z)) (n n' : LoopbackNetwork) : Prop :=
  ∃ new, side_sent k (other_side s) n' = side_sent k (other_side s) n ++ new ∧
    got ++ (take BUF_LEN <$> lb_rx s (ln_socket k n')) = take BUF_LEN <$> (lb_rx s (ln_socket k n) ++ new).

Lemma conveys_same k s n n' :
  side_sent k (other_side s) n' = side_sent k (other_side s) n →
  lb_rx s (ln_socket k n') = lb_rx s (ln_socket k n) → conveys k s [] n n'.
Proof. intros E1 E2. exists []. by rewrite E1, E2, !app_nil_r. Qed.

Lemma network_node_conveys k s s' e n n' :
  network_node (F := FlagBits) s' e n = Some (Done n') → conveys k s [] n n'.
Proof.
  unfold network_node. intros E.
  destruct (node_step (F := FlagBits) e _) as [[node|]|] eqn:En; [|done..]. injection E as <-.
  apply node_step_grows in En as (es & Et); [|exact OrdinaryClock_trigger_grows].
  rewrite Et, drop_app_length.
  set (n1 := ln_with_node s' (mkPrometheusNode node (pn_stepper (ln_node s' n))) n).
  destruct (transmit_all k s s' es n1) as [Hrx Hnode]. unfold conveys, side_sent in *.
  rewrite Hnode, Hrx. assert (ln_socket k n1 = ln_socket k n) as -> by (unfold n1; by destruct k, s').
  destruct (decide (s' = other_side s)) as [->|Hne].
  - exists (sent_on k es). split; [|done]. unfold n1.
    destruct s; simpl in *; by rewrite Et, sent_on_app.
  - exists []. rewrite !app_nil_r. split; [|done]. unfold n1. by destruct s, s'.
Qed.

(** The first datagram of side [s'] is taken off its socket. *)
Lemma recv_conveys k s s' bytes sock n n1 n' :
  LoopbackSocket_recv s' BUF_LEN (ln_socket k n) = Some (bytes, sock) →
  ln_socket k n1 = sock → (∀ side, ln_node side n1 = ln_node side n) →
  conveys k s [] n1 n' → conveys k s (if decide (s' = s) then [bytes] else []) n n'.
Proof.
  intros E <- Hn (new & Hs & Hrx). unfold LoopbackSocket_recv in E.
  destruct (lb_rx s' (ln_socket k n)) as [|msg rx] eqn:Eq; [done|]. injection E as <- E1.
  exists new. split; [unfold side_sent in *; by rewrite Hs, Hn|].
  rewrite <- E1, lb_rx_with_rx in Hrx. simpl in Hrx.
  destruct (decide (s' = s)) as [->|Hne]; [|exact Hrx].
  rewrite Hrx, Eq. simpl. f_equal.
  destruct (Nat.le_ge_cases (length msg) BUF_LEN);
    [rewrite Nat.min_l, !take_ge by lia | rewrite Nat.min_r by lia]; done.
Qed.

Lemma conveys_nodes k s n n1 n' : ln_socket k n1 = ln_socket k n →
  (∀ side, ln_node side n1 = ln_node side n) → conveys k s [] n1 n' → conveys k s [] n n'.
Proof.
  intros Es Hn (new & H1 & H2). exists new. unfold side_sent in *. by rewrite <- Es, H1, Hn.
Qed.

Lemma network_step_conveys k s e n n' :
  network_step (F := FlagBits) e n = Some (Done n') → conveys k s (taken k s e n) n n'.
Proof.
  intros E. destruct e as [s' e|s'|s'|s'|ns]; cbn [network_step] in E.
  - destruct (local_event e); [|done]. apply (network_node_conveys k s) in E. by destruct k.
  - destruct (LoopbackSocket_recv s' BUF_LEN (ln_event n)) as [[bytes sock]|] eqn:Er; [|done].
    cbn [mbind option_bind] in E. apply (network_node_conveys k s) in E. destruct k.
    + apply (recv_conveys EventSocket s s' bytes sock n) in E; [|exact Er | reflexivity | by intros []].
      cbn [taken ln_socket]. destruct (decide (s' = s)) as [->|Hne]; [by rewrite Er | exact E].
    + cbn [taken]. by apply (conveys_nodes _ _ n) in E; [|done|intros []].
  - destruct (LoopbackSocket_recv s' BUF_LEN (ln_general n)) as [[bytes sock]|] eqn:Er; [|done].
    cbn [mbind option_bind] in E. apply (network_node_conveys k s) in E. destruct k.
    + cbn [taken]. by apply (conveys_nodes _ _ n) in E; [|done|intros []].
    + apply (recv_conveys GeneralSocket s s' bytes sock n) in E; [|exact Er | reflexivity | by intros []].
      cbn [taken ln_socket]. destruct (decide (s' = s)) as [->|Hne]; [by rewrite Er | exact E].
  - assert (taken k s (Nw_StepClock s') n = []) as -> by by destruct k.
    apply bind_Some in E as (p & Ep & E). injection E as E. apply outcome_bind_inv in E as (p1 & -> & [= <-]).
    unfold PrometheusNode_step_clock in Ep. apply bind_Some in Ep as ([[wake by_] steps] & _ & Ep).
    case_match; [|done]. injection Ep as Ep. apply outcome_bind_inv in Ep as (t1 & _ & Ep).
    apply outcome_bind_inv in Ep as (t2 & _ & [= <-]).
    apply conveys_same; [|by destruct k, s']. unfold side_sent. by destruct s, s'.
  - assert (taken k s (Nw_Elapse ns) n = []) as -> by by destruct k.
    destruct (0 <=? ns); [|done]. injection E as <-.
    apply conveys_same; [|by destruct k]. unfold side_sent. by destruct s.
Qed.

Lemma network_run_conveys k s es : ∀ n n', network_run (F := FlagBits) es n = Some (Done n') →
  conveys k s (handled k s es n) n n'.
Proof.
  unfold network_run. induction es as [|e es IH]; intros n n' E; simpl in E.
  { injection E as <-. by apply conveys_same. }
  cbn [handled]. destruct (network_step e n) as [[n1|]|] eqn:E1; [|done..].
  destruct (network_step_conveys k s e n n1 E1) as (new & Hs & Hrx).
  destruct (IH n1 n' E) as (new' & Hs' & Hrx'). exists (new ++ new').
  split; [by rewrite Hs', Hs, app_assoc|].
  rewrite <- app_assoc, Hrx', fmap_app, app_assoc, Hrx, <- fmap_app. by rewrite app_assoc.
Qed.

(** ** Properties *)

(** What a sequence of sends and receives on a pair delivers to end [s], and what it leaves. *)
Inductive LoopbackOp := Op_Send (s : Side) (bytes : list Z) | Op_Recv (s : Side).

Fixpoint loopback_run (s : Side) (buf_len : nat) (ops : list LoopbackOp) (self : LoopbackSocket)
    : list (list Z) * LoopbackSocket :=
  match ops with
  | [] => ([], self)
  | Op_Send s' bytes :: ops => loopback_run s buf_len ops (snd (LoopbackSocket_try_send s' bytes self))
  | Op_Recv s' :: ops =>
      match LoopbackSocket_recv s' buf_len self with
      | None => loopback_run s buf_len ops self
      | Some (bytes, self) =>
          let '(received, self) := loopback_run s buf_len ops self in
          (if decide (s' = s) then bytes :: received else received, self)
      end
  end.

Definition sent_from (s : Side) (ops : list LoopbackOp) : list (list Z) :=
  omap (λ o, match o with
             | Op_Send s' bytes => if decide (s' = s) then Some bytes else None
             | Op_Recv _ => None
             end) ops.

Lemma loopback_run_eq s buf_len ops : ∀ self,
  let '(received, self') := loopback_run s buf_len ops self in
  received ++ (take buf_len <$> lb_rx s self')
  = take buf_len <$> (lb_rx s self ++ sent_from (other_side s) ops).
Proof.
  induction ops as [|[s' bytes|s'] ops IH]; intros self; simpl.
  - by rewrite app_nil_r.
  - specialize (IH (lb_with_rx (other_side s') (lb_rx (other_side s') self ++ [bytes]) self)).
    destruct (loopback_run s buf_len ops _) as [received self'].
    rewrite IH, lb_rx_with_rx. destruct s, s'; simpl; by rewrite <- ?app_assoc.
  - unfold LoopbackSocket_recv. destruct (lb_rx s' self) as [|msg rx] eqn:E; [apply IH|].
    specialize (IH (lb_with_rx s' rx self)).
    destruct (loopback_run s buf_len ops _) as [received self'].
    rewrite lb_rx_with_rx in IH. destruct (decide (s' = s)) as [->|Hne]; [|done].
    rewrite E. cbn [fmap list_fmap app]. rewrite <- IH. simpl. f_equal.
    destruct (Nat.le_ge_cases (length msg) buf_len);
      [rewrite Nat.min_l, !take_ge by lia | rewrite Nat.min_r by lia]; done.
Qed.

(** A loopback pair is two lossless, ordered, independent channels: whatever the order of sends
    and receives at its ends, what an end has received followed by what is queued for it is what the
    other end sent, in that order, each datagram cut to the receive buffer. *)
Theorem loopback_in_order s buf_len ops :
  let '(received, self) := loopback_run s buf_len ops LoopbackSocket_pair in
  received ++ (take buf_len <$> lb_rx s self) = take buf_len <$> sent_from (other_side s) ops.
Proof.
  pose proof (loopback_run_eq s buf_len ops LoopbackSocket_pair) as H.
  destruct (loopback_run s buf_len ops LoopbackSocket_pair). by destruct s.
Qed.

Lemma demo_network_start k s now n0 : demo_network now = Done (Some n0) →
  side_sent k (other_side s) n0 = [] ∧ lb_rx s (ln_socket k n0) = [].
Proof.
  intros E. vm_compute in E. injection E as <-. by destruct k, s.
Qed.


(** The events of the first 8 seconds of the run in which everything is handled when it comes; the
    master announces itself from 5 seconds on. *)
Definition demo_start : option LoopbackNetwork := match demo_network 0 with Done n => n | Panic => None end.
Definition demo_events : list NetworkEvent :=
  match demo_start with
  | Some n => run_events (network_step (F := FlagBits)) next_event 3000 8000000000 n
  | None => []
  end.

(** All that is computed of that run: it ends, and the slave has been handed eleven datagrams. *)
Definition demo_events_run (start : outcome (option LoopbackNetwork)) : option (bool * nat) :=
  match start with
  | Done (Some n) =>
      Some (match network_run (F := FlagBits) demo_events n with Some (Done _) => true | _ => false end,
            length (handled GeneralSocket FarSide demo_events n))
  | _ => None
  end.

Lemma demo_events_run_eq : demo_events_run (demo_network 0) = Some (true, 11%nat).
Proof. vm_compute. reflexivity. Qed.


(** The state of a side's port, and what its clock shows. *)
Definition side_state (s : Side) (n : LoopbackNetwork)
    : option (PortState ForeignClockRecordsVec) :=
  match nd_loops (pn_node (ln_node s n)) with
  | [l] => fsm_state (sm_port_fsm (tl_portmap l))
  | _ => None
  end.

Definition side_time (s : Side) (n : LoopbackNetwork) : option TimeStamp :=
  let node := pn_node (ln_node s n) in
  match VirtualClock_now (nd_now node) (nd_clock node) with Done t => Some t | Panic => None end.

(** What a port is doing about time: serving it, or following a parent. *)
Inductive Role := Serves | Calibrates (parent : PortIdentity) | Follows (parent : PortIdentity) | Other.

Definition side_role (s : Side) (n : LoopbackNetwork) : Role :=
  match side_state s n with
  | Some (Master _) => Serves
  | Some (Uncalibrated p) => Calibrates (ppi_identity (pb_parent_port_identity (up_bmca p)))
  | Some (Slave p) => Follows (ppi_identity (pb_parent_port_identity (sp_bmca p)))
  | _ => Other
  end.

(** Both roles, both clocks, and whether the slave's clock runs fast. *)
Definition observe (n : LoopbackNetwork) : (Role * Role) * (option TimeStamp * option TimeStamp) * bool :=
  ((side_role NearSide n, side_role FarSide n), (side_time NearSide n, side_time FarSide n),
   SFltb f64_one (vc_rate (nd_clock (pn_node (ln_node FarSide n))))).

Definition master_port : PortIdentity :=
  mkPortIdentity (cds_identity (pg_default_ds master_config)) (mkPortNumber 1).

(** After 12, 90, 91, 99 and 105 seconds. *)
Definition demo_instants : list Z := (λ s, s * 1000000000) <$> [12; 90; 91; 99; 105].

Definition observations (start : outcome (option LoopbackNetwork))
    : option (list ((Role * Role) * (option TimeStamp * option TimeStamp) * bool)) :=
  match start with
  | Done (Some n0) =>
      match checkpoints (F := FlagBits) 3000 demo_instants n0 with
      | Some ns => Some (map observe ns)
      | None => None
      end
  | _ => None
  end.

Definition demo_table : list ((Role * Role) * (option TimeStamp * option TimeStamp) * bool) :=
  [((Serves, Follows master_port), (Some (mkTimeStamp 14 0), Some (mkTimeStamp 14 0)), false);
   ((Serves, Follows master_port), (Some (mkTimeStamp 92 750000000), Some (mkTimeStamp 92 0)), false);
   ((Serves, Calibrates master_port),
    (Some (mkTimeStamp 93 750000000), Some (mkTimeStamp 93 750000000)), false);
   ((Serves, Follows master_port),
    (Some (mkTimeStamp 101 750000000), Some (mkTimeStamp 101 750000000)), false);
   ((Serves, Follows master_port),
    (Some (mkTimeStamp 108 0), Some (mkTimeStamp 107 754979368)), true)].

Lemma demo_observations_eq : observations (demo_network 0) = Some demo_table.
Proof. vm_compute. reflexivity. Qed.

(** One run of the demo, the one in which every datagram, timer and message is handled when it
    comes, looked at at a few instants: after 12 seconds the node that started at 2 s serves time,
    the one that started at 0 is its slave and their clocks show the same time. When the
    master's clock has jumped by 750 ms at 90 s, the slave recalibrates a second later, its clock
    showing the same time again, and at 99 s it is a slave; five seconds after the jump by 250 ms at
    100 s, which is below its threshold, it is a slave, its clock running fast and close to the
    master's. *)
Theorem demo_synchronizes :
  ∃ n0 ns, demo_network 0 = Done (Some n0) ∧
    checkpoints (F := FlagBits) 3000 demo_instants n0 = Some ns ∧
    (∀ n, n ∈ ns → ∃ es, network_run (F := FlagBits) es n0 = Some (Done n)) ∧
    map observe ns = demo_table.
Proof.
  pose proof demo_observations_eq as E. revert E. generalize (demo_network 0). intros start E.
  destruct start as [[n0|]|]; [|done..]. unfold observations in E.
  destruct (checkpoints 3000 demo_instants n0) as [ns|] eqn:E1; [|done]. apply (inj Some) in E.
  exists n0, ns. split; [done|]. split; [exact E1|]. split; [|exact E].
  intros n Hn. by eapply run_checkpoints_run.
Qed.
