(* ===== verification/BoundaryDemo.v ===== *)
(** * A boundary clock between a grandmaster and a slave
      (crates/rptp-daemon/tests/two_port_boundary_clock.rs)

    Four ports loops on two loopback links: an ordinary clock at 100 s, a two-port boundary clock
    and an ordinary clock, both at 0 s. The integration test runs them until the slave shows 99 s.
    The safety of the four loops under any interleaving, and the test's own run. *)

From S2P Require Import Prelude Errors Time Clock PortId DataSet Foreign Stores Wire Message.
From S2P Require Import Effects Servo E2e Bmca Profile Handlers PortState PortSafety Clocks System.
From S2P Require Import VirtualClock Daemon DaemonSafety DaemonPanics GrafanaDemo.

Open Scope Z_scope.

(** ** Nodes and links *)

Abbreviation BoundaryNode :=
  (Node (BoundaryClock MultiPortForeignCandidates MultiPortNotification) ForeignClockRecordsVec
        VirtualClock).

Definition DOMAIN : DomainNumber := mkDomainNumber 0.

(** [OrdinaryNode::new] and [build_loop]: a stepping servo on the default profile. *)
Definition OrdinaryNode_new (clock : VirtualClock) (default_ds : ClockDS) (now : Z)
    : outcome (option DaemonNode) :=
  profile ← PortProfile_default;
  let profile := PortProfile_with_servo_config SC_Stepping profile in
  ordinary_node clock default_ds DOMAIN profile now.

Definition gm_default_ds : ClockDS :=
  ClockDS_new (ClockIdentity_new [0x00; 0x1B; 0x19; 0xFF; 0xFE; 0x00; 0x00; 0x01])
    (Priority1_new 64) (Priority2_new 127) (ClockQuality_new CC_Default CA_Within100ns 0xFFFF)
    (StepsRemoved_new 0).
Definition bc_default_ds : ClockDS :=
  ClockDS_new (ClockIdentity_new [0x00; 0x1B; 0x19; 0xFF; 0xFE; 0x00; 0x00; 0x42])
    (Priority1_new 128) (Priority2_new 127) (ClockQuality_new CC_Default CA_Within1us 0xFFFF)
    (StepsRemoved_new 0).
Definition slave_default_ds : ClockDS :=
  ClockDS_new (ClockIdentity_new [0x00; 0x1B; 0x19; 0xFF; 0xFE; 0x00; 0x00; 0x02])
    (Priority1_new 200) (Priority2_new 255) (ClockQuality_new CC_Default CA_Within10ms 0xFFFF)
    (StepsRemoved_new 0).

(** A link carries event and general messages. *)
Record Link := mkLink { ln_ev : LoopbackSocket; ln_gen : LoopbackSocket }.
Definition Link_pair : Link := mkLink LoopbackSocket_pair LoopbackSocket_pair.

(** The nodes, and the links above and below the boundary clock. *)
Record Chain := mkChain {
  ch_gm : DaemonNode;
  ch_bc : BoundaryNode;
  ch_slave : DaemonNode;
  ch_up : Link;
  ch_down : Link;
}.

(** The four loops. The upper end of a link is its near side. *)
Inductive Place := GM | BC_Up | BC_Down | SL.

Definition place_side (p : Place) : Side :=
  match p with GM | BC_Down => NearSide | BC_Up | SL => FarSide end.
Definition place_link (p : Place) (c : Chain) : Link :=
  match p with GM | BC_Up => ch_up c | BC_Down | SL => ch_down c end.
(** The index of a loop among its node's. *)
Definition place_index (p : Place) : nat := match p with BC_Down => 1 | _ => 0 end.

Definition with_link (p : Place) (l : Link) (c : Chain) : Chain :=
  match p with
  | GM | BC_Up => mkChain (ch_gm c) (ch_bc c) (ch_slave c) l (ch_down c)
  | BC_Down | SL => mkChain (ch_gm c) (ch_bc c) (ch_slave c) (ch_up c) l
  end.

(** The test up to [run_all], all at the instant [now]. *)
Definition chain (now : Z) : outcome (option Chain) :=
  gm_start ← TimeStamp_new 100 0;
  zero ← TimeStamp_new 0 0;
  gm ← OrdinaryNode_new (VirtualClock_new now gm_start f64_one Ptp) gm_default_ds now;
  bc ← boundary_node (VirtualClock_new now zero f64_one Ptp) bc_default_ds DOMAIN 2 now;
  slave ← OrdinaryNode_new (VirtualClock_new now zero f64_one Ptp) slave_default_ds now;
  Done (gm ← gm; bc ← bc; slave ← slave; Some (mkChain gm bc slave Link_pair Link_pair)).

(** ** Steps *)

(** What is read of the loop at a place: its status, its queue, its armed timers. *)
Record Glance := mkGlance {
  gl_status : LoopStatus;
  gl_queued : bool;
  gl_armed : list (Timeout * Z);
}.

Definition glance {S R C} (i : nat) (n : Node S R C) : option Glance :=
  l ← nd_loops n !! i;
  Some (mkGlance (tl_status l) (match tl_system_rx l with [] => false | _ => true end)
          (omap (λ e, (λ h, (e.1, h.1)) <$> tt_handle e.2) (tl_timeouts l))).

Definition place_glance (p : Place) (c : Chain) : option Glance :=
  match p with
  | GM => glance 0 (ch_gm c)
  | BC_Up => glance 0 (ch_bc c)
  | BC_Down => glance 1 (ch_bc c)
  | SL => glance 0 (ch_slave c)
  end.

Inductive ChainEvent :=
| Ce_Start (p : Place)
| Ce_System (p : Place)
| Ce_Fire (p : Place) (t : Timeout)
| Ce_RecvEvent (p : Place)
| Ce_RecvGeneral (p : Place)
| Ce_Elapse (nanos : Z).

Section chain.
  Context {F : Type} `{HF : !MessageFlagsOps F}.
  #[local] Existing Instance always_sends.

(** What the effects of the port at [p] put on its link. *)
Definition transmit_on (p : Place) (l : Link) (e : Effect) : Link :=
  match e with
  | E_SendEvent _ bytes _ =>
      mkLink (snd (LoopbackSocket_try_send (place_side p) bytes (ln_ev l))) (ln_gen l)
  | E_SendGeneral _ bytes _ =>
      mkLink (ln_ev l) (snd (LoopbackSocket_try_send (place_side p) bytes (ln_gen l)))
  | _ => l
  end.

(** A node's step, with the effects it appended. *)
Definition stepped {S R} `{!StateDecisionEvent S} `{!ClockHandles S} `{!ForeignClockRecords R}
    (e : NodeEvent) (n : Node S R VirtualClock)
    : option (outcome (Node S R VirtualClock * list Effect)) :=
  match node_step (F := F) e n with
  | None => None
  | Some r =>
      Some (n' ← r; Done (n', drop (length (w_trace (nd_world n))) (w_trace (nd_world n'))))
  end.

(** An event of the node at [p], then the transmission of what its port sent. *)
Definition place_step (p : Place) (e : NodeEvent) (c : Chain) : option (outcome Chain) :=
  let sent c es := with_link p (fold_left (transmit_on p) es (place_link p c)) c in
  match p with
  | GM =>
      r ← stepped e (ch_gm c);
      Some ('(n, es) ← r; Done (sent (mkChain n (ch_bc c) (ch_slave c) (ch_up c) (ch_down c)) es))
  | BC_Up | BC_Down =>
      r ← stepped e (ch_bc c);
      Some ('(n, es) ← r; Done (sent (mkChain (ch_gm c) n (ch_slave c) (ch_up c) (ch_down c)) es))
  | SL =>
      r ← stepped e (ch_slave c);
      Some ('(n, es) ← r; Done (sent (mkChain (ch_gm c) (ch_bc c) n (ch_up c) (ch_down c)) es))
  end.

Definition chain_step (e : ChainEvent) (c : Chain) : option (outcome Chain) :=
  match e with
  | Ce_Start p => place_step p (Ev_Start (place_index p)) c
  | Ce_System p => place_step p (Ev_System (place_index p)) c
  | Ce_Fire p t => place_step p (Ev_Fire (place_index p) t) c
  | Ce_RecvEvent p =>
      let l := place_link p c in
      '(bytes, event) ← LoopbackSocket_recv (place_side p) BUF_LEN (ln_ev l);
      place_step p (Ev_RecvEvent (place_index p) bytes) (with_link p (mkLink event (ln_gen l)) c)
  | Ce_RecvGeneral p =>
      let l := place_link p c in
      '(bytes, general) ← LoopbackSocket_recv (place_side p) BUF_LEN (ln_gen l);
      place_step p (Ev_RecvGeneral (place_index p) bytes) (with_link p (mkLink (ln_ev l) general) c)
  | Ce_Elapse nanos =>
      if 0 <=? nanos then
        Some (Done (mkChain (with_now (nd_now (ch_gm c) + nanos) (ch_gm c))
                      (with_now (nd_now (ch_bc c) + nanos) (ch_bc c))
                      (with_now (nd_now (ch_slave c) + nanos) (ch_slave c)) (ch_up c) (ch_down c)))
      else None
  end.

Definition chain_run : list ChainEvent → Chain → option (outcome Chain) := steps_run chain_step.

(** ** A schedule: everything is handled when it comes *)

Definition place_event (p : Place) (c : Chain) : option ChainEvent :=
  g ← place_glance p c;
  match gl_status g with
  | Starting => Some (Ce_Start p)
  | Stopped => None
  | Running _ =>
      if gl_queued g then Some (Ce_System p)
      else
        match lb_rx (place_side p) (ln_ev (place_link p c)),
              lb_rx (place_side p) (ln_gen (place_link p c)) with
        | _ :: _, _ => Some (Ce_RecvEvent p)
        | [], _ :: _ => Some (Ce_RecvGeneral p)
        | [], [] =>
            td ← head (filter (λ td, td.2 <= nd_now (ch_gm c)) (gl_armed g));
            Some (Ce_Fire p td.1)
        end
  end.

Definition places : list Place := [GM; BC_Up; BC_Down; SL].

Definition chain_next (until : Z) (c : Chain) : option ChainEvent :=
  match omap (λ p, place_event p c) places with
  | e :: _ => Some e
  | [] =>
      let now := nd_now (ch_gm c) in
      let deadlines := places ≫= λ p,
        match place_glance p c with Some g => snd <$> gl_armed g | None => [] end in
      let next := fold_left Z.min deadlines until in
      if now <? next then Some (Ce_Elapse (next - now)) else None
  end.

Definition chain_eagerly : nat → Z → Chain → option Chain := run_until chain_step chain_next.
Definition chain_checkpoints : nat → list Z → Chain → option (list Chain) :=
  run_checkpoints chain_step chain_next.
End chain.

(** ** What every run keeps *)

Definition gm_contract : PortContract := clock_contract gm_default_ds DOMAIN default_profile.
Definition bc_contract : PortContract := clock_contract bc_default_ds DOMAIN default_profile.
Definition slave_contract : PortContract := clock_contract slave_default_ds DOMAIN default_profile.

(** The contract of the clock at a place, and of the one at the other end of its link. *)
Definition place_contract (p : Place) : PortContract :=
  match p with GM => gm_contract | BC_Up | BC_Down => bc_contract | SL => slave_contract end.
Definition peer_contract (p : Place) : PortContract :=
  match p with GM | SL => bc_contract | BC_Up => gm_contract | BC_Down => slave_contract end.

(** No message has waited for the announce receipt interval in any of the four channels. *)
Definition chain_responsive (c : Chain) : Prop :=
  responsive gm_contract (ch_gm c) ∧ responsive bc_contract (ch_bc c) ∧
  responsive slave_contract (ch_slave c).

#[export] Instance chain_responsive_dec c : Decision (chain_responsive c).
Proof. unfold chain_responsive. apply _. Defined.

Section safety.
  Context {F : Type} `{HF : !MessageFlagsOps F}.
  #[local] Existing Instance always_sends.

(** What a port of a clock may send as an event and as a general message: the image of a
    well-formed message with an identity of the clock. *)
Definition event_of (net : PortContract) (bytes : list Z) : Prop :=
  ∃ p ok, effect_ok (F := F) net (E_SendEvent p bytes ok).
Definition general_of (net : PortContract) (bytes : list Z) : Prop :=
  ∃ p ok, effect_ok (F := F) net (E_SendGeneral p bytes ok).

(** What is queued at an end of a link was sent by the clock at the other. *)
Definition end_ok (near far : PortContract) (s : Side) (l : Link) : Prop :=
  let sender := match s with NearSide => far | FarSide => near end in
  Forall (event_of sender) (lb_rx s (ln_ev l)) ∧ Forall (general_of sender) (lb_rx s (ln_gen l)).
Definition link_ok (near far : PortContract) (l : Link) : Prop := ∀ s, end_ok near far s l.

Definition chain_ok (c : Chain) : Prop :=
  ordinary_node_ok VirtualClock_wf gm_default_ds DOMAIN default_profile (ch_gm c) ∧
  boundary_node_ok VirtualClock_wf bc_default_ds DOMAIN (ch_bc c) ∧
  ordinary_node_ok VirtualClock_wf slave_default_ds DOMAIN default_profile (ch_slave c) ∧
  link_ok gm_contract bc_contract (ch_up c) ∧ link_ok bc_contract slave_contract (ch_down c).

(** The link at a place. *)
Definition place_link_ok (p : Place) (l : Link) : Prop :=
  match p with
  | GM | BC_Up => link_ok gm_contract bc_contract l
  | BC_Down | SL => link_ok bc_contract slave_contract l
  end.

Lemma chain_link p c : chain_ok c → place_link_ok p (place_link p c).
Proof. intros (_ & _ & _ & Hu & Hd). by destruct p. Qed.

Lemma chain_with_link p l c : chain_ok c → place_link_ok p l → chain_ok (with_link p l c).
Proof. intros (? & ? & ? & ? & ?) Hl. by destruct p. Qed.

Lemma transmit_on_ok p l e : place_link_ok p l → effect_ok (F := F) (place_contract p) e →
  place_link_ok p (transmit_on p l e).
Proof.
  intros Hl He. destruct e as [| | | |i b o|i b o| | | |]; try exact Hl.
  - assert (event_of (place_contract p) b) as Hb by by exists i, o.
    destruct p; intros s; specialize (Hl s); destruct Hl as [H1 H2], s; (split; [|exact H2]); simpl in *;
      first [exact H1 | apply Forall_app; split; [exact H1 | by apply Forall_singleton]].
  - assert (general_of (place_contract p) b) as Hb by by exists i, o.
    destruct p; intros s; specialize (Hl s); destruct Hl as [H1 H2], s; (split; [exact H1|]); simpl in *;
      first [exact H2 | apply Forall_app; split; [exact H2 | by apply Forall_singleton]].
Qed.

Lemma transmit_all_ok p es : ∀ l, place_link_ok p l → Forall (effect_ok (F := F) (place_contract p)) es →
  place_link_ok p (fold_left (transmit_on p) es l).
Proof.
  induction es as [|e es IH]; intros l Hl Hes; [done|]. apply Forall_cons in Hes as [He Hes]. simpl.
  apply IH; [|done]. by apply transmit_on_ok.
Qed.

(** A node's step keeps its invariant, and sends what its ports may send. *)
Lemma stepped_ok {S R} `{HS : !StateDecisionEvent S} `{HH : !ClockHandles S} `{HR : !ForeignClockRecords R}
    I net port_ok inv `{!StateDecisionEventLaws S I (effect_ok (F := F) net) port_ok}
    `{!ForeignClockRecordsLaws R inv} `{!SystemClockLaws VirtualClock VirtualClock_wf (pc_steered net)}
    e (n : Node S R VirtualClock) :
  (∀ s, I s → decision_handles (clock_handles s)) →
  node_ok I net port_ok inv VirtualClock_wf n → NodeEvent_wf e → responsive net n →
  match stepped (F := F) e n with
  | Some (Done (n', es)) =>
      node_ok I net port_ok inv VirtualClock_wf n' ∧ Forall (effect_ok (F := F) net) es
  | Some Panic => False
  | None => True
  end.
Proof.
  intros Hh Hn He Hr. unfold stepped.
  pose proof (node_step_ok (F := F) I net port_ok Hh inv VirtualClock_wf e n Hn He Hr) as H1.
  pose proof (node_step_sound (F := F) I net port_ok inv VirtualClock_wf e n (node_ok_sound _ _ _ _ _ _ Hn) He)
    as H2.
  destruct (node_step e n) as [[n'|]|]; simpl; [|done|done].
  destruct H2 as (_ & es & -> & Hes). by rewrite drop_app_length.
Qed.

Lemma place_step_ok p e c : chain_ok c → NodeEvent_wf e → chain_responsive c →
  match place_step (F := F) p e c with
  | Some (Done c') => chain_ok c'
  | Some Panic => False
  | None => True
  end.
Proof.
  intros Hc He (Hr1 & Hr2 & Hr3). pose proof Hc as (Hgm & Hbc & Hsl & Hup & Hdown).
  pose proof (stepped_ok ordinary_ok gm_contract _ Vec_inv e (ch_gm c) ordinary_handles Hgm He Hr1) as H1.
  pose proof (stepped_ok (boundary_ok MultiPort_ok mn_timeouts) bc_contract (λ _, True) Vec_inv e (ch_bc c)
                boundary_handles Hbc He Hr2) as H2.
  pose proof (stepped_ok ordinary_ok slave_contract _ Vec_inv e (ch_slave c) ordinary_handles Hsl He Hr3)
    as H3.
  unfold place_step. destruct p.
  - destruct (stepped e (ch_gm c)) as [[[n es]|]|]; [|done..]. destruct H1 as [Hn Hes].
    apply chain_with_link; [by split_and!|]. by apply (transmit_all_ok GM).
  - destruct (stepped e (ch_bc c)) as [[[n es]|]|]; [|done..]. destruct H2 as [Hn Hes].
    apply chain_with_link; [by split_and!|]. by apply (transmit_all_ok BC_Up).
  - destruct (stepped e (ch_bc c)) as [[[n es]|]|]; [|done..]. destruct H2 as [Hn Hes].
    apply chain_with_link; [by split_and!|]. by apply (transmit_all_ok BC_Down).
  - destruct (stepped e (ch_slave c)) as [[[n es]|]|]; [|done..]. destruct H3 as [Hn Hes].
    apply chain_with_link; [by split_and!|]. by apply (transmit_all_ok SL).
Qed.

Lemma datagram_bytes net b : pc_domain net = DOMAIN → event_of net b ∨ general_of net b →
  Forall is_byte b.
Proof.
  intros Hd [(p & ok & msg & Hm & Hp & _ & ->)|(p & ok & msg & Hm & Hp & _ & ->)]; rewrite Hd;
    [apply event_image_bytes | apply general_image_bytes]; done.
Qed.

(** Taking a datagram off a link leaves the rest, and what it gives is bytes. *)
Lemma recv_ok net (P : list Z → Prop) s buf_len sock b sock' :
  pc_domain net = DOMAIN → (∀ b, P b → event_of net b ∨ general_of net b) →
  Forall P (lb_rx s sock) → LoopbackSocket_recv s buf_len sock = Some (b, sock') →
  Forall is_byte b ∧ Forall P (lb_rx s sock') ∧ lb_rx (other_side s) sock' = lb_rx (other_side s) sock.
Proof.
  intros Hd HP Hrx E. unfold LoopbackSocket_recv in E. destruct (lb_rx s sock) as [|msg rx] eqn:Eq; [done|].
  injection E as <- <-. apply Forall_cons in Hrx as [Hm Hrx]. split.
  - apply Forall_take, (datagram_bytes net); auto.
  - rewrite !lb_rx_with_rx. by destruct s.
Qed.

Lemma link_recv_event near far s l b sock : pc_domain near = DOMAIN → pc_domain far = DOMAIN →
  link_ok near far l → LoopbackSocket_recv s BUF_LEN (ln_ev l) = Some (b, sock) →
  Forall is_byte b ∧ link_ok near far (mkLink sock (ln_gen l)).
Proof.
  intros Hn Hf Hl E. destruct (Hl s) as [He _].
  eapply (recv_ok (match s with NearSide => far | FarSide => near end)) in E as (Hb & Hs & Ho);
    [|by destruct s | by left | exact He].
  split; [exact Hb|]. intros s'. destruct (Hl s') as [He' Hg']. split; [|exact Hg']. simpl.
  destruct (decide (s' = s)) as [->|Hne]; [exact Hs|].
  assert (s' = other_side s) as -> by (by destruct s, s'). by rewrite Ho.
Qed.

Lemma link_recv_general near far s l b sock : pc_domain near = DOMAIN → pc_domain far = DOMAIN →
  link_ok near far l → LoopbackSocket_recv s BUF_LEN (ln_gen l) = Some (b, sock) →
  Forall is_byte b ∧ link_ok near far (mkLink (ln_ev l) sock).
Proof.
  intros Hn Hf Hl E. destruct (Hl s) as [_ Hg].
  eapply (recv_ok (match s with NearSide => far | FarSide => near end)) in E as (Hb & Hs & Ho);
    [|by destruct s | by right | exact Hg].
  split; [exact Hb|]. intros s'. destruct (Hl s') as [He' Hg']. split; [exact He'|]. simpl.
  destruct (decide (s' = s)) as [->|Hne]; [exact Hs|].
  assert (s' = other_side s) as -> by (by destruct s, s'). by rewrite Ho.
Qed.

Lemma chain_step_ok e c : chain_ok c → chain_responsive c →
  match chain_step (F := F) e c with
  | Some (Done c') => chain_ok c'
  | Some Panic => False
  | None => True
  end.
Proof.
  intros Hc Hr. destruct e as [p|p|p t|p|p|ns]; cbn [chain_step];
    try (by apply place_step_ok).
  - destruct (LoopbackSocket_recv _ _ _) as [[b sock]|] eqn:E; [|done]. simpl.
    assert (Forall is_byte b ∧ place_link_ok p (mkLink sock (ln_gen (place_link p c)))) as [Hb Hl].
    { pose proof (chain_link p c Hc) as Hl. by destruct p; eapply link_recv_event. }
    apply place_step_ok; [by apply chain_with_link | exact Hb | by destruct p].
  - destruct (LoopbackSocket_recv _ _ _) as [[b sock]|] eqn:E; [|done]. simpl.
    assert (Forall is_byte b ∧ place_link_ok p (mkLink (ln_ev (place_link p c)) sock)) as [Hb Hl].
    { pose proof (chain_link p c Hc) as Hl. by destruct p; eapply link_recv_general. }
    apply place_step_ok; [by apply chain_with_link | exact Hb | by destruct p].
  - destruct Hc as (Hgm & Hbc & Hsl & Hl). destruct Hr as (Hr1 & Hr2 & Hr3).
    pose proof (node_step_ok (F := F) ordinary_ok gm_contract _ ordinary_handles Vec_inv VirtualClock_wf
      (Ev_Elapse ns) _ Hgm Logic.I Hr1) as H1.
    pose proof (node_step_ok (F := F) (boundary_ok MultiPort_ok mn_timeouts) bc_contract (λ _, True)
      boundary_handles Vec_inv VirtualClock_wf (Ev_Elapse ns) _ Hbc Logic.I Hr2) as H2.
    pose proof (node_step_ok (F := F) ordinary_ok slave_contract _ ordinary_handles Vec_inv VirtualClock_wf
      (Ev_Elapse ns) _ Hsl Logic.I Hr3) as H3.
    cbn -[Z.leb with_now] in H1, H2, H3. destruct (0 <=? ns); [|done]. split; [exact H1|]. split; [exact H2|]. split; [exact H3 | exact Hl].
Qed.

(** A run from a chain that is well, or the message that waited too long. *)
Lemma chain_run_ok es : ∀ c, chain_ok c →
  (∀ pre post c', es = pre ++ post → chain_run (F := F) pre c = Some (Done c') → chain_responsive c') →
  chain_run (F := F) es c ≠ Some Panic ∧ ∀ c', chain_run (F := F) es c = Some (Done c') → chain_ok c'.
Proof.
  unfold chain_run. induction es as [|e es IH]; intros c Hc Hr.
  { split; [done|]. by intros c' [= <-]. }
  pose proof (chain_step_ok e c Hc (Hr [] (e :: es) c eq_refl eq_refl)) as Hs. simpl.
  destruct (chain_step e c) as [[c1|]|] eqn:E; [|done|done]. apply IH; [exact Hs|].
  intros pre post c' -> Er. apply (Hr (e :: pre) post c' eq_refl). simpl. by rewrite E.
Qed.

Lemma sample_ds_ok : ClockDS_wf gm_default_ds ∧ ClockDS_wf bc_default_ds ∧ ClockDS_wf slave_default_ds.
Proof. split_and!; wf_concrete. Qed.

Lemma chain_new now : ∃ c, chain now = Done (Some c) ∧ chain_ok c.
Proof.
  destruct sample_ds_ok as (Hg & Hb & Hs).
  assert (∀ s, 0 <= s < 2 ^ 48 → VirtualClock_wf (VirtualClock_new now (mkTimeStamp s 0) f64_one Ptp)) as Hc
    by (intros s Hs'; split; [split; [exact Hs' | done] | done]).
  destruct (ordinary_node_new (F := F) VirtualClock_wf
    (VirtualClock_new now (mkTimeStamp 100 0) f64_one Ptp) gm_default_ds DOMAIN default_profile now)
    as (gm & E1 & H1); [apply Hc; lia | exact VirtualClock_laws | done | exact default_profile_wf|].
  destruct (boundary_node_new (F := F) VirtualClock_wf
    (VirtualClock_new now (mkTimeStamp 0 0) f64_one Ptp) bc_default_ds DOMAIN 2 now)
    as (bc & E2 & H2); [apply Hc; lia | exact VirtualClock_laws | done | lia|].
  destruct (ordinary_node_new (F := F) VirtualClock_wf
    (VirtualClock_new now (mkTimeStamp 0 0) f64_one Ptp) slave_default_ds DOMAIN default_profile now)
    as (sl & E3 & H3); [apply Hc; lia | exact VirtualClock_laws | done | exact default_profile_wf|].
  exists (mkChain gm bc sl Link_pair Link_pair). split.
  - unfold chain, OrdinaryNode_new. change (TimeStamp_new 100 0) with (Done (mkTimeStamp 100 0)).
    change (TimeStamp_new 0 0) with (Done (mkTimeStamp 0 0)).
    change PortProfile_default with (Done default_profile).
    rewrite !outcome_bind_Done. change (PortProfile_with_servo_config SC_Stepping default_profile)
      with default_profile. by rewrite E1, outcome_bind_Done, E2, outcome_bind_Done, E3.
  - split_and!; [exact H1 | exact H2 | exact H3 | by intros [|] | by intros [|]].
Qed.
End safety.

(** What a place shows. *)
Definition loop_state {S R C} (i : nat) (n : Node S R C) : option (PortState R) :=
  l ← nd_loops n !! i; fsm_state (sm_port_fsm (tl_portmap l)).
Definition place_role (p : Place) (c : Chain) : Role :=
  match match p with
        | GM => loop_state 0 (ch_gm c)
        | BC_Up => loop_state 0 (ch_bc c)
        | BC_Down => loop_state 1 (ch_bc c)
        | SL => loop_state 0 (ch_slave c)
        end with
  | Some (Master _) => Serves
  | Some (Uncalibrated p) => Calibrates (ppi_identity (pb_parent_port_identity (up_bmca p)))
  | Some (Slave p) => Follows (ppi_identity (pb_parent_port_identity (sp_bmca p)))
  | _ => Other
  end.
Definition node_time {S R} (n : Node S R VirtualClock) : option TimeStamp :=
  match VirtualClock_now (nd_now n) (nd_clock n) with Done t => Some t | Panic => None end.

(** ** The test *)

Definition ADVANCE_STEP_MS : Z := 100.
Definition TIMEOUT_VIRTUAL_MS : Z := 30000.

(** The test's future [slave_finished], with [steps] iterations left: time advances, the four loops
    handle what is due, and the slave's clock is compared with the target. *)
Fixpoint slave_finished (steps : nat) (target : TimeStamp) (c : Chain) : outcome Chain :=
  match steps with
  | O => Panic
  | S steps =>
      match chain_eagerly (F := FlagBits) 3000 (nd_now (ch_gm c) + ADVANCE_STEP_MS * 1000000) c with
      | None => Panic
      | Some c =>
          now ← VirtualClock_now (nd_now (ch_slave c)) (nd_clock (ch_slave c));
          if TimeStamp_leb target now then Done c else slave_finished steps target c
      end
  end.

Definition time_propagates_through_two_port_boundary_clock : outcome () :=
  start ← chain 0;
  target ← TimeStamp_new 99 0;
  match start with
  | None => Panic
  | Some c =>
      c ← slave_finished (Z.to_nat (TIMEOUT_VIRTUAL_MS / ADVANCE_STEP_MS)) target c;
      bc_now ← VirtualClock_now (nd_now (ch_bc c)) (nd_clock (ch_bc c));
      rassert (TimeStamp_leb target bc_now)
  end.

(** ** Properties *)

(** Roles from the grandmaster down, and the three clocks. *)
Definition chain_observe (c : Chain) : list Role * list (option TimeStamp) :=
  (map (λ p, place_role p c) places,
   [node_time (ch_gm c); node_time (ch_bc c); node_time (ch_slave c)]).

(** After 6, 8, 10 and 30 seconds. *)
Definition chain_instants : list Z := (λ s, s * 1000000000) <$> [6; 8; 10; 30].

Definition gm_port : PortIdentity := mkPortIdentity (cds_identity gm_default_ds) (mkPortNumber 1).
Definition bc_down_port : PortIdentity := mkPortIdentity (cds_identity bc_default_ds) (mkPortNumber 2).

Definition shown (s : Z) : option TimeStamp := Some (mkTimeStamp s 0).

Definition chain_table : list (list Role * list (option TimeStamp)) :=
  [([Serves; Calibrates gm_port; Other; Other], [shown 106; shown 6; shown 6]);
   ([Serves; Follows gm_port; Serves; Calibrates bc_down_port], [shown 108; shown 108; shown 8]);
   ([Serves; Follows gm_port; Serves; Follows bc_down_port], [shown 110; shown 110; shown 110]);
   ([Serves; Follows gm_port; Serves; Follows bc_down_port], [shown 130; shown 130; shown 130])].

Definition chain_observations (start : outcome (option Chain))
    : option (list (list Role * list (option TimeStamp))) :=
  match start with
  | Done (Some c0) => map chain_observe <$> chain_checkpoints (F := FlagBits) 3000 chain_instants c0
  | _ => None
  end.

Lemma chain_observations_eq : chain_observations (chain 0) = Some chain_table.
Proof. vm_compute. reflexivity. Qed.

Lemma boundary_test_passes : time_propagates_through_two_port_boundary_clock = Done ().
Proof. vm_compute. reflexivity. Qed.

(** C18: The four ports loops on their two links never panic, whatever their order. From the start
    of the integration test's chain of a grandmaster, a two-port boundary clock and a slave, at any
    instant, let the loops start, handle queued messages, fire timers and receive datagrams in any
    order, and let time pass in any steps: as long as no system message waits in a channel for the
    announce receipt interval, no loop panics, the invariants of the three nodes hold, and every
    datagram on a link, in either direction and on either socket, is the image of a well-formed
    message of the test's domain with an identity of the clock at its other end. *)
Theorem boundary_chain_never_panics {F} `{HF : !MessageFlagsOps F} now es :
  ∃ c0, chain now = Done (Some c0) ∧
    ((∀ pre post c, es = pre ++ post → chain_run (F := F) pre c0 = Some (Done c) →
        chain_responsive c) →
     chain_run (F := F) es c0 ≠ Some Panic ∧
     ∀ c, chain_run (F := F) es c0 = Some (Done c) → chain_ok (F := F) c).
Proof.
  destruct (chain_new (F := F) now) as (c0 & E & Hc). exists c0. split; [exact E|].
  by apply chain_run_ok.
Qed.

(** The test's run up to 12 seconds: the slave has been set to the boundary clock's time by then. *)
Definition chain_start : option Chain := match chain 0 with Done c => c | Panic => None end.

Definition test_events : list ChainEvent :=
  match chain_start with Some c => run_events (chain_step (F := FlagBits)) chain_next 3000 12000000000 c | None => [] end.

Fixpoint always_responsive (es : list ChainEvent) (c : Chain) : bool :=
  bool_decide (chain_responsive c) &&
  match es with
  | [] => true
  | e :: es =>
      match chain_step (F := FlagBits) e c with
      | Some (Done c) => always_responsive es c
      | _ => true
      end
  end.

Lemma always_responsive_prefixes es : ∀ c, always_responsive es c = true →
  ∀ pre post c', es = pre ++ post → chain_run (F := FlagBits) pre c = Some (Done c') →
    chain_responsive c'.
Proof.
  unfold chain_run. induction es as [|e es IH]; intros c Ha pre post c' Ees Er; simpl in Ha;
    apply andb_true_iff in Ha as [Hr Ha]; apply bool_decide_eq_true in Hr.
  - symmetry in Ees. apply app_nil in Ees as [-> ->]. simpl in Er. by injection Er as <-.
  - destruct pre as [|e' pre]; simpl in Er; [by injection Er as <-|]. injection Ees as <- ->.
    destruct (chain_step e c) as [[c1|]|]; [|done..]. by eapply IH.
Qed.

Lemma boundary_chain_never_panics_witness :
  ∃ c0 c, chain 0 = Done (Some c0) ∧ (100 < length test_events)%nat ∧
    chain_run (F := FlagBits) test_events c0 = Some (Done c) ∧ chain_ok (F := FlagBits) c ∧
    chain_observe c = ([Serves; Follows gm_port; Serves; Follows bc_down_port],
                       [shown 112; shown 112; shown 112]).
Proof.
  destruct (boundary_chain_never_panics (F := FlagBits) 0 test_events) as (c0 & E & H).
  assert (chain_start = Some c0) as Es by (unfold chain_start; by rewrite E).
  assert (always_responsive test_events c0 = true) as Hr.
  { revert Es. assert (match chain_start with Some c => always_responsive test_events c | None => false end
                       = true) as Ht by (vm_compute; reflexivity). intros Es. by rewrite Es in Ht. }
  destruct (H (always_responsive_prefixes _ _ Hr)) as [_ Hok].
  assert (match chain_start with
          | Some c => match chain_run (F := FlagBits) test_events c with
                      | Some (Done c) => Some (chain_observe c) | _ => None end
          | None => None end
          = Some ([Serves; Follows gm_port; Serves; Follows bc_down_port],
                  [shown 112; shown 112; shown 112])) as Ho by (vm_compute; reflexivity).
  rewrite Es in Ho. destruct (chain_run test_events c0) as [[c|]|] eqn:Er; [|discriminate Ho..].
  exists c0, c. split; [exact E|]. split; [apply Nat.ltb_lt; vm_compute; reflexivity|].
  split; [exact Er|]. split; [exact (Hok c eq_refl)|].
  by apply (inj Some) in Ho.
Defined.

(** One run of the test's chain, the one in which every datagram, timer and message is handled when
    it comes, looked at at four instants: after 6 seconds the grandmaster serves and the boundary
    clock's upper port calibrates on it; after 8 the upper port is a slave of the grandmaster and
    their clocks agree, the lower port serves, and the slave, still at its own time, calibrates on
    the lower port; after 10 and after 30 seconds the slave follows the lower port and the three
    clocks show the same time, to the nanosecond. The integration test passes: the slave reaches 99 s within
    its 30 seconds, and the boundary clock has reached it too. *)
Theorem time_propagates_through_boundary_clock :
  (∃ c0 cs, chain 0 = Done (Some c0) ∧
     chain_checkpoints (F := FlagBits) 3000 chain_instants c0 = Some cs ∧
     (∀ c, c ∈ cs → ∃ es, chain_run (F := FlagBits) es c0 = Some (Done c)) ∧
     map chain_observe cs = chain_table) ∧
  time_propagates_through_two_port_boundary_clock = Done ().
Proof.
  split; [|exact boundary_test_passes].
  pose proof chain_observations_eq as E. revert E. generalize (chain 0). intros start E.
  destruct start as [[c0|]|]; [|done..]. unfold chain_observations in E.
  destruct (chain_checkpoints 3000 chain_instants c0) as [cs|] eqn:E1; [|done].
  apply (inj Some) in E. exists c0, cs. split_and!; [done | exact E1 | | exact E].
  intros c Hc. by eapply run_checkpoints_run.
Qed.
