(* ===== verification/EmbeddedClocks.v ===== *)
(** * The clocks of the embedded demo (crates/rptp-embedded-demo/src/main.rs)

    The 10 ms tick counter, the monotonic [InstantClock] on top of it, the cycle counter and the
    [CycleClock] that extends it to timestamps, and the wall time read through semihosting. The
    counters are 32-bit registers that wrap; the theorems relate readings to unbounded counts. *)

From S2P Require Import Prelude Errors Time Clock PortId DataSet Foreign Wire Message.
From S2P Require Import Effects Servo VirtualClock.

Open Scope Z_scope.

(** ** Ticks *)

(** [u32] ticks of 10 ms. *)
Record Ticks := mkTicks { tk_ticks : Z }.

Definition NANOS_PER_TICK : Z := 10000000.

Definition Ticks_elapsed_since (since self : Ticks) : Ticks :=
  mkTicks (u_wrap 32 (tk_ticks self - tk_ticks since)).

Definition Ticks_as_duration (self : Ticks) : outcome Duration :=
  nanos ← u_chk 64 (tk_ticks self * NANOS_PER_TICK);
  Done (Duration_from_nanos nanos).

(** [SmolInstant::from_micros(self.ticks * 10_000)], in microseconds; the product is a [u32]. *)
Definition Ticks_as_smol_instant (self : Ticks) : outcome Z := u_chk 32 (tk_ticks self * 10000).

(** [SystemTick]: the counter the SysTick exception increments, wrapping. *)
Record SystemTick := mkSystemTick { sy_ticks : Z }.

Definition SystemTick_new : SystemTick := mkSystemTick 0.
Definition SystemTick_tick (self : SystemTick) : SystemTick :=
  mkSystemTick (u_wrap 32 (sy_ticks self + 1)).
Definition SystemTick_now (self : SystemTick) : Ticks := mkTicks (sy_ticks self).

(** ** The monotonic clock *)

Record InstantClock := mkInstantClock { ic_last_ticks : Ticks; ic_instant : Instant }.

Definition InstantClock_new (now : Ticks) : InstantClock :=
  mkInstantClock now (Instant_from_nanos 0).

Definition InstantClock_now (system_tick : SystemTick) (self : InstantClock)
    : outcome (Instant * InstantClock) :=
  let now_ticks := SystemTick_now system_tick in
  let ticks_elapsed := Ticks_elapsed_since (ic_last_ticks self) now_ticks in
  d ← Ticks_as_duration ticks_elapsed;
  let updated := Instant_saturating_add (ic_instant self) d in
  Done (updated, mkInstantClock now_ticks updated).

(** ** Wall time through semihosting *)

Definition TAI_OFFSET_SECONDS : Z := 37.

Definition i64_saturating_mul (a b : Z) : Z :=
  Z.max i64_MIN (Z.min (a * b) i64_MAX).

(** The three host calls return a [usize], 32 bits wide on this target; [as i64] keeps its value. *)
Definition SemiHostingTime_now (time clock tickfreq : Z) : outcome (option TimeStamp) :=
  let secs := as_i 64 time in
  if secs <? 0 then Done None
  else
    let clock_ticks := as_i 64 clock in
    let tickfreq := as_i 64 tickfreq in
    if (clock_ticks <? 0) || (tickfreq <=? 0) then Done None
    else
      let total_nanos := Z.quot (i64_saturating_mul clock_ticks 1000000000) tickfreq in
      let extra_secs := total_nanos / 1000000000 in
      let nanos := as_u 32 (total_nanos mod 1000000000) in
      s ← i_chk 64 (secs + extra_secs);
      s ← i_chk 64 (s + TAI_OFFSET_SECONDS);
      t ← TimeStamp_new (as_u 64 s) nanos;
      Done (Some t).

(** ** The cycle counter *)

(** The DWT cycle counter, a [u32]. *)
Record Cycles := mkCycles { cy_cycles : Z }.

Definition CPU_HZ : Z := 12000000.

Definition Cycles_elapsed_since (since self : Cycles) : outcome TimeInterval :=
  let delta_cycles := u_wrap 32 (cy_cycles self - cy_cycles since) in
  let nanos := Z.quot (u_sat 64 (delta_cycles * 1000000000)) CPU_HZ in
  TimeInterval_from_u64_nanos nanos.

Record CycleClock := mkCycleClock { cc_time : TimeStamp; cc_last_cycles : Cycles }.

Definition CycleClock_new (time : TimeStamp) (now : Cycles) : CycleClock := mkCycleClock time now.

(** [Clock::now] with the counter reading [cur_cycles]. *)
Definition CycleClock_now (cur_cycles : Cycles) (self : CycleClock)
    : outcome (TimeStamp * CycleClock) :=
  delta ← Cycles_elapsed_since (cc_last_cycles self) cur_cycles;
  t ← TimeStamp_checked_add (cc_time self) delta;
  let time := default (cc_time self) t in
  Done (time, mkCycleClock time cur_cycles).

Definition CycleClock_time_scale : TimeScale := Ptp.

(** [step] and [adjust] do nothing. *)
Definition CycleClock_step (to : TimeStamp) (self : CycleClock) : CycleClock := self.
Definition CycleClock_adjust (rate : f64) (self : CycleClock) : CycleClock := self.

(** ** Sequences of readings *)

(** Read the monotonic clock at the given unbounded tick counts. *)
Fixpoint read_instants (counts : list Z) (c : InstantClock) : outcome (list Instant * InstantClock) :=
  match counts with
  | [] => Done ([], c)
  | n :: counts =>
      '(i, c) ← InstantClock_now (mkSystemTick (u_wrap 32 n)) c;
      '(rest, c) ← read_instants counts c;
      Done (i :: rest, c)
  end.

Fixpoint read_cycles (counts : list Z) (c : CycleClock) : outcome (list TimeStamp * CycleClock) :=
  match counts with
  | [] => Done ([], c)
  | n :: counts =>
      '(t, c) ← CycleClock_now (mkCycles (u_wrap 32 n)) c;
      '(ts, c) ← read_cycles counts c;
      Done (t :: ts, c)
  end.

(** Counts read one after another, less than a wrap apart. *)
Fixpoint within_wrap (last : Z) (counts : list Z) : Prop :=
  match counts with
  | [] => True
  | n :: counts => last <= n < last + 2 ^ 32 ∧ within_wrap n counts
  end.

(** ** Lemmas *)

Lemma wrapped_difference a b : a <= b < a + 2 ^ 32 → u_wrap 32 (u_wrap 32 b - u_wrap 32 a) = b - a.
Proof.
  intros H. unfold u_wrap. rewrite <- Zminus_mod. apply Z.mod_small. lia.
Qed.

Definition saturated (n : Z) : Z := Z.min n (2 ^ 64 - 1).

Lemma InstantClock_now_eq last n base : last <= n < last + 2 ^ 32 → 0 <= base →
  InstantClock_now (mkSystemTick (u_wrap 32 n))
    (mkInstantClock (mkTicks (u_wrap 32 last)) (mkInstant (saturated base)))
  = let i := mkInstant (saturated (base + (n - last) * NANOS_PER_TICK)) in
    Done (i, mkInstantClock (mkTicks (u_wrap 32 n)) i).
Proof.
  intros H Hb. unfold InstantClock_now, Ticks_elapsed_since, SystemTick_now, Ticks_as_duration.
  cbn [sy_ticks tk_ticks ic_last_ticks ic_instant]. rewrite wrapped_difference by done.
  unfold NANOS_PER_TICK. rewrite u_chk_Done by lia. rewrite !outcome_bind_Done.
  unfold Instant_saturating_add, Duration_from_nanos, u_sat, saturated. cbn [i_nanos d_nanos].
  replace (Z.min (Z.min base (2 ^ 64 - 1) + (n - last) * 10000000) (2 ^ 64 - 1))
    with (Z.min (base + (n - last) * 10000000) (2 ^ 64 - 1)) by lia. done.
Qed.

Lemma read_instants_eq counts : ∀ last base, within_wrap last counts → 0 <= base →
  ∃ c, read_instants counts
         (mkInstantClock (mkTicks (u_wrap 32 last)) (mkInstant (saturated base)))
       = Done ((λ n, mkInstant (saturated (base + (n - last) * NANOS_PER_TICK))) <$> counts, c).
Proof.
  induction counts as [|n counts IH]; intros last base Hw Hb; [by eexists|].
  destruct Hw as [Hn Hw]. cbn [read_instants]. rewrite InstantClock_now_eq by done. cbv zeta.
  rewrite outcome_bind_Done.
  assert (0 <= base + (n - last) * NANOS_PER_TICK) as Hb' by (unfold NANOS_PER_TICK; lia).
  destruct (IH n _ Hw Hb') as [c ->]. rewrite outcome_bind_Done. eexists. cbn [fmap list_fmap].
  do 3 f_equal. apply list_fmap_ext. intros _ m _. do 2 f_equal. lia.
Qed.

(** The interval between two readings of the cycle counter, rounded down to nanoseconds. *)
Lemma Cycles_elapsed_eq last n : last <= n < last + 2 ^ 32 →
  Cycles_elapsed_since (mkCycles (u_wrap 32 last)) (mkCycles (u_wrap 32 n))
  = Done (ti_of_ns (250 * (n - last) / 3)).
Proof.
  intros H. unfold Cycles_elapsed_since. cbn [cy_cycles]. rewrite wrapped_difference by done.
  unfold u_sat, CPU_HZ. rewrite Z.min_l by lia.
  assert (Z.quot ((n - last) * 1000000000) 12000000 = 250 * (n - last) / 3) as ->.
  { rewrite Z.quot_div_nonneg by lia.
    replace ((n - last) * 1000000000) with (250 * (n - last) * 4000000) by lia.
    by rewrite <- (Z.div_mul_cancel_r _ 3 4000000) by lia. }
  pose proof (Z.div_mod (250 * (n - last)) 3). pose proof (Z.mod_pos_bound (250 * (n - last)) 3).
  set (x := 250 * (n - last) / 3) in *. unfold TimeInterval_from_u64_nanos.
  rewrite Z.quot_div_nonneg, Z.rem_mod_nonneg by lia.
  pose proof (Z.div_mod x 1000000000). pose proof (Z.mod_pos_bound x 1000000000).
  rewrite as_i_small, as_u_small by lia.
  by rewrite TimeInterval_new_Done by (unfold NANOS_PER_SECOND; lia).
Qed.

Lemma CycleClock_now_eq last n t : last <= n < last + 2 ^ 32 → TimeStamp_wf t →
  ts_ns t + 250 * (n - last) / 3 < 2 ^ 48 * NANOS_PER_SECOND →
  ∃ t', CycleClock_now (mkCycles (u_wrap 32 n)) (mkCycleClock t (mkCycles (u_wrap 32 last)))
        = Done (t', mkCycleClock t' (mkCycles (u_wrap 32 n))) ∧
    TimeStamp_wf t' ∧ ts_ns t' = ts_ns t + 250 * (n - last) / 3.
Proof.
  intros H Ht Hmax. unfold CycleClock_now. cbn [cc_last_cycles cc_time].
  rewrite Cycles_elapsed_eq by done. rewrite outcome_bind_Done.
  assert (0 <= 250 * (n - last) / 3 < 2 ^ 63) as Hx.
  { pose proof (Z.div_mod (250 * (n - last)) 3). pose proof (Z.mod_pos_bound (250 * (n - last)) 3).
    lia. }
  rewrite TimeStamp_checked_add_eq; [|done|by apply ti_of_ns_wf; unfold ti_ns_ok, NANOS_PER_SECOND; lia].
  rewrite ti_ns_of_ns, outcome_bind_Done.
  pose proof (ts_ns_range t Ht).
  destruct (ts_of_ns (ts_ns t + 250 * (n - last) / 3)) as [t'|] eqn:E.
  - apply ts_of_ns_Some in E as [? ?]. by exists t'.
  - exfalso. unfold ts_of_ns in E. case_match eqn:Eb; [done|]. unfold NANOS_PER_SECOND in *. lia.
Qed.

(** How far a reading lags: thirds of a nanosecond, at most two of them per reading so far. *)
Lemma read_cycles_eq counts : ∀ last t seed start j, within_wrap last counts → TimeStamp_wf t →
  0 <= 250 * (last - start) - 3 * (ts_ns t - seed) <= 2 * j →
  (∀ n, n ∈ counts → 3 * seed + 250 * (n - start) < 3 * (2 ^ 48 * NANOS_PER_SECOND)) →
  ∃ ts c, read_cycles counts (mkCycleClock t (mkCycles (u_wrap 32 last))) = Done (ts, c) ∧
    Forall TimeStamp_wf ts ∧ length ts = length counts ∧
    ∀ k n t', counts !! k = Some n → ts !! k = Some t' →
      0 <= 250 * (n - start) - 3 * (ts_ns t' - seed) <= 2 * (j + Z.of_nat k + 1).
Proof.
  induction counts as [|n counts IH]; intros last t seed start j Hw Ht He Hmax.
  { by eexists [], _. }
  destruct Hw as [Hn Hw]. cbn [read_cycles].
  pose proof (Hmax n (list_elem_of_here _ _)) as Hmaxn.
  pose proof (Z.div_mod (250 * (n - last)) 3) as Hdm.
  pose proof (Z.mod_pos_bound (250 * (n - last)) 3) as Hmp.
  destruct (CycleClock_now_eq last n t Hn Ht ltac:(lia)) as (t1 & -> & Ht1 & E1).
  rewrite outcome_bind_Done.
  destruct (IH n t1 seed start (j + 1) Hw Ht1) as (ts & c & -> & Hts & Hlen & Hk);
    [lia | intros m Hm; apply Hmax; by right |].
  rewrite outcome_bind_Done. exists (t1 :: ts), c. split; [done|]. split; [by constructor|].
  split; [simpl; lia|]. intros [|k] m t'; simpl; [intros [= <-] [= <-]; lia|].
  intros Em Et. specialize (Hk k m t' Em Et). lia.
Qed.

(** ** Properties *)

(** The embedded demo's monotonic clock is exact: read at any tick counts less than 2^32
    ticks (497 days) apart, the wrapping 32-bit counter included, every reading is ten
    milliseconds per tick since the start, saturating at the largest instant, and no reading
    panics. *)
Theorem instant_clock_exact start counts : within_wrap start counts →
  ∃ c, read_instants counts (InstantClock_new (SystemTick_now (mkSystemTick (u_wrap 32 start))))
       = Done ((λ n, mkInstant (Z.min ((n - start) * 10000000) (2 ^ 64 - 1))) <$> counts, c).
Proof. intros H. apply (read_instants_eq counts start 0 H). lia. Qed.

Lemma instant_clock_exact_witness :
  ∃ c, read_instants [2 ^ 32 - 1; 2 ^ 32 + 5] (InstantClock_new (mkTicks (2 ^ 32 - 3)))
       = Done ([mkInstant 20000000; mkInstant 80000000], c).
Proof.
  apply (instant_clock_exact (2 ^ 32 - 3) [2 ^ 32 - 1; 2 ^ 32 + 5]). split; [lia|]. split; [lia | done].
Defined.

(** The cycle clock never runs ahead and lags by less than a nanosecond per reading: read at
    any cycle counts less than 2^32 cycles (358 seconds) apart, the k-th reading is a well-formed
    timestamp at most 2k/3 ns behind the seed plus the elapsed cycles at 12 MHz, until the end of
    the timestamp range. *)
Theorem cycle_clock_lag seed start counts :
  TimeStamp_wf seed → within_wrap start counts →
  (∀ n, n ∈ counts → 3 * ts_ns seed + 250 * (n - start) < 3 * (2 ^ 48 * NANOS_PER_SECOND)) →
  ∃ ts c, read_cycles counts (CycleClock_new seed (mkCycles (u_wrap 32 start))) = Done (ts, c) ∧
    Forall TimeStamp_wf ts ∧ length ts = length counts ∧
    ∀ k n t, counts !! k = Some n → ts !! k = Some t →
      0 <= 250 * (n - start) - 3 * (ts_ns t - ts_ns seed) <= 2 * (Z.of_nat k + 1).
Proof.
  intros Hs Hw Hm. destruct (read_cycles_eq counts start seed (ts_ns seed) start 0 Hw Hs)
    as (ts & c & E & Hts & Hl & Hk); [lia | done |].
  exists ts, c. split; [done|]. split; [done|]. split; [done|]. intros k n t En Et.
  specialize (Hk k n t En Et). lia.
Qed.

Lemma cycle_clock_lag_witness :
  ∃ ts c, read_cycles [11; 22; 4294967300]
            (CycleClock_new (mkTimeStamp 7 999999999) (mkCycles 0)) = Done (ts, c) ∧
          length ts = 3%nat.
Proof.
  destruct (cycle_clock_lag (mkTimeStamp 7 999999999) 0 [11; 22; 4294967300]) as (ts & c & E & _ & Hl & _).
  - unfold TimeStamp_wf, NANOS_PER_SECOND; simpl; lia.
  - split; [lia|]. split; [lia|]. split; [lia | done].
  - intros n Hn. unfold ts_ns, NANOS_PER_SECOND. simpl.
    repeat (apply elem_of_cons in Hn as [->|Hn]; [lia|]). by apply not_elem_of_nil in Hn.
  - exists ts, c. split; [exact E | exact Hl].
Defined.

(** Microseconds in 32 bits. *)
Lemma Ticks_as_smol_instant_eq t : 0 <= tk_ticks t →
  Ticks_as_smol_instant t
  = if tk_ticks t <=? 429496 then Done (tk_ticks t * 10000) else Panic.
Proof.
  destruct t as [t]. intros Ht. unfold Ticks_as_smol_instant. cbn [tk_ticks] in *.
  destruct (Z.leb_spec t 429496); [by rewrite u_chk_Done by lia|].
  unfold u_chk. case_match eqn:E; [|done]. apply u_in_true in E. lia.
Qed.

(** The two places where the demo's time does not do what its comments say: converting ticks
    for the network stack is exact up to 429496 ticks (71.6 minutes) and overflows its 32-bit
    product from then on, not after 497 days; and as the host calls return 32-bit unsigned words,
    a failing call's -1 is a large positive number, so wall time is reported unavailable only for
    a tick frequency of zero, and is otherwise the host time plus the sub-second clock plus 37 s.
    *)
Theorem embedded_time_limits :
  (∀ t, 0 <= tk_ticks t → Ticks_as_smol_instant t
        = if tk_ticks t <=? 429496 then Done (tk_ticks t * 10000) else Panic) ∧
  (∀ time clock tickfreq, u_in 32 time = true → u_in 32 clock = true → u_in 32 tickfreq = true →
     SemiHostingTime_now time clock tickfreq
     = if tickfreq =? 0 then Done None
       else let n := Z.min (clock * 1000000000) (2 ^ 63 - 1) / tickfreq in
            Done (Some (mkTimeStamp (time + n / 1000000000 + 37) (n mod 1000000000)))).
Proof.
  split.
  - exact Ticks_as_smol_instant_eq.
  - intros time clock tickfreq Ht%u_in_true Hc%u_in_true Hf%u_in_true.
    unfold SemiHostingTime_now, i64_saturating_mul, i64_MIN, i64_MAX, TAI_OFFSET_SECONDS.
    rewrite !as_i_small by lia. rewrite (proj2 (Z.ltb_ge time 0)) by lia.
    rewrite (proj2 (Z.ltb_ge clock 0)) by lia. cbn [orb].
    destruct (Z.eqb_spec tickfreq 0) as [->|Hne]; [done|].
    rewrite (proj2 (Z.leb_gt tickfreq 0)) by lia.
    rewrite (Z.max_r (- 2 ^ 63)) by lia. rewrite Z.quot_div_nonneg by lia.
    set (n := Z.min (clock * 1000000000) (2 ^ 63 - 1) / tickfreq). cbv zeta.
    assert (0 <= n < 2 ^ 63) as Hn.
    { split; [apply Z.div_pos; lia|]. apply Z.div_lt_upper_bound; [lia|]. nia. }
    pose proof (Z.div_mod n 1000000000). pose proof (Z.mod_pos_bound n 1000000000).
    assert (0 <= n / 1000000000 < 2 ^ 34) as Hs by (split; [lia|]; apply Z.div_lt_upper_bound; lia).
    rewrite i_chk_Done, outcome_bind_Done by lia. rewrite i_chk_Done, outcome_bind_Done by lia.
    rewrite !as_u_small by lia. unfold TimeStamp_new. change MAX_SECONDS_EXCL with (2 ^ 48).
    rewrite rassert_true by lia. by rewrite rassert_true by lia.
Qed.
