(* ===== verification/EmbeddedNet.v ===== *)
(** * The network driver of the embedded demo (crates/rptp-embedded-demo/src/net.rs)

    The Ethernet controller's receive and transmit tokens, which unpack frames from and pack them
    into a 32-bit data register, the controller's initialization, and the draining of the UDP
    sockets into the packets of one iteration. The [smoltcp] interface between them is not part of
    this repository: what it delivers to a socket is an argument here. *)

From S2P Require Import Prelude Errors.

Open Scope Z_scope.

Definition MAX_FRAME_SIZE : nat := 1500.
Definition MAX_RX_PACKETS : nat := 4.

(** [u32::to_le_bytes]. *)
Definition to_le_bytes (w : Z) : list Z :=
  [Z.land w 255; Z.land (Z.shiftr w 8) 255; Z.land (Z.shiftr w 16) 255; Z.land (Z.shiftr w 24) 255].

(** ** The receive token *)

(** The bytes taken from the register so far and the filled part of [buf]. *)
Record RxState := mkRxState { rx_consumed : Z; rx_buf : list Z }.

Definition rx_store (frame_len : Z) (b : Z) (s : RxState) : RxState :=
  if (Z.of_nat (length (rx_buf s)) <? frame_len) && (length (rx_buf s) <? MAX_FRAME_SIZE)%nat
  then mkRxState (rx_consumed s) (rx_buf s ++ [b]) else s.

(** [for b in bytes], of the first word and of the words after it; [total_len - 4] is a [usize]. *)
Fixpoint rx_first (frame_len : Z) (bytes : list Z) (s : RxState) : RxState :=
  match bytes with
  | [] => s
  | b :: bytes =>
      let s := mkRxState (rx_consumed s + 1) (rx_buf s) in
      let s := if rx_consumed s <=? 2 then s else rx_store frame_len b s in
      rx_first frame_len bytes s
  end.
Fixpoint rx_next (total_len frame_len : Z) (bytes : list Z) (s : RxState) : outcome RxState :=
  match bytes with
  | [] => Done s
  | b :: bytes =>
      let s := mkRxState (rx_consumed s + 1) (rx_buf s) in
      if rx_consumed s <=? 2 then rx_next total_len frame_len bytes s
      else
        limit ← u_chk 32 (total_len - 4);
        if (limit <? rx_consumed s) && (4 <=? total_len)
        then rx_next total_len frame_len bytes s
        else rx_next total_len frame_len bytes (rx_store frame_len b s)
  end.

(** [while consumed < total_len]; [data k] is the [k]th word read from the register. [None] where
    the fuel runs out. *)
Fixpoint rx_loop (fuel : nat) (data : nat → Z) (k : nat) (total_len frame_len : Z) (s : RxState)
    : option (outcome (nat * RxState)) :=
  if rx_consumed s <? total_len then
    match fuel with
    | O => None
    | S fuel =>
        match rx_next total_len frame_len (to_le_bytes (data k)) s with
        | Done s => rx_loop fuel data (S k) total_len frame_len s
        | Panic => Some Panic
        end
    end
  else Some (Done (k, s)).

(** [Lm3sRxToken::consume]: the words read and the frame handed to the continuation, the empty one
    for a frame of our own. *)
Definition Lm3sRxToken_consume (fuel : nat) (mac : list Z) (data : nat → Z)
    : option (outcome (nat * list Z)) :=
  let first := data 0%nat in
  let total_len := as_u 16 first in
  let frame_len := Z.max 0 (total_len - 6) in
  let s := rx_first frame_len (to_le_bytes first) (mkRxState 0 []) in
  match rx_loop fuel data 1 total_len frame_len s with
  | Some (Done (k, s)) =>
      let frame := rx_buf s in
      if (12 <=? length frame)%nat && bool_decide (slice 6 12 frame = mac)
      then Some (Done (k, [])) else Some (Done (k, frame))
  | Some Panic => Some Panic
  | None => None
  end.

(** ** The transmit token *)

(** [*data.get(i).unwrap_or(&0)]. *)
Definition byte_or_0 (data : list Z) (i : nat) : Z := default 0 (data !! i).

(** [for i in 0..4 { word |= byte << (8 * i) }]. *)
Definition tx_word (data : list Z) (idx : nat) : Z :=
  fold_left (λ word i, Z.lor word (Z.shiftl (byte_or_0 data (idx + i)) (8 * Z.of_nat i)))
    (seq 0 4) 0.

(** [while idx < frame.len]. [frame.data] is all zeroes beyond the frame. *)
Fixpoint tx_words (fuel : nat) (data : list Z) (len idx : nat) : option (list Z) :=
  if (idx <? len)%nat then
    match fuel with
    | O => None
    | S fuel =>
        rest ← tx_words fuel data len (idx + 4);
        Some (tx_word data idx :: rest)
    end
  else Some [].

(** [Lm3sTxToken::consume]: [len] is what the stack asks for, [fill] writes the frame; the result
    is what is written to the data register before transmission is kicked off. *)
Definition Lm3sTxToken_consume (fuel : nat) (len : nat) (fill : nat → list Z) : option (list Z) :=
  let frame_len := Nat.min len MAX_FRAME_SIZE in
  let data := fill frame_len in
  let data_len := Z.max 0 (Z.of_nat frame_len - 14) in
  let b0 := byte_or_0 data 0 in
  let b1 := byte_or_0 data 1 in
  let first_word := Z.lor (Z.lor data_len (Z.shiftl b0 16)) (Z.shiftl b1 24) in
  rest ← tx_words fuel data frame_len 2;
  Some (first_word :: rest).

(** ** The controller *)

Definition REG_RIS : Z := 0.
Definition REG_RCTL : Z := 8.
Definition REG_TCTL : Z := 12.
Definition REG_IA0 : Z := 20.
Definition REG_IA1 : Z := 24.
Definition REG_THR : Z := 28.
Definition SE_RCTL : Z := Z.lor (Z.lor (Z.lor 1 2) 4) 16.
Definition SE_TCTL : Z := Z.lor (Z.lor (Z.lor 1 2) 4) 8.

(** [Lm3sEth::init]: the register writes, in order, for a MAC address of six bytes. *)
Definition Lm3sEth_init (mac : list Z) : list (Z * Z) :=
  let m i := byte_or_0 mac i in
  let ia0 := Z.lor (Z.lor (Z.lor (m 0%nat) (Z.shiftl (m 1%nat) 8)) (Z.shiftl (m 2%nat) 16))
               (Z.shiftl (m 3%nat) 24) in
  let ia1 := Z.lor (m 4%nat) (Z.shiftl (m 5%nat) 8) in
  [(REG_IA0, ia0); (REG_IA1, ia1); (REG_RCTL, SE_RCTL); (REG_TCTL, SE_TCTL); (REG_THR, 63);
   (REG_RIS, 255)].

(** [Lm3sEth::receive]: a token where the controller holds a packet. *)
Definition Lm3sEth_receive (np : Z) : bool := negb (np =? 0).

(** ** Draining the sockets *)

Inductive RxKind := RK_Event | RK_General.

(** [data[..len]] is the packet. *)
Record RxPacket := mkRxPacket { rp_data : list Z; rp_kind : RxKind }.

(** [drain_socket]: what the socket has queued, the packets gathered, and what stays queued. *)
Fixpoint drain_socket (kind : RxKind) (queue : list (list Z)) (rx_out : list RxPacket)
    : list RxPacket * list (list Z) :=
  match queue with
  | [] => (rx_out, [])
  | bytes :: queue =>
      if (length rx_out =? MAX_RX_PACKETS)%nat then (rx_out, queue)
      else drain_socket kind queue (rx_out ++ [mkRxPacket (take MAX_FRAME_SIZE bytes) kind])
  end.

(** [PtpNetwork::poll] after the interface has run: the event socket, then the general one. *)
Definition PtpNetwork_poll (event_queue general_queue : list (list Z)) (rx_out : list RxPacket)
    : list RxPacket * list (list Z) * list (list Z) :=
  let '(rx_out, event_queue) := drain_socket RK_Event event_queue rx_out in
  let '(rx_out, general_queue) := drain_socket RK_General general_queue rx_out in
  (rx_out, event_queue, general_queue).

(** [SmoltcpPhysicalPort::send]: the socket a datagram goes to, and the destination port. *)
Inductive PtpSocket := EventSocket | GeneralSocket.
Definition SmoltcpPhysicalPort_socket (port : Z) : PtpSocket :=
  if port =? 319 then EventSocket else GeneralSocket.

(** ** Lemmas *)

(** The bytes of the first [k] words of the register, in order. *)
Definition data_bytes (data : nat → Z) (k : nat) : list Z :=
  seq 0 k ≫= λ i, to_le_bytes (data i).

Lemma data_bytes_S data k : data_bytes data (S k) = data_bytes data k ++ to_le_bytes (data k).
Proof.
  unfold data_bytes. rewrite seq_S, bind_app. simpl. done.
Qed.

Lemma length_data_bytes data k : length (data_bytes data k) = (4 * k)%nat.
Proof. induction k as [|k IH]; [done|]. rewrite data_bytes_S, length_app, IH. simpl. lia. Qed.

(** How much of a frame is kept. *)
Definition rx_kept (total_len : Z) : nat := Nat.min (Z.to_nat (total_len - 6)) MAX_FRAME_SIZE.

Section receive.
  Context (total_len : Z) (Htotal : 0 <= total_len < 2 ^ 16).
  #[local] Abbreviation frame_len := (Z.max 0 (total_len - 6)).
  #[local] Abbreviation kept := (rx_kept total_len).

Lemma rx_store_eq c t b :
  rx_store frame_len b (mkRxState c (take kept t)) = mkRxState c (take kept (t ++ [b])).
Proof.
  unfold rx_store. cbn [rx_buf rx_consumed]. rewrite length_take.
  destruct (Nat.lt_ge_cases (length t) kept) as [Hlt|Hge].
  - rewrite Nat.min_r by lia. unfold rx_kept in Hlt.
    rewrite (proj2 (Z.ltb_lt _ _)), (proj2 (Nat.ltb_lt _ _)) by lia.
    rewrite !take_ge; [done | rewrite length_app; simpl; unfold rx_kept; lia | unfold rx_kept; lia].
  - rewrite (take_app_le _ [b]) by done. rewrite Nat.min_l by lia.
    destruct (_ && _) eqn:E; [|done]. apply andb_true_iff in E as [E1 E2].
    apply Z.ltb_lt in E1. apply Nat.ltb_lt in E2. unfold rx_kept in *. lia.
Qed.

Lemma rx_next_eq bytes : ∀ t, (2 <= length t)%nat → 4 < total_len →
  rx_next total_len frame_len bytes (mkRxState (2 + Z.of_nat (length t)) (take kept t))
  = Done (mkRxState (2 + Z.of_nat (length t + length bytes)) (take kept (t ++ bytes))).
Proof.
  induction bytes as [|b bytes IH]; intros t Ht Hl; cbn [rx_next rx_consumed rx_buf].
  { by rewrite app_nil_r, Nat.add_0_r. }
  rewrite (proj2 (Z.leb_gt _ _)) by lia. rewrite u_chk_Done, outcome_bind_Done by lia.
  rewrite (proj2 (Z.leb_le 4 total_len)), andb_true_r by lia.
  specialize (IH (t ++ [b])). rewrite length_app, <- app_assoc in IH. cbn [length app] in IH.
  replace (2 + Z.of_nat (length t) + 1) with (2 + Z.of_nat (length t + 1)) by lia.
  replace (length t + length (b :: bytes))%nat with (length t + 1 + length bytes)%nat by (simpl; lia).
  destruct (Z.ltb_spec (total_len - 4) (2 + Z.of_nat (length t + 1))) as [Hc|Hc].
  - rewrite <- IH by lia. rewrite (take_app_le t [b]); [done|]. unfold rx_kept. lia.
  - rewrite rx_store_eq. apply IH; lia.
Qed.

Lemma rx_loop_eq data fuel : ∀ k, (1 <= k)%nat → total_len <= 4 * Z.of_nat k + 4 * Z.of_nat fuel →
  ∃ k', rx_loop fuel data k total_len frame_len
          (mkRxState (4 * Z.of_nat k) (take kept (drop 2 (data_bytes data k))))
        = Some (Done (k', mkRxState (4 * Z.of_nat k') (take kept (drop 2 (data_bytes data k'))))) ∧
    (k <= k')%nat ∧ total_len <= 4 * Z.of_nat k' ∧ (k' = k ∨ 4 * Z.of_nat k' < total_len + 4).
Proof.
  induction fuel as [|fuel IH]; intros k Hk Hf; cbn [rx_loop rx_consumed].
  { rewrite (proj2 (Z.ltb_ge _ _)) by lia. exists k. split; [done|]. lia. }
  destruct (Z.ltb_spec (4 * Z.of_nat k) total_len) as [Hlt|Hge].
  - pose proof (length_data_bytes data k) as Hl.
    pose proof (rx_next_eq (to_le_bytes (data k)) (drop 2 (data_bytes data k))) as E.
    rewrite length_drop, Hl in E. rewrite <- drop_app_le, <- data_bytes_S in E by lia.
    replace (2 + Z.of_nat (4 * k - 2)) with (4 * Z.of_nat k) in E by lia.
    replace (2 + Z.of_nat (4 * k - 2 + length (to_le_bytes (data k)))) with (4 * Z.of_nat (S k)) in E
      by (simpl; lia).
    rewrite E by lia. destruct (IH (S k)) as (k' & E' & H1 & H2 & H3); [lia | lia |].
    exists k'. split; [exact E'|]. lia.
  - exists k. split; [done|]. lia.
Qed.
End receive.

Lemma data_bytes_1 data : data_bytes data 1 = to_le_bytes (data 0%nat).
Proof. unfold data_bytes. simpl. by rewrite ?app_nil_r. Qed.

(** The token's whole read, before a frame of our own is dropped. *)
Definition rx_words (total_len : Z) : nat := Z.to_nat (Z.max 1 ((total_len + 3) / 4)).
Definition rx_frame (data : nat → Z) (total_len : Z) : list Z :=
  take (rx_kept total_len) (drop 2 (data_bytes data (rx_words total_len))).

Lemma rx_first_eq total_len w : 0 <= total_len < 2 ^ 16 →
  rx_first (Z.max 0 (total_len - 6)) (to_le_bytes w) (mkRxState 0 [])
  = mkRxState 4 (take (rx_kept total_len) (drop 2 (to_le_bytes w))).
Proof.
  intros Ht. unfold to_le_bytes.
  pose proof (rx_store_eq total_len 3 [] (Z.land (Z.shiftr w 16) 255)) as E3.
  pose proof (rx_store_eq total_len 4 [Z.land (Z.shiftr w 16) 255] (Z.land (Z.shiftr w 24) 255)) as E4.
  rewrite take_nil in E3. cbn [app] in E3, E4. cbn [drop].
  cbn [rx_first rx_consumed rx_buf]. change (0 + 1 <=? 2) with true. cbv iota. cbn [rx_consumed rx_buf].
  change (0 + 1 + 1 <=? 2) with true. cbv iota. cbn [rx_consumed rx_buf].
  change (0 + 1 + 1 + 1 <=? 2) with false. cbv iota. change (0 + 1 + 1 + 1) with 3.
  rewrite E3. cbn [rx_consumed rx_buf]. exact E4.
Qed.

(** A word of four bytes and back. *)
Lemma to_le_bytes_word a b c d : is_byte a → is_byte b → is_byte c → is_byte d →
  to_le_bytes (a + b * 2 ^ 8 + c * 2 ^ 16 + d * 2 ^ 24) = [a; b; c; d].
Proof.
  unfold is_byte, to_le_bytes. intros. rewrite !land_255, !Z.shiftr_div_pow2 by lia.
  change (2 ^ 8) with 256. change (2 ^ 16) with 65536. change (2 ^ 24) with 16777216.
  repeat f_equal; Z.div_mod_to_equations; lia.
Qed.

Lemma byte_or_0_byte data i : Forall is_byte data → is_byte (byte_or_0 data i).
Proof.
  intros H. unfold byte_or_0. destruct (data !! i) eqn:E; simpl; [by eapply Forall_lookup in E|].
  unfold is_byte. lia.
Qed.

Lemma tx_word_bytes data idx : Forall is_byte data →
  to_le_bytes (tx_word data idx)
  = [byte_or_0 data (idx + 0); byte_or_0 data (idx + 1); byte_or_0 data (idx + 2);
     byte_or_0 data (idx + 3)].
Proof.
  intros H. rewrite <- to_le_bytes_word by by apply byte_or_0_byte. f_equal.
  unfold tx_word. cbn [seq fold_left].
  pose proof (byte_or_0_byte data (idx + 0) H). pose proof (byte_or_0_byte data (idx + 1) H).
  pose proof (byte_or_0_byte data (idx + 2) H). unfold is_byte in *.
  change (8 * Z.of_nat 0) with 0. change (8 * Z.of_nat 1) with 8.
  change (8 * Z.of_nat 2) with 16. change (8 * Z.of_nat 3) with 24.
  rewrite Z.shiftl_0_r, Z.lor_0_l.
  rewrite (Z.lor_comm (byte_or_0 data (idx + 0))), lor_shiftl by lia.
  rewrite (Z.lor_comm _ (Z.shiftl _ 16)), lor_shiftl by lia.
  rewrite (Z.lor_comm _ (Z.shiftl _ 24)), lor_shiftl by lia. lia.
Qed.

Lemma bytes_4 (l : list Z) :
  [byte_or_0 l 0; byte_or_0 l 1; byte_or_0 l 2; byte_or_0 l 3]
  = take 4 l ++ replicate (4 - length l) 0.
Proof. by destruct l as [|a [|b [|c [|d l]]]]. Qed.

Lemma byte_or_0_drop data idx i : byte_or_0 data (idx + i) = byte_or_0 (drop idx data) i.
Proof. unfold byte_or_0. by rewrite lookup_drop. Qed.

Lemma tx_first_bytes z b0 b1 : 0 <= z < 65536 → is_byte b0 → is_byte b1 →
  to_le_bytes (Z.lor (Z.lor z (Z.shiftl b0 16)) (Z.shiftl b1 24)) = [z mod 256; z / 256; b0; b1].
Proof.
  intros Hz H0 H1.
  rewrite (Z.lor_comm z), lor_shiftl, (Z.lor_comm _ (Z.shiftl b1 24)), lor_shiftl by
    (unfold is_byte in *; lia).
  assert (is_byte (z mod 256) ∧ is_byte (z / 256)) as [Ha Hb].
  { unfold is_byte. Z.div_mod_to_equations. lia. }
  rewrite <- (to_le_bytes_word (z mod 256) (z / 256) b0 b1) by done. f_equal.
  pose proof (Z.div_mod z 256). lia.
Qed.

Lemma tx_words_eq data fuel : Forall is_byte data → ∀ idx,
  (length data <= idx + 4 * fuel)%nat →
  ∃ ws pad, tx_words fuel data (length data) idx = Some ws ∧
    (ws ≫= to_le_bytes) = drop idx data ++ replicate pad 0 ∧ (pad < 4)%nat ∧
    (length data <= idx → pad = 0)%nat.
Proof.
  intros Hb. induction fuel as [|fuel IH]; intros idx Hf; cbn [tx_words].
  { rewrite (proj2 (Nat.ltb_ge _ _)) by lia. exists [], 0%nat. rewrite drop_ge by lia.
    split_and!; [done | done | lia | done]. }
  destruct (Nat.ltb_spec idx (length data)) as [Hlt|Hge].
  - destruct (IH (idx + 4)%nat) as (ws & pad & -> & Ews & Hpad & H0); [lia|].
    cbn [mbind option_bind].
    assert (length (drop idx data) = length data - idx)%nat as Hl by apply length_drop.
    destruct (Nat.le_gt_cases 4 (length data - idx)) as [H4|H4].
    + exists (tx_word data idx :: ws), pad.
      rewrite bind_cons, tx_word_bytes, !byte_or_0_drop, bytes_4, Ews by done.
      rewrite <- drop_drop, Hl. replace (4 - (length data - idx))%nat with 0%nat by lia.
      cbn [replicate]. rewrite app_nil_r, app_assoc, take_drop.
      split_and!; [done | done | lia | lia].
    + exists (tx_word data idx :: ws), (4 - (length data - idx))%nat.
      rewrite bind_cons, tx_word_bytes, !byte_or_0_drop, bytes_4, Ews by done.
      rewrite H0, Hl, (take_ge (drop idx data) 4), (drop_ge data (idx + 4)) by lia.
      cbn [replicate]. rewrite !app_nil_r. split_and!; [done | done | lia | lia].
  - exists [], 0%nat. rewrite drop_ge by lia. split_and!; [done | done | lia | done].
Qed.

Lemma drain_socket_eq kind queue : ∀ rx_out, (length rx_out <= MAX_RX_PACKETS)%nat →
  let room := (MAX_RX_PACKETS - length rx_out)%nat in
  drain_socket kind queue rx_out
  = (rx_out ++ ((λ b, mkRxPacket (take MAX_FRAME_SIZE b) kind) <$> take room queue),
     drop (S room) queue).
Proof.
  induction queue as [|b queue IH]; intros out Hout; cbn [drain_socket].
  { by rewrite take_nil, drop_nil, app_nil_r. }
  destruct (Nat.eqb_spec (length out) MAX_RX_PACKETS) as [E|E].
  - rewrite E, Nat.sub_diag. cbn. by rewrite app_nil_r, drop_0.
  - rewrite IH by (rewrite length_app; simpl; lia). rewrite length_app. cbn [length].
    replace (MAX_RX_PACKETS - length out)%nat with (S (MAX_RX_PACKETS - (length out + 1))) by lia.
    cbn [take drop fmap list_fmap]. by rewrite <- app_assoc.
Qed.

(** ** Properties *)

(** Receiving a frame always ends: for a frame of [total_len] bytes the token reads exactly
    the words that hold it (one at least), and hands over the frame's payload, the bytes after the
    two of the length, cut to the buffer's 1500; never panicking, a frame that carries our own
    address as its source being replaced by an empty one. *)
Theorem rx_token_exact fuel mac data :
  let total_len := as_u 16 (data 0%nat) in
  (rx_words total_len <= fuel)%nat →
  ∃ frame, frame = take (Nat.min (Z.to_nat (total_len - 6)) MAX_FRAME_SIZE)
                     (drop 2 (data_bytes data (rx_words total_len))) ∧
    Lm3sRxToken_consume fuel mac data
    = Some (Done (rx_words total_len,
        if decide (12 <= length frame ∧ slice 6 12 frame = mac)%nat then [] else frame)).
Proof.
  intros total_len Hf. exists (rx_frame data total_len). split; [done|].
  unfold Lm3sRxToken_consume. fold total_len.
  assert (0 <= total_len < 2 ^ 16) as Ht by (apply (as_u_range 16); lia).
  clearbody total_len. rewrite rx_first_eq by done.
  destruct (rx_loop_eq total_len Ht data fuel 1) as (k & E & H1 & H2 & H3); [done | |].
  { unfold rx_words in Hf. Z.div_mod_to_equations. lia. }
  change (4 * Z.of_nat 1) with 4 in E. rewrite data_bytes_1 in E. rewrite E.
  assert (k = rx_words total_len) as -> by (unfold rx_words; Z.div_mod_to_equations; lia).
  fold (rx_frame data total_len). cbn [rx_buf].
  case_decide as D; case_match eqn:Eb; try done.
  - apply andb_false_iff in Eb as [Eb%Nat.leb_gt|Eb%bool_decide_eq_false]; [lia|tauto].
  - apply andb_true_iff in Eb as [Eb1%Nat.leb_le Eb2%bool_decide_eq_true]. tauto.
Qed.

Lemma rx_token_exact_witness :
  let data := λ i, nth i [33619977; 100992003; 0] 0 in
  (rx_words (as_u 16 (data 0%nat)) <= 3)%nat ∧
  Lm3sRxToken_consume 3 [2; 0; 0; 0; 0; 1] data = Some (Done (3%nat, [1; 2; 3])).
Proof.
  intros data. assert ((rx_words (as_u 16 (data 0%nat)) <= 3)%nat) as H by (vm_compute; lia).
  split; [exact H|].
  destruct (rx_token_exact 3 [2; 0; 0; 0; 0; 1] data H) as (frame & -> & ->). reflexivity.
Defined.

(** Transmitting always ends: for a frame of [n] bytes, [n] cut to the buffer's 1500, the
    words written to the register are, read back byte by byte, the length of the payload after the
    Ethernet header, the frame in order, and fewer than four bytes of padding. *)
Theorem tx_token_exact fuel len fill :
  let n := Nat.min len MAX_FRAME_SIZE in
  Forall is_byte (fill n) → length (fill n) = n → (14 <= n)%nat → (n <= 4 * fuel)%nat →
  ∃ words pad, Lm3sTxToken_consume fuel len fill = Some words ∧ (pad < 4)%nat ∧
    (words ≫= to_le_bytes) = [Z.of_nat (n - 14) mod 256; Z.of_nat (n - 14) / 256]
                               ++ fill n ++ replicate pad 0.
Proof.
  intros n Hb Hl Hn Hf. unfold Lm3sTxToken_consume. fold n.
  destruct (tx_words_eq (fill n) fuel Hb 2) as (ws & pad & E & Ews & Hpad & _); [lia|].
  rewrite Hl in E. rewrite E. cbn [mbind option_bind]. eexists _, pad. split; [done|].
  split; [done|].
  replace (Z.max 0 (Z.of_nat n - 14)) with (Z.of_nat (n - 14)) by lia.
  assert (n <= 1500)%nat by (unfold n, MAX_FRAME_SIZE; lia).
  rewrite bind_cons, Ews, tx_first_bytes by (lia || by apply byte_or_0_byte).
  clearbody n. destruct (fill n) as [|b0 [|b1 l]]; [simpl in Hl; lia..|done].
Qed.

Lemma tx_token_exact_witness :
  Forall is_byte (replicate 16 7) ∧
  ∃ words pad, Lm3sTxToken_consume 4 16 (λ n, replicate n 7) = Some words ∧ (pad < 4)%nat ∧
    (words ≫= to_le_bytes) = [2; 0] ++ replicate 16 7 ++ replicate pad 0.
Proof.
  assert (Forall is_byte (replicate 16 7)) as H.
  { apply Forall_replicate. unfold is_byte. lia. }
  split; [exact H|].
  exact (tx_token_exact 4 16 (λ n, replicate n 7) H eq_refl ltac:(vm_compute; lia)
    ltac:(vm_compute; lia)).
Defined.

(** An iteration takes at most four packets, the event socket's first, each cut to 1500 bytes;
    but when a queue holds more than fit, the one after the last that fits is taken from its socket
    and lost, and a general packet is lost in every iteration that finds four event packets. *)
Theorem poll_loses_one_packet event_queue general_queue :
  let n := length (take MAX_RX_PACKETS event_queue) in
  PtpNetwork_poll event_queue general_queue []
  = (((λ b, mkRxPacket (take MAX_FRAME_SIZE b) RK_Event) <$> take MAX_RX_PACKETS event_queue)
       ++ ((λ b, mkRxPacket (take MAX_FRAME_SIZE b) RK_General)
             <$> take (MAX_RX_PACKETS - n) general_queue),
     drop (S MAX_RX_PACKETS) event_queue, drop (S (MAX_RX_PACKETS - n)) general_queue).
Proof.
  intros n. unfold PtpNetwork_poll. rewrite drain_socket_eq by (unfold MAX_RX_PACKETS; simpl; lia). cbv zeta.
  change (MAX_RX_PACKETS - length _)%nat with MAX_RX_PACKETS.
  rewrite drain_socket_eq by (rewrite app_nil_l, length_fmap, length_take; apply Nat.le_min_l). cbv zeta.
  rewrite app_nil_l, length_fmap. done.
Qed.
