(* ===== verification/Embedded.v ===== *)
(** * The embedded demo (crates/rptp-embedded-demo/src/main.rs)

    The bare-metal program around an ordinary clock: the static array of timer slots, the queue of
    transmit timestamps, the timer host and timestamping adapters, and the main loop, one iteration
    per wake-up. An iteration's input is what the hardware shows it: the values the tick and cycle
    counters have at each of its reads, and the datagrams the network interface delivered. *)

From S2P Require Import Prelude Errors Time Clock PortId DataSet Foreign Stores Wire Message.
From S2P Require Import Effects Servo E2e Bmca Profile Handlers PortState Clocks System.
From S2P Require Import VirtualClock EmbeddedClocks EmbeddedNet.

Open Scope Z_scope.

(** ** The timestamp queue *)

Definition TIMESTAMP_QUEUE_LEN : nat := 8.

(** [heapless::Deque<SystemMessage, N>]: the operations the demo uses. [dq_push_back] returns
    [None] for [Err(item)]. *)
Class HeaplessDeque (N : nat) (Q : Type) := {
  dq_new : Q;
  dq_push_back : SystemMessage → Q → option Q;
  dq_pop_front : Q → option (SystemMessage * Q);
  dq_list : Q → list SystemMessage;
}.

(** Its documented behaviour, [dq_list] being the contents from front to back. *)
Class HeaplessDequeLaws (N : nat) (Q : Type) `{!HeaplessDeque N Q} : Prop := {
  dq_new_list : dq_list dq_new = [];
  dq_capacity : ∀ q, (length (dq_list q) <= N)%nat;
  dq_push_ok : ∀ m q, (length (dq_list q) < N)%nat →
    ∃ q', dq_push_back m q = Some q' ∧ dq_list q' = dq_list q ++ [m];
  dq_push_full : ∀ m q, length (dq_list q) = N → dq_push_back m q = None;
  dq_pop_nil : ∀ q, dq_list q = [] → dq_pop_front q = None;
  dq_pop_cons : ∀ q m l, dq_list q = m :: l →
    ∃ q', dq_pop_front q = Some (m, q') ∧ dq_list q' = l;
}.

(** ** Timer slots *)

Record TimerSlot := mkTimerSlot {
  ts_allocated : bool;
  ts_active : bool;
  ts_deadline : Instant;
  ts_msg : SystemMessage;
}.

Definition MAX_TIMERS : nat := 16.

Definition TIMER_SLOTS : list TimerSlot :=
  replicate MAX_TIMERS (mkTimerSlot false false Instant_zero SM_Initialized).

(** The loop of [TimerSlot::alloc]: the first slot that is not allocated, if any. *)
Fixpoint alloc_from (idx : nat) (msg : SystemMessage) (slots : list TimerSlot)
    : option (nat * list TimerSlot) :=
  match slots with
  | [] => None
  | slot :: slots =>
      if negb (ts_allocated slot)
      then Some (idx, mkTimerSlot true false Instant_zero msg :: slots)
      else
        '(i, slots) ← alloc_from (S idx) msg slots;
        Some (i, slot :: slots)
  end.

Definition TimerSlot_alloc (msg : SystemMessage) (slots : list TimerSlot)
    : option (nat * list TimerSlot) := alloc_from 0 msg slots.

(** [restart], with the monotonic clock reading [now]. *)
Definition TimerSlot_restart (now : Instant) (delay : Duration) (self : TimerSlot) : TimerSlot :=
  mkTimerSlot (ts_allocated self) true (Instant_saturating_add now delay) (ts_msg self).

(** [restart_with_message] of the slot's handle, the clock reading [now]. *)
Definition TimerSlot_restart_with_message (now : Instant) (msg : SystemMessage)
    (timeout : Duration) (self : TimerSlot) : TimerSlot :=
  let self := mkTimerSlot (ts_allocated self) (ts_active self) (ts_deadline self) msg in
  if Duration_as_u64_nanos timeout =? 0
  then mkTimerSlot (ts_allocated self) true now (ts_msg self)
  else TimerSlot_restart now timeout self.

(** ** The program's state *)

(** [dm_handles] are the [DemoTimeout]s handed out, with their slots; dropping one does nothing.
    [dm_event_queue] and [dm_general_queue] are what the two sockets hold; [dm_tick_reads] and
    [dm_cycle_reads] count the iteration's reads of the two counters. *)
Record Demo (V Q : Type) := mkDemo {
  dm_port_map : SingleDomainPortMap (HeaplessForeignClockRecords V);
  dm_world : World OrdinaryClock;
  dm_slots : list TimerSlot;
  dm_handles : list (Timeout * nat);
  dm_timestamps : Q;
  dm_instant_clock : InstantClock;
  dm_clock : CycleClock;
  dm_event_queue : list (list Z);
  dm_general_queue : list (list Z);
  dm_tick_reads : nat;
  dm_cycle_reads : nat;
}.
Arguments mkDemo {V Q}.
Arguments dm_port_map {V Q}.
Arguments dm_world {V Q}.
Arguments dm_slots {V Q}.
Arguments dm_handles {V Q}.
Arguments dm_timestamps {V Q}.
Arguments dm_instant_clock {V Q}.
Arguments dm_clock {V Q}.
Arguments dm_event_queue {V Q}.
Arguments dm_general_queue {V Q}.
Arguments dm_tick_reads {V Q}.
Arguments dm_cycle_reads {V Q}.

(** What an iteration sees: the [k]th read of each counter, and the datagrams that arrived. *)
Record Iteration := mkIteration {
  it_ticks : nat → Z;
  it_cycles : nat → Z;
  it_event : list (list Z);
  it_general : list (list Z);
}.

Section demo.
  Context {F : Type} `{HF : !MessageFlagsOps F} `{HE : !Env}.
  Context {V : Type} `{HV : !HeaplessVec 4 V} {Q : Type} `{HQ : !HeaplessDeque TIMESTAMP_QUEUE_LEN Q}.
  #[local] Abbreviation demo := (Demo V Q).
  #[local] Abbreviation Records := (HeaplessForeignClockRecords V).
  #[local] Existing Instance Heapless_ForeignClockRecords.

Definition set_port_map (p : SingleDomainPortMap Records) (w : World OrdinaryClock) (d : demo)
    : demo :=
  mkDemo p w (dm_slots d) (dm_handles d) (dm_timestamps d) (dm_instant_clock d) (dm_clock d)
    (dm_event_queue d) (dm_general_queue d) (dm_tick_reads d) (dm_cycle_reads d).
Definition set_slots (s : list TimerSlot) (h : list (Timeout * nat)) (d : demo) : demo :=
  mkDemo (dm_port_map d) (dm_world d) s h (dm_timestamps d) (dm_instant_clock d) (dm_clock d)
    (dm_event_queue d) (dm_general_queue d) (dm_tick_reads d) (dm_cycle_reads d).
Definition set_timestamps (q : Q) (d : demo) : demo :=
  mkDemo (dm_port_map d) (dm_world d) (dm_slots d) (dm_handles d) q (dm_instant_clock d)
    (dm_clock d) (dm_event_queue d) (dm_general_queue d) (dm_tick_reads d) (dm_cycle_reads d).
Definition set_clocks (i : InstantClock) (c : CycleClock) (tick_reads cycle_reads : nat) (d : demo)
    : demo :=
  mkDemo (dm_port_map d) (dm_world d) (dm_slots d) (dm_handles d) (dm_timestamps d) i c
    (dm_event_queue d) (dm_general_queue d) tick_reads cycle_reads.
Definition set_queues (event general : list (list Z)) (d : demo) : demo :=
  mkDemo (dm_port_map d) (dm_world d) (dm_slots d) (dm_handles d) (dm_timestamps d)
    (dm_instant_clock d) (dm_clock d) event general (dm_tick_reads d) (dm_cycle_reads d).

(** [SYSTEM_TICK.now()], [instant_clock.now()] and [demo_clock.now()] at this point. *)
Definition read_ticks (it : Iteration) (d : demo) : Ticks * demo :=
  (SystemTick_now (mkSystemTick (it_ticks it (dm_tick_reads d))),
   set_clocks (dm_instant_clock d) (dm_clock d) (S (dm_tick_reads d)) (dm_cycle_reads d) d).

Definition read_instant (it : Iteration) (d : demo) : outcome (Instant * demo) :=
  '(now, c) ← InstantClock_now (mkSystemTick (it_ticks it (dm_tick_reads d))) (dm_instant_clock d);
  Done (now, set_clocks c (dm_clock d) (S (dm_tick_reads d)) (dm_cycle_reads d) d).

Definition read_clock (it : Iteration) (d : demo) : outcome (TimeStamp * demo) :=
  '(t, c) ← CycleClock_now (mkCycles (it_cycles it (dm_cycle_reads d))) (dm_clock d);
  Done (t, set_clocks (dm_instant_clock d) c (dm_tick_reads d) (S (dm_cycle_reads d)) d).

(** [DemoTimerHost::timeout]: no free slot is a panic. *)
Definition DemoTimerHost_timeout (t : Timeout) (d : demo) : outcome demo :=
  '(i, slots) ← unwrap (TimerSlot_alloc (th_msg t) (dm_slots d));
  Done (set_slots slots (dm_handles d ++ [(t, i)]) d).

Definition slot_of (t : Timeout) (d : demo) : option nat :=
  snd <$> head (filter (λ e, e.1 = t) (dm_handles d)).

(** [DemoTimeout::restart] and [restart_with_message], each reading the clock once. *)
Definition DemoTimeout_restart (it : Iteration) (t : Timeout) (delay : Duration) (d : demo)
    : outcome demo :=
  match slot_of t d with
  | None => Done d
  | Some i =>
      '(now, d) ← read_instant it d;
      Done (set_slots (alter (TimerSlot_restart now delay) i (dm_slots d)) (dm_handles d) d)
  end.

Definition DemoTimeout_restart_with_message (it : Iteration) (t : Timeout) (msg : SystemMessage)
    (delay : Duration) (d : demo) : outcome demo :=
  match slot_of t d with
  | None => Done d
  | Some i =>
      '(now, d) ← read_instant it d;
      Done (set_slots (alter (TimerSlot_restart_with_message now msg delay) i (dm_slots d))
              (dm_handles d) d)
  end.

(** [DemoTimestamping::stamp_egress]: a full queue is a panic. *)
Definition DemoTimestamping_stamp_egress (it : Iteration) (msg : EventMessage) (d : demo)
    : outcome demo :=
  '(ts, d) ← read_clock it d;
  q ← unwrap (dq_push_back (SM_Timestamp (mkTimestampMessage msg ts)) (dm_timestamps d));
  Done (set_timestamps q d).

(** One effect of the port; the socket's answer to a send was part of the step, stepping and
    adjusting the cycle clock do nothing, logs are printed. *)
Definition demo_effect (it : Iteration) (e : Effect) (d : demo) : outcome demo :=
  match e with
  | E_NewTimeout t => DemoTimerHost_timeout t d
  | E_Restart t delay => DemoTimeout_restart it t delay d
  | E_RestartWithMessage t msg delay => DemoTimeout_restart_with_message it t msg delay d
  | E_StampEgress _ msg => DemoTimestamping_stamp_egress it msg d
  | E_ClockStep to =>
      Done (set_clocks (dm_instant_clock d) (CycleClock_step to (dm_clock d)) (dm_tick_reads d)
              (dm_cycle_reads d) d)
  | E_ClockAdjust rate =>
      Done (set_clocks (dm_instant_clock d) (CycleClock_adjust rate (dm_clock d)) (dm_tick_reads d)
              (dm_cycle_reads d) d)
  | E_SendEvent _ _ _ | E_SendGeneral _ _ _ | E_Log _ _ | E_Metric _ => Done d
  end.

Fixpoint demo_effects (it : Iteration) (es : list Effect) (d : demo) : outcome demo :=
  match es with
  | [] => Done d
  | e :: es => d ← demo_effect it e d; demo_effects it es d
  end.

(** Run core code on the port map, then act on its effects. *)
Definition demo_step (it : Iteration) (m : M OrdinaryClock (SingleDomainPortMap Records)) (d : demo)
    : outcome demo :=
  match m (dm_world d) with
  | Panic => Panic
  | Done (p, w) =>
      demo_effects it (drop (length (w_trace (dm_world d))) (w_trace w)) (set_port_map p w d)
  end.

(** [port_map.port_by_domain(DomainNumber::new(0)).map(..process_system_message(msg)).ok()]. *)
Definition inject (it : Iteration) (msg : SystemMessage) (d : demo) : outcome demo :=
  match port_by_domain (P := PortFsm Records) (mkDomainNumber 0) (dm_port_map d) with
  | Err _ => Done d
  | Ok (port, put_back) =>
      demo_step it (port ← process_system_message msg port; mret (put_back port)) d
  end.

(** [process_packet]; an error is only printed. *)
Definition process_packet (it : Iteration) (packet : RxPacket) (now : Instant)
    (ingress_timestamp : TimeStamp) (d : demo) : outcome demo :=
  demo_step it
    ('(_, ports) ← match rp_kind packet with
      | RK_Event =>
          MessageIngress_receive_event (F := F) (P := PortFsm Records) (rp_data packet)
            ingress_timestamp (dm_port_map d)
      | RK_General =>
          MessageIngress_receive_general (F := F) (P := PortFsm Records) (rp_data packet) now
            (dm_port_map d)
      end;
     mret ports) d.

(** [for packet in rx_packets.iter()]; the clock is read for each. *)
Fixpoint process_packets (it : Iteration) (now : Instant) (packets : list RxPacket) (d : demo)
    : outcome demo :=
  match packets with
  | [] => Done d
  | packet :: packets =>
      '(ts, d) ← read_clock it d;
      d ← process_packet it packet now ts d;
      process_packets it now packets d
  end.

(** [while let Some(msg) = TIMESTAMP_QUEUE.pop()], [None] where the fuel runs out. *)
Fixpoint drain_timestamps (fuel : nat) (it : Iteration) (d : demo) : option (outcome demo) :=
  match dq_pop_front (dm_timestamps d) with
  | None => Some (Done d)
  | Some (msg, q) =>
      match fuel with
      | O => None
      | S fuel =>
          match inject it msg (set_timestamps q d) with
          | Done d => drain_timestamps fuel it d
          | Panic => Some Panic
          end
      end
  end.

(** [for slot in slots.iter_mut()]: the slot is looked at when its turn comes, so that what the
    ones before it did to it counts. *)
Fixpoint drive_timers (it : Iteration) (now : Instant) (idxs : list nat) (d : demo)
    : outcome demo :=
  match idxs with
  | [] => Done d
  | i :: idxs =>
      match dm_slots d !! i with
      | None => drive_timers it now idxs d
      | Some slot =>
          if ts_active slot && (i_nanos (ts_deadline slot) <=? i_nanos now) then
            let slots := <[i := mkTimerSlot (ts_allocated slot) false (ts_deadline slot)
                                  (ts_msg slot)]> (dm_slots d) in
            d ← inject it (ts_msg slot) (set_slots slots (dm_handles d) d);
            drive_timers it now idxs d
          else drive_timers it now idxs d
      end
  end.

(** One turn of [main]'s loop. *)
Definition demo_iteration (fuel : nat) (it : Iteration) (d : demo) : option (outcome demo) :=
  let d := set_clocks (dm_instant_clock d) (dm_clock d) 0 0 d in
  let polled :=
    '(now, d) ← read_instant it d;
    let '(ticks, d) := read_ticks it d in
    _ ← Ticks_as_smol_instant ticks;
    let '(rx_packets, event, general) :=
      PtpNetwork_poll (dm_event_queue d ++ it_event it) (dm_general_queue d ++ it_general it) [] in
    d ← process_packets it now rx_packets (set_queues event general d);
    Done (now, d) in
  match polled with
  | Panic => Some Panic
  | Done (now, d) =>
      match drain_timestamps fuel it d with
      | Some (Done d) => Some (drive_timers it now (seq 0 MAX_TIMERS) d)
      | r => r
      end
  end.

Fixpoint demo_run (fuel : nat) (its : list Iteration) (d : demo) : option (outcome demo) :=
  match its with
  | [] => Some (Done d)
  | it :: its =>
      match demo_iteration fuel it d with
      | Some (Done d) => demo_run fuel its d
      | r => r
      end
  end.

(** ** Start-up *)

Definition demo_default_ds : ClockDS :=
  mkClockDS (mkClockIdentity [0; 27; 25; 255; 254; 0; 0; 1]) (mkPriority1 100) (mkPriority2 127)
    (mkClockQuality CC_Default CA_Within10ms 65535) (mkStepsRemoved 0).

(** [main] up to its loop: [time], [clock] and [tickfreq] are the host's answers, the first tick
    read is 0 and the first cycle read that of the clock's construction. [None] stands for the
    [expect] of a port that is not there, which does not happen to a new clock. *)
Definition demo_main (time clock tickfreq : Z) (it : Iteration) : outcome demo :=
  let instant_clock := InstantClock_new (SystemTick_now (mkSystemTick (it_ticks it 0))) in
  seed ← SemiHostingTime_now time clock tickfreq;
  zero ← TimeStamp_new 0 0;
  let seed_ts := default zero seed in
  let demo_clock := CycleClock_new seed_ts (mkCycles (it_cycles it 0)) in
  _ ← Ticks_as_smol_instant (SystemTick_now (mkSystemTick (it_ticks it 1)));
  profile ← PortProfile_default;
  let profile := PortProfile_with_servo_config SC_Stepping profile in
  ordinary_clock ← OrdinaryClock_new demo_default_ds (mkDomainNumber 0) profile;
  let port_identity :=
    PortIdentity_new (cds_identity demo_default_ds) (PortNumber_new 1) in
  match OrdinaryClock_port (HeaplessForeignClockRecords_new 4 V port_identity)
          (mkWorld [] ordinary_clock) with
  | Panic | Done (None, _) => Panic
  | Done (Some port, w) =>
      d ← demo_effects it (w_trace w)
            (mkDemo (SingleDomainPortMap_new (mkDomainNumber 0) port) w TIMER_SLOTS [] dq_new
               instant_clock demo_clock [] [] 2 1);
      inject it SM_Initialized d
  end.
End demo.

Arguments demo_main {F HF HE V HV Q HQ}.
Arguments demo_run {F HF HE V HV Q HQ}.

(** ** A concrete queue *)

Record queue (N : nat) := mkQueue {
  qu_list : list SystemMessage;
  qu_ok : (length qu_list <=? N)%nat = true;
}.
Arguments mkQueue {N}.
Arguments qu_list {N}.

Definition queue_of (N : nat) (l : list SystemMessage) : option (queue N) :=
  match decide ((length l <=? N)%nat = true) with
  | left H => Some (mkQueue l H)
  | right _ => None
  end.

#[export] Instance queue_HeaplessDeque (N : nat) : HeaplessDeque N (queue N) := {
  dq_new := mkQueue [] eq_refl;
  dq_push_back m q := queue_of N (qu_list q ++ [m]);
  dq_pop_front q :=
    match qu_list q with
    | [] => None
    | m :: l => q' ← queue_of N l; Some (m, q')
    end;
  dq_list := qu_list;
}.

Lemma queue_of_ok N l : (length l <= N)%nat → ∃ q, queue_of N l = Some q ∧ qu_list q = l.
Proof.
  intros H. unfold queue_of. destruct (decide _) as [|n]; [by eexists|].
  by destruct n; apply Nat.leb_le.
Qed.

#[export] Instance queue_HeaplessDequeLaws (N : nat) : HeaplessDequeLaws N (queue N).
Proof.
  assert (∀ q : queue N, (length (qu_list q) <= N)%nat) as Hcap.
  { intros [l H]; simpl. by apply Nat.leb_le. }
  split; simpl; [done | exact Hcap | | | |].
  - intros m q H. apply queue_of_ok. rewrite length_app; simpl. lia.
  - intros m q H. unfold queue_of. destruct (decide _) as [E|]; [|done]. exfalso.
    apply Nat.leb_le in E. rewrite length_app in E. simpl in E. lia.
  - by intros q ->.
  - intros q m l E. specialize (Hcap q). rewrite E in *. simpl in Hcap.
    destruct (queue_of_ok N l) as (q' & -> & ?); [lia|]. by exists q'.
Qed.
