(* ===== verification/EmbeddedSafety.v ===== *)
(** * What the embedded demo does (crates/rptp-embedded-demo/src/main.rs)

    The timer slots and the timestamp queue over whole runs, the termination of an iteration, and
    concrete runs: one in which the demo, alone, serves time, and two in which another master makes
    it crash. *)

From S2P Require Import Prelude Errors Time Clock PortId DataSet Foreign Stores Wire Message.
From S2P Require Import Effects Servo E2e Bmca Profile Handlers PortState Clocks System.
From S2P Require Import VirtualClock EmbeddedClocks EmbeddedNet Embedded.

Open Scope Z_scope.

(** ** Timestamps are handled without asking for timestamps *)

Definition no_stamp (e : Effect) : Prop := match e with E_StampEgress _ _ => False | _ => True end.

Section timestamps.
  Context {F : Type} `{HF : !MessageFlagsOps F} `{HE : !Env}.
  Context {S : Type} `{HS : !StateDecisionEvent S} {R : Type} `{HR : !ForeignClockRecords R}.

Lemma send_general_no_stamp msg p : emits (S := S) no_stamp (DomainPort_send_general (F := F) msg p).
Proof. unfold DomainPort_send_general. emits. Qed.

Lemma log_no_stamp ev p : emits (S := S) no_stamp (DomainPort_log ev p).
Proof. by apply emits_emit. Qed.
#[local] Hint Resolve send_general_no_stamp log_no_stamp : emits.

Lemma timestamp_dispatch m (s : PortState R) :
  emits (S := S) no_stamp (PortState_dispatch_system (F := F) (SM_Timestamp m) s).
Proof.
  destruct s; simpl; unfold decided, sent, SlavePort_process_delay_request,
    UncalibratedPort_process_delay_request, MasterPort_send_follow_up; emits.
Qed.

(** The only decision a timestamp leads to is a master's, when its follow-up cannot be sent. *)
Lemma timestamp_decision m (s : PortState R) (w w' : World S) d s' :
  PortState_dispatch_system (F := F) (SM_Timestamp m) s w = Done (d, s', w') →
  d = None ∨ (d = Some FaultDetected ∧ ∃ p, s' = Master p).
Proof.
  destruct s; simpl; try (intros [= <- <- <-]; by left).
  - destruct (tm_event_msg m); intros [= <- <- <-]; by left.
  - destruct (tm_event_msg m); try (intros [= <- <- <-]; by left). intros E.
    unfold sent, MasterPort_send_follow_up, mbind, M_bind in E.
    destruct (DomainPort_send_general _ _ w) as [[[] w1]|]; [| |done]; simpl in E;
      injection E as <- <- <-; [by left | right; split; [done|by eexists]].
  - destruct (tm_event_msg m); intros [= <- <- <-]; by left.
Qed.

Lemma timestamp_no_stamp m (fsm : PortFsm R) :
  emits (S := S) no_stamp (PortFsm_process_system_message (F := F) (SM_Timestamp m) fsm).
Proof.
  unfold PortFsm_process_system_message, PortFsm_drive.
  destruct (fsm_state fsm) as [s|]; [|apply emits_ret].
  apply emits_bind_eq; [apply timestamp_dispatch|]. intros [d s'] w w' E.
  apply timestamp_decision in E as [->|(-> & p & ->)]; [apply emits_ret|].
  unfold PortFsm_apply_decision; simpl.
  unfold MasterPort_fault_detected, PortProfile_faulty, FaultyPort_new. emits.
Qed.
End timestamps.

(** ** What a run preserves *)

Section demo.
  Context {F : Type} `{HF : !MessageFlagsOps F} `{HE : !Env}.
  Context {V : Type} `{HV : !HeaplessVec 4 V} {Q : Type} `{HQ : !HeaplessDeque TIMESTAMP_QUEUE_LEN Q}.

(** A property of the demo's state that its elementary updates preserve. *)
Record stable (J : Demo V Q → Prop) : Prop := {
  st_core : ∀ p w d, J d → J (set_port_map p w d);
  st_effect : ∀ it e d d', J d → demo_effect it e d = Done d' → J d';
  st_clocks : ∀ i c n k d, J d → J (set_clocks i c n k d);
  st_pop : ∀ m q d, J d → dq_pop_front (dm_timestamps d) = Some (m, q) → J (set_timestamps q d);
  st_queues : ∀ ev ge d, J d → J (set_queues ev ge d);
  st_fire : ∀ i slot d, J d → dm_slots d !! i = Some slot →
    J (set_slots (<[i := mkTimerSlot (ts_allocated slot) false (ts_deadline slot) (ts_msg slot)]>
                    (dm_slots d)) (dm_handles d) d);
}.

Section stable.
  Context (J : Demo V Q → Prop) (HJ : stable J).

Lemma effects_stable it es : ∀ d d', J d → demo_effects it es d = Done d' → J d'.
Proof.
  induction es as [|e es IH]; intros d d' H E; simpl in E; [by injection E as <-|].
  apply outcome_bind_inv in E as (d1 & E1 & E2). eapply IH; [|done]. by eapply (st_effect J HJ).
Qed.

Lemma step_stable it m d d' : J d → demo_step it m d = Done d' → J d'.
Proof.
  intros H E. unfold demo_step in E. destruct (m (dm_world d)) as [[p w]|]; [|done].
  eapply effects_stable; [|done]. by apply HJ.
Qed.

Lemma inject_stable it msg d d' : J d → inject (F := F) it msg d = Done d' → J d'.
Proof.
  intros H E. unfold inject in E. destruct (port_by_domain _ _) as [[port put_back]|];
    [by eapply step_stable | by injection E as <-].
Qed.

Lemma packets_stable it now packets : ∀ d d', J d →
  process_packets (F := F) it now packets d = Done d' → J d'.
Proof.
  induction packets as [|p packets IH]; intros d d' H E; simpl in E; [by injection E as <-|].
  apply outcome_bind_inv in E as ([ts d1] & E1 & E). apply outcome_bind_inv in E as (d2 & E2 & E3).
  unfold read_clock in E1. apply outcome_bind_inv in E1 as ([t c] & _ & [= <- <-]).
  eapply IH; [|done]. eapply step_stable; [|done]. by apply HJ.
Qed.

Lemma drain_stable it fuel : ∀ d d', J d →
  drain_timestamps (F := F) fuel it d = Some (Done d') → J d'.
Proof.
  induction fuel as [|fuel IH]; intros d d' H E; simpl in E;
    (destruct (dq_pop_front _) as [[m q]|] eqn:Ep; [|by injection E as <-]); [done|].
  destruct (inject (F := F) it m _) as [d1|] eqn:E1; [|done]. eapply IH; [|done].
  eapply inject_stable; [|done]. by eapply (st_pop J HJ).
Qed.

Lemma timers_stable it now idxs : ∀ d d', J d →
  drive_timers (F := F) it now idxs d = Done d' → J d'.
Proof.
  induction idxs as [|i idxs IH]; intros d d' H E; simpl in E; [by injection E as <-|].
  destruct (dm_slots d !! i) as [slot|] eqn:Es; [|by eapply IH].
  destruct (_ && _); [|by eapply IH].
  apply outcome_bind_inv in E as (d1 & E1 & E2). eapply IH; [|done].
  eapply inject_stable; [|done]. by apply (st_fire J HJ).
Qed.

(** The first part of an iteration. *)
Lemma polled_stable it d now d1 : J d →
  ('(now, d) ← read_instant it (set_clocks (dm_instant_clock d) (dm_clock d) 0 0 d);
   let '(ticks, d) := read_ticks it d in
   _ ← Ticks_as_smol_instant ticks;
   let '(rx_packets, event, general) :=
     PtpNetwork_poll (dm_event_queue d ++ it_event it) (dm_general_queue d ++ it_general it) [] in
   d ← process_packets (F := F) it now rx_packets (set_queues event general d);
   Done (now, d)) = Done (now, d1) → J d1.
Proof.
  intros H E. apply outcome_bind_inv in E as ([i d2] & E1 & E2).
  unfold read_instant in E1. apply outcome_bind_inv in E1 as ([t c] & _ & [= <- <-]).
  cbn [read_ticks] in E2. apply outcome_bind_inv in E2 as (ms & _ & E2).
  destruct (PtpNetwork_poll _ _ _) as [[packets ev] ge].
  apply outcome_bind_inv in E2 as (d3 & E2 & [= <- <-]). eapply packets_stable; [|exact E2].
  by apply (st_queues J HJ), (st_clocks J HJ), (st_clocks J HJ), (st_clocks J HJ).
Qed.

Lemma iteration_stable fuel it d d' : J d →
  demo_iteration (F := F) fuel it d = Some (Done d') → J d'.
Proof.
  intros H E. unfold demo_iteration in E.
  match type of E with match ?m with _ => _ end = _ => destruct m as [[now d1]|] eqn:Em end; [|done].
  apply polled_stable in Em; [|done].
  destruct (drain_timestamps (F := F) fuel it d1) as [[d2|]|] eqn:Ed; [|done..].
  apply (inj Some) in E. eapply timers_stable; [|done]. by eapply drain_stable.
Qed.

Lemma run_stable fuel its : ∀ d d', J d → demo_run fuel its d = Some (Done d') → J d'.
Proof.
  induction its as [|it its IH]; intros d d' H E; simpl in E; [by injection E as <-|].
  destruct (demo_iteration (F := F) fuel it d) as [[d1|]|] eqn:E1; [|done..].
  eapply IH; [|done]. by eapply iteration_stable.
Qed.

Lemma main_stable time clock tickfreq it d :
  (∀ p w i c n k, J (mkDemo p w TIMER_SLOTS [] dq_new i c [] [] n k)) →
  demo_main (F := F) time clock tickfreq it = Done d → J d.
Proof.
  intros H E. unfold demo_main in E.
  do 5 apply outcome_bind_inv in E as (? & _ & E).
  apply outcome_bind_inv in E as ([[port|] w] & _ & E); [|done].
  apply outcome_bind_inv in E as (d1 & E1 & E2). eapply inject_stable; [|exact E2].
  by eapply effects_stable; [|exact E1].
Qed.
End stable.

(** ** The timer slots *)

(** The slots handed out are the first ones, in the order the timeouts were created. *)
Definition timers_ok (d : Demo V Q) : Prop :=
  length (dm_slots d) = MAX_TIMERS ∧ (length (dm_handles d) <= MAX_TIMERS)%nat ∧
  snd <$> dm_handles d = seq 0 (length (dm_handles d)) ∧
  ∀ i slot, dm_slots d !! i = Some slot →
    ts_allocated slot = (i <? length (dm_handles d))%nat.

Lemma alloc_from_eq msg slots : ∀ idx n,
  (∀ i slot, slots !! i = Some slot → ts_allocated slot = (i <? n)%nat) →
  alloc_from idx msg slots
  = if (n <? length slots)%nat
    then Some ((idx + n)%nat, <[n := mkTimerSlot true false Instant_zero msg]> slots) else None.
Proof.
  induction slots as [|s slots IH]; intros idx n H; [done|]. simpl.
  rewrite (H 0%nat s eq_refl). destruct n as [|n]; simpl; [by rewrite Nat.add_0_r|].
  rewrite (IH (S idx) n) by (intros i slot Hi; apply (H (S i) slot Hi)).
  change (S n <? S (length slots))%nat with (n <? length slots)%nat.
  destruct (n <? length slots)%nat; [|done]. simpl. do 3 f_equal. lia.
Qed.

Lemma alter_allocated (f : TimerSlot → TimerSlot) (j : nat) (slots : list TimerSlot) n :
  (∀ s, ts_allocated (f s) = ts_allocated s) →
  (∀ i slot, slots !! i = Some slot → ts_allocated slot = (i <? n)%nat) →
  ∀ i slot, alter f j slots !! i = Some slot → ts_allocated slot = (i <? n)%nat.
Proof.
  intros Hf H i slot E. destruct (decide (i = j)) as [->|Hne].
  - rewrite list_lookup_alter_eq in E. apply fmap_Some in E as (s & Es & ->). rewrite Hf. by apply H.
  - rewrite list_lookup_alter_ne in E by done. by apply H.
Qed.

Lemma timers_ok_slots f j d : (∀ s, ts_allocated (f s) = ts_allocated s) → timers_ok d →
  timers_ok (set_slots (alter f j (dm_slots d)) (dm_handles d) d).
Proof.
  intros Hf (Hl & Hn & Hs & Ha). split; [by simpl; rewrite length_alter|].
  split; [done|]. split; [done|]. simpl. by apply alter_allocated.
Qed.

Lemma restart_with_message_allocated now msg delay s :
  ts_allocated (TimerSlot_restart_with_message now msg delay s) = ts_allocated s.
Proof. unfold TimerSlot_restart_with_message. by case_match. Qed.

Lemma read_instant_inv it (d : Demo V Q) now d' : read_instant it d = Done (now, d') →
  ∃ i n, d' = set_clocks i (dm_clock d) n (dm_cycle_reads d) d.
Proof.
  intros E. apply outcome_bind_inv in E as ([t c] & _ & [= _ <-]). by eexists _, _.
Qed.

(** What an effect can do to the program's state. *)
Lemma demo_effect_cases it e (d d' : Demo V Q) : demo_effect it e d = Done d' →
  (∃ t, e = E_NewTimeout t ∧ DemoTimerHost_timeout t d = Done d') ∨
  (∃ f i c n k, (∀ s, ts_allocated (f s) = ts_allocated s) ∧ no_stamp e ∧
     d' = set_slots (alter f i (dm_slots d)) (dm_handles d) (set_clocks c (dm_clock d) n k d)) ∨
  (∃ p msg ts c n k q, e = E_StampEgress p msg ∧
     dq_push_back (SM_Timestamp (mkTimestampMessage msg ts)) (dm_timestamps d) = Some q ∧
     d' = set_timestamps q (set_clocks (dm_instant_clock d) c n k d)) ∨
  (no_stamp e ∧ ∃ i c n k, d' = set_clocks i c n k d).
Proof.
  assert (∃ i c n k, d = set_clocks i c n k d) as Hid by (destruct d; by eexists _, _, _, _).
  intros E. destruct e; simpl in E.
  2: by left; eexists.
  all: try (injection E as <-; do 3 right; split; [done | first [exact Hid | by eexists _, _, _, _]]).
  - unfold DemoTimeout_restart in E.
    destruct (slot_of t d) as [i|]; [|by injection E as <-; do 3 right].
    apply outcome_bind_inv in E as ([now d1] & E1 & [= <-]).
    apply read_instant_inv in E1 as (c & n & ->).
    right; left. by exists (TimerSlot_restart now after), i, c, n, (dm_cycle_reads d).
  - unfold DemoTimeout_restart_with_message in E.
    destruct (slot_of t d) as [i|]; [|by injection E as <-; do 3 right].
    apply outcome_bind_inv in E as ([now d1] & E1 & [= <-]).
    apply read_instant_inv in E1 as (c & n & ->).
    right; left. exists (TimerSlot_restart_with_message now msg after), i, c, n, (dm_cycle_reads d).
    split; [apply restart_with_message_allocated | done].
  - unfold DemoTimestamping_stamp_egress, read_clock in E.
    apply outcome_bind_inv in E as ([ts d1] & E1 & E).
    apply outcome_bind_inv in E1 as ([t c] & _ & [= <- <-]).
    apply outcome_bind_inv in E as (q & E & [= <-]). apply unwrap_inv in E.
    right; right; left. by eexists _, _, _, _, _, _, q.
Qed.

Lemma timers_stable_ok : stable timers_ok.
Proof.
  split; try done.
  - intros it e d d' H E.
    apply demo_effect_cases in E as [(t & -> & E)|[(f & i & c & n & k & Hf & _ & ->)|
      [(? & ? & ? & ? & ? & ? & ? & _ & _ & ->)|(_ & ? & ? & ? & ? & ->)]]]; [| |done..].
    + apply outcome_bind_inv in E as ([i slots] & E & [= <-]). apply unwrap_inv in E.
      destruct H as (Hl & Hn & Hs & Ha). unfold TimerSlot_alloc in E.
      rewrite (alloc_from_eq _ _ _ _ Ha), Hl in E.
      destruct (Nat.ltb_spec (length (dm_handles d)) MAX_TIMERS) as [Hlt|]; [|done].
      injection E as <- <-. unfold timers_ok; simpl. rewrite length_insert, !length_app, fmap_app, Hs.
      cbn [length fmap list_fmap snd]. split; [done|]. split; [lia|].
      split; [by rewrite Nat.add_1_r, seq_S|]. intros i slot Hi.
      apply list_lookup_insert_Some in Hi as [(<- & <- & _)|[Hne Hi]]; simpl.
      * symmetry. apply Nat.ltb_lt. lia.
      * rewrite (Ha i slot Hi). apply eq_true_iff_eq. rewrite !Nat.ltb_lt. lia.
    + by apply (timers_ok_slots f i d Hf).
  - intros i slot d (Hl & Hn & Hs & Ha) Hi. split; [by simpl; rewrite length_insert|].
    split; [done|]. split; [done|]. simpl. intros j s Hj.
    apply list_lookup_insert_Some in Hj as [(<- & <- & _)|[Hne Hj]]; [|by apply Ha].
    by apply (Ha i slot).
Qed.

Lemma timers_ok_start p w i c n k : timers_ok (mkDemo p w TIMER_SLOTS [] dq_new i c [] [] n k).
Proof.
  split; [done|]. split; [simpl; lia|]. split; [done|]. intros j slot E. simpl in E.
  by apply lookup_replicate in E as [-> _].
Qed.

(** Handles are only ever added. *)
Lemma handles_stable hs : stable (λ d : Demo V Q, hs `prefix_of` dm_handles d).
Proof.
  split; try done. intros it e d d' H E.
  apply demo_effect_cases in E as [(t & -> & E)|[(? & ? & ? & ? & ? & _ & _ & ->)|
    [(? & ? & ? & ? & ? & ? & ? & _ & _ & ->)|(_ & ? & ? & ? & ? & ->)]]]; [|done..].
  apply outcome_bind_inv in E as ([i slots] & _ & [= <-]). by apply prefix_app_r.
Qed.

(** ** The timestamp queue *)

Context `{!HeaplessDequeLaws TIMESTAMP_QUEUE_LEN Q}.

Definition is_timestamp (m : SystemMessage) : Prop := ∃ t, m = SM_Timestamp t.
Definition timestamps_only (d : Demo V Q) : Prop := Forall is_timestamp (dq_list (dm_timestamps d)).

Lemma dq_pop_list (q q' : Q) m :
  dq_pop_front (N := TIMESTAMP_QUEUE_LEN) q = Some (m, q') → dq_list q = m :: dq_list q'.
Proof.
  intros E. destruct (dq_list q) as [|m' l] eqn:El.
  - by rewrite (dq_pop_nil _ El) in E.
  - destruct (dq_pop_cons _ _ _ El) as (q2 & E2 & <-). rewrite E2 in E. by injection E as -> ->.
Qed.

(** What an effect other than a stamp leaves of the queue. *)
Lemma effect_timestamps it e d d' : demo_effect it e d = Done d' →
  (no_stamp e → dm_timestamps d' = dm_timestamps d) ∧ (timestamps_only d → timestamps_only d').
Proof.
  unfold timestamps_only. intros E.
  apply demo_effect_cases in E as [(t & -> & E)|[(? & ? & ? & ? & ? & _ & _ & ->)|
    [(? & msg & ts & ? & ? & ? & q & -> & E & ->)|(_ & ? & ? & ? & ? & ->)]]]; [|done| |done].
  - by apply outcome_bind_inv in E as ([i slots] & _ & [= <-]).
  - split; [done|]. intros H. cbn [set_timestamps dm_timestamps].
    destruct (decide (length (dq_list (dm_timestamps d)) < TIMESTAMP_QUEUE_LEN)%nat) as [Hl|Hl].
    + destruct (dq_push_ok (SM_Timestamp (mkTimestampMessage msg ts)) _ Hl) as (q' & E' & El).
      rewrite E' in E. injection E as <-. rewrite El. apply Forall_app. split; [done|].
      constructor; [by eexists | done].
    + rewrite dq_push_full in E; [done|]. pose proof (dq_capacity (dm_timestamps d)). lia.
Qed.

Lemma timestamps_stable : stable timestamps_only.
Proof.
  split; try done.
  - intros it e d d' H E. by apply (effect_timestamps it e d d' E).
  - intros m q d H E. unfold timestamps_only in *. rewrite (dq_pop_list _ _ _ E) in H.
    by apply Forall_cons in H as [_ H].
Qed.

Lemma effects_timestamps it es : Forall no_stamp es → ∀ d d' : Demo V Q, demo_effects it es d = Done d' →
  dm_timestamps d' = dm_timestamps d.
Proof.
  induction 1 as [|e es He Hes IH]; intros d d' E; simpl in E; [by injection E as <-|].
  apply outcome_bind_inv in E as (d1 & E1 & E2). rewrite (IH _ _ E2).
  by apply (effect_timestamps it e d d1 E1).
Qed.

(** Handling a timestamp leaves the queue alone, so draining it ends. *)
Lemma inject_timestamp it t d d' : inject (F := F) it (SM_Timestamp t) d = Done d' →
  dm_timestamps d' = dm_timestamps d.
Proof.
  intros E. unfold inject in E.
  destruct (port_by_domain _ _) as [[port put_back]|]; [|by injection E as <-].
  unfold demo_step in E.
  match type of E with match ?m ?w with _ => _ end = _ =>
    assert (emits no_stamp m) as Hem; [|destruct (m w) as [[p w']|] eqn:Em; [|done]] end.
  { apply emits_bind; [apply timestamp_no_stamp | intros; apply emits_ret]. }
  specialize (Hem (dm_world d)). rewrite Em in Hem. destruct Hem as (es & Et & Hes).
  rewrite Et, drop_app_length in E.
  by rewrite (effects_timestamps it es Hes _ _ E).
Qed.

Lemma drain_terminates it fuel : ∀ d, timestamps_only d →
  (length (dq_list (dm_timestamps d)) <= fuel)%nat →
  ∃ r, drain_timestamps (F := F) fuel it d = Some r.
Proof.
  induction fuel as [|fuel IH]; intros d H Hl; simpl;
    (destruct (dq_pop_front _) as [[m q]|] eqn:Ep; [|by eexists]);
    pose proof (dq_pop_list _ _ _ Ep) as El; rewrite El in Hl; simpl in Hl; [lia|].
  unfold timestamps_only in H. rewrite El in H. apply Forall_cons in H as [[t ->] H].
  destruct (inject (F := F) it (SM_Timestamp t) _) as [d1|] eqn:E1; [|by eexists].
  apply inject_timestamp in E1. apply IH; unfold timestamps_only; rewrite E1; simpl; [done | lia].
Qed.

Lemma iteration_terminates it d : timestamps_only d →
  ∃ r, demo_iteration (F := F) TIMESTAMP_QUEUE_LEN it d = Some r.
Proof.
  intros H. unfold demo_iteration.
  match goal with |- ∃ r, match ?m with _ => _ end = _ => destruct m as [[now d1]|] eqn:Em end;
    [|by eexists].
  assert (timestamps_only d1) as H1 by (by eapply polled_stable; [apply timestamps_stable| |exact Em]).
  destruct (drain_terminates it TIMESTAMP_QUEUE_LEN d1 H1) as [r Er]; [apply dq_capacity|].
  rewrite Er. destruct r; by eexists.
Qed.

Lemma run_terminates its : ∀ d, timestamps_only d →
  ∃ r, demo_run (F := F) TIMESTAMP_QUEUE_LEN its d = Some r.
Proof.
  induction its as [|it its IH]; intros d Hd; simpl; [by eexists|].
  destruct (iteration_terminates it d Hd) as [[d'|] E]; rewrite E; [|by eexists].
  apply IH. by eapply iteration_stable; [apply timestamps_stable| |].
Qed.
End demo.

(** ** Concrete runs *)

#[local] Existing Instance always_sends.

Section runs.
  #[local] Abbreviation Program := (Demo (Stores.bounded 4) (queue TIMESTAMP_QUEUE_LEN)).

(** An iteration at a tick count (of 10 ms, 120000 cycles), with the general datagrams received. *)
Definition at_tick (n : Z) (general : list (list Z)) : Iteration :=
  mkIteration (λ _, n) (λ _, u_wrap 32 (n * 120000)) [] general.

(** The demo started at host time 1000 s. *)
Definition started : outcome Program :=
  demo_main (F := FlagBits) 1000 0 1000000 (at_tick 0 []).
Definition started_run (its : list Iteration) : option (outcome Program) :=
  match started with
  | Done d => demo_run (F := FlagBits) TIMESTAMP_QUEUE_LEN its d
  | Panic => None
  end.

(** The datagrams a port handed to its sockets. *)
Definition sent_datagrams (d : Program) : list (list Z) :=
  omap (λ e, match e with
             | E_SendEvent _ bytes _ | E_SendGeneral _ bytes _ => Some bytes
             | _ => None
             end) (w_trace (dm_world d)).

Definition demo_port : PortIdentity :=
  PortIdentity_new (cds_identity demo_default_ds) (PortNumber_new 1).

(** Announces of another clock of the given first priority. *)
Definition other_announces (priority1 sequence_id : Z) : list Z :=
  general_image (F := FlagBits) (mkDomainNumber 0) (sample_port 4 1)
    (Announce (mkAnnounceMessage (mkSequenceId sequence_id) (mkLogMessageInterval 0)
                 (sample_ds 4 priority1 0) Ptp)).

(** Two announces, a second apart. *)
Definition company (priority1 : Z) : list Iteration :=
  [at_tick 100 [other_announces priority1 0]; at_tick 200 [other_announces priority1 1]].

Definition demo_state (r : option (outcome Program)) : option (PortState _) :=
  match r with Some (Done d) => fsm_state (sm_port_fsm (dm_port_map d)) | _ => None end.

Definition is_master {R} (s : PortState R) : bool := match s with Master _ => true | _ => false end.
Definition is_listening {R} (s : PortState R) : bool :=
  match s with Listening _ => true | _ => false end.

Definition slot_armed (i : nat) (r : option (outcome Program)) : option (bool * Instant) :=
  match r with
  | Some (Done d) => (λ s, (ts_active s, ts_deadline s)) <$> (dm_slots d !! i)
  | _ => None
  end.

(** Alone, the demo serves time: up to five seconds after it started it listens, then in one
    iteration it becomes master, announces its own dataset and sends a Sync, and in the next one
    the Sync's Follow-up, with the time its clock showed. The state decision event its timeout
    raised, due at once, is not handled in that iteration: its slot's turn is over. *)
Theorem lonely_demo_serves_time :
  is_listening <$> demo_state (started_run [at_tick 499 []]) = Some true ∧
  slot_armed 0 (started_run [at_tick 499 []; at_tick 500 []]) = Some (true, mkInstant 5000000000) ∧
  ∃ d, started_run [at_tick 499 []; at_tick 500 []; at_tick 501 []] = Some (Done d) ∧
    is_master <$> demo_state (Some (Done d)) = Some true ∧
    sent_datagrams d
    = [general_image (F := FlagBits) (mkDomainNumber 0) demo_port
         (Announce (mkAnnounceMessage (mkSequenceId 0) (mkLogMessageInterval 0) demo_default_ds Ptp));
       event_image (F := FlagBits) (mkDomainNumber 0) demo_port
         (TwoStepSync (mkTwoStepSyncMessage (mkSequenceId 0) (mkLogMessageInterval 0)));
       general_image (F := FlagBits) (mkDomainNumber 0) demo_port
         (FollowUp (mkFollowUpMessage (mkSequenceId 0) (mkLogMessageInterval 0)
                      (mkTimeStamp 1042 0)))].
Proof.
  split; [vm_compute; reflexivity|]. split; [vm_compute; reflexivity|].
  eexists. split; [vm_compute; reflexivity|]. split; vm_compute; reflexivity.
Qed.
(** What the clock of the given priority sends as a master does: an announce every second. *)
Definition steady (priority1 : Z) (seconds : nat) : list Iteration :=
  (λ k, at_tick (Z.of_nat k * 100) [other_announces priority1 (Z.of_nat k)]) <$> seq 1 seconds.

Definition timers_created (r : option (outcome Program)) : option nat :=
  match r with Some (Done d) => Some (length (dm_handles d)) | _ => None end.

(** Two runs in company that crash, as timeouts survive their handles. Two announces of a
    worse clock make the demo master early; the announce receipt timeout of its listening state still
    fires, five seconds after the last announce it heard then, in a state that must not see it,
    and the demo panics. A better clock that announces itself every second, as a master does, is
    followed for six seconds and abandoned at the seventh; four slots are taken at six seconds,
    eight at 8, twelve at 13 and all sixteen at 18, and at 22 the demo panics. *)
Theorem company_crashes_demo :
  (is_master <$> demo_state (started_run (company 200 ++ [at_tick 699 []])) = Some true ∧
   started_run (company 200 ++ [at_tick 700 []]) = Some Panic) ∧
  (is_master <$> demo_state (started_run (steady 50 6)) = Some false ∧
   is_master <$> demo_state (started_run (steady 50 7)) = Some true ∧
   timers_created <$> [started_run (steady 50 6); started_run (steady 50 8);
                       started_run (steady 50 13); started_run (steady 50 18)]
     = [Some 4; Some 8; Some 12; Some 16]%nat ∧
   started_run (steady 50 22) = Some Panic).
Proof. split; split_and!; vm_compute; reflexivity. Qed.
End runs.

(** ** Properties *)

(** C28: Over any run of the demo, from its start, a timer slot belongs to the timeout it was
    allocated for, for good: the k-th timeout created has the k-th slot, what was handed out stays
    handed out, and a port that asks for a seventeenth timeout makes the demo panic. *)
Theorem timer_slots_never_reused `{MessageFlagsOps F} `{Env} `{HeaplessVec 4 V}
    `{HeaplessDeque TIMESTAMP_QUEUE_LEN Q} time clock tickfreq it0 fuel its more (d0 d d' : Demo V Q) :
  demo_main (F := F) time clock tickfreq it0 = Done d0 →
  demo_run (F := F) fuel its d0 = Some (Done d) → demo_run (F := F) fuel more d = Some (Done d') →
  timers_ok d ∧ dm_handles d `prefix_of` dm_handles d' ∧
  (length (dm_handles d) = MAX_TIMERS → ∀ it t, demo_effect it (E_NewTimeout t) d = Panic).
Proof.
  intros E0 E1 E2. assert (timers_ok d) as Hd.
  { eapply run_stable; [apply timers_stable_ok | | exact E1].
    eapply main_stable; [apply timers_stable_ok | apply timers_ok_start | exact E0]. }
  split; [done|]. split; [by eapply (run_stable _ (handles_stable (dm_handles d)))|].
  intros Hfull it t. destruct Hd as (Hl & _ & _ & Ha). simpl.
  unfold DemoTimerHost_timeout, TimerSlot_alloc.
  by rewrite (alloc_from_eq _ _ _ _ Ha), Hl, Hfull.
Qed.

(** Eighteen seconds of a steady master, and a nineteenth. *)
Lemma timer_slots_never_reused_witness :
  ∃ d0 d d' : Demo (Stores.bounded 4) (queue TIMESTAMP_QUEUE_LEN),
    demo_main (F := FlagBits) 1000 0 1000000 (at_tick 0 []) = Done d0 ∧
    demo_run (F := FlagBits) 8 (steady 50 18) d0 = Some (Done d) ∧
    demo_run (F := FlagBits) 8 [at_tick 1900 []] d = Some (Done d') ∧
    timers_ok d ∧ dm_handles d `prefix_of` dm_handles d' ∧
    ∀ it t, demo_effect it (E_NewTimeout t) d = Panic.
Proof.
  do 3 eexists. split; [vm_compute; reflexivity|]. split; [vm_compute; reflexivity|].
  split; [vm_compute; reflexivity|].
  match goal with |- timers_ok ?d ∧ _ `prefix_of` dm_handles ?d' ∧ _ =>
    destruct (timer_slots_never_reused (F := FlagBits) 1000 0 1000000 (at_tick 0 []) 8
                (steady 50 18) [at_tick 1900 []] _ d d' ltac:(vm_compute; reflexivity)
                ltac:(vm_compute; reflexivity) ltac:(vm_compute; reflexivity)) as (H1 & H2 & H3)
  end.
  split; [exact H1|]. split; [exact H2|]. apply H3. reflexivity.
Defined.

(** C27: Every iteration of the demo ends, panicking or not: draining the timestamp queue, the one
    loop of the program whose end is not plain, needs no more rounds than the eight the queue
    holds, since handling a timestamp never asks for another one. *)
Theorem demo_run_terminates `{MessageFlagsOps F} `{Env} `{HeaplessVec 4 V}
    `{HQ : HeaplessDeque TIMESTAMP_QUEUE_LEN Q} `{!HeaplessDequeLaws TIMESTAMP_QUEUE_LEN Q}
    time clock tickfreq it0 its (d0 : Demo V Q) :
  demo_main (F := F) time clock tickfreq it0 = Done d0 →
  ∃ r, demo_run (F := F) TIMESTAMP_QUEUE_LEN its d0 = Some r.
Proof.
  intros E0. apply run_terminates. eapply main_stable; [apply timestamps_stable | | exact E0].
  intros p w i c n k. unfold timestamps_only. simpl. rewrite dq_new_list. constructor.
Qed.

Lemma demo_run_terminates_witness :
  ∃ d0 : Demo (Stores.bounded 4) (queue TIMESTAMP_QUEUE_LEN),
    demo_main (F := FlagBits) 1000 0 1000000 (at_tick 0 []) = Done d0 ∧
    ∀ its, ∃ r, demo_run (F := FlagBits) TIMESTAMP_QUEUE_LEN its d0 = Some r.
Proof.
  eexists. split; [vm_compute; reflexivity|]. intros its.
  apply (demo_run_terminates (F := FlagBits) 1000 0 1000000 (at_tick 0 [])).
  vm_compute. reflexivity.
Defined.
