(* ===== verification/EmbeddedPanics.v ===== *)
(** * What crashes the embedded demo (crates/rptp-embedded-demo/src/main.rs)

    The invariant of the running program, whatever its sockets, counters and timers do, and the four
    ways in which an iteration of its loop can panic. *)

From S2P Require Import Prelude Errors Time Clock PortId DataSet Foreign Stores Wire Message.
From S2P Require Import Effects Servo E2e Bmca Profile Handlers PortState PortSafety Clocks System.
From S2P Require Import VirtualClock EmbeddedClocks EmbeddedNet Embedded EmbeddedSafety.

Open Scope Z_scope.

(** ** Clock readings *)

Lemma InstantClock_now_Done tick c : ∃ i c', InstantClock_now tick c = Done (i, c').
Proof.
  unfold InstantClock_now, Ticks_as_duration. unfold Ticks_elapsed_since. cbn [tk_ticks].
  pose proof (Z.mod_pos_bound (tk_ticks (SystemTick_now tick) - tk_ticks (ic_last_ticks c)) (2 ^ 32))
    as H. rewrite u_chk_Done by (unfold u_wrap, NANOS_PER_TICK; lia). by do 2 eexists.
Qed.

Lemma CycleClock_now_Done cycles c : TimeStamp_wf (cc_time c) →
  ∃ t, CycleClock_now cycles c = Done (t, mkCycleClock t cycles) ∧ TimeStamp_wf t.
Proof.
  destruct c as [t0 [last]]. destruct cycles as [cur]. intros Ht. unfold CycleClock_now.
  set (d := u_wrap 32 (cur - last)).
  assert (0 <= d < 2 ^ 32) as Hd by (apply Z.mod_pos_bound; lia).
  assert (Cycles_elapsed_since (mkCycles last) (mkCycles cur) = Done (ti_of_ns (250 * d / 3))) as E.
  { rewrite <- (Z.sub_0_r d) at 1. rewrite <- (Cycles_elapsed_eq 0 d) by lia.
    unfold Cycles_elapsed_since. cbn [cy_cycles]. fold d. rewrite wrapped_difference by lia.
    by rewrite Z.sub_0_r. }
  cbn [cc_last_cycles cc_time] in *. rewrite E, outcome_bind_Done.
  assert (0 <= 250 * d / 3 < 2 ^ 63) as Hx.
  { pose proof (Z.div_mod (250 * d) 3). pose proof (Z.mod_pos_bound (250 * d) 3). lia. }
  rewrite TimeStamp_checked_add_eq; [|done|by apply ti_of_ns_wf; unfold ti_ns_ok, NANOS_PER_SECOND; lia].
  rewrite outcome_bind_Done. eexists. split; [done|].
  destruct (ts_of_ns _) as [t|] eqn:Es; [|done]. by apply ts_of_ns_Some in Es as [? _].
Qed.

(** ** Core calls *)

(** A packet's call of the ingress. *)
Definition packet_input (p : RxPacket) (now : Instant) (ts : TimeStamp) : PortInput :=
  match rp_kind p with
  | RK_Event => In_Event (rp_data p) ts
  | RK_General => In_General (rp_data p) now
  end.

(** What the hardware shows an iteration: a counter of 32 bits, and bytes. *)
Definition Iteration_wf (it : Iteration) : Prop :=
  (∀ k, u_in 32 (it_ticks it k) = true) ∧
  Forall (Forall is_byte) (it_event it) ∧ Forall (Forall is_byte) (it_general it).

Definition demo_contract : PortContract :=
  clock_contract demo_default_ds (mkDomainNumber 0) default_profile.

Section demo.
  Context {F : Type} `{HF : !MessageFlagsOps F} `{HE : !Env}.
  Context {V : Type} `{HV : !HeaplessVec 4 V} `{!HeaplessVecLaws 4 V}.
  Context {Q : Type} `{HQ : !HeaplessDeque TIMESTAMP_QUEUE_LEN Q}
    `{!HeaplessDequeLaws TIMESTAMP_QUEUE_LEN Q}.
  #[local] Abbreviation demo := (Demo V Q).
  #[local] Abbreviation port_ok := (λ p, p = PortNumber_new 1).
  #[local] Abbreviation inv := (Heapless_inv 4 V).
  #[local] Existing Instance Heapless_ForeignClockRecords.

(** An iteration up to its packets, which it returns. *)
Definition iteration_start (it : Iteration) (d : demo) : outcome (Instant * list RxPacket * demo) :=
  '(now, d) ← read_instant it (set_clocks (dm_instant_clock d) (dm_clock d) 0 0 d);
  let '(ticks, d) := read_ticks it d in
  _ ← Ticks_as_smol_instant ticks;
  let '(packets, event, general) :=
    PtpNetwork_poll (dm_event_queue d ++ it_event it) (dm_general_queue d ++ it_general it) [] in
  Done (now, packets, set_queues event general d).

Lemma demo_iteration_eq fuel it d :
  demo_iteration (F := F) fuel it d
  = match ('(now, packets, d) ← iteration_start it d;
           d ← process_packets (F := F) it now packets d; Done (now, d)) with
    | Panic => Some Panic
    | Done (now, d) =>
        match drain_timestamps (F := F) fuel it d with
        | Some (Done d) => Some (drive_timers (F := F) it now (seq 0 MAX_TIMERS) d)
        | r => r
        end
    end.
Proof.
  unfold demo_iteration, iteration_start. destruct (read_instant it _) as [[now d1]|]; [|done].
  rewrite !outcome_bind_Done. destruct (read_ticks it d1) as [ticks d2].
  destruct (Ticks_as_smol_instant ticks); [|done]. rewrite !outcome_bind_Done.
  by destruct (PtpNetwork_poll _ _ _) as [[packets ev] ge].
Qed.

(** Draining the queue of [d] comes to the timestamp [m], taken from it in [d']. *)
Inductive drains (it : Iteration) : demo → SystemMessage → demo → Prop :=
| drains_now d m q : dq_pop_front (dm_timestamps d) = Some (m, q) → drains it d m (set_timestamps q d)
| drains_next d m q d1 m' d' : dq_pop_front (dm_timestamps d) = Some (m, q) →
    inject (F := F) it m (set_timestamps q d) = Done d1 → drains it d1 m' d' → drains it d m' d'.

(** Slot [i] is due. *)
Definition due (now : Instant) (i : nat) (slot : TimerSlot) (d : demo) : Prop :=
  dm_slots d !! i = Some slot ∧ ts_active slot = true ∧
  i_nanos (ts_deadline slot) <= i_nanos now.
Definition fired (i : nat) (slot : TimerSlot) (d : demo) : demo :=
  set_slots (<[i := mkTimerSlot (ts_allocated slot) false (ts_deadline slot) (ts_msg slot)]>
               (dm_slots d)) (dm_handles d) d.

(** The iteration from [d] comes to the delivery of an input to the port, in a state. *)
Inductive delivers (it : Iteration) (d : demo) : PortInput → demo → Prop :=
| delivers_packet now pre p post d0 d1 ts d2 :
    iteration_start it d = Done (now, pre ++ p :: post, d0) →
    process_packets (F := F) it now pre d0 = Done d1 → read_clock it d1 = Done (ts, d2) →
    delivers it d (packet_input p now ts) d2
| delivers_timestamp now packets d0 d1 m d2 :
    iteration_start it d = Done (now, packets, d0) →
    process_packets (F := F) it now packets d0 = Done d1 → drains it d1 m d2 →
    delivers it d (In_System m) d2
| delivers_timer now packets d0 d1 d2 pre i post d3 slot :
    iteration_start it d = Done (now, packets, d0) →
    process_packets (F := F) it now packets d0 = Done d1 →
    drain_timestamps (F := F) TIMESTAMP_QUEUE_LEN it d1 = Some (Done d2) →
    seq 0 MAX_TIMERS = pre ++ i :: post → drive_timers (F := F) it now pre d2 = Done d3 →
    due now i slot d3 → delivers it d (In_System (ts_msg slot)) (fired i slot d3).

(** A port asks for a timeout when every slot is taken, or for a transmit timestamp when the queue
    is full. *)
Definition refused (e : Effect) (d : demo) : Prop :=
  (∃ t, e = E_NewTimeout t ∧ length (dm_handles d) = MAX_TIMERS) ∨
  (∃ p msg, e = E_StampEgress p msg ∧ length (dq_list (dm_timestamps d)) = TIMESTAMP_QUEUE_LEN).

(** The delivery of an input makes the program panic: it is an announce receipt timeout and the port
    is master, or the port handles it and one of its requests is refused. *)
Definition stale (i : PortInput) (d : demo) : Prop := hits_master 0 i [dm_port_map d].
Definition overruns (it : Iteration) (i : PortInput) (d : demo) : Prop :=
  ∃ p w es e rest d', deliver (F := F) i (dm_port_map d) (dm_world d) = Done (p, w) ∧
    w_trace w = w_trace (dm_world d) ++ es ++ e :: rest ∧
    demo_effects it es (set_port_map p w d) = Done d' ∧ refused e d'.
Definition crashes_on (it : Iteration) (i : PortInput) (d : demo) : Prop :=
  stale i d ∨ overruns it i d.

(** The tick count does not fit the network interface's microseconds, or a delivery panics. *)
Definition crashes (it : Iteration) (d : demo) : Prop :=
  429496 < it_ticks it 1 ∨ ∃ i d', delivers it d i d' ∧ crashes_on it i d'.

(** ** The invariant *)

(** The port and what it shares with its clock are in order, what the slots and the queue hold are
    messages, the clock shows a time, and the sockets hold bytes. *)
Definition demo_sound (d : demo) : Prop :=
  map_ok demo_contract port_ok inv (dm_port_map d) ∧
  sm_domain_number (dm_port_map d) = mkDomainNumber 0 ∧
  ordinary_ok (w_shared (dm_world d)) ∧
  Forall (λ s, SystemMessage_wf (ts_msg s)) (dm_slots d) ∧
  Forall SystemMessage_wf (dq_list (dm_timestamps d)) ∧
  TimeStamp_wf (cc_time (dm_clock d)) ∧
  Forall (Forall is_byte) (dm_event_queue d) ∧ Forall (Forall is_byte) (dm_general_queue d) ∧
  timers_ok d ∧ timestamps_only d.

(** A part of an iteration keeps the invariant, or stops because of [P]. *)
Definition sound_unless (P : Prop) (r : outcome demo) : Prop :=
  match r with Done d => demo_sound d ∧ ¬ P | Panic => P end.

Lemma sound_unless_iff (P P' : Prop) r : (P ↔ P') → sound_unless P r → sound_unless P' r.
Proof. intros H. destruct r; simpl; [intros [? HP]; split; [done|]; by rewrite <- H | apply H]. Qed.

(** A loop over a list, whose body keeps the invariant unless it is stopped by [bad]. *)
Lemma each_sound {A} (f : A → demo → outcome demo) (loop : list A → demo → outcome demo)
    (ok : A → Prop) (bad : A → demo → Prop) :
  (∀ d, loop [] d = Done d) → (∀ x l d, loop (x :: l) d = f x d ≫= loop l) →
  (∀ x d, demo_sound d → ok x → sound_unless (bad x d) (f x d)) →
  ∀ l d, demo_sound d → Forall ok l →
  sound_unless (∃ pre x post d', l = pre ++ x :: post ∧ loop pre d = Done d' ∧ bad x d') (loop l d).
Proof.
  intros Hnil Hcons Hf. induction l as [|x l IH]; intros d Hd Hl.
  { rewrite Hnil. split; [done|]. by intros ([] & ? & ? & ? & ? & _). }
  apply Forall_cons in Hl as [Hx Hl]. specialize (Hf x d Hd Hx). rewrite Hcons.
  destruct (f x d) as [d1|] eqn:E; simpl in *; [|by exists [], x, l, d].
  destruct Hf as [Hd1 Hb]. specialize (IH d1 Hd1 Hl). eapply sound_unless_iff; [|exact IH]. split.
  - intros (pre & y & post & d' & -> & Er & ?). exists (x :: pre), y, post, d'.
    split; [done|]. by rewrite Hcons, E.
  - intros (pre & y & post & d' & El & Er & ?). destruct pre as [|z pre]; simpl in El.
    + injection El as <- _. rewrite Hnil in Er. by injection Er as <-.
    + injection El as <- ->. rewrite Hcons, E in Er. by exists pre, y, post, d'.
Qed.

(** ** Effects *)

Lemma read_instant_sound it d : demo_sound d →
  ∃ now d', read_instant it d = Done (now, d') ∧ demo_sound d'.
Proof.
  intros Hd. unfold read_instant.
  destruct (InstantClock_now_Done (mkSystemTick (it_ticks it (dm_tick_reads d))) (dm_instant_clock d))
    as (i & c & ->). rewrite outcome_bind_Done. by do 2 eexists.
Qed.

Lemma read_clock_sound it d : demo_sound d →
  ∃ ts d', read_clock it d = Done (ts, d') ∧ TimeStamp_wf ts ∧ demo_sound d' ∧
    dm_timestamps d' = dm_timestamps d.
Proof.
  intros (H1 & H1' & H2 & H3 & H4 & Ht & H5). unfold read_clock.
  destruct (CycleClock_now_Done (mkCycles (it_cycles it (dm_cycle_reads d))) (dm_clock d) Ht)
    as (ts & -> & Hts). rewrite outcome_bind_Done. by do 2 eexists.
Qed.

Lemma slots_sound d slots h : demo_sound d → Forall (λ s, SystemMessage_wf (ts_msg s)) slots →
  timers_ok (set_slots slots h d) → demo_sound (set_slots slots h d).
Proof. intros (? & ? & ? & ? & ? & ? & ? & ? & ? & ?) Hs Ht. by split_and!. Qed.

Lemma alter_slot_sound f i d : demo_sound d → (∀ s, ts_allocated (f s) = ts_allocated s) →
  (∀ s, SystemMessage_wf (ts_msg s) → SystemMessage_wf (ts_msg (f s))) →
  demo_sound (set_slots (alter f i (dm_slots d)) (dm_handles d) d).
Proof.
  intros Hd Ha Hm. apply slots_sound; [done| |].
  - apply Forall_alter; [apply Hd|]. intros s _. apply Hm.
  - apply timers_ok_slots; [done | apply Hd].
Qed.

(** A slot is handed out unless all of them have been. *)
Lemma alloc_eq msg (d : demo) : timers_ok d →
  TimerSlot_alloc msg (dm_slots d)
  = if (length (dm_handles d) <? MAX_TIMERS)%nat
    then Some (length (dm_handles d), <[length (dm_handles d) :=
                                          mkTimerSlot true false Instant_zero msg]> (dm_slots d))
    else None.
Proof.
  intros (Hl & _ & _ & Ha). unfold TimerSlot_alloc. by rewrite (alloc_from_eq _ _ _ _ Ha), Hl.
Qed.

Lemma new_timeout_sound it t d : demo_sound d → SystemMessage_wf (th_msg t) →
  sound_unless (refused (E_NewTimeout t) d) (demo_effect it (E_NewTimeout t) d).
Proof.
  intros Hd Hm. assert (timers_ok d) as Ht by apply Hd.
  assert (∀ d', demo_effect it (E_NewTimeout t) d = Done d' → timers_ok d') as Hok
    by (intros; by eapply (st_effect _ timers_stable_ok)).
  simpl in *. unfold DemoTimerHost_timeout in *. rewrite alloc_eq in * by done.
  destruct (Nat.ltb_spec (length (dm_handles d)) MAX_TIMERS); simpl in *.
  - split; [|intros [(? & _ & E)|(? & ? & [=] & _)]; lia]. apply slots_sound; [done| |by apply Hok].
    apply Forall_insert; [apply Hd | done].
  - left. exists t. split; [done|]. destruct Ht as (_ & ? & _). lia.
Qed.

Lemma stamp_sound it p msg d : demo_sound d → EventMessage_wf msg →
  sound_unless (refused (E_StampEgress p msg) d) (demo_effect it (E_StampEgress p msg) d).
Proof.
  intros Hd Hm. simpl. unfold DemoTimestamping_stamp_egress.
  destruct (read_clock_sound it d Hd) as (ts & d1 & -> & Hts & Hd1 & Eq). rewrite outcome_bind_Done.
  pose proof (dq_capacity (dm_timestamps d1)) as Hc.
  set (m := SM_Timestamp (mkTimestampMessage msg ts)).
  destruct (decide (length (dq_list (dm_timestamps d1)) < TIMESTAMP_QUEUE_LEN)%nat) as [Hl|Hl].
  - destruct (dq_push_ok m _ Hl) as (q & -> & El). simpl. split.
    + destruct Hd1 as (? & ? & ? & ? & Hq & ? & ? & ? & ? & Ho). unfold timestamps_only in Ho.
      split_and!; try done; unfold timestamps_only; simpl; rewrite El; apply Forall_app;
        (split; [done|]); apply Forall_singleton; [done | by eexists].
    + intros [(? & [=] & _)|(? & ? & _ & E)]. rewrite <- Eq in E. lia.
  - rewrite dq_push_full by lia. right. exists p, msg. split; [done|]. rewrite <- Eq. lia.
Qed.

Lemma effect_sound it e d : demo_sound d → effect_ok (F := F) demo_contract e →
  sound_unless (refused e d) (demo_effect it e d).
Proof.
  intros Hd He. assert (∀ d', demo_sound d' →
    (match e with E_NewTimeout _ | E_StampEgress _ _ => False | _ => True end) →
    sound_unless (refused e d) (Done d')) as Hok.
  { intros d' Hd' Hc. split; [done|]. by intros [(? & -> & _)|(? & ? & -> & _)]. }
  destruct e as [i ev|t|t a|t m a|i b o|i b o|i m|to|r|x];
    try (apply Hok; [by destruct d | done]).
  - by apply new_timeout_sound.
  - simpl. unfold DemoTimeout_restart. destruct (slot_of t d) as [j|]; [|by apply Hok].
    destruct (read_instant_sound it d Hd) as (now & d1 & -> & Hd1). rewrite outcome_bind_Done.
    apply Hok; [|done]. by apply alter_slot_sound.
  - simpl. unfold DemoTimeout_restart_with_message.
    destruct (slot_of t d) as [j|]; [|by apply Hok].
    destruct (read_instant_sound it d Hd) as (now & d1 & -> & Hd1). rewrite outcome_bind_Done.
    destruct He as (_ & _ & _ & Hm). apply Hok; [|done].
    apply alter_slot_sound; [done | apply restart_with_message_allocated|]. intros s _.
    unfold TimerSlot_restart_with_message. by case_match.
  - by apply stamp_sound.
Qed.

Lemma effects_sound it es d : demo_sound d → Forall (effect_ok (F := F) demo_contract) es →
  sound_unless (∃ pre e post d', es = pre ++ e :: post ∧ demo_effects it pre d = Done d' ∧
                                 refused e d') (demo_effects it es d).
Proof. apply (each_sound (demo_effect it)); [done..|]. intros. by apply effect_sound. Qed.

(** ** Deliveries *)

Lemma deliver_sound it i d : demo_sound d → PortInput_wf i →
  sound_unless (crashes_on it i d) (demo_step it (deliver (F := F) i (dm_port_map d)) d).
Proof.
  intros Hd Hi. unfold demo_step. destruct (hits_master_dec 0 i [dm_port_map d]) as [Hh|Hh].
  { destruct (Hh) as (-> & dn & p & [= E]). rewrite E. by left. }
  pose proof Hd as (Hp & Hdn & HI & _).
  assert (∀ n, ¬ hits_master n i [dm_port_map d]) as Hst
    by (intros [|[]]; [done | by intros (_ & ? & ? & [=])..]).
  pose proof (deliver_safe (F := F) ordinary_ok demo_contract port_ok inv i _ Hp Hi Hst (dm_world d) HI)
    as Hs. apply wp_Done in Hs as (p & w & E & HI' & (Hp' & _ & Hdn') & es & Et & Hes).
  rewrite E, Et, drop_app_length. eapply sound_unless_iff; [|apply effects_sound; [|exact Hes]].
  - unfold crashes_on, stale, overruns. split.
    + intros (pre & e & post & d' & -> & He & Hr). right. by exists p, w, pre, e, post, d'.
    + intros [Hh'|(p' & w' & pre & e & post & d' & E' & Et' & He & Hr)]; [done|].
      rewrite E in E'. injection E' as <- <-. rewrite Et in Et'. apply app_inv_head in Et' as ->.
      by exists pre, e, post, d'.
  - destruct Hd as (_ & _ & _ & ? & ? & ? & ? & ? & ? & ?). split_and!; try done. simpl; by rewrite Hdn'.
Qed.

Lemma inject_sound it msg d : demo_sound d → SystemMessage_wf msg →
  sound_unless (crashes_on it (In_System msg) d) (inject (F := F) it msg d).
Proof.
  intros Hd Hm. unfold inject. cbn [port_by_domain SingleDomainPortMap_PortMap].
  unfold SingleDomainPortMap_port_by_domain. pose proof Hd as (_ & Hd1 & _). rewrite Hd1.
  rewrite bool_decide_eq_true_2 by done. pose proof (deliver_sound it (In_System msg) d Hd Hm) as Hs.
  simpl in Hs. by rewrite Hd1 in Hs.
Qed.

(** ** The parts of an iteration *)

Lemma packets_sound it now packets d : demo_sound d → Forall (λ p, Forall is_byte (rp_data p)) packets →
  sound_unless (∃ pre p post d1, packets = pre ++ p :: post ∧
                  process_packets (F := F) it now pre d = Done d1 ∧
                  ∃ ts d2, read_clock it d1 = Done (ts, d2) ∧ crashes_on it (packet_input p now ts) d2)
    (process_packets (F := F) it now packets d).
Proof.
  apply (each_sound (λ p d, '(ts, d) ← read_clock it d; process_packet (F := F) it p now ts d)); [done|..].
  - intros p l d1. simpl. by destruct (read_clock it d1) as [[ts d2]|].
  - intros p d1 Hd1 Hp. destruct (read_clock_sound it d1 Hd1) as (ts & d2 & E & Hts & Hd2 & _).
    rewrite E, outcome_bind_Done.
    apply (sound_unless_iff (crashes_on it (packet_input p now ts) d2)).
    { split; [by exists ts, d2|]. intros (ts' & d2' & E' & ?). by simplify_eq. }
    replace (process_packet it p now ts d2)
      with (demo_step it (deliver (F := F) (packet_input p now ts) (dm_port_map d2)) d2)
      by (unfold process_packet, packet_input; by destruct (rp_kind p)).
    apply deliver_sound; [done|]. unfold packet_input. by destruct (rp_kind p).
Qed.

Lemma pop_sound d m q : demo_sound d → dq_pop_front (dm_timestamps d) = Some (m, q) →
  SystemMessage_wf m ∧ demo_sound (set_timestamps q d).
Proof.
  intros (? & ? & ? & ? & Hq & ? & ? & ? & ? & Ho) E. unfold timestamps_only in Ho.
  rewrite (dq_pop_list _ _ _ E) in *. apply Forall_cons in Hq as [? Hq]. apply Forall_cons in Ho as [? Ho].
  by split_and!.
Qed.

Lemma drain_sound it fuel : ∀ d r, demo_sound d → drain_timestamps (F := F) fuel it d = Some r →
  sound_unless (∃ m d', drains it d m d' ∧ crashes_on it (In_System m) d') r.
Proof.
  induction fuel as [|fuel IH]; intros d r Hd E; simpl in E;
    (destruct (dq_pop_front _) as [[m q]|] eqn:Ep; [|injection E as <-; split; [done|];
       by intros (? & ? & Hdr & _); destruct Hdr; congruence]); [done|].
  destruct (pop_sound d m q Hd Ep) as [Hm Hd0].
  pose proof (inject_sound it m _ Hd0 Hm) as Hi.
  destruct (inject it m _) as [d1|] eqn:Ei.
  - destruct Hi as [Hd1 Hn]. eapply sound_unless_iff; [|by apply IH]. split.
    + intros (m' & d' & ? & ?). exists m', d'. split; [|done]. by eapply drains_next.
    + intros (m' & d' & Hdr & Hu). inversion Hdr; simplify_eq; [by destruct Hn|].
      by eexists _, _; split; [|exact Hu]; congruence.
  - injection E as <-. exists m, (set_timestamps q d). split; [by apply drains_now | done].
Qed.

Lemma fired_sound i slot now d : demo_sound d → due now i slot d →
  demo_sound (fired i slot d) ∧ SystemMessage_wf (ts_msg slot).
Proof.
  intros Hd (E & _). assert (SystemMessage_wf (ts_msg slot)) as Hm.
  { destruct Hd as (_ & _ & _ & Hs & _). apply (Forall_lookup_1 _ _ _ _ Hs E). }
  split; [|done]. apply slots_sound; [done| |].
  - apply Forall_insert; [apply Hd | done].
  - apply (st_fire _ timers_stable_ok); [apply Hd | done].
Qed.

Lemma drive_sound it now idxs d : demo_sound d →
  sound_unless (∃ pre i post d1, idxs = pre ++ i :: post ∧
                  drive_timers (F := F) it now pre d = Done d1 ∧
                  ∃ slot, due now i slot d1 ∧ crashes_on it (In_System (ts_msg slot)) (fired i slot d1))
    (drive_timers (F := F) it now idxs d).
Proof.
  intros Hd. assert (Forall (λ _, True) idxs) as Hl by by apply Forall_true. revert idxs d Hd Hl.
  apply (each_sound (λ i d, match dm_slots d !! i with
    | Some slot => if ts_active slot && (i_nanos (ts_deadline slot) <=? i_nanos now)
                   then inject (F := F) it (ts_msg slot) (fired i slot d) else Done d
    | None => Done d
    end)); [done|..].
  - intros i l d1. simpl. destruct (dm_slots d1 !! i) as [slot|]; [|done]. by destruct (_ && _).
  - intros i d Hd _. destruct (dm_slots d !! i) as [slot|] eqn:Es.
    + destruct (_ && _) eqn:Eb.
      * apply andb_true_iff in Eb as [Ea El%Z.leb_le]. assert (due now i slot d) as Hdue by done.
        destruct (fired_sound i slot now d Hd Hdue) as [Hf Hm].
        eapply sound_unless_iff; [|by apply inject_sound]. split; [by exists slot|].
        intros (slot' & (Es' & _) & ?). by simplify_eq.
      * split; [done|]. intros (slot' & (Es' & Ea & El%Z.leb_le) & _). simplify_eq.
        by rewrite Ea, El in Eb.
    + split; [done|]. intros (slot' & (Es' & _) & _). by simplify_eq.
Qed.

(** ** Iterations and runs *)

Lemma start_sound it d : demo_sound d → Iteration_wf it →
  match iteration_start it d with
  | Done (now, packets, d0) =>
      it_ticks it 1 <= 429496 ∧ demo_sound d0 ∧ Forall (λ p, Forall is_byte (rp_data p)) packets
  | Panic => 429496 < it_ticks it 1
  end.
Proof.
  intros Hd (Ht & Hev & Hge). unfold iteration_start, read_instant. cbn [set_clocks dm_instant_clock].
  destruct (InstantClock_now_Done (mkSystemTick (it_ticks it 0)) (dm_instant_clock d)) as (now & c & E).
  cbn [dm_tick_reads set_clocks dm_instant_clock] in *. rewrite E, !outcome_bind_Done. cbn [read_ticks dm_tick_reads].
  specialize (Ht 1%nat). apply u_in_true in Ht.
  rewrite Ticks_as_smol_instant_eq by (simpl; lia).
  change (tk_ticks _) with (it_ticks it 1).
  destruct (Z.leb_spec (it_ticks it 1) 429496); [|done]. rewrite outcome_bind_Done.
  destruct Hd as (? & ? & ? & ? & ? & ? & Hqe & Hqg & ? & ?).
  assert (∀ k q l, Forall (Forall is_byte) (q ++ l) → Forall (λ p, Forall is_byte (rp_data p))
            ((λ b, mkRxPacket (take MAX_FRAME_SIZE b) k) <$> q)) as Hk.
  { intros k q l [Hq _]%Forall_app. apply Forall_fmap. eapply Forall_impl; [exact Hq|].
    intros b. simpl. apply Forall_take. }
  cbn [dm_event_queue dm_general_queue set_clocks].
  assert (Forall (Forall is_byte) (dm_event_queue d ++ it_event it)) as Hqe' by by apply Forall_app.
  assert (Forall (Forall is_byte) (dm_general_queue d ++ it_general it)) as Hqg' by by apply Forall_app.
  unfold PtpNetwork_poll. rewrite drain_socket_eq by (simpl; lia).
  rewrite drain_socket_eq by (rewrite app_nil_l, length_fmap, length_take; apply Nat.le_min_l).
  split; [done|]. split.
  - split_and!; try done; simpl; by apply Forall_drop.
  - rewrite app_nil_l. apply Forall_app. split; (eapply Hk; rewrite take_drop; done).
Qed.

(** Two results of the same computation are one. *)
#[local] Ltac agree :=
  repeat match goal with
    | H : ?x = Done _, H' : ?x = Done _ |- _ => rewrite H in H'; simplify_eq
    | H : ?x = Some (Done _), H' : ?x = Some (Done _) |- _ => rewrite H in H'; simplify_eq
    end.

Lemma iteration_sound it d r : demo_sound d → Iteration_wf it →
  demo_iteration (F := F) TIMESTAMP_QUEUE_LEN it d = Some r → sound_unless (crashes it d) r.
Proof.
  intros Hd Hit E. rewrite demo_iteration_eq in E. pose proof (start_sound it d Hd Hit) as Hs.
  destruct (iteration_start it d) as [[[now packets] d0]|] eqn:E0; [|injection E as <-; by left].
  rewrite outcome_bind_Done in E. destruct Hs as (Ht & Hd0 & Hb).
  pose proof (packets_sound it now packets d0 Hd0 Hb) as Hp.
  destruct (process_packets it now packets d0) as [d1|] eqn:E1.
  2:{ injection E as <-. destruct Hp as (pre & p & post & d1 & -> & E1' & ts & d2 & E2 & Hu).
      right. eexists _, d2. split; [by eapply delivers_packet | exact Hu]. }
  rewrite !outcome_bind_Done in E. destruct Hp as [Hd1 Hp].
  destruct (drain_timestamps _ it d1) as [rd|] eqn:E2; [|done].
  pose proof (drain_sound it _ d1 _ Hd1 E2) as Hdr. destruct rd as [d2|].
  2:{ injection E as <-. destruct Hdr as (m & d' & ? & ?). right. exists (In_System m), d'.
      split; [by eapply delivers_timestamp | done]. }
  destruct Hdr as [Hd2 Hdr]. apply (inj Some) in E as <-. eapply sound_unless_iff; [|by apply drive_sound]. split.
  - intros (pre & i & post & d3 & Ei & E3 & slot & Hdue & Hu). right. eexists _, _.
    split; [by eapply delivers_timer | exact Hu].
  - intros [?|(i & d' & Hdel & Hu)]; [lia|]. destruct Hdel; agree.
    + destruct Hp. do 4 eexists. split; [reflexivity|]. split; [eassumption|]. by do 2 eexists.
    + destruct Hdr. by do 2 eexists.
    + do 4 eexists. split; [eassumption|]. split; [eassumption|]. by eexists.
Qed.

Lemma run_sound its d r : demo_sound d → Forall Iteration_wf its →
  demo_run (F := F) TIMESTAMP_QUEUE_LEN its d = Some r →
  sound_unless (∃ pre it post d', its = pre ++ it :: post ∧
                  demo_run (F := F) TIMESTAMP_QUEUE_LEN pre d = Some (Done d') ∧ crashes it d') r.
Proof.
  intros Hd Hits E. set (turn it d := default Panic (demo_iteration (F := F) TIMESTAMP_QUEUE_LEN it d)).
  set (loop its d := default Panic (demo_run (F := F) TIMESTAMP_QUEUE_LEN its d)).
  replace r with (loop its d) by by (unfold loop; rewrite E). clear r E.
  eapply sound_unless_iff; [|apply (each_sound turn loop Iteration_wf crashes); [done|..]].
  - assert (∀ pre d', loop pre d = Done d' ↔
      demo_run (F := F) TIMESTAMP_QUEUE_LEN pre d = Some (Done d')) as Hloop.
    { intros pre d'. unfold loop. destruct (demo_run _ pre d); simpl; split; congruence. }
    by setoid_rewrite Hloop.
  - intros it l d1. unfold loop, turn. simpl. by destruct (demo_iteration _ it d1) as [[]|].
  - intros it d1 Hd1 Hit. unfold turn.
    destruct (iteration_terminates (F := F) it d1) as [r E]; [apply Hd1|]. rewrite E.
    by apply iteration_sound.
  - done.
  - done.
Qed.

(** ** Start-up *)

Lemma TimeStamp_new_wf s n t : 0 <= s → 0 <= n → TimeStamp_new s n = Done t → TimeStamp_wf t.
Proof.
  intros Hs Hn E. unfold TimeStamp_new, rassert in E. change MAX_SECONDS_EXCL with (2 ^ 48) in E.
  destruct (Z.ltb_spec s (2 ^ 48)); [|done]. destruct (Z.ltb_spec n 1000000000); [|done].
  rewrite !outcome_bind_Done in E. injection E as <-. unfold TimeStamp_wf, NANOS_PER_SECOND; simpl. lia.
Qed.

Lemma SemiHostingTime_now_wf time clock tickfreq o :
  SemiHostingTime_now time clock tickfreq = Done o → ∀ t, o = Some t → TimeStamp_wf t.
Proof.
  intros E t ->. unfold SemiHostingTime_now in E. do 2 (case_match; [done|]).
  apply outcome_bind_inv in E as (s1 & _ & E). apply outcome_bind_inv in E as (s2 & _ & E).
  apply outcome_bind_inv in E as (t' & E & [= ->]).
  apply TimeStamp_new_wf in E; [done|..]; by apply as_u_range.
Qed.

Lemma main_sound time clock tickfreq it d :
  demo_main (F := F) time clock tickfreq it = Done d → demo_sound d.
Proof.
  intros E. unfold demo_main in E.
  apply outcome_bind_inv in E as (seed & Es & E). change (TimeStamp_new 0 0) with (Done (mkTimeStamp 0 0)) in E.
  rewrite outcome_bind_Done in E.
  apply outcome_bind_inv in E as (? & _ & E).
  change PortProfile_default with (Done default_profile) in E. rewrite outcome_bind_Done in E.
  change (PortProfile_with_servo_config SC_Stepping default_profile) with default_profile in E.
  change (OrdinaryClock_new demo_default_ds (mkDomainNumber 0) default_profile)
    with (Done (mkOrdinaryClock demo_default_ds (mkDomainNumber 0) (mkPortEnumeration 1 1) Empty
                  SinglePortNotification_new default_profile)) in E.
  rewrite outcome_bind_Done, OrdinaryClock_port_eq in E.
  apply outcome_bind_inv in E as (d1 & E1 & E).
  assert (ClockDS_wf demo_default_ds) as Hds by wf_concrete.
  match type of E1 with demo_effects _ _ ?s = _ => assert (demo_sound s) as Hs end.
  { split_and!; try done.
    - eexists. split; [reflexivity|]. apply initial_port_ok; try done.
      split; [unfold Heapless_inv|]; simpl; rewrite hv_new_slice; constructor.
    - split; [exact Hds|]. split; [done|]. by apply Forall_singleton; eexists.
    - by apply Forall_replicate.
    - simpl. by rewrite dq_new_list.
    - simpl. destruct seed as [t|]; [by eapply SemiHostingTime_now_wf|done].
    - apply timers_ok_start.
    - unfold timestamps_only. simpl. by rewrite dq_new_list. }
  match type of E1 with demo_effects _ ?es _ = _ =>
    pose proof (effects_sound it es _ Hs) as H1; rewrite E1 in H1 end.
  specialize (H1 ltac:(repeat constructor; done)).
  pose proof (inject_sound it SM_Initialized d1 (proj1 H1) I) as H2. rewrite E in H2. apply H2.
Qed.
End demo.

(** ** Properties *)

(** C29: The embedded demo panics exactly where one of four things happens in an iteration: the tick
    count does not fit the microseconds of the network interface (71.6 minutes after the start);
    the port, while it handles one of the iteration's packets, transmit timestamps or due timers,
    asks for a timeout when all sixteen slots have been handed out, or for a transmit timestamp when
    eight are queued; or a due timer holds an announce receipt timeout and the port has become
    master. For whatever the sockets deliver and the counters show, over runs of any length. *)
Theorem demo_panics_exactly_when `{MessageFlagsOps F} `{Env} `{HV : HeaplessVec 4 V}
    `{!HeaplessVecLaws 4 V} `{HQ : HeaplessDeque TIMESTAMP_QUEUE_LEN Q}
    `{!HeaplessDequeLaws TIMESTAMP_QUEUE_LEN Q} time clock tickfreq it0 its (d0 : Demo V Q) :
  demo_main (F := F) time clock tickfreq it0 = Done d0 → Forall Iteration_wf its →
  demo_run (F := F) TIMESTAMP_QUEUE_LEN its d0 = Some Panic ↔
  ∃ pre it post d, its = pre ++ it :: post ∧
    demo_run (F := F) TIMESTAMP_QUEUE_LEN pre d0 = Some (Done d) ∧ crashes (F := F) it d.
Proof.
  intros E0 Hits. pose proof (main_sound time clock tickfreq it0 d0 E0) as Hd0. split.
  - intros E. exact (run_sound its d0 Panic Hd0 Hits E).
  - intros Hc. destruct (run_terminates (F := F) its d0) as [r E]; [apply Hd0|].
    pose proof (run_sound its d0 r Hd0 Hits E) as Hs. destruct r; [|done]. by destruct Hs.
Qed.

#[local] Existing Instance always_sends.

Lemma wf_at_tick n general : u_in 32 n = true → Forall (Forall is_byte) general →
  Iteration_wf (at_tick n general).
Proof. intros Hn Hg. split; [by intros ?|]. by split. Qed.

(** Twenty-two seconds of a better master, and two announces of a worse one followed by the timer
    of the listening state, both end in a panic. *)
Lemma demo_panics_exactly_when_witness :
  ∃ d0 : Demo (Stores.bounded 4) (queue TIMESTAMP_QUEUE_LEN),
    demo_main (F := FlagBits) 1000 0 1000000 (at_tick 0 []) = Done d0 ∧
    ∀ its, its = steady 50 22 ∨ its = company 200 ++ [at_tick 700 []] →
      Forall Iteration_wf its ∧
      ∃ pre it post d, its = pre ++ it :: post ∧
        demo_run (F := FlagBits) TIMESTAMP_QUEUE_LEN pre d0 = Some (Done d) ∧
        crashes (F := FlagBits) it d.
Proof.
  eexists. split; [vm_compute; reflexivity|]. intros its Hits.
  assert (Forall Iteration_wf its) as Hwf.
  { destruct Hits as [-> | ->]; repeat (apply Forall_cons; split); try apply Forall_nil; try exact I;
      (apply wf_at_tick; [reflexivity | by apply (bool_decide_unpack _); vm_compute]). }
  split; [exact Hwf|].
  apply (demo_panics_exactly_when (F := FlagBits) 1000 0 1000000 (at_tick 0 []));
    [vm_compute; reflexivity | exact Hwf |].
  destruct Hits as [-> | ->]; vm_compute; reflexivity.
Defined.
