(* ===== verification/Witnesses.v ===== *)
(** * Concrete instances

    The theorems about the BMCA, the state machine and the clocks, applied to concrete clocks,
    ports, datasets and an infrastructure that always sends. *)

From S2P Require Import Prelude Errors Time Clock PortId DataSet Foreign Stores Wire Message.
From S2P Require Import Effects Servo E2e Bmca Profile Handlers PortState PortSafety Clocks System.
From S2P Require Import Election Hearing Behaviour Exchange Link Recovery.

Open Scope Z_scope.

#[local] Existing Instance always_sends.

Definition x_store : ForeignClockRecordsVec := ForeignClockRecordsVec_new.
Definition x_ds : ClockDS := sample_ds 9 128 0.
Definition x_domain : DomainNumber := mkDomainNumber 0.
Definition x_port : DomainPort := mkDomainPort (sample_port 9 1) x_domain.
Definition x_parts : BmcaParts ForeignClockRecordsVec :=
  mkBmcaParts (mkBestMasterClockAlgorithm x_ds (mkPortNumber 1))
    (mkBestForeignRecord (sample_port 9 1) x_store)
    (mkStateDecisionEventTrigger Empty (mkPortNumber 1)).
Definition x_profile : PortProfile := default_profile.
Definition x_clock : OrdinaryClock :=
  mkOrdinaryClock x_ds x_domain (mkPortEnumeration 1 2) Empty
    (mkSinglePortNotification (Some (mkTimeout 0 SM_Initialized))) x_profile.
Definition x_world : World OrdinaryClock := mkWorld [] x_clock.
Definition x_master : MasterPort ForeignClockRecordsVec :=
  mkMasterPort x_port (mkGrandMasterTrackingBmca x_parts x_ds)
    (mkAnnounceCycle (mkSequenceId 65535) (mkTimeout 1 SM_AnnounceSendTimeout) (mkLogInterval 0))
    (mkSyncCycle (mkSequenceId 7) (mkTimeout 2 SM_SyncTimeout) (mkLogInterval 0))
    (mkLogInterval 0) x_profile.

Lemma x_store_ok : store_ok Vec_inv x_store.
Proof. split; constructor. Qed.

Lemma x_ds_wf : ClockDS_wf x_ds.
Proof. wf_concrete. Qed.

Lemma x_port_wf : DomainPort_wf x_port.
Proof. wf_concrete. Qed.

Lemma x_log_wf : LogInterval_wf (mkLogInterval 0).
Proof. unfold LogInterval_wf; simpl; lia. Qed.

Lemma x_master_ok : master_ok x_master.
Proof.
  pose proof x_ds_wf. pose proof x_port_wf. pose proof x_log_wf.
  split_and!; try done; unfold SequenceId_wf; simpl; lia.
Qed.

Definition x_net : PortContract := clock_contract x_ds x_domain x_profile.

Lemma x_base_ok : base_ok x_net (λ p, p = PortNumber_new 1) Vec_inv x_port x_parts x_profile.
Proof.
  split; [split; [exact x_port_wf | done]|]. split; [|by split; [exact default_profile_wf|]].
  split_and!; [exact x_store_ok | exact x_ds_wf | done..].
Qed.

(** A junk datagram, then the life of a port that finds no master: it listens, becomes master,
    announces, and receives a timer that was queued before. *)
Definition x_inputs : list PortInput :=
  [In_System SM_Initialized; In_General [1; 2; 3] (mkInstant 5);
   In_System SM_AnnounceReceiptTimeout; In_System SM_AnnounceSendTimeout;
   In_System SM_AnnounceReceiptTimeout].

Lemma x_inputs_wf : Forall PortInput_wf x_inputs.
Proof. repeat constructor; unfold is_byte; lia. Qed.

Lemma ordinary_clock_only_stale_timeouts_panic_witness :
  ∃ p w, OrdinaryClock_port x_store
           (mkWorld [] (mkOrdinaryClock x_ds x_domain (mkPortEnumeration 1 1) Empty
                          SinglePortNotification_new x_profile)) = Done (Some p, w) ∧
    match run (F := FlagBits) (pair 0%nat <$> x_inputs) [SingleDomainPortMap_new x_domain p] w with
    | Done (ports, _) => Forall (map_ok x_net (λ p, p = PortNumber_new 1) Vec_inv) ports
    | Panic =>
        ∃ pre post ports w', x_inputs = pre ++ In_System SM_AnnounceReceiptTimeout :: post ∧
          run (F := FlagBits) (pair 0%nat <$> pre) [SingleDomainPortMap_new x_domain p] w
          = Done (ports, w') ∧
          hits_master 0 (In_System SM_AnnounceReceiptTimeout) ports
    end.
Proof.
  destruct (ordinary_clock_only_stale_timeouts_panic (F := FlagBits) Vec_inv x_ds x_domain
    x_profile x_store x_inputs x_ds_wf default_profile_wf x_store_ok x_inputs_wf)
    as (c & p & w & Hc & Hp & _ & Hrun).
  exists p, w. injection Hc as <-. split; [exact Hp | exact Hrun].
Defined.

Lemma boundary_clock_only_stale_timeouts_panic_witness :
  ∃ c ports w,
    BoundaryClock_new x_ds x_domain 2 MultiPortForeignCandidates_new MultiPortNotification_new
      = Done c ∧
    create_ports [x_store; x_store] (mkWorld [] c) = Done (ports, w) ∧
    match run (F := FlagBits) [(1%nat, In_System SM_Initialized)]
            (SingleDomainPortMap_new x_domain <$> ports) w with
    | Done (ports', _) => Forall (map_ok x_net (λ _, True) Vec_inv) ports'
    | Panic =>
        ∃ pre i post ports' w',
          [(1%nat, In_System SM_Initialized)]
            = pre ++ (i, In_System SM_AnnounceReceiptTimeout) :: post ∧
          run (F := FlagBits) pre (SingleDomainPortMap_new x_domain <$> ports) w
            = Done (ports', w') ∧
          hits_master i (In_System SM_AnnounceReceiptTimeout) ports'
    end.
Proof.
  apply (boundary_clock_only_stale_timeouts_panic (F := FlagBits) Vec_inv x_ds x_domain 2
    [x_store; x_store] [(1%nat, In_System SM_Initialized)]).
  - exact x_ds_wf.
  - lia.
  - reflexivity.
  - repeat constructor.
  - repeat constructor.
Defined.

Lemma every_datagram_is_well_formed_witness :
  ∃ c p w, OrdinaryClock_new x_ds x_domain x_profile = Done c ∧
    OrdinaryClock_port x_store (mkWorld [] c) = Done (Some p, w) ∧
    ∀ ports w', run (F := FlagBits) (pair 0%nat <$> x_inputs) [SingleDomainPortMap_new x_domain p] w
                = Done (ports, w') →
      Forall (on_the_wire (F := FlagBits) x_net) (w_trace w').
Proof.
  refine (proj1 (every_datagram_is_well_formed (F := FlagBits) Vec_inv x_ds x_domain x_profile
    x_store [x_store; x_store] 2 x_inputs [(1%nat, In_System SM_Initialized)] x_ds_wf
    default_profile_wf x_store_ok x_inputs_wf _ eq_refl _ _)).
  - lia.
  - repeat constructor.
  - repeat constructor.
Defined.

Lemma boundary_clock_notifies_every_port_witness :
  ∃ c w ts,
    BoundaryClock_new x_ds x_domain 2 MultiPortForeignCandidates_new MultiPortNotification_new
      = Done c ∧
    create_ports [x_store; x_store] (mkWorld [] c)
      = Done (initial_ports x_ds x_domain 1 [x_store; x_store], w) ∧
    length ts = 2%nat ∧ NoDup (th_id <$> ts).
Proof.
  destruct (boundary_clock_notifies_every_port x_ds x_domain 2 [x_store; x_store]
    ltac:(lia) eq_refl) as (c & w & ts & Hc & Hp & _ & Hl & Hn & _).
  exists c, w, ts. split; [exact Hc|]. split; [exact Hp|]. split; [exact Hl | exact Hn].
Defined.

(** ** The state chart *)

Definition x_listening : PortState ForeignClockRecordsVec :=
  Listening (mkListeningPort x_port (mkListeningBmca x_parts)
    (mkAnnounceReceiptTimeout (mkTimeout 1 SM_AnnounceReceiptTimeout) (mkDuration 5000000000))
    x_profile).

Lemma x_listening_ok : state_ok x_net (λ p, p = PortNumber_new 1) Vec_inv x_listening.
Proof. split; [exact x_base_ok | done]. Qed.

Lemma transitions_follow_state_chart_witness :
  safe ordinary_ok (effect_ok (F := FlagBits) x_net)
    (λ s, state_ok x_net (λ p, p = PortNumber_new 1) Vec_inv s ∧ kind s = KMaster)
    (PortState_apply AnnounceReceiptTimeoutExpired x_listening) ∧
  PortState_apply SynchronizationFault x_listening x_world = Panic.
Proof.
  split.
  - exact (transitions_follow_state_chart (F := FlagBits) ordinary_ok x_net
      (λ p, p = PortNumber_new 1) Vec_inv AnnounceReceiptTimeoutExpired x_listening x_listening_ok Logic.I).
  - exact (transitions_follow_state_chart (F := FlagBits) ordinary_ok x_net
      (λ p, p = PortNumber_new 1) Vec_inv SynchronizationFault x_listening x_listening_ok Logic.I
      x_world).
Defined.

Lemma dispatched_decisions_are_legal_witness :
  safe ordinary_ok (effect_ok (F := FlagBits) x_net)
    (λ r, state_ok x_net (λ p, p = PortNumber_new 1) Vec_inv r.2 ∧ kind r.2 = KListening ∧
       ∀ d, r.1 = Some d → decision_ok d ∧ is_Some (transition KListening d) ∧
         (transition KListening d = Some KMaster → is_timeout SM_AnnounceReceiptTimeout))
    (PortState_dispatch_system (F := FlagBits) SM_AnnounceReceiptTimeout x_listening).
Proof.
  destruct (dispatched_decisions_are_legal (F := FlagBits) ordinary_ok x_net
    (λ p, p = PortNumber_new 1) Vec_inv x_listening x_listening_ok) as (_ & _ & H).
  apply (H SM_AnnounceReceiptTimeout Logic.I). by intros [_ [=]].
Defined.

(** ** Behaviour *)

Lemma master_announces_witness :
  ∃ bytes,
    carries_general (F := FlagBits) x_port bytes
      (Announce (mkAnnounceMessage (mkSequenceId 65535) (mkLogMessageInterval 0) x_ds Ptp)) ∧
    PortFsm_process_system_message (F := FlagBits) SM_AnnounceSendTimeout
      (PortFsm_new (Master x_master)) x_world
    = Done (PortFsm_new (Master (MasterPort_with_announce_cycle
              (mkAnnounceCycle (mkSequenceId 0) (mkTimeout 1 SM_AnnounceSendTimeout)
                 (mkLogInterval 0)) x_master)),
            mkWorld [E_SendGeneral (sample_port 9 1) bytes true;
                     E_Restart (mkTimeout 1 SM_AnnounceSendTimeout) (mkDuration 1000000000);
                     E_Log (sample_port 9 1) (PE_MessageSent "Announce")] x_clock).
Proof.
  destruct (master_announces (F := FlagBits) x_master x_master_ok x_world) as (bytes & Hc & E).
  exists bytes. split; [exact Hc | exact E].
Defined.

Lemma master_answers_delay_requests_witness :
  ∃ bytes,
    carries_general (F := FlagBits) x_port bytes
      (DelayResp (mkDelayResponseMessage (mkSequenceId 12) (mkLogMessageInterval 0)
         (mkTimeStamp 1000 5) (sample_port 4 1))) ∧
    PortFsm_process_event_message (F := FlagBits) (sample_port 4 1)
      (DelayReq (mkDelayRequestMessage (mkSequenceId 12))) (mkTimeStamp 1000 5)
      (PortFsm_new (Master x_master)) x_world
    = Done (PortFsm_new (Master x_master),
            mkWorld [E_Log (sample_port 9 1) (PE_MessageReceived "DelayReq");
                     E_SendGeneral (sample_port 9 1) bytes true;
                     E_Log (sample_port 9 1) (PE_MessageSent "DelayResp")] x_clock).
Proof.
  destruct (master_answers_delay_requests (F := FlagBits) (S := OrdinaryClock) x_master
    (mkDelayRequestMessage (mkSequenceId 12)) (sample_port 4 1) (mkTimeStamp 1000 5) x_master_ok)
    as (bytes & Hc & E); [wf_concrete..|].
  exists bytes. split; [exact Hc | exact (E x_world)].
Defined.

Lemma master_two_step_sync_witness :
  ∃ sync_bytes follow_up_bytes,
    carries_event (F := FlagBits) x_port sync_bytes
      (TwoStepSync (mkTwoStepSyncMessage (mkSequenceId 7) (mkLogMessageInterval 0))) ∧
    carries_general (F := FlagBits) x_port follow_up_bytes
      (FollowUp (mkFollowUpMessage (mkSequenceId 7) (mkLogMessageInterval 0)
         (mkTimeStamp 1000 5))).
Proof.
  destruct (master_two_step_sync (F := FlagBits) (S := OrdinaryClock) x_master
    (mkTimeStamp 1000 5) x_master_ok) as (sb & fb & Hs & Hf & _); [wf_concrete|].
  exists sb, fb. split; [exact Hs | exact Hf].
Defined.

Definition x_slave : SlavePort ForeignClockRecordsVec :=
  mkSlavePort x_port (mkParentTrackingBmca x_parts (mkParentPortIdentity (sample_port 4 1)))
    (mkAnnounceReceiptTimeout (mkTimeout 1 SM_AnnounceReceiptTimeout) (mkDuration 5000000000))
    (EndToEndDelayMechanism_new
       (mkDelayCycle (mkSequenceId 0) (mkTimeout 2 SM_DelayRequestTimeout) (mkLogInterval 0)))
    Servo_Stepping x_profile.

Lemma only_the_parent_is_heard_witness :
  ignored (Slave x_slave)
    (PortFsm_process_event_message (F := FlagBits) (sample_port 5 1)
       (TwoStepSync (mkTwoStepSyncMessage (mkSequenceId 3) (mkLogMessageInterval 0)))
       (mkTimeStamp 10 0) (PortFsm_new (Slave x_slave))) x_world.
Proof.
  refine (proj1 (only_the_parent_is_heard (F := FlagBits) (Slave x_slave) (sample_port 4 1)
    (sample_port 5 1) x_world _ _) _ _).
  - reflexivity.
  - discriminate.
Defined.

Lemma ordinary_trigger_silent port s : emits is_silent (OrdinaryClock_trigger port s).
Proof.
  unfold OrdinaryClock_trigger. cbn [pn_notify_all SinglePortNotification_PortNotification].
  unfold SinglePortNotification_notify_all, Timeout_restart_with_message. emits.
Qed.

Lemma silent_states_do_not_transmit_witness :
  emits is_silent
    (PortFsm_process_system_message (F := FlagBits) (S := OrdinaryClock)
       SM_AnnounceReceiptTimeout (PortFsm_new x_listening)).
Proof.
  refine (proj2 (proj2 (silent_states_do_not_transmit (F := FlagBits) (S := OrdinaryClock)
    ordinary_trigger_silent x_listening _)) _). reflexivity.
Defined.

(** A slave of a better clock whose Announces stop. *)
Definition x_foreign : ForeignClockRecord :=
  mkForeignClockRecord (sample_port 4 1) (sample_ds 4 10 1)
    (mkSlidingWindowQualification (mkInstant 2000000000) (Some (mkInstant 1000000000))
       (mkDuration 4000000000)).
Definition x_abandoned : SlavePort ForeignClockRecordsVec :=
  SlavePort_with_bmca
    (mkParentTrackingBmca
       (mkBmcaParts (mkBestMasterClockAlgorithm x_ds (mkPortNumber 1))
          (mkBestForeignRecord (sample_port 9 1) (mkForeignClockRecordsVec [x_foreign]))
          (mkStateDecisionEventTrigger Empty (mkPortNumber 1)))
       (mkParentPortIdentity (sample_port 4 1))) x_slave.

Lemma announce_timeout_reinstates_vanished_parent_witness :
  ∃ q w1 u w2,
    PortFsm_process_system_message (F := FlagBits) SM_AnnounceReceiptTimeout
      (PortFsm_new (Slave x_abandoned)) x_world = Done (PortFsm_new (Master q), w1) ∧
    PortFsm_process_system_message (F := FlagBits)
      (SM_StateDecisionEvent (mkStateDecisionSnapshot x_ds
         (Qualified (sample_ds 4 10 1) (sample_port 4 1) (sample_port 9 1))))
      (PortFsm_new (Master q)) w1 = Done (PortFsm_new (Uncalibrated u), w2) ∧
    tracked_parent (Uncalibrated u) = Some (sample_port 4 1).
Proof.
  destruct (announce_timeout_reinstates_vanished_parent (F := FlagBits) x_abandoned x_clock []
    (mkTimeout 0 SM_Initialized) (sample_ds 4 10 1) (sample_port 4 1) (sample_port 9 1))
    as (q & w1 & u & w2 & H1 & _ & _ & H2 & H3);
    [reflexivity | reflexivity | reflexivity | reflexivity | reflexivity | reflexivity
    | reflexivity | discriminate | reflexivity |].
  exists q, w1, u, w2. split; [exact H1|]. split; [exact H2 | exact H3].
Defined.

(** ** Best master clock algorithm *)

Definition x_bmca (port : Z) : BestMasterClockAlgorithm :=
  mkBestMasterClockAlgorithm x_ds (mkPortNumber port).
Definition x_best : BestForeignSnapshot :=
  Qualified (sample_ds 4 10 1) (sample_port 4 1) (sample_port 9 2).

Lemma bmca_decision_table_witness :
  (BestMasterClockAlgorithm_decision x_ds x_best x_best (x_bmca 2)).1
    = BD_Slave (mkParentPortIdentity (sample_port 4 1)) ∧
  (BestMasterClockAlgorithm_decision x_ds x_best Empty (x_bmca 1)).1
    = BD_Master (mkBmcaMasterDecision M3 (sample_ds 4 10 2)).
Proof.
  split; (rewrite bmca_decision_table; [reflexivity | discriminate | first [discriminate | exact Logic.I]]).
Defined.

Lemma at_most_one_slave_witness :
  bm_port_number (x_bmca 2) = bm_port_number (x_bmca 2) ∧
  mkParentPortIdentity (sample_port 4 1) = mkParentPortIdentity (sample_port 4 1) ∧
  ∃ ds r, x_best = Qualified ds (sample_port 4 1) r ∧ pi_port_number r = mkPortNumber 2.
Proof.
  apply (at_most_one_slave x_ds x_best x_best Empty (x_bmca 2) (x_bmca 2)
    (mkParentPortIdentity (sample_port 4 1)) (mkParentPortIdentity (sample_port 4 1)));
    reflexivity.
Defined.

Lemma consider_triggers_on_change_witness :
  ∃ bf', BestForeignRecord_consider (sample_port 4 1) (sample_ds 4 10 1) (mkLogInterval 0)
           (mkInstant 5) (bp_best_foreign x_parts) = Done bf' ∧
    BestForeignRecord_snapshot bf' = Empty ∧
    ∃ p', consider_parts (sample_port 4 1) (sample_ds 4 10 1) (mkLogInterval 0) (mkInstant 5)
            x_parts x_world = Done (p', x_world).
Proof.
  destruct (consider_triggers_on_change (S := OrdinaryClock) Vec_inv (sample_port 4 1)
    (sample_ds 4 10 1) (mkLogInterval 0) (mkInstant 5) x_parts x_world (proj1 x_store_ok))
    as (bf' & E & H). injection E as <-. eexists. split; [reflexivity|]. split; [reflexivity|].
  eexists. exact H.
Defined.

(** ** The election *)

Definition x_record (c priority1 : Z) : ForeignClockRecord :=
  mkForeignClockRecord (sample_port c 1) (sample_ds c priority1 0)
    (mkSlidingWindowQualification (mkInstant 2000000000) (Some (mkInstant 1000000000))
       (mkDuration 4000000000)).

(** Port [n] of clock [c], with the records of the clocks it hears. *)
Definition x_heard (c priority1 n : Z) (records : list ForeignClockRecord)
    : BmcaParts ForeignClockRecordsVec :=
  mkBmcaParts (mkBestMasterClockAlgorithm (sample_ds c priority1 0) (mkPortNumber n))
    (mkBestForeignRecord (sample_port c n) (mkForeignClockRecordsVec records))
    (mkStateDecisionEventTrigger Empty (mkPortNumber n)).
Definition x_hearing (c priority1 n : Z) (records : list ForeignClockRecord)
    : PortState ForeignClockRecordsVec :=
  Listening (mkListeningPort (mkDomainPort (sample_port c n) x_domain)
    (mkListeningBmca (x_heard c priority1 n records))
    (mkAnnounceReceiptTimeout (mkTimeout 1 SM_AnnounceReceiptTimeout) (mkDuration 5000000000))
    x_profile).
Definition x_mastering (c priority1 n : Z) (records : list ForeignClockRecord)
    : PortState ForeignClockRecordsVec :=
  PreMaster (mkPreMasterPort (mkDomainPort (sample_port c n) x_domain)
    (mkGrandMasterTrackingBmca (x_heard c priority1 n records) (sample_ds c priority1 0))
    (mkTimeout 1 SM_QualificationTimeout) x_profile).

Definition x_any (c priority1 : Z) : PortContract :=
  clock_contract (sample_ds c priority1 0) x_domain x_profile.

Lemma x_heard_ok c priority1 n r :
  PortIdentity_wf (sample_port c n) → ClockDS_wf (sample_ds c priority1 0) →
  ClockDS_wf (fr_foreign_clock_ds r) →
  base_ok (x_any c priority1) (λ _, True) Vec_inv (mkDomainPort (sample_port c n) x_domain)
    (x_heard c priority1 n [r]) x_profile.
Proof.
  intros Hp Hd Hr. split; [split; [|by split]|split; [|by split; [exact default_profile_wf|]]].
  - exact Hp.
  - split; [split; [apply NoDup_singleton | by constructor]|]. by split_and!.
Qed.

Lemma x_hearing_ok : state_ok (x_any 9 128) (λ _, True) Vec_inv (x_hearing 9 128 1 [x_record 4 10]).
Proof. split; [apply x_heard_ok; wf_concrete | done]. Qed.
Lemma x_hearing_2_ok : state_ok (x_any 9 128) (λ _, True) Vec_inv (x_hearing 9 128 2 [x_record 5 20]).
Proof. split; [apply x_heard_ok; wf_concrete | done]. Qed.
Lemma x_mastering_ok :
  state_ok (x_any 4 10) (λ _, True) Vec_inv (x_mastering 4 10 1 [x_record 9 128]).
Proof. split; [apply x_heard_ok; wf_concrete|]. split; [wf_concrete | by eexists]. Qed.

Definition x_event : StateDecisionSnapshot :=
  mkStateDecisionSnapshot (sample_ds 9 128 0)
    (Qualified (sample_ds 4 10 0) (sample_port 4 1) (sample_port 9 1)).

Lemma x_event_wf : SystemMessage_wf (SM_StateDecisionEvent x_event).
Proof. split; wf_concrete. Qed.

Lemma event_takes_role_witness :
  ∃ s' w', PortFsm_process_system_message (F := FlagBits) (SM_StateDecisionEvent x_event)
      (PortFsm_new (x_hearing 9 128 1 [x_record 4 10])) x_world = Done (PortFsm_new s', w') ∧
    role_of s' = Some (RoleSlave (mkParentPortIdentity (sample_port 4 1))).
Proof.
  destruct (event_takes_role (F := FlagBits) (x_any 9 128) (λ _, True) Vec_inv x_event
    (x_hearing 9 128 1 [x_record 4 10]) x_world x_hearing_ok x_event_wf) as (s' & w' & E & _ & _ & Hr).
  exists s', w'. split; [exact E | exact Hr].
Defined.

(** Two ports of one clock, the second hearing a worse master than the first. *)
Lemma ports_settle_on_one_slave_witness :
  ∃ s1 s2 w',
    run (F := FlagBits) ((λ i, (i, In_System (SM_StateDecisionEvent x_event))) <$> [1%nat; 0%nat])
      (SingleDomainPortMap_new x_domain <$>
         [x_hearing 9 128 1 [x_record 4 10]; x_hearing 9 128 2 [x_record 5 20]]) x_world
    = Done (SingleDomainPortMap_new x_domain <$> [s1; s2], w') ∧
    role_of s1 = Some (RoleSlave (mkParentPortIdentity (sample_port 4 1))) ∧
    role_of s2 = Some (RoleMaster (sample_ds 4 10 1)).
Proof.
  destruct (ports_settle_on_one_slave (F := FlagBits) (x_any 9 128) (λ _, True) Vec_inv x_event
    x_domain [x_hearing 9 128 1 [x_record 4 10]; x_hearing 9 128 2 [x_record 5 20]] [1%nat; 0%nat]
    x_world) as (ports' & w' & E & _ & Hs & _).
  - constructor; [exact x_hearing_ok|]. constructor; [exact x_hearing_2_ok | constructor].
  - exact x_event_wf.
  - by apply (bool_decide_unpack _).
  - apply Permutation_swap.
  - inversion Hs as [|? s1 ? ? [_ H1] Hs2]; subst. inversion Hs2 as [|? s2 ? ? [_ H2] Hs3]; subst.
    inversion Hs3; subst. exists s1, s2, w'. split; [exact E|]. split; [exact H1 | exact H2].
Defined.

(** Two clocks that hear each other, one of them about to be master: it stays, the other follows. *)
Definition x_lan : list (LanClock (R := ForeignClockRecordsVec)) :=
  [mkLanClock (sample_ds 9 128 0) (x_hearing 9 128 1 [x_record 4 10]);
   mkLanClock (sample_ds 4 10 0) (x_mastering 4 10 1 [x_record 9 128])].

Definition x_lan_net (c : LanClock (R := ForeignClockRecordsVec)) : PortContract :=
  clock_contract (lan_ds c) x_domain x_profile.

Lemma x_lan_hears : Forall (hears x_lan) x_lan.
Proof.
  constructor; [|constructor; [|constructor]]; (split_and!; [done..|]); intros q; split.
  - intros ->%list_elem_of_singleton. eexists. split; [right; left|]. by split.
  - intros (o & [->|[->|[]%not_elem_of_nil]%elem_of_cons]%elem_of_cons & Hne & ->); [done | left].
  - intros ->%list_elem_of_singleton. eexists. split; [left|]. by split.
  - intros (o & [->|[->|[]%not_elem_of_nil]%elem_of_cons]%elem_of_cons & Hne & ->); [left | done].
Qed.

Lemma lan_elects_one_master_witness :
  ∃ leader, leader ∈ x_lan ∧
    ∃ s1 w1, PortFsm_process_system_message (F := FlagBits)
        (SM_StateDecisionEvent (mkStateDecisionSnapshot (sample_ds 9 128 0)
           (own_best (x_hearing 9 128 1 [x_record 4 10]))))
        (PortFsm_new (x_hearing 9 128 1 [x_record 4 10])) x_world = Done (PortFsm_new s1, w1) ∧
      role_of s1 = Some
        (if decide (sample_port 9 1 = lan_port leader) then RoleMaster (lan_ds leader)
         else RoleSlave (ParentPortIdentity_new (lan_port leader))).
Proof.
  destruct (lan_elects_one_master (F := FlagBits) x_lan_net (λ _, True) Vec_inv x_lan)
    as (leader & Hl & H).
  - by apply (bool_decide_unpack _).
  - simpl; lia.
  - pose proof x_lan_hears as Hh. apply Forall_cons in Hh as [H1 Hh].
    apply Forall_cons in Hh as [H2 _]. constructor; [|constructor; [|constructor]].
    + split; [wf_concrete|]. split; [exact x_hearing_ok | exact H1].
    + split; [wf_concrete|]. split; [exact x_mastering_ok | exact H2].
  - exists leader. split; [exact Hl|].
    destruct (H (mkLanClock (sample_ds 9 128 0) (x_hearing 9 128 1 [x_record 4 10])) x_world)
      as (s1 & w1 & E & _ & Hr); [left|]. exists s1, w1. split; [exact E | exact Hr].
Defined.

(** ** Two clocks that announce themselves to each other *)

(** What a master of [d] sends on its announce timer. *)
Definition h_announce (d : ClockDS) : list Z :=
  match
    buf ← MessageBuffer_new PtpVersion_V2 x_domain (mkPortIdentity (cds_identity d) (mkPortNumber 1));
    GeneralMessage_to_wire (F := FlagBits)
      (Announce (AnnounceCycle_announce Ptp d
         (mkAnnounceCycle (SequenceId_new 0) (mkTimeout 0 SM_AnnounceSendTimeout) (mkLogInterval 0))))
      buf
  with Done bytes => bytes | Panic => [] end.

(** A clock that hears nobody, becomes master and announces itself, and then hears the master of
    [d] a second apart. *)
Definition h_inputs (d : ClockDS) : list PortInput :=
  [In_System SM_AnnounceReceiptTimeout; In_System SM_AnnounceSendTimeout;
   In_General (h_announce d) (mkInstant 10000000000); In_System SM_SyncTimeout;
   In_General (h_announce d) (mkInstant 11000000000)].

Definition h_low : Station := mkStation (sample_ds 9 128 0) x_profile (h_inputs (sample_ds 4 10 0)).
Definition h_high : Station := mkStation (sample_ds 4 10 0) x_profile (h_inputs (sample_ds 9 128 0)).
Definition h_lan : list Station := [h_low; h_high].

Lemma h_low_heard : station_heard (F := FlagBits) x_domain h_low =
  (λ t, mkHeard (sample_port 4 1) (sample_ds 4 10 0) (mkLogInterval 0) (mkInstant t))
    <$> [10000000000; 11000000000].
Proof. vm_compute. reflexivity. Qed.
Lemma h_high_heard : station_heard (F := FlagBits) x_domain h_high =
  (λ t, mkHeard (sample_port 9 1) (sample_ds 9 128 0) (mkLogInterval 0) (mkInstant t))
    <$> [10000000000; 11000000000].
Proof. vm_compute. reflexivity. Qed.

Lemma h_inputs_wf d : Forall is_byte (h_announce d) → Forall PortInput_wf (h_inputs d).
Proof. intros Hd. by repeat constructor. Qed.

Lemma h_low_ok : station_ok h_low.
Proof.
  split; [wf_concrete|]. split; [exact default_profile_wf|]. apply h_inputs_wf.
  apply (bool_decide_unpack _). vm_compute. exact I.
Qed.
Lemma h_high_ok : station_ok h_high.
Proof.
  split; [wf_concrete|]. split; [exact default_profile_wf|]. apply h_inputs_wf.
  apply (bool_decide_unpack _). vm_compute. exact I.
Qed.

(** Two Announces of one other clock. *)
Lemma h_informed c o :
  station_heard (F := FlagBits) x_domain c
  = (λ t, mkHeard (station_port o) (st_ds o) (mkLogInterval 0) (mkInstant t))
      <$> [10000000000; 11000000000] →
  o ≠ c → o ∈ h_lan → (∀ o', o' ∈ h_lan → o' ≠ c → o' = o) →
  well_informed (F := FlagBits) x_domain 10000000000 4000000000 h_lan c.
Proof.
  intros E Hne Ho Hlan. unfold well_informed. rewrite E. split_and!.
  - repeat constructor; vm_compute; discriminate.
  - repeat constructor; vm_compute; discriminate.
  - intros h (t & -> & _)%list_elem_of_fmap. by exists o.
  - intros o' Ho' Hne'. rewrite (Hlan o' Ho' Hne'). cbn [fmap list_fmap]. unfold heard_from.
    by rewrite !filter_cons_True.
Qed.

Lemma h_lan_informed :
  Forall (well_informed (F := FlagBits) x_domain 10000000000 4000000000 h_lan) h_lan.
Proof.
  constructor; [|constructor; [|constructor]].
  - apply (h_informed _ h_high h_low_heard); [done|right; left|].
    by intros o' [->|[->|[]%not_elem_of_nil]%elem_of_cons]%elem_of_cons ?.
  - apply (h_informed _ h_low h_high_heard); [done|left|].
    by intros o' [->|[->|[]%not_elem_of_nil]%elem_of_cons]%elem_of_cons ?.
Qed.

(** The worse clock's records are the two Announces it heard, and its candidate is their sender. *)
Lemma records_are_what_was_heard_witness :
  ∃ s best w, station_run (F := FlagBits) (HE := always_sends) x_domain h_low
      = Done ([SingleDomainPortMap_new x_domain s], w) ∧
    bp_best_foreign (parts_of s) = best ∧
    BestForeignRecord_snapshot best
    = Qualified (sample_ds 4 10 0) (sample_port 4 1) (sample_port 9 1) ∧
    ∃ t, scheduled (w_trace w) = Some (t, clock_snapshot (w_shared w)).
Proof.
  pose proof (records_are_what_was_heard (F := FlagBits) (HE := always_sends) x_domain
    (λ _ _ _, eq_refl) h_low h_low_ok) as H.
  rewrite h_low_heard in H.
  destruct (station_run x_domain h_low) as [[ports w]|] eqn:E; [|by vm_compute in E].
  destruct H as (s & best & t & -> & Hb & Hs & _ & _ & Hev). exists s, best, w. split; [done|].
  split; [exact Hs|]. vm_compute in Hb. injection Hb as <-. split; [by vm_compute|]. exists t.
  by destruct (scheduled (w_trace w)) as [event|]; [rewrite Hev | vm_compute in Hev].
Defined.

(** Both clocks elect the better one. *)
Lemma announces_elect_one_master_witness :
  ∃ p t snapshot s w w',
    station_run (F := FlagBits) (HE := always_sends) x_domain h_low = Done ([p], w) ∧
    scheduled (w_trace w) = Some (t, snapshot) ∧
    deliver (F := FlagBits) (HE := always_sends) (In_System (SM_StateDecisionEvent snapshot)) p w
    = Done (SingleDomainPortMap_new x_domain s, w') ∧
    (role_of s = Some (RoleMaster (sample_ds 9 128 0)) ∨
     role_of s = Some (RoleSlave (ParentPortIdentity_new (sample_port 4 1)))).
Proof.
  destruct (announces_elect_one_master (F := FlagBits) (HE := always_sends) x_domain
    (λ _ _ _, eq_refl) 10000000000 4000000000 h_lan) as (leader & Hl & H).
  - by apply (bool_decide_unpack _).
  - simpl; lia.
  - constructor; [exact h_low_ok|]. constructor; [exact h_high_ok | constructor].
  - exact h_lan_informed.
  - specialize (H h_low ltac:(left)).
    destruct (station_run x_domain h_low) as [[ports w]|] eqn:E; [|by vm_compute in E].
    destruct H as (p & t & snapshot & s & w' & -> & _ & Es & Ed & Hr).
    exists p, t, snapshot, s, w, w'. split; [done|]. split; [exact Es|]. split; [exact Ed|].
    apply elem_of_cons in Hl as [->|[->|[]%not_elem_of_nil]%elem_of_cons]; [by left | by right].
Defined.

(** ** A link *)

(** A port of clock 4, three seconds ahead, that follows the master of clock 9. *)
Definition x_cycle : DelayCycle :=
  mkDelayCycle (mkSequenceId 65535) (mkTimeout 2 SM_DelayRequestTimeout) (mkLogInterval 0).
Definition x_follower : UncalibratedPort ForeignClockRecordsVec :=
  mkUncalibratedPort (mkDomainPort (sample_port 4 1) x_domain)
    (mkParentTrackingBmca (mkBmcaParts (mkBestMasterClockAlgorithm (sample_ds 4 200 0) (mkPortNumber 1))
        (mkBestForeignRecord (sample_port 4 1) x_store)
        (mkStateDecisionEventTrigger Empty (mkPortNumber 1)))
      (mkParentPortIdentity (sample_port 9 1)))
    (mkAnnounceReceiptTimeout (mkTimeout 1 SM_AnnounceReceiptTimeout) (mkDuration 5000000000))
    (EndToEndDelayMechanism_new x_cycle) Servo_Stepping x_profile.
Definition x_shared (c priority1 : Z) : OrdinaryClock :=
  mkOrdinaryClock (sample_ds c priority1 0) x_domain (mkPortEnumeration 1 2) Empty
    (mkSinglePortNotification None) x_profile.

Definition x_link : Link OrdinaryClock ForeignClockRecordsVec :=
  link_start 100000000000 3000000000 x_domain (Master x_master) (Uncalibrated x_follower)
    (mkWorld [] (x_shared 9 128)) (mkWorld [] (x_shared 4 200)).

(** Over a millisecond: a delay exchange, then a Sync whose Follow-up comes two milliseconds late. *)
Definition x_delay : Z := 1000000.
Definition x_exchange : list LinkEvent :=
  [Lk_DelayRequest; Lk_SlaveStamp 0; Lk_Elapse x_delay; Lk_Request 0; Lk_General 0 (mkInstant 0);
   Lk_MasterTimer SM_SyncTimeout; Lk_MasterStamp 0; Lk_Elapse x_delay; Lk_Sync 0; Lk_Elapse 2000000].

Lemma x_master_state_ok : state_ok x_net (λ p, p = PortNumber_new 1) Vec_inv (Master x_master).
Proof.
  pose proof x_ds_wf. pose proof x_log_wf. split; [exact x_base_ok|].
  split_and!; try done; unfold SequenceId_wf; simpl; lia.
Qed.

Lemma x_follower_ok :
  state_ok (x_any 4 200) (λ p, p = PortNumber_new 1) Vec_inv (Uncalibrated x_follower).
Proof.
  split; [|split; [done|split; [split; [|done]|done]]].
  - split; [split; [|by split]|split; [|by split; [exact default_profile_wf|]]]; [wf_concrete|].
    split_and!; [exact x_store_ok | wf_concrete | done..].
  - apply em_new_wf. unfold SequenceId_wf; simpl; lia.
Qed.

Lemma x_shared_ok c priority1 : ClockDS_wf (sample_ds c priority1 0) → ordinary_ok (x_shared c priority1).
Proof. intros H. split_and!; [exact H | done | constructor]. Qed.

Definition x_offset (r : option (outcome (Link OrdinaryClock ForeignClockRecordsVec))) : option Z :=
  match r with Some (Done L) => Some (ep_offset (lk_slave L)) | _ => None end.

(** The late Follow-up sets the clock two milliseconds back; the next Sync, without a delay response
    since, half of the three seconds off. *)
Lemma x_link_offsets :
  x_offset (link_run (F := FlagBits) x_delay (x_exchange ++ [Lk_General 1 (mkInstant 0)]) x_link)
    = Some (-2000000) ∧
  x_offset (link_run (F := FlagBits) x_delay
    (x_exchange ++ [Lk_General 1 (mkInstant 0); Lk_MasterTimer SM_SyncTimeout; Lk_MasterStamp 1;
      Lk_Elapse x_delay; Lk_Sync 1; Lk_General 2 (mkInstant 0)]) x_link) = Some (-1501000000).
Proof. split; vm_compute; reflexivity. Qed.

Lemma clock_is_set_to_the_mean_witness :
  ∃ L L', link_run (F := FlagBits) x_delay x_exchange x_link = Some (Done L) ∧
    link_step (F := FlagBits) x_delay (Lk_General 1 (mkInstant 0)) L = Some (Done L') ∧
    (ep_offset (lk_slave L') = ep_offset (lk_slave L) + 0 ∨
     ∃ th os td od, lk_heard L' = Some (th, os) ∧ lk_asked L' = Some (td, od) ∧
       ep_offset (lk_slave L') = os - Z.quot (os + od) 2 - (lk_now L' - th)).
Proof.
  destruct (link_run (F := FlagBits) x_delay (x_exchange ++ [Lk_General 1 (mkInstant 0)]) x_link)
    as [r|] eqn:E; [|exfalso; revert E; vm_compute; discriminate].
  destruct (clock_is_set_to_the_mean (F := FlagBits) ordinary_ok (λ p, p = PortNumber_new 1) Vec_inv
    OrdinaryClock_laws ordinary_trigger_silent x_delay x_net (x_any 4 200) 100000000000 3000000000
    x_domain x_master (mkDomainPort (sample_port 4 1) x_domain) (Uncalibrated x_follower)
    (mkWorld [] (x_shared 9 128)) (mkWorld [] (x_shared 4 200)) x_cycle x_exchange
    (Lk_General 1 (mkInstant 0)) r x_master_state_ok x_follower_ok) as (L & L' & E1 & E2 & _ & H);
    fold x_link in *.
  - apply x_shared_ok. wf_concrete.
  - apply x_shared_ok. wf_concrete.
  - reflexivity.
  - reflexivity.
  - by split_and!.
  - reflexivity.
  - exact E.
  - exists L, L'. split; [exact E1|]. split; [exact E2|]. exact H.
Defined.

(** The same exchange, whose Follow-up comes two milliseconds late. *)
Lemma one_exchange_recovers_witness :
  ∃ L', link_run (F := FlagBits) x_delay
      (undisturbed x_delay 5000000 2000000 0 0 0 (mkInstant 0) (mkInstant 0)) x_link = Some (Done L') ∧
    ep_offset (lk_slave L') = -2000000 ∧
    ∃ q, sm_port_fsm (ep_ports (lk_slave L')) = PortFsm_new (Slave q).
Proof.
  destruct (one_exchange_recovers (F := FlagBits) ordinary_ok (λ p, p = PortNumber_new 1) Vec_inv
    OrdinaryClock_laws x_delay 5000000 2000000 (mkInstant 0) (mkInstant 0) x_net (x_any 4 200)
    100000000000 3000000000 x_domain x_master (mkDomainPort (sample_port 4 1) x_domain)
    (Uncalibrated x_follower) (EndToEndDelayMechanism_new x_cycle)
    (mkWorld [] (x_shared 9 128)) (mkWorld [] (x_shared 4 200)) [] [] [] [] [] [] None None)
    as (L' & E & _ & Ho & Hq & _).
  - by intros tr id bytes.
  - exact x_master_state_ok.
  - exact x_follower_ok.
  - apply x_shared_ok. wf_concrete.
  - apply x_shared_ok. wf_concrete.
  - reflexivity.
  - reflexivity.
  - by split_and!.
  - reflexivity.
  - reflexivity.
  - reflexivity.
  - unfold x_delay. lia.
  - lia.
  - lia.
  - unfold readable, NANOS_PER_SECOND. lia.
  - unfold readable, NANOS_PER_SECOND, x_delay. lia.
  - unfold readable, NANOS_PER_SECOND. lia.
  - unfold readable, NANOS_PER_SECOND, x_delay. lia.
  - exists L'. split; [exact E|]. split; [exact Ho | exact Hq].
Defined.
