(* ===== verification/TestSupport.v ===== *)
(** * The crate's test support (crates/rptp/src/test_support.rs)

    The fakes the unit tests use, over the effects of the model: a recorder of state decision
    events, a clock, a timer host, a physical port whose captured datagrams are decoded, and the
    dataset fixtures. A unit test is a [Test], a computation that is [Done ()] when the test
    passes and panics when one of its assertions fails. *)

From S2P Require Import Prelude Errors Time Clock PortId DataSet Foreign Stores Wire Message.
From S2P Require Import Effects Servo E2e Bmca Profile Handlers PortState.

Open Scope Z_scope.

(** ** Tests *)

Definition Test : Type := outcome ().

Definition assert_true (b : bool) : Test := rassert b.
Definition assert_eq {A} `{EqDecision A} (a b : A) : Test := rassert (bool_decide (a = b)).
Definition assert_ne {A} `{EqDecision A} (a b : A) : Test := rassert (negb (bool_decide (a = b))).

(** [#[should_panic]]. *)
Definition should_panic {A} (m : outcome A) : Test :=
  match m with Panic => Done () | Done _ => Panic end.

(** [result.unwrap()] on the parsers' results. *)
Definition unwrap_ok {A} (m : PR A) : outcome A :=
  match m with Done (Ok a) => Done a | _ => Panic end.

(** ** Dataset fixtures *)

Record TestClockDS := mkTestClockDS {
  tc_clock_identity : ClockIdentity;
  tc_clock_class : ClockClass;
  tc_clock_accuracy : ClockAccuracy;
  tc_priority1 : Priority1;
  tc_priority2 : Priority2;
  tc_steps_removed : StepsRemoved;
}.

Definition TestClockDS_atomic_grandmaster : TestClockDS :=
  mkTestClockDS (ClockIdentity_new [0x00; 0x1A; 0xC2; 0xFF; 0xFE; 0x12; 0x34; 0x56])
    CC_PrimaryReference CA_Within25ns (Priority1_new 128) (Priority2_new 128) (StepsRemoved_new 0).
Definition TestClockDS_gps_grandmaster : TestClockDS :=
  mkTestClockDS (ClockIdentity_new [0x00; 0x1B; 0xC3; 0xFF; 0xFE; 0x65; 0x43; 0x21])
    CC_PrimaryReference CA_Within100ns (Priority1_new 128) (Priority2_new 128) (StepsRemoved_new 0).
Definition TestClockDS_ntp_grandmaster : TestClockDS :=
  mkTestClockDS (ClockIdentity_new [0x00; 0x1C; 0xC4; 0xFF; 0xFE; 0x78; 0x56; 0x34])
    CC_PrimaryReference CA_Within1us (Priority1_new 128) (Priority2_new 128) (StepsRemoved_new 0).
Definition TestClockDS_application_specific_grandmaster : TestClockDS :=
  mkTestClockDS (ClockIdentity_new [0x00; 0x1D; 0xC5; 0xFF; 0xFE; 0x89; 0x67; 0x45])
    CC_ApplicationSpecific CA_Unknown (Priority1_new 128) (Priority2_new 128) (StepsRemoved_new 0).
Definition TestClockDS_default_high_grade : TestClockDS :=
  mkTestClockDS (ClockIdentity_new [0x00; 0x1E; 0xC6; 0xFF; 0xFE; 0x90; 0x78; 0x56])
    CC_Default CA_Within100ns (Priority1_new 128) (Priority2_new 128) (StepsRemoved_new 0).
Definition TestClockDS_default_mid_grade : TestClockDS :=
  mkTestClockDS (ClockIdentity_new [0x00; 0x1F; 0xC7; 0xFF; 0xFE; 0x91; 0x89; 0x67])
    CC_Default CA_Within10us (Priority1_new 128) (Priority2_new 128) (StepsRemoved_new 0).
Definition TestClockDS_default_low_grade : TestClockDS :=
  mkTestClockDS (ClockIdentity_new [0x00; 0x20; 0xC8; 0xFF; 0xFE; 0x92; 0x90; 0x78])
    CC_Default CA_Within1ms (Priority1_new 128) (Priority2_new 128) (StepsRemoved_new 0).
Definition TestClockDS_default_low_grade_slave_only : TestClockDS :=
  mkTestClockDS (ClockIdentity_new [0x00; 0x21; 0xC9; 0xFF; 0xFE; 0x93; 0x91; 0x89])
    CC_SlaveOnly CA_Within10ms (Priority1_new 128) (Priority2_new 128) (StepsRemoved_new 0).

Definition TestClockDS_clock_identity (self : TestClockDS) : ClockIdentity := tc_clock_identity self.
Definition TestClockDS_clock_quality (self : TestClockDS) : ClockQuality :=
  ClockQuality_new (tc_clock_class self) (tc_clock_accuracy self) 0xFFFF.
Definition TestClockDS_dataset (self : TestClockDS) : ClockDS :=
  ClockDS_new (tc_clock_identity self) (tc_priority1 self) (tc_priority2 self)
    (TestClockDS_clock_quality self) (tc_steps_removed self).

Definition TestClockDS_with_clock_identity (clock_identity : ClockIdentity) (self : TestClockDS)
    : TestClockDS :=
  mkTestClockDS clock_identity (tc_clock_class self) (tc_clock_accuracy self) (tc_priority1 self)
    (tc_priority2 self) (tc_steps_removed self).
Definition TestClockDS_with_steps_removed (steps_removed : StepsRemoved) (self : TestClockDS)
    : TestClockDS :=
  mkTestClockDS (tc_clock_identity self) (tc_clock_class self) (tc_clock_accuracy self)
    (tc_priority1 self) (tc_priority2 self) steps_removed.
Definition TestClockDS_with_accuracy (accuracy : ClockAccuracy) (self : TestClockDS)
    : TestClockDS :=
  mkTestClockDS (tc_clock_identity self) (tc_clock_class self) accuracy (tc_priority1 self)
    (tc_priority2 self) (tc_steps_removed self).
Definition TestClockDS_with_priority1 (priority1 : Priority1) (self : TestClockDS) : TestClockDS :=
  mkTestClockDS (tc_clock_identity self) (tc_clock_class self) (tc_clock_accuracy self) priority1
    (tc_priority2 self) (tc_steps_removed self).
Definition TestClockDS_with_priority2 (priority2 : Priority2) (self : TestClockDS) : TestClockDS :=
  mkTestClockDS (tc_clock_identity self) (tc_clock_class self) (tc_clock_accuracy self)
    (tc_priority1 self) priority2 (tc_steps_removed self).

Definition PortIdentity_fake : PortIdentity :=
  PortIdentity_new (ClockIdentity_new [0x00; 0x00; 0x00; 0x00; 0x00; 0x00; 0x00; 0x00])
    (PortNumber_new 1).
Definition PortIdentity_fake_on_port (port : PortNumber) : PortIdentity :=
  PortIdentity_new (ClockIdentity_new [0x00; 0x00; 0x00; 0x00; 0x00; 0x00; 0x00; 0x00]) port.

(** ** The fakes' state

    Datagrams, clock changes and scheduled messages are read off the trace; the recorder of
    decision events keeps what it recorded, and the timeouts how much of the trace was drained
    from each. *)
Record Fakes := mkFakes {
  fk_events : list (PortNumber * BestForeignSnapshot);
  fk_taken : list (option Timeout * nat);
}.

Definition run_fakes {A} (m : M Fakes A) : outcome A :=
  match m (mkWorld [] (mkFakes [] [])) with Done (a, _) => Done a | Panic => Panic end.

(** [FakeStateDecisionEvent]. *)
Definition FakeStateDecisionEvent_trigger (port_number : PortNumber) (e_rbest : BestForeignSnapshot)
    : M Fakes unit :=
  s ← get_shared;
  put_shared (mkFakes (fk_events s ++ [(port_number, e_rbest)]) (fk_taken s)).
Definition FakeStateDecisionEvent_take_events : M Fakes (list (PortNumber * BestForeignSnapshot)) :=
  s ← get_shared;
  _ ← put_shared (mkFakes [] (fk_taken s));
  mret (fk_events s).

#[export] Instance Fakes_StateDecisionEvent : StateDecisionEvent Fakes := {
  sde_trigger := FakeStateDecisionEvent_trigger;
}.

(** [FakeClock]: the last step and the last adjustment. *)
Definition FakeClock_now (initial : TimeStamp) : M Fakes TimeStamp :=
  tr ← get_trace;
  mret (fold_left (λ now e, match e with E_ClockStep to => to | _ => now end) tr initial).
Definition FakeClock_last_adjust : M Fakes (option spec_float) :=
  tr ← get_trace;
  mret (fold_left (λ last e, match e with E_ClockAdjust rate => Some rate | _ => last end) tr None).

(** [FakeTimeout::new]: a timeout no timer host created. *)
Definition FakeTimeout_new (msg : SystemMessage) : Timeout := mkTimeout 1000 msg.

(** The message a restart of a timeout that satisfies [P] records. *)
Definition FakeTimeout_restarted (P : Timeout → bool) (e : Effect) : option SystemMessage :=
  match e with
  | E_Restart t _ => if P t then Some (th_msg t) else None
  | E_RestartWithMessage t msg _ => if P t then Some msg else None
  | _ => None
  end.

(** [take_system_messages] of a timeout ([Some]) and of the timer host ([None]), whose timeouts
    are those it created: what was recorded since the same recorder was last drained. *)
Definition drained (who : option Timeout) (taken : list (option Timeout * nat)) : nat :=
  match list_find (λ p, p.1 = who) taken with Some (_, (_, n)) => n | None => 0 end.
Definition take_restarted (who : option Timeout) (P : list Effect → Timeout → bool)
    : M Fakes (list SystemMessage) :=
  tr ← get_trace;
  s ← get_shared;
  _ ← put_shared (mkFakes (fk_events s) ((who, length tr) :: fk_taken s));
  mret (omap (FakeTimeout_restarted (P tr)) (drop (drained who (fk_taken s)) tr)).
Definition FakeTimeout_take_system_messages (self : Timeout) : M Fakes (list SystemMessage) :=
  take_restarted (Some self) (λ _ t, bool_decide (t = self)).
Definition FakeTimerHost_take_system_messages : M Fakes (list SystemMessage) :=
  take_restarted None (λ tr t,
    existsb (λ e, match e with E_NewTimeout t' => bool_decide (t = t') | _ => false end) tr).

(** [FakePort] accepts every datagram and [FailingPort] none. *)
Definition FakePort : Env := always_sends.
Definition FailingPort : Env := {|
  env_send_ok _ _ _ := false;
  env_time_scale _ := Ptp;
|}.

(** [TestMessage]: a captured datagram back as a message. *)
Definition TestMessage_event (buf : list Z) : PR EventMessage :=
  length_checked ← length_checked_v2 buf;
  message_type ← MessageHeader_message_type length_checked;
  sequence_id ← lift_outcome (MessageHeader_sequence_id length_checked);
  flags ← lift_outcome (MessageHeader_flags length_checked);
  log_message_interval ← lift_outcome (MessageHeader_log_message_interval length_checked);
  payload ← lift_outcome (MessageHeader_payload length_checked);
  EventMessage_new (F := FlagBits) message_type sequence_id flags log_message_interval payload.
Definition TestMessage_general (buf : list Z) : PR GeneralMessage :=
  length_checked ← length_checked_v2 buf;
  message_type ← MessageHeader_message_type length_checked;
  sequence_id ← lift_outcome (MessageHeader_sequence_id length_checked);
  flags ← lift_outcome (MessageHeader_flags length_checked);
  log_message_interval ← lift_outcome (MessageHeader_log_message_interval length_checked);
  payload ← lift_outcome (MessageHeader_payload length_checked);
  GeneralMessage_new (F := FlagBits) message_type sequence_id flags log_message_interval payload.

#[export] Instance GeneralMessage_eq_dec : EqDecision GeneralMessage.
Proof. unfold EqDecision, Decision. repeat decide equality. Defined.

(** [any] over the captured buffers, in their order, stopping at the first equal one; a buffer
    that does not decode is a panic. *)
Fixpoint any_message {A} `{EqDecision A} (decode : list Z → PR A) (expected : A)
    (bufs : list (list Z)) : outcome bool :=
  match bufs with
  | [] => Done false
  | buf :: bufs =>
      msg ← unwrap_ok (decode buf);
      if bool_decide (msg = expected) then Done true else any_message decode expected bufs
  end.

Definition sent_events (tr : list Effect) : list (list Z) :=
  omap (λ e, match e with E_SendEvent _ buf true => Some buf | _ => None end) tr.
Definition sent_generals (tr : list Effect) : list (list Z) :=
  omap (λ e, match e with E_SendGeneral _ buf true => Some buf | _ => None end) tr.

Definition FakePort_contains_event_message (expected : EventMessage) : M Fakes bool :=
  tr ← get_trace; lift (any_message TestMessage_event expected (sent_events tr)).
Definition FakePort_contains_general_message (expected : GeneralMessage) : M Fakes bool :=
  tr ← get_trace; lift (any_message TestMessage_general expected (sent_generals tr)).
Definition FakePort_is_empty : M Fakes bool :=
  tr ← get_trace;
  mret (bool_decide (sent_events tr = []) && bool_decide (sent_generals tr = [])).

(** ** Ports for tests *)

(** The fields every fixture assembles: [BestForeignRecord::new], the algorithm and the trigger
    on the port's own number. *)
Definition test_parts {R} `{ForeignClockRecords R} (port : DomainPort) (local_ds : ClockDS)
    (foreign_clock_records : R) : BmcaParts R :=
  let port_identity := dp_port_identity port in
  let port_number := PortIdentity_port_number port_identity in
  let best_foreign := mkBestForeignRecord port_identity foreign_clock_records in
  mkBmcaParts (mkBestMasterClockAlgorithm local_ds port_number) best_foreign
    (mkStateDecisionEventTrigger (BestForeignRecord_snapshot best_foreign) port_number).

Definition master_test_port {S R} `{ForeignClockRecords R} (port : DomainPort)
    (local_ds : ClockDS) (foreign_clock_records : R) (profile : PortProfile)
    : M S (PortState R) :=
  PortProfile_master port
    (mkGrandMasterTrackingBmca (test_parts port local_ds foreign_clock_records) local_ds) profile.

Definition slave_test_port {S R} `{ForeignClockRecords R} (port : DomainPort)
    (local_ds : ClockDS) (foreign_clock_records : R) (parent_port_identity : ParentPortIdentity)
    (profile : PortProfile) : M S (PortState R) :=
  let bmca := mkParentTrackingBmca (test_parts port local_ds foreign_clock_records)
                parent_port_identity in
  delay_timeout ← DomainPort_timeout SM_DelayRequestTimeout port;
  zero ← lift (Duration_from_secs 0);
  _ ← Timeout_restart delay_timeout zero;
  interval ← lift (LogInterval_new 0);
  let e2e := EndToEndDelayMechanism_new (mkDelayCycle (SequenceId_new 0) delay_timeout interval) in
  PortProfile_slave port bmca e2e Servo_Stepping profile.
