(* ===== verification/TestsValues.v ===== *)
(** * The unit tests of the value types (crates/rptp/src/time.rs, dataset.rs)

    One definition per test, in the order of the source and under its name; [value_tests] lists
    them all and [value_tests_pass] runs them. *)

From S2P Require Import Prelude Errors Time Clock PortId DataSet Foreign Stores Wire Message.
From S2P Require Import Effects Servo E2e Bmca Profile Handlers PortState TestSupport.

Open Scope Z_scope.

(** ** time.rs *)

Definition timestamp_new_panics_on_invalid_seconds : Test :=
  should_panic (TimeStamp_new (Z.shiftl 1 48) 500000000).

Definition timestamp_new_panics_on_invalid_nanos : Test :=
  should_panic (TimeStamp_new 1 1000000000).

Definition timestamp_subtraction : Test :=
  ts1 ← TimeStamp_new 1 500000000;
  ts2 ← TimeStamp_new 1 200000000;
  duration ← TimeStamp_sub ts1 ts2;
  expected ← TimeInterval_new 0 300000000;
  _ ← assert_eq duration expected;
  duration ← TimeStamp_sub ts2 ts1;
  expected ← TimeInterval_new (-1) 700000000;
  assert_eq duration expected.

Definition timestamp_subtraction_max_range : Test :=
  ts1 ← TimeStamp_new (Z.shiftl 1 48 - 1) 999999999;
  ts2 ← TimeStamp_new 0 0;
  duration ← TimeStamp_sub ts1 ts2;
  expected ← TimeInterval_new (Z.shiftl 1 48 - 1) 999999999;
  _ ← assert_eq duration expected;
  duration ← TimeStamp_sub ts2 ts1;
  expected ← TimeInterval_new (- (Z.shiftl 1 48 - 1) - 1) 1;
  assert_eq duration expected.

Definition timestamp_subtraction_crossing_seconds : Test :=
  ts1 ← TimeStamp_new 2 100000000;
  ts2 ← TimeStamp_new 1 900000000;
  duration ← TimeStamp_sub ts1 ts2;
  expected ← TimeInterval_new 0 200000000;
  _ ← assert_eq duration expected;
  duration ← TimeStamp_sub ts2 ts1;
  expected ← TimeInterval_new (-1) 800000000;
  assert_eq duration expected.

Definition timestamp_subtraction_zero_duration : Test :=
  ts ← TimeStamp_new 1 500000000;
  duration ← TimeStamp_sub ts ts;
  expected ← TimeInterval_new 0 0;
  assert_eq duration expected.

Definition timestamp_checked_add_simple : Test :=
  ts ← TimeStamp_new 1 500000000;
  interval ← TimeInterval_new 2 250000000;
  result ← TimeStamp_checked_add ts interval;
  result ← unwrap result;
  expected ← TimeStamp_new 3 750000000;
  assert_eq result expected.

Definition timestamp_checked_add_with_nanos_carry : Test :=
  ts ← TimeStamp_new 1 900000000;
  interval ← TimeInterval_new 0 200000000;
  result ← TimeStamp_checked_add ts interval;
  result ← unwrap result;
  expected ← TimeStamp_new 2 100000000;
  assert_eq result expected.

Definition timestamp_checked_add_overflows_domain_range : Test :=
  ts ← TimeStamp_new 0 0;
  interval ← TimeInterval_new i64_MAX 0;
  result ← TimeStamp_checked_add ts interval;
  assert_eq result None.

Definition timestamp_checked_add_hits_upper_bound : Test :=
  ts ← TimeStamp_new (Z.shiftl 1 48 - 2) 999999999;
  interval ← TimeInterval_new 0 1;
  result ← TimeStamp_checked_add ts interval;
  result ← unwrap result;
  expected ← TimeStamp_new (Z.shiftl 1 48 - 1) 0;
  assert_eq result expected.

Definition timestamp_checked_add_beyond_upper_bound_returns_none : Test :=
  ts ← TimeStamp_new (Z.shiftl 1 48 - 2) 0;
  interval ← TimeInterval_new 3 0;
  result ← TimeStamp_checked_add ts interval;
  assert_eq result None.

Definition timestamp_checked_add_negative_interval_below_zero_returns_none : Test :=
  ts ← TimeStamp_new 1 0;
  interval ← TimeInterval_new (-2) 0;
  result ← TimeStamp_checked_add ts interval;
  assert_eq result None.

Definition timestamp_checked_sub_simple : Test :=
  ts ← TimeStamp_new 3 750000000;
  interval ← TimeInterval_new 2 250000000;
  result ← TimeStamp_checked_sub ts interval;
  result ← unwrap result;
  expected ← TimeStamp_new 1 500000000;
  assert_eq result expected.

Definition timestamp_checked_sub_with_nanos_borrow : Test :=
  ts ← TimeStamp_new 2 100000000;
  interval ← TimeInterval_new 0 200000000;
  result ← TimeStamp_checked_sub ts interval;
  result ← unwrap result;
  expected ← TimeStamp_new 1 900000000;
  assert_eq result expected.

Definition timestamp_checked_sub_below_zero_returns_none : Test :=
  ts ← TimeStamp_new 1 0;
  interval ← TimeInterval_new 2 0;
  result ← TimeStamp_checked_sub ts interval;
  assert_eq result None.

Definition timestamp_checked_sub_negative_interval_overflows_upper_bound_returns_none : Test :=
  ts ← TimeStamp_new (Z.shiftl 1 48 - 1) 0;
  interval ← TimeInterval_new (-1) 0;
  result ← TimeStamp_checked_sub ts interval;
  assert_eq result None.

Definition time_interval_new_with_i64_min_and_zero_nanos_should_panic : Test :=
  should_panic (TimeInterval_new i64_MIN 0).

(** [duration.half()] and [duration.abs()] against an expected interval. *)
Definition time_interval_half_zero : Test :=
  duration ← TimeInterval_new 0 0;
  half ← TimeInterval_half duration; expected ← TimeInterval_new 0 0;
  assert_eq half expected.

Definition time_interval_half_even_positive : Test :=
  duration ← TimeInterval_new 2 0;
  half ← TimeInterval_half duration; expected ← TimeInterval_new 1 0;
  assert_eq half expected.

Definition time_interval_half_positive_odd_rounds_towards_zero : Test :=
  duration ← TimeInterval_new 0 1;
  half ← TimeInterval_half duration; expected ← TimeInterval_new 0 0;
  assert_eq half expected.

Definition time_interval_half_negative_odd_rounds_towards_zero : Test :=
  duration ← TimeInterval_new (-1) 999999999;
  half ← TimeInterval_half duration; expected ← TimeInterval_new 0 0;
  assert_eq half expected.

Definition time_interval_abs_positive : Test :=
  duration ← TimeInterval_new 1 500000000;
  abs ← TimeInterval_abs duration; expected ← TimeInterval_new 1 500000000;
  assert_eq abs expected.

Definition time_interval_abs_negative : Test :=
  duration ← TimeInterval_new (-1) 500000000;
  abs ← TimeInterval_abs duration; expected ← TimeInterval_new 0 500000000;
  assert_eq abs expected.

Definition time_interval_abs_zero : Test :=
  duration ← TimeInterval_new 0 0;
  abs ← TimeInterval_abs duration; expected ← TimeInterval_new 0 0;
  assert_eq abs expected.

Definition time_interval_abs_zero_nanos : Test :=
  duration ← TimeInterval_new (-1) 0;
  abs ← TimeInterval_abs duration; expected ← TimeInterval_new 1 0;
  assert_eq abs expected.

Definition time_interval_abs_max_nanos : Test :=
  duration ← TimeInterval_new (-1) 999999999;
  abs ← TimeInterval_abs duration; expected ← TimeInterval_new 0 1;
  assert_eq abs expected.

Definition time_interval_abs_i64_min : Test :=
  duration ← TimeInterval_new i64_MIN 1;
  abs_duration ← TimeInterval_abs duration; expected ← TimeInterval_new i64_MAX 999999999;
  assert_eq abs_duration expected.

Definition time_interval_ord : Test :=
  a ← TimeInterval_new (-2) 0; b ← TimeInterval_new (-1) 999999999;
  _ ← assert_true (TimeInterval_ltb a b);
  a ← TimeInterval_new (-1) 1; b ← TimeInterval_new (-1) 999999999;
  assert_true (TimeInterval_ltb a b).

Definition log_interval_duration : Test :=
  li ← LogInterval_new 0; d ← Duration_from_secs 1;
  _ ← assert_eq (LogInterval_duration li) d;
  li ← LogInterval_new 1; d ← Duration_from_secs 2;
  _ ← assert_eq (LogInterval_duration li) d;
  li ← LogInterval_new 2; d ← Duration_from_secs 4;
  _ ← assert_eq (LogInterval_duration li) d;
  li ← LogInterval_new (-1); d ← Duration_from_millis 500;
  _ ← assert_eq (LogInterval_duration li) d;
  li ← LogInterval_new (-2); d ← Duration_from_millis 250;
  _ ← assert_eq (LogInterval_duration li) d;
  li ← LogInterval_new (-3); d ← Duration_from_millis 125;
  assert_eq (LogInterval_duration li) d.

Definition log_interval_new_panics_on_out_of_range_positive : Test :=
  should_panic (LogInterval_new 21).

Definition log_interval_new_panics_on_out_of_range_negative : Test :=
  should_panic (LogInterval_new (-21)).

Definition time_tests : list Test :=
  [timestamp_new_panics_on_invalid_seconds; timestamp_new_panics_on_invalid_nanos;
   timestamp_subtraction; timestamp_subtraction_max_range; timestamp_subtraction_crossing_seconds;
   timestamp_subtraction_zero_duration; timestamp_checked_add_simple;
   timestamp_checked_add_with_nanos_carry; timestamp_checked_add_overflows_domain_range;
   timestamp_checked_add_hits_upper_bound; timestamp_checked_add_beyond_upper_bound_returns_none;
   timestamp_checked_add_negative_interval_below_zero_returns_none; timestamp_checked_sub_simple;
   timestamp_checked_sub_with_nanos_borrow; timestamp_checked_sub_below_zero_returns_none;
   timestamp_checked_sub_negative_interval_overflows_upper_bound_returns_none;
   time_interval_new_with_i64_min_and_zero_nanos_should_panic; time_interval_half_zero;
   time_interval_half_even_positive; time_interval_half_positive_odd_rounds_towards_zero;
   time_interval_half_negative_odd_rounds_towards_zero; time_interval_abs_positive;
   time_interval_abs_negative; time_interval_abs_zero; time_interval_abs_zero_nanos;
   time_interval_abs_max_nanos; time_interval_abs_i64_min; time_interval_ord;
   log_interval_duration; log_interval_new_panics_on_out_of_range_positive;
   log_interval_new_panics_on_out_of_range_negative].

(** ** dataset.rs *)

#[local] Instance TopologyComparison_eq_dec : EqDecision TopologyComparison.
Proof. solve_decision. Defined.
#[local] Instance ClockDSComparisonResult_eq_dec : EqDecision ClockDSComparisonResult.
Proof. solve_decision. Defined.
#[local] Instance TopologyOrdering_eq_dec : EqDecision TopologyOrdering.
Proof. solve_decision. Defined.

(** [matches!(r, ClockDSComparisonResult::TopologyTieBreak(_))]. *)
Definition is_tie_break (r : ClockDSComparisonResult) : bool :=
  match r with CDS_TopologyTieBreak _ => true | _ => false end.

Definition pid (clock_id port : Z) : PortIdentity :=
  PortIdentity_new (ClockIdentity_new [clock_id; 0; 0; 0; 0; 0; 0; 0]) (PortNumber_new port).

Definition clock_ds_ordering : Test :=
  let high := TestClockDS_dataset TestClockDS_default_high_grade in
  let mid := TestClockDS_dataset TestClockDS_default_mid_grade in
  let low := TestClockDS_dataset TestClockDS_default_low_grade_slave_only in
  _ ← assert_eq (ClockDS_compare high mid) CDS_Better;
  _ ← assert_eq (ClockDS_compare mid high) CDS_Worse;
  _ ← assert_eq (ClockDS_compare high low) CDS_Better;
  _ ← assert_eq (ClockDS_compare low high) CDS_Worse;
  _ ← assert_eq (ClockDS_compare mid low) CDS_Better;
  assert_eq (ClockDS_compare low mid) CDS_Worse.

Definition clock_ds_topology_tiebreak : Test :=
  let c1 := TestClockDS_dataset TestClockDS_default_high_grade in
  let c2 := TestClockDS_dataset TestClockDS_default_high_grade in
  _ ← assert_true (is_tie_break (ClockDS_compare c1 c2));
  _ ← assert_true (is_tie_break (ClockDS_compare c2 c1));
  assert_eq c1 c2.

Definition clock_ds_compares_priority1_before_quality : Test :=
  let a := TestClockDS_dataset
             (TestClockDS_with_priority1 (Priority1_new 10) TestClockDS_default_high_grade) in
  let b := TestClockDS_dataset
             (TestClockDS_with_priority1 (Priority1_new 20) TestClockDS_atomic_grandmaster) in
  _ ← assert_eq (ClockDS_compare a b) CDS_Better;
  assert_eq (ClockDS_compare b a) CDS_Worse.

Definition clock_ds_compares_priority2_after_quality : Test :=
  let a := TestClockDS_dataset (TestClockDS_with_priority2 (Priority2_new 10)
             (TestClockDS_with_clock_identity (ClockIdentity_new (replicate 8 0))
                TestClockDS_default_high_grade)) in
  let b := TestClockDS_dataset (TestClockDS_with_priority2 (Priority2_new 20)
             (TestClockDS_with_clock_identity (ClockIdentity_new (replicate 8 1))
                TestClockDS_default_high_grade)) in
  _ ← assert_eq (ClockDS_compare a b) CDS_Better;
  assert_eq (ClockDS_compare b a) CDS_Worse.

Definition clock_ds_tiebreaks_on_identity_last : Test :=
  let a := TestClockDS_dataset
             (TestClockDS_with_clock_identity (ClockIdentity_new (replicate 8 0))
                TestClockDS_default_high_grade) in
  let b := TestClockDS_dataset
             (TestClockDS_with_clock_identity (ClockIdentity_new (replicate 8 1))
                TestClockDS_default_high_grade) in
  _ ← assert_eq (ClockDS_compare a b) CDS_Better;
  assert_eq (ClockDS_compare b a) CDS_Worse.

Definition clock_ds_prefers_lower_steps_removed_when_identity_equal : Test :=
  let a := TestClockDS_dataset
             (TestClockDS_with_steps_removed (StepsRemoved_new 1) TestClockDS_default_high_grade) in
  let b := TestClockDS_dataset
             (TestClockDS_with_steps_removed (StepsRemoved_new 3) TestClockDS_default_high_grade) in
  _ ← assert_eq (ClockDS_compare a b) CDS_Better;
  assert_eq (ClockDS_compare b a) CDS_Worse.

Definition steps_removed_compare_tiebreaks_on_equal_and_one_apart : Test :=
  let compare a b := StepsRemoved_compare (StepsRemoved_new a) (StepsRemoved_new b) in
  _ ← assert_true (is_tie_break (compare 0 0));
  _ ← assert_true (is_tie_break (compare 0 1));
  assert_true (is_tie_break (compare 1 0)).

Definition steps_removed_compare_prefers_lower_when_two_or_more_apart : Test :=
  let compare a b := StepsRemoved_compare (StepsRemoved_new a) (StepsRemoved_new b) in
  _ ← assert_eq (compare 0 2) CDS_Better;
  assert_eq (compare 2 0) CDS_Worse.

Definition steps_removed_compare_uses_saturating_add : Test :=
  let compare a b := StepsRemoved_compare (StepsRemoved_new a) (StepsRemoved_new b) in
  _ ← assert_true (is_tie_break (compare (65535 - 1) 65535));
  assert_eq (compare 65535 0) CDS_Worse.

Definition topology_compare_a_less_b_receiver_b_lt_sender_b_is_better : Test :=
  let topo_a := Topology_foreign (pid 1 1) (pid 1 2) in
  let topo_b := Topology_foreign (pid 2 2) (pid 2 1) in
  assert_eq (Topology_compare topo_a Lt topo_b) TO_Better.

Definition topology_compare_a_less_b_receiver_b_gt_sender_b_is_better_by_topology : Test :=
  let topo_a := Topology_foreign (pid 1 1) (pid 1 2) in
  let topo_b := Topology_foreign (pid 2 1) (pid 2 2) in
  assert_eq (Topology_compare topo_a Lt topo_b) TO_BetterByTopology.

Definition topology_compare_a_less_b_receiver_b_eq_sender_b_is_error1 : Test :=
  let topo_a := Topology_foreign (pid 1 1) (pid 1 2) in
  let topo_b := Topology_foreign (pid 2 1) (pid 2 1) in
  assert_eq (Topology_compare topo_a Lt topo_b) TO_Error1.

Definition topology_compare_a_greater_b_receiver_a_lt_sender_a_is_worse : Test :=
  let topo_a := Topology_foreign (pid 2 2) (pid 2 1) in
  let topo_b := Topology_foreign (pid 1 1) (pid 1 2) in
  assert_eq (Topology_compare topo_a Gt topo_b) TO_Worse.

Definition topology_compare_a_greater_b_receiver_a_gt_sender_a_is_worse_by_topology : Test :=
  let topo_a := Topology_foreign (pid 2 1) (pid 2 2) in
  let topo_b := Topology_foreign (pid 1 1) (pid 1 2) in
  assert_eq (Topology_compare topo_a Gt topo_b) TO_WorseByTopology.

Definition topology_compare_a_greater_b_receiver_a_eq_sender_a_is_error1 : Test :=
  let topo_a := Topology_foreign (pid 2 1) (pid 2 1) in
  let topo_b := Topology_foreign (pid 1 1) (pid 1 2) in
  assert_eq (Topology_compare topo_a Gt topo_b) TO_Error1.

Definition topology_compare_a_eq_b_sender_a_lt_sender_b_is_better_by_topology : Test :=
  let topo_a := Topology_foreign (pid 1 1) (pid 9 10) in
  let topo_b := Topology_foreign (pid 2 1) (pid 9 11) in
  assert_eq (Topology_compare topo_a Eq topo_b) TO_BetterByTopology.

Definition topology_compare_a_eq_b_sender_a_gt_sender_b_is_worse_by_topology : Test :=
  let topo_a := Topology_foreign (pid 2 1) (pid 9 10) in
  let topo_b := Topology_foreign (pid 1 1) (pid 9 11) in
  assert_eq (Topology_compare topo_a Eq topo_b) TO_WorseByTopology.

Definition topology_compare_a_eq_b_sender_equal_receiver_port_number_breaks_tie : Test :=
  let sender_a := pid 1 1 in
  let topo_a := Topology_foreign sender_a (pid 9 10) in
  let topo_b := Topology_foreign sender_a (pid 9 11) in
  _ ← assert_eq (Topology_compare topo_a Eq topo_b) TO_BetterByTopology;
  assert_eq (Topology_compare topo_b Eq topo_a) TO_WorseByTopology.

Definition topology_compare_a_eq_b_sender_equal_receiver_port_number_equal_is_error2 : Test :=
  let sender_a := pid 1 1 in
  let topo_a := Topology_foreign sender_a (pid 9 10) in
  let topo_b := Topology_foreign sender_a (pid 7 10) in
  assert_eq (Topology_compare topo_a Eq topo_b) TO_Error2.

Definition topology_compare_is_antisymmetric_for_non_error_results : Test :=
  let reverse ordering := match ordering with Lt => Gt | Gt => Lt | Eq => Eq end in
  let assert_antisymmetric a ab b :=
    let res_ab := Topology_compare a ab b in
    let res_ba := Topology_compare b (reverse ab) a in
    match res_ab with
    | TO_Better => assert_eq res_ba TO_Worse
    | TO_BetterByTopology => assert_eq res_ba TO_WorseByTopology
    | TO_Worse => assert_eq res_ba TO_Better
    | TO_WorseByTopology => assert_eq res_ba TO_BetterByTopology
    | TO_Error1 | TO_Error2 => Done ()
    end in
  _ ← assert_antisymmetric (Topology_foreign (pid 1 1) (pid 1 2)) Lt
        (Topology_foreign (pid 2 2) (pid 2 1));
  _ ← assert_antisymmetric (Topology_foreign (pid 1 1) (pid 1 2)) Lt
        (Topology_foreign (pid 2 1) (pid 2 2));
  assert_antisymmetric (Topology_foreign (pid 1 1) (pid 9 10)) Eq
    (Topology_foreign (pid 2 1) (pid 9 11)).

Definition dataset_tests : list Test :=
  [clock_ds_ordering; clock_ds_topology_tiebreak; clock_ds_compares_priority1_before_quality;
   clock_ds_compares_priority2_after_quality; clock_ds_tiebreaks_on_identity_last;
   clock_ds_prefers_lower_steps_removed_when_identity_equal;
   steps_removed_compare_tiebreaks_on_equal_and_one_apart;
   steps_removed_compare_prefers_lower_when_two_or_more_apart;
   steps_removed_compare_uses_saturating_add;
   topology_compare_a_less_b_receiver_b_lt_sender_b_is_better;
   topology_compare_a_less_b_receiver_b_gt_sender_b_is_better_by_topology;
   topology_compare_a_less_b_receiver_b_eq_sender_b_is_error1;
   topology_compare_a_greater_b_receiver_a_lt_sender_a_is_worse;
   topology_compare_a_greater_b_receiver_a_gt_sender_a_is_worse_by_topology;
   topology_compare_a_greater_b_receiver_a_eq_sender_a_is_error1;
   topology_compare_a_eq_b_sender_a_lt_sender_b_is_better_by_topology;
   topology_compare_a_eq_b_sender_a_gt_sender_b_is_worse_by_topology;
   topology_compare_a_eq_b_sender_equal_receiver_port_number_breaks_tie;
   topology_compare_a_eq_b_sender_equal_receiver_port_number_equal_is_error2;
   topology_compare_is_antisymmetric_for_non_error_results].

Lemma value_tests_pass : Forall (λ t, t = Done ()) (time_tests ++ dataset_tests).
Proof. repeat constructor. Qed.
