(* ===== verification/TestsRecords.v ===== *)
(** * The unit tests of the foreign clock records (crates/rptp/src/foreign.rs, infra.rs, heapless.rs)

    One definition per test, in the order of the source and under its name; [record_tests] lists
    them all and [record_tests_pass] runs them. The tests of heapless.rs run over the concrete
    bounded vector of Stores.v. *)

From S2P Require Import Prelude Errors Time Clock PortId DataSet Foreign Stores Wire Message.
From S2P Require Import Effects Servo E2e Bmca Profile Handlers PortState Clocks TestSupport.

Open Scope Z_scope.

#[export] Instance ForeignClockStatus_eq_dec : EqDecision ForeignClockStatus.
Proof. solve_decision. Defined.

(** [ForeignClockRecord::new(source, ds, LogInterval::new(0), Instant::from_secs(secs))], as every
    test below builds it. *)
Definition record_at (secs : Z) (source : PortIdentity) (ds : ClockDS)
    : outcome ForeignClockRecord :=
  interval ← LogInterval_new 0;
  now ← Instant_from_secs secs;
  Done (ForeignClockRecord_new source ds interval now).

Definition ForeignClockRecord_new_qualified (source_port_identity : PortIdentity)
    (foreign_clock_ds : ClockDS) (log_announce_interval : LogInterval) (now : Instant)
    : ForeignClockRecord :=
  let window := ForeignMasterTimeWindow_duration log_announce_interval in
  mkForeignClockRecord source_port_identity foreign_clock_ds
    (mkSlidingWindowQualification now (Some now) window).

Definition qualified_record_at (secs : Z) (source : PortIdentity) (ds : ClockDS)
    : outcome ForeignClockRecord :=
  interval ← LogInterval_new 0;
  now ← Instant_from_secs secs;
  Done (ForeignClockRecord_new_qualified source ds interval now).

Definition is_some {A} (o : option A) : bool := match o with Some _ => true | None => false end.
Definition is_none {A} (o : option A) : bool := negb (is_some o).

(** ** foreign.rs *)
Module foreign.

Definition pid (clock_id port : Z) : PortIdentity :=
  PortIdentity_new (ClockIdentity_new [clock_id; 0; 0; 0; 0; 0; 0; 0]) (PortNumber_new port).

Definition qualified (snapshot : BestForeignSnapshot) : outcome QualifiedForeignSnapshot :=
  match snapshot with
  | Qualified ds source_port_identity receiver =>
      Done (mkQualifiedForeignSnapshot ds source_port_identity receiver)
  | Empty => Panic
  end.

Definition high := TestClockDS_default_high_grade.
Definition foreign_high : ClockDS := TestClockDS_dataset high.
Definition foreign_low : ClockDS :=
  TestClockDS_dataset TestClockDS_default_low_grade_slave_only.
Definition port_id : PortIdentity :=
  PortIdentity_new (TestClockDS_clock_identity high) (PortNumber_new 1).

Definition qualified_dataset_change_reports_updated : Test :=
  record ← record_at 0 port_id foreign_high;
  new_record ← record_at 1 port_id foreign_high;
  '(_, record) ← ForeignClockRecord_update_from new_record record;
  _ ← assert_true (is_some (ForeignClockRecord_qualified record));
  updated_record ← record_at 2 port_id foreign_low;
  '(status, record) ← ForeignClockRecord_update_from updated_record record;
  _ ← assert_eq status FCS_Updated;
  let receiver := PortIdentity_new (ClockIdentity_new [0; 0; 0; 0; 0; 0; 0; 0]) (PortNumber_new 1) in
  assert_eq (QualifiedForeignClockRecord_snapshot receiver <$> ForeignClockRecord_qualified record)
    (Some (Qualified foreign_low port_id receiver)).

Definition unqualified_dataset_change_does_not_report_updated : Test :=
  record ← record_at 0 port_id foreign_high;
  updated_record ← record_at 10 port_id foreign_high;
  '(_, record) ← ForeignClockRecord_update_from updated_record record;
  _ ← assert_true (is_none (ForeignClockRecord_qualified record));
  updated_record ← record_at 20 port_id foreign_low;
  '(status, record) ← ForeignClockRecord_update_from updated_record record;
  _ ← assert_eq status FCS_Unchanged;
  assert_true (is_none (ForeignClockRecord_qualified record)).

Definition sliding_window_qualification_requires_two_fast_announces : Test :=
  record ← record_at 0 port_id foreign_high;
  _ ← assert_true (is_none (ForeignClockRecord_qualified record));
  new_record ← record_at 1 port_id foreign_high;
  '(_, record) ← ForeignClockRecord_update_from new_record record;
  assert_true (is_some (ForeignClockRecord_qualified record)).

Definition sliding_window_qualification_drops_on_slow_announces : Test :=
  record ← record_at 0 port_id foreign_high;
  new_record ← record_at 1 port_id foreign_high;
  '(_, record) ← ForeignClockRecord_update_from new_record record;
  _ ← assert_true (is_some (ForeignClockRecord_qualified record));
  updated_record ← record_at 10 port_id foreign_high;
  '(_, record) ← ForeignClockRecord_update_from updated_record record;
  assert_true (is_none (ForeignClockRecord_qualified record)).

Definition sliding_window_never_qualifies_with_one_annonce_per_window : Test :=
  record ← record_at 0 port_id foreign_high;
  updated_record ← record_at 5 port_id foreign_high;
  '(_, record) ← ForeignClockRecord_update_from updated_record record;
  _ ← assert_true (is_none (ForeignClockRecord_qualified record));
  updated_record ← record_at 10 port_id foreign_high;
  '(_, record) ← ForeignClockRecord_update_from updated_record record;
  _ ← assert_true (is_none (ForeignClockRecord_qualified record));
  updated_record ← record_at 15 port_id foreign_high;
  '(_, record) ← ForeignClockRecord_update_from updated_record record;
  assert_true (is_none (ForeignClockRecord_qualified record)).

Definition best_foreign_snapshot_comparison_handles_empty_cases : Test :=
  let snapshot := Qualified foreign_high (pid 1 1) (PortIdentity_fake_on_port (PortNumber_new 1)) in
  _ ← assert_true (BestForeignSnapshot_is_better_or_better_by_topology snapshot Empty);
  _ ← assert_true (negb (BestForeignSnapshot_is_better_or_better_by_topology Empty snapshot));
  _ ← assert_true (negb (BestForeignSnapshot_is_better_or_better_by_topology Empty Empty));
  q ← qualified snapshot;
  assert_true (negb (QualifiedForeignSnapshot_is_better_by_topology q Empty)).

Definition best_foreign_snapshot_is_better_by_topology_on_sender_order : Test :=
  let better := Qualified foreign_high (pid 1 1) (PortIdentity_fake_on_port (PortNumber_new 1)) in
  let worse := Qualified foreign_high (pid 2 1) (PortIdentity_fake_on_port (PortNumber_new 1)) in
  q ← qualified better;
  _ ← assert_true (QualifiedForeignSnapshot_is_better_by_topology q worse);
  _ ← assert_true (BestForeignSnapshot_is_better_or_better_by_topology better worse);
  q ← qualified worse;
  _ ← assert_true (negb (QualifiedForeignSnapshot_is_better_by_topology q better));
  assert_true (negb (BestForeignSnapshot_is_better_or_better_by_topology worse better)).

Definition best_foreign_snapshot_topology_error1_is_not_better : Test :=
  let ds0 := TestClockDS_dataset (TestClockDS_with_steps_removed (StepsRemoved_new 0) high) in
  let ds1 := TestClockDS_dataset (TestClockDS_with_steps_removed (StepsRemoved_new 1) high) in
  let a := Qualified ds0 (pid 9 1) (PortIdentity_fake_on_port (PortNumber_new 1)) in
  let b_sender := pid 7 1 in
  let b := Qualified ds1 b_sender b_sender in
  _ ← assert_true (negb (BestForeignSnapshot_is_better_or_better_by_topology a b));
  q ← qualified a;
  assert_true (negb (QualifiedForeignSnapshot_is_better_by_topology q b)).

Definition best_foreign_snapshot_topology_error2_is_not_better : Test :=
  let sender := pid 1 1 in
  let a := Qualified foreign_high sender (pid 9 1) in
  let b := Qualified foreign_high sender (pid 8 1) in
  _ ← assert_true (negb (BestForeignSnapshot_is_better_or_better_by_topology a b));
  q ← qualified a;
  assert_true (negb (QualifiedForeignSnapshot_is_better_by_topology q b)).

Definition best_foreign_record_snapshot_prefers_better_by_topology : Test :=
  let receiver := PortIdentity_fake_on_port (PortNumber_new 1) in
  worse ← qualified_record_at 0 (pid 2 1) foreign_high;
  better ← qualified_record_at 0 (pid 1 1) foreign_high;
  let best := mkBestForeignRecord receiver (mkForeignClockRecordsVec [worse; better]) in
  assert_eq (BestForeignRecord_snapshot best) (Qualified foreign_high (pid 1 1) receiver).

Definition sliding_window_edge_drops_qualification_but_not_stale : Test :=
  record ← record_at 0 port_id foreign_high;
  new_record ← record_at 1 port_id foreign_high;
  '(_, record) ← ForeignClockRecord_update_from new_record record;
  _ ← assert_true (is_some (ForeignClockRecord_qualified record));
  let now := Instant_from_nanos 5000000001 in
  interval ← LogInterval_new 0;
  let updated_record := ForeignClockRecord_new port_id foreign_high interval now in
  '(_, record) ← ForeignClockRecord_update_from updated_record record;
  _ ← assert_true (is_none (ForeignClockRecord_qualified record));
  assert_true (negb (ForeignClockRecord_is_stale now record)).

Definition best_foreign_snapshot_is_better_than_is_antisymmetric_for_strict_better : Test :=
  let receiver := PortIdentity_fake_on_port (PortNumber_new 1) in
  let low_id := ClockIdentity_new [0x00; 0; 0; 0; 0; 0; 0; 0] in
  let high_id := ClockIdentity_new [0x01; 0; 0; 0; 0; 0; 0; 0] in
  let a := Qualified
    (TestClockDS_dataset (TestClockDS_with_priority1 (Priority1_new 1)
       (TestClockDS_with_clock_identity low_id high))) (pid 1 1) receiver in
  let b := Qualified
    (TestClockDS_dataset (TestClockDS_with_priority1 (Priority1_new 2)
       (TestClockDS_with_clock_identity high_id high))) (pid 2 1) receiver in
  _ ← assert_true (BestForeignSnapshot_is_better_or_better_by_topology a b);
  _ ← assert_true (negb (BestForeignSnapshot_is_better_or_better_by_topology b a));
  qa ← qualified a;
  _ ← assert_true (negb (QualifiedForeignSnapshot_is_better_by_topology qa b));
  qb ← qualified b;
  assert_true (negb (QualifiedForeignSnapshot_is_better_by_topology qb a)).

Definition best_foreign_snapshot_is_better_by_topology_is_antisymmetric : Test :=
  let receiver := PortIdentity_fake_on_port (PortNumber_new 1) in
  let a := Qualified foreign_high (pid 1 1) receiver in
  let b := Qualified foreign_high (pid 2 1) receiver in
  qa ← qualified a;
  _ ← assert_true (QualifiedForeignSnapshot_is_better_by_topology qa b);
  qb ← qualified b;
  _ ← assert_true (negb (QualifiedForeignSnapshot_is_better_by_topology qb a));
  _ ← assert_true (BestForeignSnapshot_is_better_or_better_by_topology a b);
  assert_true (negb (BestForeignSnapshot_is_better_or_better_by_topology b a)).

End foreign.

(** ** infra.rs *)
Module infra.

Definition ForeignClockRecordsVec_from_records (records : list ForeignClockRecord)
    : ForeignClockRecordsVec := mkForeignClockRecordsVec records.
Definition ForeignClockRecordsVec_is_empty (self : ForeignClockRecordsVec) : bool :=
  bool_decide (fv_records self = []).
Definition ForeignClockRecordsVec_len (self : ForeignClockRecordsVec) : nat :=
  length (fv_records self).

(** [PortIdentity::new(ClockIdentity::new(&[0, 1, 2, 3, 4, 5, 6, last]), PortNumber::new(1))]. *)
Definition port_id (last_octet : Z) : PortIdentity :=
  PortIdentity_new (ClockIdentity_new [0; 1; 2; 3; 4; 5; 6; last_octet]) (PortNumber_new 1).

Definition high_clock : ClockDS := TestClockDS_dataset TestClockDS_default_high_grade.
Definition mid_clock : ClockDS := TestClockDS_dataset TestClockDS_default_mid_grade.
Definition low_clock : ClockDS := TestClockDS_dataset TestClockDS_default_low_grade_slave_only.

Definition foreign_vec_stores_and_iterates_records : Test :=
  let records := ForeignClockRecordsVec_new in
  let high_port_id := port_id 1 in
  let mid_port_id := port_id 2 in
  let low_port_id := port_id 3 in
  r ← record_at 0 high_port_id high_clock;
  records ← fcr_remember r records;
  r ← record_at 0 low_port_id low_clock;
  records ← fcr_remember r records;
  r ← record_at 0 mid_port_id mid_clock;
  records ← fcr_remember r records;
  _ ← assert_eq (ForeignClockRecordsVec_len records) 3%nat;
  let all_records := fcr_iter records in
  r ← record_at 0 high_port_id high_clock;
  _ ← assert_true (bool_decide (r ∈ all_records));
  r ← record_at 0 low_port_id low_clock;
  _ ← assert_true (bool_decide (r ∈ all_records));
  r ← record_at 0 mid_port_id mid_clock;
  assert_true (bool_decide (r ∈ all_records)).

Definition foreign_vec_prune_stale_returns_true_when_records_removed : Test :=
  let high_port_id := port_id 9 in
  r ← record_at 0 high_port_id high_clock;
  records ← fcr_remember r ForeignClockRecordsVec_new;
  now ← Instant_from_secs 10;
  let '(records, pruned) := fcr_prune_stale now records in
  _ ← assert_true pruned;
  assert_true (ForeignClockRecordsVec_is_empty records).

Definition foreign_vec_prune_stale_returns_false_when_no_records_are_stale : Test :=
  let high_port_id := port_id 10 in
  r ← record_at 0 high_port_id high_clock;
  records ← fcr_remember r ForeignClockRecordsVec_new;
  now ← Instant_from_secs 2;
  let '(records, pruned) := fcr_prune_stale now records in
  _ ← assert_true (negb pruned);
  assert_eq (ForeignClockRecordsVec_len records) 1%nat.

(** What a port reports: the dataset of [clock], from its port 1, on [port]. *)
Definition candidate (clock : TestClockDS) (port : PortNumber) : BestForeignSnapshot :=
  Qualified (TestClockDS_dataset clock)
    (PortIdentity_new (TestClockDS_clock_identity clock) (PortNumber_new 1))
    (PortIdentity_fake_on_port port).

(** The [match] on [candidates.best()] the tests end with. *)
Definition assert_best_is (candidates : MultiPortForeignCandidates) (expected : ClockDS)
    (port : PortNumber) : Test :=
  match fgc_best candidates with
  | Qualified ds _ receiver =>
      _ ← assert_eq ds expected;
      assert_eq (PortIdentity_port_number receiver) port
  | Empty => Panic
  end.

Definition port1 := PortNumber_new 1.
Definition port2 := PortNumber_new 2.
Definition port3 := PortNumber_new 3.
Definition high := TestClockDS_default_high_grade.
Definition mid := TestClockDS_default_mid_grade.
Definition low := TestClockDS_default_low_grade_slave_only.

Definition multi_port_foreign_candidates_stores_qualified_per_port : Test :=
  candidates ← fgc_remember port1 (candidate high port1) MultiPortForeignCandidates_new;
  candidates ← fgc_remember port2 (candidate mid port2) candidates;
  assert_best_is candidates (TestClockDS_dataset high) port1.

Definition multi_port_foreign_candidates_removes_port_on_empty : Test :=
  candidates ← fgc_remember port1 (candidate high port1) MultiPortForeignCandidates_new;
  candidates ← fgc_remember port2 (candidate mid port2) candidates;
  candidates ← fgc_remember port1 Empty candidates;
  assert_best_is candidates (TestClockDS_dataset mid) port2.

Definition multi_port_foreign_candidates_returns_empty_when_no_qualified : Test :=
  candidates ← fgc_remember port1 Empty MultiPortForeignCandidates_new;
  assert_eq (fgc_best candidates) Empty.

Definition multi_port_foreign_candidates_returns_empty_when_all_ports_empty : Test :=
  candidates ← fgc_remember port1 (candidate high port1) MultiPortForeignCandidates_new;
  candidates ← fgc_remember port1 Empty candidates;
  candidates ← fgc_remember port2 Empty candidates;
  assert_eq (fgc_best candidates) Empty.

Definition multi_port_foreign_candidates_selects_best_across_ports : Test :=
  candidates ← fgc_remember port2 (candidate mid port2) MultiPortForeignCandidates_new;
  candidates ← fgc_remember port3 (candidate low port3) candidates;
  candidates ← fgc_remember port1 (candidate high port1) candidates;
  assert_best_is candidates (TestClockDS_dataset high) port1.

(** The two timeouts are distinct objects, so they carry distinct identities here. *)
Definition multi_port_notification_delivers_to_all_registered_ports : Test :=
  let snapshot := mkStateDecisionSnapshot (TestClockDS_dataset mid) Empty in
  let timeout1 := mkTimeout 1001 (SM_StateDecisionEvent snapshot) in
  let timeout2 := mkTimeout 1002 (SM_StateDecisionEvent snapshot) in
  let notification := MultiPortNotification_add_port timeout2
    (MultiPortNotification_add_port timeout1 MultiPortNotification_new) in
  run_fakes
    (_ ← MultiPortNotification_notify_all snapshot notification;
     taken ← FakeTimeout_take_system_messages timeout1;
     first ← lift (unwrap (head taken));
     _ ← lift (assert_eq first (SM_StateDecisionEvent snapshot));
     taken ← FakeTimeout_take_system_messages timeout2;
     first ← lift (unwrap (head taken));
     lift (assert_eq first (SM_StateDecisionEvent snapshot))).

End infra.

(** ** heapless.rs *)
Module heapless.

(** [Vec::from_slice(records).unwrap_or_default()]. *)
Definition HeaplessForeignClockRecords_from_records (N : nat) (receiver : PortIdentity)
    (records : list ForeignClockRecord) : HeaplessForeignClockRecords (Stores.bounded N) :=
  mkHeaplessForeignClockRecords (bounded_or hv_new records) receiver.

Definition new_port_identity (last_octet : Z) : PortIdentity :=
  PortIdentity_new (ClockIdentity_new [0; 1; 2; 3; 4; 5; 6; last_octet]) (PortNumber_new 1).

Definition receiver : PortIdentity := new_port_identity 99.
Definition high_clock : ClockDS := TestClockDS_dataset TestClockDS_default_high_grade.
Definition mid_clock : ClockDS := TestClockDS_dataset TestClockDS_default_mid_grade.
Definition low_clock : ClockDS := TestClockDS_dataset TestClockDS_default_low_grade_slave_only.
Definition high_port_id : PortIdentity := new_port_identity 1.
Definition mid_port_id : PortIdentity := new_port_identity 2.
Definition low_port_id : PortIdentity := new_port_identity 3.

Definition heapless_stores_and_iterates_records : Test :=
  let records := HeaplessForeignClockRecords_new 4 (Stores.bounded 4) receiver in
  r ← record_at 0 high_port_id high_clock;
  records ← fcr_remember r records;
  r ← record_at 0 low_port_id low_clock;
  records ← fcr_remember r records;
  r ← record_at 0 mid_port_id mid_clock;
  records ← fcr_remember r records;
  let all_records := fcr_iter records in
  _ ← assert_eq (length all_records) 3%nat;
  r ← record_at 0 high_port_id high_clock;
  _ ← assert_true (bool_decide (r ∈ all_records));
  r ← record_at 0 low_port_id low_clock;
  _ ← assert_true (bool_decide (r ∈ all_records));
  r ← record_at 0 mid_port_id mid_clock;
  assert_true (bool_decide (r ∈ all_records)).

Definition same_dataset (a b : ForeignClockRecord) (receiver : PortIdentity) : bool :=
  negb (ForeignClockRecord_is_better_than a b receiver)
  && negb (ForeignClockRecord_is_better_than b a receiver).

(** The three searches both replacement tests end with. *)
Definition assert_keeps_high_and_mid (records : list ForeignClockRecord) : Test :=
  _ ← assert_eq (length records) 2%nat;
  template_high ← record_at 0 high_port_id high_clock;
  template_mid ← record_at 0 mid_port_id mid_clock;
  template_low ← record_at 0 low_port_id low_clock;
  let has_high := existsb (λ r, same_dataset r template_high receiver) records in
  let has_mid := existsb (λ r, same_dataset r template_mid receiver) records in
  let has_low := existsb (λ r, same_dataset r template_low receiver) records in
  _ ← assert_true has_high;
  _ ← assert_true has_mid;
  assert_true (negb has_low).

Definition heapless_replacement_keeps_best_records_on_overflow : Test :=
  mid ← qualified_record_at 0 mid_port_id mid_clock;
  low ← qualified_record_at 0 low_port_id low_clock;
  let records := HeaplessForeignClockRecords_from_records 2 receiver [mid; low] in
  high ← record_at 0 high_port_id high_clock;
  records ← fcr_remember high records;
  assert_keeps_high_and_mid (fcr_iter records).

Definition heapless_replacement_does_not_replace_when_candidate_is_worse : Test :=
  high ← qualified_record_at 0 high_port_id high_clock;
  mid ← qualified_record_at 0 mid_port_id mid_clock;
  let records := HeaplessForeignClockRecords_from_records 2 receiver [high; mid] in
  low ← record_at 0 low_port_id low_clock;
  records ← fcr_remember low records;
  assert_keeps_high_and_mid (fcr_iter records).

Definition heapless_prune_stale_returns_true_when_records_removed : Test :=
  r ← record_at 0 high_port_id high_clock;
  records ← fcr_remember r (HeaplessForeignClockRecords_new 4 (Stores.bounded 4) receiver);
  now ← Instant_from_secs 10;
  let '(records, pruned) := fcr_prune_stale now records in
  _ ← assert_true pruned;
  assert_true (bool_decide (fcr_iter records = [])).

Definition heapless_prune_stale_returns_false_when_no_records_are_stale : Test :=
  r ← record_at 0 high_port_id high_clock;
  records ← fcr_remember r (HeaplessForeignClockRecords_new 4 (Stores.bounded 4) receiver);
  now ← Instant_from_secs 2;
  let '(records, pruned) := fcr_prune_stale now records in
  _ ← assert_true (negb pruned);
  assert_eq (length (fcr_iter records)) 1%nat.

End heapless.

(** ** All of them pass *)

Definition record_tests : list Test :=
  [ foreign.qualified_dataset_change_reports_updated;
    foreign.unqualified_dataset_change_does_not_report_updated;
    foreign.sliding_window_qualification_requires_two_fast_announces;
    foreign.sliding_window_qualification_drops_on_slow_announces;
    foreign.sliding_window_never_qualifies_with_one_annonce_per_window;
    foreign.best_foreign_snapshot_comparison_handles_empty_cases;
    foreign.best_foreign_snapshot_is_better_by_topology_on_sender_order;
    foreign.best_foreign_snapshot_topology_error1_is_not_better;
    foreign.best_foreign_snapshot_topology_error2_is_not_better;
    foreign.best_foreign_record_snapshot_prefers_better_by_topology;
    foreign.sliding_window_edge_drops_qualification_but_not_stale;
    foreign.best_foreign_snapshot_is_better_than_is_antisymmetric_for_strict_better;
    foreign.best_foreign_snapshot_is_better_by_topology_is_antisymmetric;
    infra.foreign_vec_stores_and_iterates_records;
    infra.foreign_vec_prune_stale_returns_true_when_records_removed;
    infra.foreign_vec_prune_stale_returns_false_when_no_records_are_stale;
    infra.multi_port_foreign_candidates_stores_qualified_per_port;
    infra.multi_port_foreign_candidates_removes_port_on_empty;
    infra.multi_port_foreign_candidates_returns_empty_when_no_qualified;
    infra.multi_port_foreign_candidates_returns_empty_when_all_ports_empty;
    infra.multi_port_foreign_candidates_selects_best_across_ports;
    infra.multi_port_notification_delivers_to_all_registered_ports;
    heapless.heapless_stores_and_iterates_records;
    heapless.heapless_replacement_keeps_best_records_on_overflow;
    heapless.heapless_replacement_does_not_replace_when_candidate_is_worse;
    heapless.heapless_prune_stale_returns_true_when_records_removed;
    heapless.heapless_prune_stale_returns_false_when_no_records_are_stale ].

Lemma record_tests_pass : Forall (λ t, t = Done ()) record_tests.
Proof. repeat constructor. Qed.
