(* ===== verification/TestsMechanisms.v ===== *)
(** * The unit tests of the mechanisms (crates/rptp/src/bmca.rs, e2e.rs, servo.rs)

    One definition per test, in the order of the source and under its name; [mechanism_tests]
    lists them all and [mechanism_tests_pass] runs them. *)

From S2P Require Import Prelude Errors Time Clock PortId DataSet Foreign Stores Wire Message.
From S2P Require Import Effects Servo E2e Bmca Profile Handlers PortState TestSupport TestsRecords.

Open Scope Z_scope.

#[export] Instance DelayCycle_eq_dec : EqDecision DelayCycle.
Proof. solve_decision. Defined.

(** A value after a sequence of fallible updates. *)
Fixpoint after {A} (updates : list (A → outcome A)) (a : A) : outcome A :=
  match updates with [] => Done a | f :: updates => a ← f a; after updates a end.

(** ** bmca.rs *)
Module bmca.

Definition snapshot_on (port : Z) : BestForeignSnapshot :=
  Qualified (TestClockDS_dataset TestClockDS_default_high_grade) PortIdentity_fake
    (PortIdentity_fake_on_port (PortNumber_new port)).
Definition empty_trigger (port : Z) : StateDecisionEventTrigger :=
  mkStateDecisionEventTrigger Empty (PortNumber_new port).

Definition trigger_always_fires_and_uses_received_on_port : Test :=
  let trigger := empty_trigger 2 in
  let snapshot := snapshot_on 2 in
  run_fakes
    (_ ← StateDecisionEventTrigger_trigger snapshot trigger;
     events ← FakeStateDecisionEvent_take_events;
     lift (assert_eq events [(PortNumber_new 2, snapshot)])).

Definition trigger_updates_state_so_gated_trigger_same_snapshot_does_not_fire_again : Test :=
  let trigger := empty_trigger 1 in
  let snapshot := snapshot_on 1 in
  run_fakes
    (trigger ← StateDecisionEventTrigger_trigger snapshot trigger;
     _ ← StateDecisionEventTrigger_gated_trigger snapshot trigger;
     events ← FakeStateDecisionEvent_take_events;
     lift (assert_eq (length events) 1%nat)).

Definition gated_trigger_fires_only_when_snapshot_changes : Test :=
  let trigger := empty_trigger 1 in
  run_fakes
    (trigger ← StateDecisionEventTrigger_gated_trigger Empty trigger;
     _ ← StateDecisionEventTrigger_gated_trigger Empty trigger;
     events ← FakeStateDecisionEvent_take_events;
     lift (assert_eq (length events) 0%nat)).

Definition gated_trigger_fires_when_snapshot_changes : Test :=
  let trigger := empty_trigger 1 in
  let snapshot := snapshot_on 1 in
  run_fakes
    (trigger ← StateDecisionEventTrigger_gated_trigger Empty trigger;
     _ ← StateDecisionEventTrigger_gated_trigger snapshot trigger;
     events ← FakeStateDecisionEvent_take_events;
     lift (assert_eq (snd <$> events) [snapshot])).

Definition gated_trigger_second_call_with_same_value_does_not_fire : Test :=
  let trigger := empty_trigger 1 in
  let snapshot := snapshot_on 1 in
  run_fakes
    (trigger ← StateDecisionEventTrigger_gated_trigger snapshot trigger;
     _ ← StateDecisionEventTrigger_gated_trigger snapshot trigger;
     events ← FakeStateDecisionEvent_take_events;
     lift (assert_eq (length events) 1%nat)).

Definition trigger_methods_update_state_consistently : Test :=
  let trigger := empty_trigger 1 in
  let snapshot_a := snapshot_on 1 in
  let snapshot_b := Empty in
  run_fakes
    (trigger ← StateDecisionEventTrigger_trigger snapshot_a trigger;
     trigger ← StateDecisionEventTrigger_gated_trigger snapshot_a trigger;
     _ ← StateDecisionEventTrigger_gated_trigger snapshot_b trigger;
     events ← FakeStateDecisionEvent_take_events;
     lift (assert_eq (snd <$> events) [snapshot_a; snapshot_b])).

(** What every [..Bmca::new] call below is given: the algorithm on port 1, the records [receiver]
    keeps, and a trigger on port 1 that has seen nothing. *)
Definition parts (default_ds : ClockDS) (receiver : PortIdentity)
    (records : list ForeignClockRecord) : BmcaParts ForeignClockRecordsVec :=
  mkBmcaParts (mkBestMasterClockAlgorithm default_ds (PortNumber_new 1))
    (mkBestForeignRecord receiver (mkForeignClockRecordsVec records)) (empty_trigger 1).

Definition on_port1 : PortIdentity := PortIdentity_fake_on_port (PortNumber_new 1).

(** [PortIdentity::new(clock.clock_identity(), PortNumber::new(port))]. *)
Definition port_of (clock : TestClockDS) (port : Z) : PortIdentity :=
  PortIdentity_new (TestClockDS_clock_identity clock) (PortNumber_new port).

Definition grandmaster_tracking_bmca_gates_when_grandmaster_ds_matches : Test :=
  let default_ds := TestClockDS_dataset TestClockDS_default_high_grade in
  let bmca := mkGrandMasterTrackingBmca (parts default_ds on_port1 []) default_ds in
  assert_eq (GrandMasterTrackingBmca_decision default_ds Empty bmca).1 None.

Definition grandmaster_tracking_bmca_emits_when_grandmaster_ds_differs : Test :=
  let default_ds := TestClockDS_dataset TestClockDS_default_high_grade in
  let other_grandmaster_ds := TestClockDS_dataset TestClockDS_gps_grandmaster in
  let bmca := mkGrandMasterTrackingBmca (parts default_ds on_port1 []) other_grandmaster_ds in
  assert_true (match (GrandMasterTrackingBmca_decision default_ds Empty bmca).1 with
               | Some (BD_Master _) => true | _ => false end).

Definition grandmaster_tracking_bmca_does_not_gate_passive_decisions : Test :=
  let gps_ds := TestClockDS_dataset TestClockDS_gps_grandmaster in
  let better := TestClockDS_atomic_grandmaster in
  record ← qualified_record_at 0 (port_of better 1) (TestClockDS_dataset better);
  let bmca := mkGrandMasterTrackingBmca (parts gps_ds on_port1 [record]) gps_ds in
  assert_eq (GrandMasterTrackingBmca_decision gps_ds Empty bmca).1 (Some BD_Passive).

Definition grandmaster_tracking_bmca_does_not_gate_slave_decisions : Test :=
  let slave_only_ds := TestClockDS_dataset TestClockDS_default_low_grade_slave_only in
  let better := TestClockDS_default_high_grade in
  let better_port_id := port_of better 1 in
  let better_ds := TestClockDS_dataset better in
  record ← qualified_record_at 0 better_port_id better_ds;
  let bmca := mkGrandMasterTrackingBmca (parts slave_only_ds on_port1 [record]) slave_only_ds in
  let e_best := Qualified better_ds better_port_id on_port1 in
  assert_true (match (GrandMasterTrackingBmca_decision slave_only_ds e_best bmca).1 with
               | Some (BD_Slave _) => true | _ => false end).

(** The test seeds candidates on the other port and then decides with an empty [e_best]. *)
Definition bmca_does_not_choose_slave_when_ebest_received_on_other_port : Test :=
  let local_port := PortNumber_new 1 in
  let other_port := PortNumber_new 2 in
  let default_ds := TestClockDS_dataset TestClockDS_default_low_grade_slave_only in
  let better := TestClockDS_with_priority1 (Priority1_new 1) TestClockDS_default_high_grade in
  _ ← fgc_remember other_port
        (Qualified (TestClockDS_dataset better) (port_of better 1)
           (PortIdentity_fake_on_port other_port)) MultiPortForeignCandidates_new;
  let bmca := mkBestMasterClockAlgorithm default_ds local_port in
  let worse := TestClockDS_default_mid_grade in
  let e_rbest := Qualified (TestClockDS_dataset worse) (port_of worse 1)
                   (PortIdentity_fake_on_port local_port) in
  let e_best := Empty in
  assert_true (match (BestMasterClockAlgorithm_decision default_ds e_best e_rbest bmca).1 with
               | BD_Slave _ => false | _ => true end).

Definition bmca_selects_passive_p2_when_ebest_is_better_only_by_topology_than_erbest : Test :=
  let local_port := PortNumber_new 1 in
  let d_0 := TestClockDS_dataset TestClockDS_default_low_grade_slave_only in
  let bmca := mkBestMasterClockAlgorithm d_0 local_port in
  let foreign_ds := TestClockDS_dataset TestClockDS_default_high_grade in
  let e_best_sender := port_of TestClockDS_atomic_grandmaster 1 in
  let e_rbest_sender := port_of TestClockDS_gps_grandmaster 1 in
  let e_best := Qualified foreign_ds e_best_sender
                  (PortIdentity_fake_on_port (PortNumber_new 2)) in
  let e_rbest := Qualified foreign_ds e_rbest_sender (PortIdentity_fake_on_port local_port) in
  assert_eq (BestMasterClockAlgorithm_decision d_0 e_best e_rbest bmca).1 BD_Passive.

Definition bmca_selects_master_m3_with_ebest_dataset_not_local_dataset : Test :=
  let local_port := PortNumber_new 1 in
  let d_0 := TestClockDS_dataset TestClockDS_default_low_grade in
  let bmca := mkBestMasterClockAlgorithm d_0 local_port in
  let e_best_ds := TestClockDS_dataset TestClockDS_default_high_grade in
  _ ← assert_ne d_0 e_best_ds;
  let e_best := Qualified e_best_ds (port_of TestClockDS_default_high_grade 1)
                  (PortIdentity_fake_on_port (PortNumber_new 2)) in
  let e_rbest := Empty in
  assert_eq (BestMasterClockAlgorithm_decision d_0 e_best e_rbest bmca).1
    (BD_Master (mkBmcaMasterDecision M3 (ClockDS_with_added_step e_best_ds))).

Definition local_ds_uses_self_sender_and_receiver_for_topology_tie_break : Test :=
  let id := ClockIdentity_new [0x42; 0x42; 0x42; 0x42; 0x42; 0x42; 0x42; 0x42] in
  let ds := TestClockDS_dataset (TestClockDS_with_steps_removed (StepsRemoved_new 0)
              (TestClockDS_with_clock_identity id TestClockDS_default_high_grade)) in
  let local_ds := ds in
  let foreign_ds := ds in
  let snapshot := Qualified foreign_ds (PortIdentity_new id (PortNumber_new 0))
                    (PortIdentity_new id (PortNumber_new 1)) in
  assert_true (match LocalDS_is_better_or_better_by_topology (LocalDS_new local_ds) snapshot with
               | Ok gm_ds => bool_decide (gm_ds = local_ds) | Err _ => false end).

(** [bmca.consider(source, ds, LogInterval::new(0), Instant::from_secs(secs))]. *)
Definition consider (source : PortIdentity) (ds : ClockDS) (secs : Z)
    (bmca : ListeningBmca ForeignClockRecordsVec) : M Fakes (ListeningBmca ForeignClockRecordsVec) :=
  interval ← lift (LogInterval_new 0);
  now ← lift (Instant_from_secs secs);
  ListeningBmca_consider source ds interval now bmca.

Definition listening_bmca_prunes_stale_foreign_clocks_on_next_announce_reception : Test :=
  let high := TestClockDS_default_high_grade in
  let mid := TestClockDS_default_mid_grade in
  let low := TestClockDS_default_low_grade_slave_only in
  let gm := TestClockDS_gps_grandmaster in
  r1 ← qualified_record_at 0 (port_of high 1) (TestClockDS_dataset high);
  r2 ← qualified_record_at 1 (port_of mid 1) (TestClockDS_dataset mid);
  r3 ← qualified_record_at 2 (port_of mid 1) (TestClockDS_dataset low);
  let gm_port_id := port_of gm 1 in
  let gm_foreign := TestClockDS_dataset gm in
  let default_ds := TestClockDS_dataset TestClockDS_default_high_grade in
  expected_record ← qualified_record_at 10 gm_port_id gm_foreign;
  run_fakes
    (bmca ← consider gm_port_id gm_foreign 10
              (mkListeningBmca (parts default_ds PortIdentity_fake [r1; r2; r3]));
     bmca ← consider gm_port_id gm_foreign 10 bmca;
     let remaining := fcr_iter (bf_foreign_clock_records (bp_best_foreign (lb_parts bmca))) in
     lift (assert_eq remaining [expected_record])).

Definition listening (default_ds : ClockDS) : ListeningBmca ForeignClockRecordsVec :=
  mkListeningBmca (parts default_ds PortIdentity_fake []).

Definition listening_bmca_gm_capable_local_with_no_qualified_foreign_is_undecided : Test :=
  let default_ds := TestClockDS_dataset TestClockDS_gps_grandmaster in
  assert_eq (ListeningBmca_decision default_ds Empty (listening default_ds)).1 None.

(** The decision, on [e_best], after announces (all at second 0) from a listening role. *)
Definition decision_after (default_ds : ClockDS) (announces : list (PortIdentity * ClockDS))
    (e_best : BestForeignSnapshot) : outcome (option BmcaDecision) :=
  run_fakes
    (bmca ← foldr (λ '(source, ds) rest bmca, bmca ← consider source ds 0 bmca; rest bmca) mret
              announces (listening default_ds);
     mret (ListeningBmca_decision default_ds e_best bmca).1).

Definition listening_bmca_gm_capable_local_loses_tuple_returns_passive : Test :=
  let default_ds := TestClockDS_dataset TestClockDS_gps_grandmaster in
  let foreign :=
    TestClockDS_with_priority1 (Priority1_new 1) TestClockDS_default_low_grade_slave_only in
  let port_id := port_of foreign 1 in
  let foreign_strong := TestClockDS_dataset foreign in
  d ← decision_after default_ds [(port_id, foreign_strong); (port_id, foreign_strong)] Empty;
  assert_eq d (Some BD_Passive).

Definition listening_bmca_gm_capable_local_better_than_foreign_returns_master_m1 : Test :=
  let default_ds := TestClockDS_dataset TestClockDS_gps_grandmaster in
  let foreign := TestClockDS_dataset TestClockDS_default_high_grade in
  let port_id := port_of TestClockDS_default_high_grade 1 in
  d ← decision_after default_ds [(port_id, foreign); (port_id, foreign)] Empty;
  assert_eq d (Some (BD_Master (mkBmcaMasterDecision M1 default_ds))).

Definition listening_bmca_non_gm_local_better_than_foreign_returns_master_m2 : Test :=
  let default_ds := TestClockDS_dataset TestClockDS_default_mid_grade in
  let foreign := TestClockDS_dataset TestClockDS_default_low_grade_slave_only in
  let port_id := port_of TestClockDS_default_low_grade_slave_only 1 in
  d ← decision_after default_ds [(port_id, foreign); (port_id, foreign)] Empty;
  assert_eq d (Some (BD_Master (mkBmcaMasterDecision M2 default_ds))).

Definition listening_bmca_non_gm_local_loses_tuple_returns_slave : Test :=
  let default_ds := TestClockDS_dataset TestClockDS_default_mid_grade in
  let foreign := TestClockDS_dataset TestClockDS_default_high_grade in
  let port_id := port_of TestClockDS_default_high_grade 1 in
  let e_best := Qualified foreign port_id PortIdentity_fake in
  d ← decision_after default_ds [(port_id, foreign); (port_id, foreign)] e_best;
  assert_eq d (Some (BD_Slave (ParentPortIdentity_new port_id))).

Definition listening_bmca_recommends_slave_from_interleaved_announce_sequence : Test :=
  let default_ds := TestClockDS_dataset TestClockDS_default_low_grade in
  let high := TestClockDS_default_high_grade in
  let mid := TestClockDS_default_mid_grade in
  let foreign_high := TestClockDS_dataset high in
  let foreign_mid := TestClockDS_dataset mid in
  let port_id_high := port_of high 1 in
  let port_id_mid := port_of mid 1 in
  let e_best := Qualified foreign_high port_id_high PortIdentity_fake in
  d ← decision_after default_ds
        [(port_id_high, foreign_high); (port_id_mid, foreign_mid);
         (port_id_high, foreign_high); (port_id_mid, foreign_mid)] e_best;
  assert_eq d (Some (BD_Slave (ParentPortIdentity_new port_id_high))).

Definition listening_bmca_recommends_slave_from_non_interleaved_announce_sequence : Test :=
  let default_ds := TestClockDS_dataset TestClockDS_default_low_grade in
  let high := TestClockDS_default_high_grade in
  let mid := TestClockDS_default_mid_grade in
  let foreign_high := TestClockDS_dataset high in
  let foreign_mid := TestClockDS_dataset mid in
  let port_id_high := port_of high 1 in
  let port_id_mid := port_of mid 1 in
  let e_best := Qualified foreign_high port_id_high PortIdentity_fake in
  d ← decision_after default_ds
        [(port_id_high, foreign_high); (port_id_high, foreign_high);
         (port_id_mid, foreign_mid); (port_id_mid, foreign_mid)] e_best;
  assert_eq d (Some (BD_Slave (ParentPortIdentity_new port_id_high))).

Definition listening_bmca_undecided_when_no_announces_yet : Test :=
  let default_ds := TestClockDS_dataset TestClockDS_default_mid_grade in
  d ← decision_after default_ds [] Empty;
  assert_eq d None.

Definition listening_bmca_undecided_when_no_qualified_clock_records_yet : Test :=
  let default_ds := TestClockDS_dataset TestClockDS_default_mid_grade in
  let foreign_high := TestClockDS_dataset TestClockDS_default_high_grade in
  d ← decision_after default_ds [(PortIdentity_fake, foreign_high)] Empty;
  assert_eq d None.

Definition listening_bmca_undecided_when_only_single_announces_each : Test :=
  let default_ds := TestClockDS_dataset TestClockDS_default_mid_grade in
  let high := TestClockDS_default_high_grade in
  let mid := TestClockDS_default_mid_grade in
  let low := TestClockDS_default_low_grade_slave_only in
  d ← decision_after default_ds
        [(port_of high 0, TestClockDS_dataset high); (port_of mid 0, TestClockDS_dataset mid);
         (port_of low 0, TestClockDS_dataset low)] Empty;
  assert_eq d None.

(** [policy.duration(LogInterval::new(log)) == Duration::from_secs(secs)]. *)
Definition assert_duration (point : BmcaMasterDecisionPoint) (steps log secs : Z) : Test :=
  let policy := mkQualificationTimeoutPolicy point (StepsRemoved_new steps) in
  interval ← LogInterval_new log;
  qualification_timeout_interval ← QualificationTimeoutPolicy_duration policy interval;
  expected ← Duration_from_secs secs;
  assert_eq qualification_timeout_interval expected.

Definition qualification_timeout_policy_duration_m1_is_zero : Test := assert_duration M1 5 4 0.
Definition qualification_timeout_policy_duration_m2_is_zero : Test := assert_duration M2 5 4 0.
Definition qualification_timeout_policy_duration_m3_scales_with_steps_removed : Test :=
  _ ← assert_duration M3 0 0 1;
  _ ← assert_duration M3 1 0 2;
  _ ← assert_duration M3 2 1 6;
  assert_duration M3 3 2 16.
Definition qualification_timeout_policy_duration_m3_large_inputs : Test :=
  assert_duration M3 65535 10 67108864.

End bmca.

(** ** e2e.rs

    The timestamps and offsets of the tests are whole seconds. *)
Module e2e.

(** [42.into()] and [LogMessageInterval::new(0)] on the messages the tests record. *)
Definition one_step_sync (seq origin : Z) : outcome OneStepSyncMessage :=
  t ← TimeStamp_new origin 0;
  Done (mkOneStepSyncMessage (SequenceId_new seq) (LogMessageInterval_new 0) t).
Definition two_step_sync (seq log : Z) : TwoStepSyncMessage :=
  mkTwoStepSyncMessage (SequenceId_new seq) (LogMessageInterval_new log).
Definition follow_up (seq log origin : Z) : outcome FollowUpMessage :=
  t ← TimeStamp_new origin 0;
  Done (mkFollowUpMessage (SequenceId_new seq) (LogMessageInterval_new log) t).
Definition delay_response (seq log receive : Z) : outcome DelayResponseMessage :=
  t ← TimeStamp_new receive 0;
  Done (mkDelayResponseMessage (SequenceId_new seq) (LogMessageInterval_new log) t
          PortIdentity_fake).

Definition fake_delay_cycle (seq : Z) : outcome DelayCycle :=
  interval ← LogInterval_new 0;
  Done (mkDelayCycle (SequenceId_new seq) (FakeTimeout_new SM_DelayRequestTimeout) interval).

(** The records of the mechanism, with the second each timestamp is. *)
Definition Two (seq ingress : Z) (m : EndToEndDelayMechanism) : outcome EndToEndDelayMechanism :=
  t ← TimeStamp_new ingress 0; Done (em_record_two_step_sync (two_step_sync seq 0) t m).
Definition Fup (seq origin : Z) (m : EndToEndDelayMechanism) : outcome EndToEndDelayMechanism :=
  f ← follow_up seq 0 origin; Done (em_record_follow_up f m).
Definition One (seq origin ingress : Z) (m : EndToEndDelayMechanism)
    : outcome EndToEndDelayMechanism :=
  s ← one_step_sync seq origin;
  t ← TimeStamp_new ingress 0;
  Done (em_record_one_step_sync s t m).
Definition Req (seq egress : Z) (m : EndToEndDelayMechanism) : outcome EndToEndDelayMechanism :=
  t ← TimeStamp_new egress 0;
  Done (em_record_delay_request (mkDelayRequestMessage (SequenceId_new seq)) t m).
Definition Resp (seq receive : Z) (m : EndToEndDelayMechanism) : outcome EndToEndDelayMechanism :=
  r ← delay_response seq 2 receive; Done (em_record_delay_response r m).

(** The sample of a new mechanism after [records]. *)
Definition sample_after
    (records : list (EndToEndDelayMechanism → outcome EndToEndDelayMechanism))
    : outcome (option ServoSample) :=
  cycle ← fake_delay_cycle 0;
  e2e ← after records (EndToEndDelayMechanism_new cycle);
  em_sample e2e.
Definition assert_sample (sample : option ServoSample) (ingress offset : Z) : Test :=
  i ← TimeStamp_new ingress 0;
  o ← TimeInterval_new offset 0;
  assert_eq sample (Some (mkServoSample i o)).

Definition e2e_delay_mechanism_yields_after_sync_and_delay_message_exchange : Test :=
  s ← sample_after [Two 42 1; Fup 42 1; Req 43 0; Resp 43 2]; assert_sample s 1 (-1).
Definition e2e_delay_mechanism_yields_after_reversed_sync_follow_up_and_delay_message_exchange
    : Test :=
  s ← sample_after [Fup 42 1; Two 42 1; Req 43 0; Resp 43 2]; assert_sample s 1 (-1).
Definition e2e_delay_mechanism_yields_with_one_step_sync : Test :=
  s ← sample_after [One 42 1 1; Req 43 0; Resp 43 2]; assert_sample s 1 (-1).
Definition e2e_delay_mechanism_yields_with_one_step_sync_after_two_step : Test :=
  s ← sample_after [Two 42 0; One 42 1 1; Req 43 0; Resp 43 2]; assert_sample s 1 (-1).
Definition e2e_delay_mechanism_two_step_sync_invalidates_prior_one_step_sync : Test :=
  s ← sample_after [One 42 1 1; Two 42 0; Req 43 0; Resp 43 2]; assert_eq s None.
Definition e2e_delay_mechanism_yields_with_two_step_and_follow_up_after_one_step : Test :=
  s ← sample_after [One 42 1 1; Two 42 2; Fup 42 1; Req 43 0; Resp 43 3];
  assert_sample s 2 (-1).

(** The records of a sync exchange. *)
Definition two (seq ingress : Z) (x : SyncExchange) : outcome SyncExchange :=
  t ← TimeStamp_new ingress 0;
  Done (SyncExchange_record_two_step_sync (two_step_sync seq 0) t x).
Definition fup (seq origin : Z) (x : SyncExchange) : outcome SyncExchange :=
  f ← follow_up seq 0 origin; Done (SyncExchange_record_follow_up f x).
Definition one (seq origin ingress : Z) (x : SyncExchange) : outcome SyncExchange :=
  s ← one_step_sync seq origin;
  t ← TimeStamp_new ingress 0;
  Done (SyncExchange_record_one_step_sync s t x).

Definition sync_offset_after (records : list (SyncExchange → outcome SyncExchange))
    : outcome (option TimeInterval) :=
  sync_exchange ← after records SyncExchange_new;
  SyncExchange_master_slave_offset sync_exchange.
Definition assert_offset (offset : option TimeInterval) (secs : Z) : Test :=
  expected ← TimeInterval_new secs 0; assert_eq offset (Some expected).

Definition sync_exchange_new_produces_no_master_slave_offset : Test :=
  o ← sync_offset_after []; assert_eq o None.
Definition sync_exchange_no_master_slave_offset_on_two_step_sync_only : Test :=
  o ← sync_offset_after [two 42 2]; assert_eq o None.
Definition sync_exchange_no_master_slave_offset_on_follow_up_only : Test :=
  o ← sync_offset_after [fup 42 1]; assert_eq o None.
Definition sync_exchange_produces_master_slave_offset_on_one_step_sync_only : Test :=
  o ← sync_offset_after [one 42 1 2]; assert_offset o 1.
Definition sync_exchange_prefers_one_step_over_two_step_when_both_available : Test :=
  o ← sync_offset_after [two 42 2; fup 42 1; one 42 10 13]; assert_offset o 3.
Definition sync_exchange_two_step_clears_prior_one_step_sync : Test :=
  o ← sync_offset_after [one 42 1 2; two 43 6; fup 43 4]; assert_offset o 2.
Definition sync_exchange_produces_master_slave_offset_on_two_step_sync_then_follow_up : Test :=
  o ← sync_offset_after [two 42 2; fup 42 1]; assert_offset o 1.
Definition sync_exchange_produces_master_slave_offset_on_follow_up_then_two_step_sync : Test :=
  o ← sync_offset_after [fup 42 1; two 42 2]; assert_offset o 1.
Definition sync_exchange_produces_no_master_slave_offset_on_non_matching_follow_up : Test :=
  o ← sync_offset_after [two 42 2; fup 43 1]; assert_eq o None.
Definition sync_exchange_produces_no_master_slave_offset_on_non_matching_two_step_sync : Test :=
  o ← sync_offset_after [fup 42 1; two 43 2]; assert_eq o None.
Definition sync_exchange_recovers_when_matching_follow_up_arrives_later : Test :=
  o ← sync_offset_after [fup 42 1; two 43 2; fup 43 1]; assert_offset o 1.
Definition sync_exchange_recovers_when_matching_two_step_sync_arrives_later : Test :=
  o ← sync_offset_after [two 42 2; fup 43 1; two 43 2]; assert_offset o 1.

(** The records of a delay exchange. *)
Definition req (seq egress : Z) (x : DelayExchange) : outcome DelayExchange :=
  t ← TimeStamp_new egress 0;
  Done (DelayExchange_record_delay_request (mkDelayRequestMessage (SequenceId_new seq)) t x).
Definition resp (seq receive : Z) (x : DelayExchange) : outcome DelayExchange :=
  r ← delay_response seq 1 receive; Done (DelayExchange_record_delay_response r x).

Definition delay_offset_after (records : list (DelayExchange → outcome DelayExchange))
    : outcome (option TimeInterval) :=
  delay_exchange ← after records DelayExchange_new;
  DelayExchange_slave_master_offset delay_exchange.

Definition delay_exchange_new_produces_no_slave_master_offset : Test :=
  o ← delay_offset_after []; assert_eq o None.
Definition delay_exchange_produces_no_slave_master_offset_on_request_only : Test :=
  o ← delay_offset_after [req 42 1]; assert_eq o None.
Definition delay_exchange_produces_no_slave_master_offset_on_response_only : Test :=
  o ← delay_offset_after [resp 42 1]; assert_eq o None.
Definition delay_exchange_produces_slave_master_offset_on_request_then_response_matching : Test :=
  o ← delay_offset_after [req 42 1; resp 42 2]; assert_offset o 1.
Definition delay_exchange_produces_slave_master_offset_on_response_then_request_matching : Test :=
  o ← delay_offset_after [resp 42 2; req 42 1]; assert_offset o 1.
Definition delay_exchange_produces_no_slave_master_offset_on_non_matching_response : Test :=
  o ← delay_offset_after [req 42 1; resp 43 2]; assert_eq o None.
Definition delay_exchange_produces_no_slave_master_offset_on_non_matching_request : Test :=
  o ← delay_offset_after [resp 42 2; req 43 1]; assert_eq o None.
Definition delay_exchange_recovers_when_matching_response_arrives_later : Test :=
  o ← delay_offset_after [resp 42 2; req 43 1; resp 43 2]; assert_offset o 1.
Definition delay_exchange_recovers_when_matching_request_arrives_later : Test :=
  o ← delay_offset_after [req 42 1; resp 43 2; req 43 1]; assert_offset o 1.

(** The windows the last tests fill: syncs with their ingress times, and follow-ups. *)
Definition record_sync (seq log ingress : Z) (w : MessageWindow (TwoStepSyncMessage * TimeStamp))
    : outcome (MessageWindow (TwoStepSyncMessage * TimeStamp)) :=
  t ← TimeStamp_new ingress 0; Done (MessageWindow_record (two_step_sync seq log, t) w).
Definition record_follow_up (seq log origin : Z) (w : MessageWindow FollowUpMessage)
    : outcome (MessageWindow FollowUpMessage) :=
  f ← follow_up seq log origin; Done (MessageWindow_record f w).
Definition combined (follow_up_window : MessageWindow FollowUpMessage)
    (sync_window : MessageWindow (TwoStepSyncMessage * TimeStamp))
    : outcome (option TimeInterval) :=
  MessageWindow_combine_latest follow_up_window sync_window
    (λ follow '(sync, ts), FollowUpMessage_master_slave_offset follow sync ts).

Definition message_window_match_latest : Test :=
  sync_window ← record_sync 1 5 2 MessageWindow_new;
  follow_up_window ← record_follow_up 1 5 1 MessageWindow_new;
  offset ← combined follow_up_window sync_window;
  assert_offset offset 1.
Definition message_window_no_match_if_one_empty : Test :=
  sync_window ← record_sync 1 3 2 MessageWindow_new;
  offset ← combined MessageWindow_new sync_window;
  assert_eq offset None.
Definition message_window_out_of_order_then_recover_follow_up_arrives : Test :=
  sync_window ← record_sync 1 3 2 MessageWindow_new;
  follow_up_window ← record_follow_up 2 3 1 MessageWindow_new;
  no_match ← combined follow_up_window sync_window;
  _ ← assert_eq no_match None;
  follow_up_window ← record_follow_up 1 3 1 follow_up_window;
  matched ← combined follow_up_window sync_window;
  assert_offset matched 1.
Definition message_window_out_of_order_then_recover_sync_arrives : Test :=
  follow_up_window ← record_follow_up 3 3 1 MessageWindow_new;
  sync_window ← record_sync 4 3 2 MessageWindow_new;
  no_match ← combined follow_up_window sync_window;
  _ ← assert_eq no_match None;
  sync_window ← record_sync 3 3 2 sync_window;
  matched ← combined follow_up_window sync_window;
  assert_offset matched 1.
Definition message_window_in_order_follow_up_then_sync : Test :=
  follow_up_window ← record_follow_up 5 3 10 MessageWindow_new;
  sync_window ← record_sync 5 3 11 MessageWindow_new;
  matched ← combined follow_up_window sync_window;
  assert_offset matched 1.
Definition message_window_in_order_updates_to_newer_pair : Test :=
  sync_window ← record_sync 1 5 5 MessageWindow_new;
  follow_up_window ← record_follow_up 1 5 3 MessageWindow_new;
  first ← combined follow_up_window sync_window;
  _ ← assert_offset first 2;
  sync_window ← record_sync 2 5 9 sync_window;
  follow_up_window ← record_follow_up 2 5 6 follow_up_window;
  second ← combined follow_up_window sync_window;
  assert_offset second 3.

Definition delay_cycle_produces_delay_request_message : Test :=
  delay_cycle ← fake_delay_cycle 42;
  assert_eq (DelayCycle_delay_request delay_cycle) (mkDelayRequestMessage (SequenceId_new 42)).
Definition delay_cycle_next : Test :=
  delay_cycle ← fake_delay_cycle 42;
  delay_cycle ← run_fakes (DelayCycle_next delay_cycle);
  expected ← fake_delay_cycle 43;
  assert_eq delay_cycle expected.
Definition delay_cycle_next_wraps : Test :=
  delay_cycle ← fake_delay_cycle 65535;
  delay_cycle ← run_fakes (DelayCycle_next delay_cycle);
  expected ← fake_delay_cycle 0;
  assert_eq delay_cycle expected.

End e2e.

(** ** servo.rs *)
Module servo.

#[local] Instance ServoStepDecision_eq_dec : EqDecision ServoStepDecision.
Proof. solve_decision. Defined.
#[local] Instance spec_float_eq_dec : EqDecision spec_float.
Proof. solve_decision. Defined.

(** A decimal literal: its digits over a power of ten, both exact in 53 bits. *)
Definition f64_lit (num den : Z) : f64 := f64_div (f64_of_Z num) (f64_of_Z den).

Definition sample (ingress ingress_nanos offset offset_nanos : Z) : outcome ServoSample :=
  i ← TimeStamp_new ingress ingress_nanos;
  o ← TimeInterval_new offset offset_nanos;
  Done (mkServoSample i o).

(** [ServoThreshold::new(TimeInterval::new(secs, 0))]. *)
Definition threshold (secs : Z) : outcome ServoThreshold :=
  t ← TimeInterval_new secs 0; Done (TH_Enabled t).
Definition step_policy (initial steady : Z) : outcome StepPolicy :=
  i ← threshold initial; s ← threshold steady; Done (StepPolicy_new i s).

(** [assert_eq!(decision, StepTo(sample.master_estimate().unwrap()))]. *)
Definition assert_steps_to_estimate (decision : ServoStepDecision) (s : ServoSample) : Test :=
  e ← ServoSample_master_estimate s;
  e ← unwrap e;
  assert_eq decision (StepTo e).

Definition first_sample_below_both_thresholds_does_not_step : Test :=
  step_policy ← step_policy 2 1;
  s ← sample 10 0 0 500000000;
  '(decision, _) ← StepPolicy_should_step step_policy s;
  assert_eq decision NoStep.
Definition first_sample_exceeding_first_step_threshold_steps : Test :=
  step_policy ← step_policy 1 2;
  s ← sample 10 0 1 500000000;
  '(decision, _) ← StepPolicy_should_step step_policy s;
  assert_steps_to_estimate decision s.
Definition first_sample_exceeding_step_threshold_steps_even_if_first_step_not_exceeded : Test :=
  step_policy ← step_policy 2 1;
  s ← sample 10 0 1 500000000;
  '(decision, _) ← StepPolicy_should_step step_policy s;
  assert_steps_to_estimate decision s.
Definition subsequent_samples_use_only_step_threshold : Test :=
  step_policy ← step_policy 2 1;
  first ← sample 10 0 0 500000000;
  '(decision, step_policy) ← StepPolicy_should_step step_policy first;
  _ ← assert_eq decision NoStep;
  second ← sample 10 0 1 500000000;
  '(decision, _) ← StepPolicy_should_step step_policy second;
  assert_steps_to_estimate decision second.
Definition zero_steady_threshold_disables_subsequent_steps : Test :=
  initial ← threshold 2;
  let step_policy := StepPolicy_new initial TH_Disabled in
  first ← sample 10 0 0 500000000;
  '(decision, step_policy) ← StepPolicy_should_step step_policy first;
  _ ← assert_eq decision NoStep;
  second ← sample 10 0 3 0;
  '(decision, _) ← StepPolicy_should_step step_policy second;
  assert_eq decision NoStep.
Definition step_policy_does_not_step_on_master_estimate_underflow : Test :=
  step_policy ← step_policy 1 1;
  s ← sample 0 0 5 0;
  '(decision, _) ← StepPolicy_should_step step_policy s;
  assert_eq decision NoStep.

(** The servo the remaining tests build: thresholds, drift bounds in ppb, minimum delta in
    seconds, gains. *)
Definition pi_servo (initial steady min max min_delta : Z) (kp ki : f64) : outcome PiServo :=
  policy ← step_policy initial steady;
  delta ← TimeInterval_new min_delta 0;
  Done (PiServo_new policy
          (ServoDriftEstimate_new (Drift_from_ppb min) (Drift_from_ppb max) delta)
          (PiLoop_new kp ki)).

(** [servo.feed(&clock, sample)], with the state the test expects. *)
Definition feed (ingress ingress_nanos offset offset_nanos : Z) (expected : ServoState)
    (servo : PiServo) : M Fakes PiServo :=
  s ← lift (sample ingress ingress_nanos offset offset_nanos);
  '(state, servo) ← PiServo_feed s servo;
  _ ← lift (assert_eq state expected);
  mret servo.

Definition assert_no_adjust : M Fakes () :=
  last ← FakeClock_last_adjust; lift (assert_eq last None).
(** [assert!((clock.last_adjust().unwrap() - rate).abs() < 1e-12)]. *)
Definition assert_near (actual rate : f64) : Test :=
  assert_true (SFltb (SFabs (f64_sub actual rate)) (f64_lit 1 1000000000000)).
Definition assert_adjusted (rate : f64) : M Fakes () :=
  last ← FakeClock_last_adjust;
  last ← lift (unwrap last);
  lift (assert_near last rate).

Definition calibration_locks_after_spaced_samples : Test :=
  servo ← pi_servo 10 10 (-500000000) 500000000 4 f64_zero f64_zero;
  run_fakes
    (servo ← feed 0 0 0 0 Calibrating servo;
     _ ← assert_no_adjust;
     _ ← feed 5 0 1 0 Locked servo;
     assert_adjusted (f64_lit 12 10)).

Definition step_resets_drift_estimate : Test :=
  servo ← pi_servo 1 10 (-1000000) 1000000 1 f64_zero f64_zero;
  run_fakes
    (servo ← feed 10 0 5 0 Unlocked servo;
     _ ← assert_no_adjust;
     _ ← feed 20 0 6 0 Calibrating servo;
     assert_no_adjust).

Definition pi_servo_reaches_locked_and_runs_pi_loop : Test :=
  servo ← pi_servo 10 10 (-1000000000) 1000000000 2 (f64_lit 5 10) (f64_lit 5 10);
  run_fakes
    (servo ← feed 0 0 0 0 Calibrating servo;
     _ ← assert_no_adjust;
     servo ← feed 5 0 1 0 Locked servo;
     _ ← assert_adjusted (f64_lit 12 10);
     _ ← feed 6 0 0 100000000 Locked servo;
     assert_adjusted (f64_lit 9 10)).

Definition calibration_ignores_samples_without_minimum_delta : Test :=
  servo ← pi_servo 10 10 (-1000000) 1000000 4 f64_zero f64_zero;
  run_fakes
    (servo ← feed 0 0 0 0 Calibrating servo;
     _ ← assert_no_adjust;
     _ ← feed 2 0 1 0 Calibrating servo;
     assert_no_adjust).

Definition drift_estimate_is_clamped_to_bounds : Test :=
  servo ← pi_servo 100 100 (-1000) 1000 1 f64_zero f64_zero;
  first ← sample 0 0 0 0;
  run_fakes
    ('(_, servo) ← PiServo_feed first servo;
     _ ← feed 5 0 5 0 Locked servo;
     assert_adjusted (f64_add f64_one (f64_lit 1 1000000))).

Definition pi_loop_integral_resets_after_step : Test :=
  servo ← pi_servo 1 1 (-1000000000) 1000000000 2 f64_zero f64_one;
  first ← sample 0 0 0 0;
  run_fakes
    ('(_, servo) ← PiServo_feed first servo;
     servo ← feed 3 0 1 0 Locked servo;
     servo ← feed 4 0 0 100000000 Locked servo;
     last ← FakeClock_last_adjust;
     last ← lift (unwrap last);
     _ ← lift (assert_true (SFltb last f64_one));
     servo ← feed 5 0 5 0 Unlocked servo;
     _ ← assert_adjusted (f64_lit 9 10);
     servo ← feed 10 0 0 0 Calibrating servo;
     servo ← feed 13 0 0 0 Locked servo;
     _ ← feed 14 0 0 0 Locked servo;
     last ← FakeClock_last_adjust;
     last ← lift (unwrap last);
     lift (assert_true (SFeqb last f64_one))).

Definition calibration_rejects_non_increasing_ingress : Test :=
  servo ← pi_servo 100 100 (-1000000) 1000000 1 f64_zero f64_zero;
  run_fakes
    (servo ← feed 10 0 0 0 Calibrating servo;
     _ ← feed 9 500000000 1 0 Calibrating servo;
     assert_no_adjust).

Definition pi_loop_accumulates_over_multiple_locked_samples : Test :=
  servo ← pi_servo 100 100 (-1000000) 1000000 1 (f64_lit 2 10) (f64_lit 3 10);
  first ← sample 0 0 0 0;
  run_fakes
    ('(_, servo) ← PiServo_feed first servo;
     servo ← feed 2 0 0 0 Locked servo;
     servo ← feed 3 0 0 100000000 Locked servo;
     rate1 ← FakeClock_last_adjust;
     rate1 ← lift (unwrap rate1);
     _ ← feed 4 0 0 100000000 Locked servo;
     rate2 ← FakeClock_last_adjust;
     rate2 ← lift (unwrap rate2);
     _ ← lift (assert_near rate1 (f64_lit 95 100));
     lift (assert_near rate2 (f64_lit 92 100))).

Definition calibration_waits_until_min_interval_before_locking : Test :=
  servo ← pi_servo 100 100 (-1000000000) 1000000000 2 f64_zero f64_zero;
  run_fakes
    (servo ← feed 0 0 0 0 Calibrating servo;
     _ ← assert_no_adjust;
     servo ← feed 1 0 1 0 Calibrating servo;
     _ ← assert_no_adjust;
     _ ← feed 5 0 1 0 Locked servo;
     assert_adjusted (f64_lit 12 10)).

End servo.

(** ** All of them pass *)

Definition mechanism_tests : list Test :=
  [ bmca.trigger_always_fires_and_uses_received_on_port;
    bmca.trigger_updates_state_so_gated_trigger_same_snapshot_does_not_fire_again;
    bmca.gated_trigger_fires_only_when_snapshot_changes;
    bmca.gated_trigger_fires_when_snapshot_changes;
    bmca.gated_trigger_second_call_with_same_value_does_not_fire;
    bmca.trigger_methods_update_state_consistently;
    bmca.grandmaster_tracking_bmca_gates_when_grandmaster_ds_matches;
    bmca.grandmaster_tracking_bmca_emits_when_grandmaster_ds_differs;
    bmca.grandmaster_tracking_bmca_does_not_gate_passive_decisions;
    bmca.grandmaster_tracking_bmca_does_not_gate_slave_decisions;
    bmca.bmca_does_not_choose_slave_when_ebest_received_on_other_port;
    bmca.bmca_selects_passive_p2_when_ebest_is_better_only_by_topology_than_erbest;
    bmca.bmca_selects_master_m3_with_ebest_dataset_not_local_dataset;
    bmca.local_ds_uses_self_sender_and_receiver_for_topology_tie_break;
    bmca.listening_bmca_prunes_stale_foreign_clocks_on_next_announce_reception;
    bmca.listening_bmca_gm_capable_local_with_no_qualified_foreign_is_undecided;
    bmca.listening_bmca_gm_capable_local_loses_tuple_returns_passive;
    bmca.listening_bmca_gm_capable_local_better_than_foreign_returns_master_m1;
    bmca.listening_bmca_non_gm_local_better_than_foreign_returns_master_m2;
    bmca.listening_bmca_non_gm_local_loses_tuple_returns_slave;
    bmca.listening_bmca_recommends_slave_from_interleaved_announce_sequence;
    bmca.listening_bmca_recommends_slave_from_non_interleaved_announce_sequence;
    bmca.listening_bmca_undecided_when_no_announces_yet;
    bmca.listening_bmca_undecided_when_no_qualified_clock_records_yet;
    bmca.listening_bmca_undecided_when_only_single_announces_each;
    bmca.qualification_timeout_policy_duration_m1_is_zero;
    bmca.qualification_timeout_policy_duration_m2_is_zero;
    bmca.qualification_timeout_policy_duration_m3_scales_with_steps_removed;
    bmca.qualification_timeout_policy_duration_m3_large_inputs;
    e2e.e2e_delay_mechanism_yields_after_sync_and_delay_message_exchange;
    e2e.e2e_delay_mechanism_yields_after_reversed_sync_follow_up_and_delay_message_exchange;
    e2e.e2e_delay_mechanism_yields_with_one_step_sync;
    e2e.e2e_delay_mechanism_yields_with_one_step_sync_after_two_step;
    e2e.e2e_delay_mechanism_two_step_sync_invalidates_prior_one_step_sync;
    e2e.e2e_delay_mechanism_yields_with_two_step_and_follow_up_after_one_step;
    e2e.sync_exchange_new_produces_no_master_slave_offset;
    e2e.sync_exchange_no_master_slave_offset_on_two_step_sync_only;
    e2e.sync_exchange_no_master_slave_offset_on_follow_up_only;
    e2e.sync_exchange_produces_master_slave_offset_on_one_step_sync_only;
    e2e.sync_exchange_prefers_one_step_over_two_step_when_both_available;
    e2e.sync_exchange_two_step_clears_prior_one_step_sync;
    e2e.sync_exchange_produces_master_slave_offset_on_two_step_sync_then_follow_up;
    e2e.sync_exchange_produces_master_slave_offset_on_follow_up_then_two_step_sync;
    e2e.sync_exchange_produces_no_master_slave_offset_on_non_matching_follow_up;
    e2e.sync_exchange_produces_no_master_slave_offset_on_non_matching_two_step_sync;
    e2e.sync_exchange_recovers_when_matching_follow_up_arrives_later;
    e2e.sync_exchange_recovers_when_matching_two_step_sync_arrives_later;
    e2e.delay_exchange_new_produces_no_slave_master_offset;
    e2e.delay_exchange_produces_no_slave_master_offset_on_request_only;
    e2e.delay_exchange_produces_no_slave_master_offset_on_response_only;
    e2e.delay_exchange_produces_slave_master_offset_on_request_then_response_matching;
    e2e.delay_exchange_produces_slave_master_offset_on_response_then_request_matching;
    e2e.delay_exchange_produces_no_slave_master_offset_on_non_matching_response;
    e2e.delay_exchange_produces_no_slave_master_offset_on_non_matching_request;
    e2e.delay_exchange_recovers_when_matching_response_arrives_later;
    e2e.delay_exchange_recovers_when_matching_request_arrives_later;
    e2e.message_window_match_latest;
    e2e.message_window_no_match_if_one_empty;
    e2e.message_window_out_of_order_then_recover_follow_up_arrives;
    e2e.message_window_out_of_order_then_recover_sync_arrives;
    e2e.message_window_in_order_follow_up_then_sync;
    e2e.message_window_in_order_updates_to_newer_pair;
    e2e.delay_cycle_produces_delay_request_message;
    e2e.delay_cycle_next;
    e2e.delay_cycle_next_wraps;
    servo.first_sample_below_both_thresholds_does_not_step;
    servo.first_sample_exceeding_first_step_threshold_steps;
    servo.first_sample_exceeding_step_threshold_steps_even_if_first_step_not_exceeded;
    servo.subsequent_samples_use_only_step_threshold;
    servo.zero_steady_threshold_disables_subsequent_steps;
    servo.step_policy_does_not_step_on_master_estimate_underflow;
    servo.calibration_locks_after_spaced_samples;
    servo.step_resets_drift_estimate;
    servo.pi_servo_reaches_locked_and_runs_pi_loop;
    servo.calibration_ignores_samples_without_minimum_delta;
    servo.drift_estimate_is_clamped_to_bounds;
    servo.pi_loop_integral_resets_after_step;
    servo.calibration_rejects_non_increasing_ingress;
    servo.pi_loop_accumulates_over_multiple_locked_samples;
    servo.calibration_waits_until_min_interval_before_locking ].

Lemma mechanism_tests_pass : Forall (λ t, t = Done ()) mechanism_tests.
Proof. repeat constructor. Qed.
