(* ===== verification/TestsWire.v ===== *)
(** * The unit tests of the wire format and the messages (crates/rptp/src/wire.rs, message.rs)

    One definition per test, in the order of the source and under its name; [wire_tests] lists
    them all and [wire_tests_pass] runs them. *)

From S2P Require Import Prelude Errors Time Clock PortId DataSet Foreign Stores Wire Message.
From S2P Require Import Effects Servo E2e Bmca Profile Handlers PortState TestSupport.

Open Scope Z_scope.

#[export] Instance result_eq_dec {A E} `{EqDecision A} `{EqDecision E} : EqDecision (result A E).
Proof. solve_decision. Defined.
#[export] Instance FollowUpMessage_eq_dec : EqDecision FollowUpMessage.
Proof. solve_decision. Defined.
#[export] Instance DelayResponseMessage_eq_dec : EqDecision DelayResponseMessage.
Proof. solve_decision. Defined.

(** [for x in xs { .. }] of a test. *)
Fixpoint for_each {A} (xs : list A) (body : A → Test) : Test :=
  match xs with [] => Done () | x :: xs => _ ← body x; for_each xs body end.

Lemma for_each_Done {A} (xs : list A) body :
  (∀ x, x ∈ xs → body x = Done ()) → for_each xs body = Done ().
Proof.
  induction xs as [|x xs IH]; intros H; simpl; [done|].
  rewrite (H x) by apply list_elem_of_here. apply IH. intros y Hy. apply H. by apply list_elem_of_further.
Qed.

(** [assert_eq!] on a [Result]; [Err(error)] expected. *)
Definition assert_result {A} `{EqDecision A} (m : PR A) (expected : result A Error) : Test :=
  r ← m; assert_eq r expected.
Definition assert_error {A} (m : PR A) (expected : Error) : Test :=
  r ← m; match r with Ok _ => Panic | Err e => assert_eq e expected end.

Definition zero_port : PortIdentity :=
  PortIdentity_new (ClockIdentity_new [0; 0; 0; 0; 0; 0; 0; 0]) (PortNumber_new 1).

(** [MessageBuffer::new(TransportSpecific, PtpVersion::V2, DomainNumber::new(0), source)]. *)
Definition test_buffer (source : PortIdentity) : outcome (list Z) :=
  MessageBuffer_new PtpVersion_V2 (DomainNumber_new 0) source.

(** ** wire.rs *)
Module wire.

(** The assertions of the [buffer_integrity_*] tests: the length field is the buffer's length,
    and the message type and control field are those of the message. *)
Definition assert_integrity (bytes : list Z) (message_type control : Z) : Test :=
  b2 ← index 2 bytes;
  b3 ← index 3 bytes;
  let len := from_be [b2; b3] in
  _ ← assert_eq len (Z.of_nat (length bytes));
  b0 ← index 0 bytes;
  _ ← assert_eq (Z.land b0 0x0F) message_type;
  b32 ← index 32 bytes;
  assert_eq b32 control.

Definition buffer_integrity_two_step_sync : Test :=
  let msg := mkTwoStepSyncMessage (SequenceId_new 7) (LogMessageInterval_new (-3)) in
  buf ← test_buffer (PortIdentity_new (ClockIdentity_new [1; 2; 3; 4; 5; 6; 7; 8])
                       (PortNumber_new 2));
  wire ← TwoStepSyncMessage_to_wire (F := FlagBits) msg buf;
  assert_integrity wire 0x00 0x00.
Definition buffer_integrity_follow_up : Test :=
  t ← TimeStamp_new 1 2;
  let msg := mkFollowUpMessage (SequenceId_new 9) (LogMessageInterval_new (-3)) t in
  buf ← test_buffer PortIdentity_fake;
  wire ← FollowUpMessage_to_wire (F := FlagBits) msg buf;
  assert_integrity wire 0x08 0x02.
Definition buffer_integrity_delay_resp : Test :=
  t ← TimeStamp_new 1 2;
  let msg := mkDelayResponseMessage (SequenceId_new 11) (LogMessageInterval_new 2) t
    (PortIdentity_new (ClockIdentity_new [9; 9; 8; 8; 7; 7; 6; 6]) (PortNumber_new 4)) in
  buf ← test_buffer PortIdentity_fake;
  wire ← DelayResponseMessage_to_wire (F := FlagBits) msg buf;
  assert_integrity wire 0x09 0x03.
Definition buffer_integrity_delay_req : Test :=
  let msg := mkDelayRequestMessage (SequenceId_new 13) in
  buf ← test_buffer zero_port;
  wire ← DelayRequestMessage_to_wire (F := FlagBits) msg buf;
  assert_integrity wire 0x01 0x01.
Definition buffer_integrity_announce : Test :=
  let msg := mkAnnounceMessage (SequenceId_new 21) (LogMessageInterval_new 0x7F)
    (ClockDS_new (ClockIdentity_new [0; 0; 0; 0; 0; 0; 0; 0]) (Priority1_new 127)
       (Priority2_new 127) (ClockQuality_new CC_Default CA_Within1ms 0xFFFF)
       (StepsRemoved_new 0)) Ptp in
  buf ← test_buffer zero_port;
  wire ← AnnounceMessage_to_wire (F := FlagBits) msg buf;
  assert_integrity wire 0x0B 0x05.

Definition unvalidated_message_header_too_short : Test :=
  let buf := replicate (PTP_HEADER_LEN - 1) 0 in
  assert_error (length_checked_v2 buf) (Parse (HeaderTooShort (PTP_HEADER_LEN - 1))).
Definition unvalidated_message_unsupported_version : Test :=
  let buf := replicate PTP_HEADER_LEN 0 in
  buf ← set_index 1 1 buf;
  buf ← copy_from_slice 2 4 (to_be 2 (Z.of_nat PTP_HEADER_LEN)) buf;
  assert_error (length_checked_v2 buf) (Protocol (UnsupportedPtpVersion 1)).
Definition unvalidated_message_length_mismatch : Test :=
  let buf := replicate (PTP_HEADER_LEN + 1) 0 in
  buf ← set_index 1 (PtpVersion_as_u8 PtpVersion_V2) buf;
  buf ← copy_from_slice 2 4 (to_be 2 (Z.of_nat PTP_HEADER_LEN)) buf;
  assert_error (length_checked_v2 buf)
    (Parse (LengthMismatch (Z.of_nat PTP_HEADER_LEN) (Z.of_nat (PTP_HEADER_LEN + 1)))).
Definition message_type_from_nibble_unknown : Test :=
  assert_error (MessageType_from_nibble 0x07) (Protocol (UnknownMessageType 0x07)).

Definition wire_timestamp_maximum_seconds : Test :=
  let wire := [0xFF; 0xFF; 0xFF; 0xFF; 0xFF; 0xFF; 0x00; 0x00; 0x00; 42] in
  expected ← TimeStamp_new (Z.shiftl 1 48 - 1) 42;
  assert_result (WireTimeStamp_timestamp wire) (Ok expected).
Definition wire_timestamp_roundtrip : Test :=
  ts ← TimeStamp_new 42 500000000;
  wire ← TimeStamp_to_wire ts;
  assert_result (WireTimeStamp_timestamp wire) (Ok ts).
Definition wire_timestamp_valid_nanos : Test :=
  let wire := [0; 0; 0; 0; 0; 42; 0; 0; 0; 42] in
  expected ← TimeStamp_new 42 42;
  assert_result (WireTimeStamp_timestamp wire) (Ok expected).
Definition wire_timestamp_invalid_nanos : Test :=
  let wire := [0; 0; 0; 0; 0; 42; 0x3B; 0x9A; 0xCA; 0x00] in
  assert_result (WireTimeStamp_timestamp wire) (Err (Protocol (InvalidTimestamp 1000000000))).

End wire.

(** ** message.rs *)
Module message.

Definition SequenceId_follows (self previous : SequenceId) : bool :=
  u_wrap 16 (seq_id self - seq_id previous) =? 1.
Definition SequenceId_try_from (buf : list Z) : PR SequenceId :=
  s ← ok_or (get_range 0 2 buf) (Parse (PayloadTooShort "SequenceId" 2 (length buf)));
  bytes ← ok_or (try_into 2 s) (Parse (PayloadTooShort "SequenceId" 2 (length buf)));
  mret (SequenceId_new (from_be bytes)).

(** The port that captures the last message of each kind, and the map of one domain to it. *)
Record CapturingPort := mkCapturingPort {
  last_event : option (PortIdentity * EventMessage * TimeStamp);
  last_general : option (PortIdentity * GeneralMessage * Instant);
  last_system : option SystemMessage;
}.

Definition CapturingPort_process_event_message (source_port_identity : PortIdentity)
    (msg : EventMessage) (timestamp : TimeStamp) (self : CapturingPort)
    : M Fakes CapturingPort :=
  mret (mkCapturingPort (Some (source_port_identity, msg, timestamp)) (last_general self)
          (last_system self)).
Definition CapturingPort_process_general_message (source_port_identity : PortIdentity)
    (msg : GeneralMessage) (now : Instant) (self : CapturingPort) : M Fakes CapturingPort :=
  mret (mkCapturingPort (last_event self) (Some (source_port_identity, msg, now))
          (last_system self)).
Definition CapturingPort_process_system_message (msg : SystemMessage) (self : CapturingPort)
    : M Fakes CapturingPort :=
  mret (mkCapturingPort (last_event self) (last_general self) (Some msg)).

#[local] Instance CapturingPort_PortIngress : PortIngress Fakes CapturingPort := {
  process_event_message := CapturingPort_process_event_message;
  process_general_message := CapturingPort_process_general_message;
  process_system_message := CapturingPort_process_system_message;
}.

Record CapturingPortMap := mkCapturingPortMap { cm_domain : DomainNumber; cm_port : CapturingPort }.

Definition CapturingPortMap_new (domain : DomainNumber) : CapturingPortMap :=
  mkCapturingPortMap domain (mkCapturingPort None None None).
Definition CapturingPortMap_port_by_domain (domain_number : DomainNumber)
    (self : CapturingPortMap) : result (CapturingPort * (CapturingPort → CapturingPortMap)) Error :=
  if bool_decide (cm_domain self = domain_number)
  then Ok (cm_port self, mkCapturingPortMap (cm_domain self))
  else Err (Protocol (DomainNotFound (DomainNumber_as_u8 domain_number))).

#[local] Instance CapturingPortMap_PortMap : PortMap CapturingPortMap CapturingPort := {
  port_by_domain := CapturingPortMap_port_by_domain;
}.

(** The tail of the round-trip tests: receive the bytes on domain 0 and compare what the port
    captured. *)
Definition assert_general_received (wire : list Z) (source : PortIdentity)
    (expected : GeneralMessage) : Test :=
  let now := Instant_from_nanos 42 in
  '(received, ports) ← run_fakes
     (MessageIngress_receive_general (F := FlagBits) wire now
        (CapturingPortMap_new (DomainNumber_new 0)));
  _ ← assert_eq received (Ok ());
  captured ← unwrap (last_general (cm_port ports));
  assert_eq captured (source, expected, now).
Definition assert_event_received (wire : list Z) (source : PortIdentity)
    (expected : EventMessage) : Test :=
  timestamp ← TimeStamp_new 5 6;
  '(received, ports) ← run_fakes
     (MessageIngress_receive_event (F := FlagBits) wire timestamp
        (CapturingPortMap_new (DomainNumber_new 0)));
  _ ← assert_eq received (Ok ());
  captured ← unwrap (last_event (cm_port ports));
  assert_eq captured (source, expected, timestamp).

Definition announce_message_wire_roundtrip : Test :=
  let announce := mkAnnounceMessage (SequenceId_new 42) (LogMessageInterval_new 0x7F)
    (ClockDS_new (ClockIdentity_new [0; 0; 0; 0; 0; 0; 0; 0]) (Priority1_new 127)
       (Priority2_new 127) (ClockQuality_new CC_Default CA_Within250ns 0xFFFF)
       (StepsRemoved_new 42)) Ptp in
  buf ← test_buffer zero_port;
  wire ← AnnounceMessage_to_wire (F := FlagBits) announce buf;
  assert_general_received wire zero_port (Announce announce).
Definition one_step_sync_message_wire_roundtrip : Test :=
  t ← TimeStamp_new 1 2;
  let sync := mkOneStepSyncMessage (SequenceId_new 42) (LogMessageInterval_new 5) t in
  buf ← test_buffer zero_port;
  wire ← OneStepSyncMessage_to_wire (F := FlagBits) sync buf;
  assert_event_received wire zero_port (OneStepSync sync).
Definition two_step_sync_message_wire_roundtrip : Test :=
  let sync := mkTwoStepSyncMessage (SequenceId_new 42) (LogMessageInterval_new 7) in
  buf ← test_buffer zero_port;
  wire ← TwoStepSyncMessage_to_wire (F := FlagBits) sync buf;
  assert_event_received wire zero_port (TwoStepSync sync).
Definition follow_up_message_wire_roundtrip : Test :=
  t ← TimeStamp_new 1 2;
  let follow_up := mkFollowUpMessage (SequenceId_new 42) (LogMessageInterval_new 3) t in
  buf ← test_buffer zero_port;
  wire ← FollowUpMessage_to_wire (F := FlagBits) follow_up buf;
  assert_general_received wire zero_port (FollowUp follow_up).
Definition delay_request_message_wire_roundtrip : Test :=
  let delay_req := mkDelayRequestMessage (SequenceId_new 42) in
  buf ← test_buffer zero_port;
  wire ← DelayRequestMessage_to_wire (F := FlagBits) delay_req buf;
  assert_event_received wire zero_port (DelayReq delay_req).
Definition delay_response_message_wire_roundtrip : Test :=
  let requesting_port_identity :=
    PortIdentity_new (ClockIdentity_new [1; 2; 3; 4; 5; 6; 7; 8]) (PortNumber_new 9) in
  t ← TimeStamp_new 1 2;
  let delay_resp := mkDelayResponseMessage (SequenceId_new 42) (LogMessageInterval_new (-2)) t
    requesting_port_identity in
  buf ← test_buffer PortIdentity_fake;
  wire ← DelayResponseMessage_to_wire (F := FlagBits) delay_resp buf;
  assert_general_received wire PortIdentity_fake (DelayResp delay_resp).

Definition event_message_new_reports_short_sync_payload : Test :=
  let payload := replicate 5 0 in
  assert_result
    (EventMessage_new (F := FlagBits) MT_Sync (SequenceId_new 1) mf_empty
       (LogMessageInterval_new 3) payload)
    (Err (Parse (PayloadTooShort "Sync.origin_timestamp" 10 5))).
Definition general_message_new_reports_short_announce_payload : Test :=
  let payload := replicate 20 0 in
  assert_result
    (GeneralMessage_new (F := FlagBits) MT_Announce (SequenceId_new 1) mf_empty
       (LogMessageInterval_new 0) payload)
    (Err (Parse (PayloadTooShort "Announce.foreign_clock_ds" 16 (length payload - 13)))).
Definition general_message_new_reports_short_delay_response_timestamp : Test :=
  let payload := replicate 5 0 in
  assert_result
    (GeneralMessage_new (F := FlagBits) MT_DelayResponse (SequenceId_new 1) mf_empty
       (LogMessageInterval_new 0) payload)
    (Err (Parse (PayloadTooShort "DelayResponse.receive_timestamp" 10 5))).
Definition general_message_new_reports_short_delay_response_requesting_port_identity : Test :=
  let payload := replicate 15 0 in
  assert_result
    (GeneralMessage_new (F := FlagBits) MT_DelayResponse (SequenceId_new 1) mf_empty
       (LogMessageInterval_new 0) payload)
    (Err (Parse (PayloadTooShort "DelayResponse.requesting_port_identity" 10 5))).
Definition sequence_id_try_from_reports_short_payload : Test :=
  let buf := [0] in
  assert_result (SequenceId_try_from buf) (Err (Parse (PayloadTooShort "SequenceId" 2 1))).

(** A map without ports. *)
Record FailingPortMap := mkFailingPortMap {}.
Definition FailingPortMap_port_by_domain (domain_number : DomainNumber) (self : FailingPortMap)
    : result (CapturingPort * (CapturingPort → FailingPortMap)) Error :=
  Err (Protocol (DomainNotFound (DomainNumber_as_u8 domain_number))).
#[local] Instance FailingPortMap_PortMap : PortMap FailingPortMap CapturingPort := {
  port_by_domain := FailingPortMap_port_by_domain;
}.

Definition domain_message_dispatch_event_propagates_domain_not_found : Test :=
  let buf := replicate (34 + 10) 0 in
  buf ← set_index 1 (PtpVersion_as_u8 PtpVersion_V2) buf;
  let total_len := Z.of_nat (length buf) in
  buf ← copy_from_slice 2 4 (to_be 2 total_len) buf;
  b0 ← index 0 buf;
  buf ← set_index 0 (Z.lor b0 (MessageType_to_nibble MT_Sync)) buf;
  buf ← set_index 4 42 buf;
  length_checked ← unwrap_ok (length_checked_v2 buf);
  t ← TimeStamp_new 0 0;
  '(res, _) ← run_fakes (DomainMessage_dispatch_event (F := FlagBits) (S := Fakes)
                           length_checked t mkFailingPortMap);
  assert_eq res (Err (Protocol (DomainNotFound 42))).

Definition twostep_sync_message_produces_follow_up : Test :=
  let sync := mkTwoStepSyncMessage (SequenceId_new 42) (LogMessageInterval_new 9) in
  t ← TimeStamp_new 4 0;
  assert_eq (TwoStepSyncMessage_follow_up t sync)
    (mkFollowUpMessage (SequenceId_new 42) (LogMessageInterval_new 9) t).
Definition follow_up_message_produces_master_slave_offset : Test :=
  let sync := mkTwoStepSyncMessage (SequenceId_new 42) (LogMessageInterval_new 11) in
  t ← TimeStamp_new 4 0;
  let follow_up := mkFollowUpMessage (SequenceId_new 42) (LogMessageInterval_new 11) t in
  sync_ingress_timestamp ← TimeStamp_new 5 0;
  offset ← FollowUpMessage_master_slave_offset follow_up sync sync_ingress_timestamp;
  expected ← TimeInterval_new 1 0;
  assert_eq offset (Some expected).
Definition follow_up_message_with_different_sequence_id_produces_no_master_slave_offset : Test :=
  let sync := mkTwoStepSyncMessage (SequenceId_new 42) (LogMessageInterval_new 11) in
  t ← TimeStamp_new 4 0;
  let follow_up := mkFollowUpMessage (SequenceId_new 43) (LogMessageInterval_new 11) t in
  sync_ingress_timestamp ← TimeStamp_new 5 0;
  offset ← FollowUpMessage_master_slave_offset follow_up sync sync_ingress_timestamp;
  assert_eq offset None.
Definition delay_response_produces_slave_master_offset : Test :=
  let delay_req := mkDelayRequestMessage (SequenceId_new 42) in
  t ← TimeStamp_new 5 0;
  let delay_resp :=
    mkDelayResponseMessage (SequenceId_new 42) (LogMessageInterval_new 5) t PortIdentity_fake in
  delay_req_egress_timestamp ← TimeStamp_new 4 0;
  offset ← DelayResponseMessage_slave_master_offset delay_resp delay_req
             delay_req_egress_timestamp;
  expected ← TimeInterval_new 1 0;
  assert_eq offset (Some expected).
Definition delay_response_with_different_sequence_id_produces_no_slave_master_offset : Test :=
  let delay_req := mkDelayRequestMessage (SequenceId_new 42) in
  t ← TimeStamp_new 5 0;
  let delay_resp :=
    mkDelayResponseMessage (SequenceId_new 43) (LogMessageInterval_new (-1)) t
      PortIdentity_fake in
  delay_req_egress_timestamp ← TimeStamp_new 4 0;
  offset ← DelayResponseMessage_slave_master_offset delay_resp delay_req
             delay_req_egress_timestamp;
  assert_eq offset None.
Definition delay_request_message_produces_delay_response_message : Test :=
  let delay_req := mkDelayRequestMessage (SequenceId_new 42) in
  t ← TimeStamp_new 4 0;
  assert_eq
    (DelayRequestMessage_response (LogMessageInterval_new 1) t PortIdentity_fake delay_req)
    (mkDelayResponseMessage (SequenceId_new 42) (LogMessageInterval_new 1) t PortIdentity_fake).

Definition sequence_id_follows_next_for_all_values : Test :=
  for_each (seqZ 0 65536) (λ id,
    let a := SequenceId_new id in
    let b := SequenceId_next a in
    _ ← assert_true (SequenceId_follows b a);
    assert_true (negb (SequenceId_follows a a))).
Definition sequence_id_roundtrip_to_from_be_bytes : Test :=
  let samples := [0; 1; 2; 7; 42; 255; 256; 1024; 4096; 32767; 65534; 65535] in
  for_each samples (λ id,
    let sid := SequenceId_new id in
    let bytes := SequenceId_to_be_bytes sid in
    parsed ← unwrap_ok (SequenceId_try_from bytes);
    assert_eq parsed sid).
Definition sequence_id_does_not_follow_on_gap : Test :=
  let a := SequenceId_new 10 in
  let c := SequenceId_new 12 in
  assert_true (negb (SequenceId_follows c a)).
Definition sequence_id_wraps : Test :=
  let a := SequenceId_new 65535 in
  let b := SequenceId_new 0 in
  _ ← assert_true (SequenceId_follows b a);
  assert_eq (SequenceId_next a) b.

(** The loop over every identifier, by arithmetic. *)
Lemma sequence_id_follows_next_passes : sequence_id_follows_next_for_all_values = Done ().
Proof.
  apply for_each_Done. intros id Hid%elem_of_seqZ.
  unfold assert_true, SequenceId_follows, SequenceId_next, u_wrap, seq_id.
  rewrite Zminus_mod_idemp_l, Z.add_simpl_l, Z.sub_diag. reflexivity.
Qed.

End message.

(** ** All of them pass *)

Definition wire_tests : list Test :=
  [ wire.buffer_integrity_two_step_sync;
    wire.buffer_integrity_follow_up;
    wire.buffer_integrity_delay_resp;
    wire.buffer_integrity_delay_req;
    wire.buffer_integrity_announce;
    wire.unvalidated_message_header_too_short;
    wire.unvalidated_message_unsupported_version;
    wire.unvalidated_message_length_mismatch;
    wire.message_type_from_nibble_unknown;
    wire.wire_timestamp_maximum_seconds;
    wire.wire_timestamp_roundtrip;
    wire.wire_timestamp_valid_nanos;
    wire.wire_timestamp_invalid_nanos;
    message.announce_message_wire_roundtrip;
    message.one_step_sync_message_wire_roundtrip;
    message.two_step_sync_message_wire_roundtrip;
    message.follow_up_message_wire_roundtrip;
    message.delay_request_message_wire_roundtrip;
    message.delay_response_message_wire_roundtrip;
    message.event_message_new_reports_short_sync_payload;
    message.general_message_new_reports_short_announce_payload;
    message.general_message_new_reports_short_delay_response_timestamp;
    message.general_message_new_reports_short_delay_response_requesting_port_identity;
    message.sequence_id_try_from_reports_short_payload;
    message.domain_message_dispatch_event_propagates_domain_not_found;
    message.twostep_sync_message_produces_follow_up;
    message.follow_up_message_produces_master_slave_offset;
    message.follow_up_message_with_different_sequence_id_produces_no_master_slave_offset;
    message.delay_response_produces_slave_master_offset;
    message.delay_response_with_different_sequence_id_produces_no_slave_master_offset;
    message.delay_request_message_produces_delay_response_message;
    message.sequence_id_follows_next_for_all_values;
    message.sequence_id_roundtrip_to_from_be_bytes;
    message.sequence_id_does_not_follow_on_gap;
    message.sequence_id_wraps ].

Lemma wire_tests_pass : Forall (λ t, t = Done ()) wire_tests.
Proof. unfold wire_tests.
  repeat (apply Forall_cons_2; [cbv beta;
    lazymatch goal with
    | |- message.sequence_id_follows_next_for_all_values = _ =>
        exact message.sequence_id_follows_next_passes
    | _ => reflexivity
    end|]).
  constructor. Qed.
