(* ===== verification/TestsStates.v ===== *)
(** * The unit tests of the port states (crates/rptp/src/portstate.rs, port.rs, master.rs, slave.rs,
    premaster.rs, passive.rs, listening.rs, uncalibrated.rs, initializing.rs)

    One definition per test, in the order of the source and under its name; [state_tests] lists
    them all and [state_tests_pass] runs them. The fixtures build a port on the fakes of
    TestSupport.v; the log of the source's fixtures discards what the trace keeps here. *)

From S2P Require Import Prelude Errors Time Clock PortId DataSet Foreign Stores Wire Message.
From S2P Require Import Effects Servo E2e Bmca Profile Handlers PortState TestSupport TestsRecords.

Open Scope Z_scope.

#[local] Existing Instance FakePort.

#[local] Abbreviation Records := ForeignClockRecordsVec.

Definition is_Initializing {R} (s : PortState R) : bool :=
  match s with Initializing _ => true | _ => false end.
Definition is_Listening {R} (s : PortState R) : bool :=
  match s with Listening _ => true | _ => false end.
Definition is_Slave {R} (s : PortState R) : bool := match s with Slave _ => true | _ => false end.
Definition is_Master {R} (s : PortState R) : bool := match s with Master _ => true | _ => false end.
Definition is_PreMaster {R} (s : PortState R) : bool :=
  match s with PreMaster _ => true | _ => false end.
Definition is_Uncalibrated {R} (s : PortState R) : bool :=
  match s with Uncalibrated _ => true | _ => false end.
Definition is_Passive {R} (s : PortState R) : bool := match s with Passive _ => true | _ => false end.
Definition is_Faulty {R} (s : PortState R) : bool := match s with Faulty _ => true | _ => false end.

(** The domain port of a fixture, and what its BMCA role is built from: the algorithm on
    [default_ds], the given records and a trigger on the port's number. *)
Definition domain_port (identity : PortIdentity) : DomainPort :=
  mkDomainPort identity (DomainNumber_new 0).
Definition parts_on (identity : PortIdentity) (default_ds : ClockDS)
    (records : list ForeignClockRecord) : BmcaParts Records :=
  test_parts (domain_port identity) default_ds (mkForeignClockRecordsVec records).
Definition fake_on (port : Z) : PortIdentity := PortIdentity_fake_on_port (PortNumber_new port).
(** [PortIdentity::new(self.default_ds.identity(), PortNumber::new(1))]. *)
Definition own_port (default_ds : ClockDS) : PortIdentity :=
  PortIdentity_new (cds_identity default_ds) (PortNumber_new 1).

(** [port.process_announce(AnnounceMessage::new(seq, .., ds, Ptp), source, from_secs(secs))]. *)
Definition hears {P} (process : AnnounceMessage → PortIdentity → Instant → P → M Fakes P)
    (seq : Z) (ds : ClockDS) (source : PortIdentity) (secs : Z) (port : P) : M Fakes P :=
  now ← lift (Instant_from_secs secs);
  process (mkAnnounceMessage (SequenceId_new seq) (LogMessageInterval_new 0) ds Ptp)
    source now port.

(** The recorders drained and compared. *)
Definition assert_events (expected : list (PortNumber * BestForeignSnapshot)) : M Fakes () :=
  events ← FakeStateDecisionEvent_take_events; lift (assert_eq events expected).
Definition assert_no_timer : M Fakes () :=
  messages ← FakeTimerHost_take_system_messages; lift (assert_eq messages []).
Definition assert_timer (msg : SystemMessage) : M Fakes () :=
  messages ← FakeTimerHost_take_system_messages; lift (assert_true (bool_decide (msg ∈ messages))).
Definition assert_nothing_sent : M Fakes () :=
  b ← FakePort_is_empty; lift (assert_true b).
Definition assert_sent_event (msg : EventMessage) : M Fakes () :=
  b ← FakePort_contains_event_message msg; lift (assert_true b).
Definition assert_sent_general (msg : GeneralMessage) : M Fakes () :=
  b ← FakePort_contains_general_message msg; lift (assert_true b).
(** [setup.clock.now()] of a clock that starts at zero. *)
Definition assert_now (secs : Z) : M Fakes () :=
  zero ← lift (TimeStamp_new 0 0);
  now ← FakeClock_now zero;
  expected ← lift (TimeStamp_new secs 0);
  lift (assert_eq now expected).
(** [result.unwrap()] of a send. *)
Definition unwrap_sent {P} (m : M Fakes (SendResult * P)) : M Fakes P :=
  '(res, p) ← m; match res with Ok _ => mret p | Err _ => panic end.

Definition high_ds : ClockDS := TestClockDS_dataset TestClockDS_default_high_grade.
Definition mid_ds : ClockDS := TestClockDS_dataset TestClockDS_default_mid_grade.
Definition low_ds : ClockDS := TestClockDS_dataset TestClockDS_default_low_grade.
Definition slave_only_ds : ClockDS :=
  TestClockDS_dataset TestClockDS_default_low_grade_slave_only.
Definition gps_ds : ClockDS := TestClockDS_dataset TestClockDS_gps_grandmaster.

(** ** portstate.rs *)
Module portstate.

(** The fixtures of [PortStateTestSetup], over its default dataset. *)
Definition port : DomainPort := domain_port (fake_on 1).
Definition parts (ds : ClockDS) : BmcaParts Records := parts_on (fake_on 1) ds [].
Definition fake_parent : ParentPortIdentity := ParentPortIdentity_new PortIdentity_fake.

Definition initializing_port (ds : ClockDS) : M Fakes (PortState Records) :=
  profile ← lift PortProfile_default;
  PortProfile_initializing port (parts ds) profile.
Definition listening_port (ds : ClockDS) : M Fakes (PortState Records) :=
  profile ← lift PortProfile_default;
  PortProfile_listening port (mkListeningBmca (parts ds)) profile.
Definition slave_port (ds : ClockDS) : M Fakes (PortState Records) :=
  profile ← lift PortProfile_default;
  interval ← lift (LogInterval_new 0);
  PortProfile_slave port (mkParentTrackingBmca (parts ds) fake_parent)
    (EndToEndDelayMechanism_new
       (mkDelayCycle (SequenceId_new 0) (FakeTimeout_new SM_DelayRequestTimeout) interval))
    Servo_Stepping profile.
Definition master_port (ds : ClockDS) : M Fakes (PortState Records) :=
  profile ← lift PortProfile_default;
  PortProfile_master port (mkGrandMasterTrackingBmca (parts ds) ds) profile.
Definition pre_master_port (ds : ClockDS) : M Fakes (PortState Records) :=
  profile ← lift PortProfile_default;
  PortProfile_pre_master port (mkGrandMasterTrackingBmca (parts ds) ds)
    (mkQualificationTimeoutPolicy M1 (StepsRemoved_new 0)) profile.
Definition uncalibrated_port (ds : ClockDS) : M Fakes (PortState Records) :=
  profile ← lift PortProfile_default;
  PortProfile_uncalibrated port (mkParentTrackingBmca (parts ds) fake_parent) profile.
Definition faulty_port (ds : ClockDS) : M Fakes (PortState Records) :=
  profile ← lift PortProfile_default;
  PortProfile_faulty port (parts ds) profile.
Definition passive_port (ds : ClockDS) : M Fakes (PortState Records) :=
  profile ← lift PortProfile_default;
  PortProfile_passive port (mkPassiveBmca (parts ds)) profile.

(** [port.apply(decision)]; the state it leads to, and the decision a test asserts it with. *)
Definition applied (fixture : M Fakes (PortState Records)) (decision : StateDecision)
    : outcome (PortState Records) :=
  run_fakes (state ← fixture; PortState_apply decision state).
Definition leads_to (fixture : M Fakes (PortState Records)) (decision : StateDecision)
    (expected : PortState Records → bool) : Test :=
  state ← applied fixture decision; assert_true (expected state).

Definition portstate_listening_to_master_transition : Test :=
  leads_to (listening_port high_ds) AnnounceReceiptTimeoutExpired is_Master.
Definition portstate_slave_to_master_transition : Test :=
  leads_to (slave_port mid_ds) AnnounceReceiptTimeoutExpired is_Master.
Definition portstate_pre_master_to_master_transition : Test :=
  leads_to (pre_master_port high_ds) QualificationTimeoutExpired is_Master.
Definition portstate_uncalibrated_to_master_transition : Test :=
  leads_to (uncalibrated_port high_ds) AnnounceReceiptTimeoutExpired is_Master.
Definition portstate_uncalibrated_to_slave_transition : Test :=
  leads_to (uncalibrated_port mid_ds) (MasterClockSelected fake_parent) is_Slave.
Definition portstate_listening_to_uncalibrated_transition : Test :=
  leads_to (listening_port mid_ds) (RecommendedSlave fake_parent) is_Uncalibrated.
Definition portstate_master_to_uncalibrated_transition : Test :=
  leads_to (master_port high_ds) (RecommendedSlave fake_parent) is_Uncalibrated.
Definition portstate_listening_to_pre_master_transition : Test :=
  leads_to (listening_port high_ds) (RecommendedMaster (mkBmcaMasterDecision M1 high_ds))
    is_PreMaster.
Definition portstate_initializing_to_listening_transition : Test :=
  leads_to (initializing_port mid_ds) Initialized is_Listening.
Definition portstate_initializing_to_master_illegal_transition_panics : Test :=
  should_panic (applied (initializing_port high_ds) AnnounceReceiptTimeoutExpired).
Definition portstate_master_to_master_illegal_transition_panics : Test :=
  should_panic (applied (master_port high_ds) AnnounceReceiptTimeoutExpired).
Definition portstate_initializing_to_slave_illegal_transition_panics : Test :=
  should_panic (applied (initializing_port mid_ds) (MasterClockSelected fake_parent)).
Definition portstate_listening_to_slave_illegal_transition_panics : Test :=
  should_panic (applied (listening_port mid_ds) (MasterClockSelected fake_parent)).
Definition portstate_slave_to_slave_illegal_transition_panics : Test :=
  should_panic (applied (slave_port mid_ds) (MasterClockSelected fake_parent)).
Definition portstate_master_to_slave_illegal_transition_panics : Test :=
  should_panic (applied (master_port high_ds) (MasterClockSelected fake_parent)).
Definition portstate_pre_master_to_slave_illegal_transition_panics : Test :=
  should_panic (applied (pre_master_port high_ds) (MasterClockSelected fake_parent)).
Definition portstate_initializing_to_uncalibrated_illegal_transition_panics : Test :=
  should_panic (applied (initializing_port mid_ds) (RecommendedSlave fake_parent)).
Definition portstate_slave_to_uncalibrated_transition : Test :=
  leads_to (slave_port mid_ds) (RecommendedSlave fake_parent) is_Uncalibrated.
Definition portstate_pre_master_to_uncalibrated_transition : Test :=
  leads_to (pre_master_port high_ds) (RecommendedSlave fake_parent) is_Uncalibrated.
Definition portstate_uncalibrated_to_uncalibrated_transition : Test :=
  leads_to (uncalibrated_port mid_ds) (RecommendedSlave fake_parent) is_Uncalibrated.
Definition portstate_initializing_to_pre_master_illegal_transition_goes_to_faulty : Test :=
  should_panic
    (leads_to (initializing_port high_ds) (RecommendedMaster (mkBmcaMasterDecision M1 high_ds))
       is_Faulty).
Definition portstate_slave_to_pre_master_transition : Test :=
  leads_to (slave_port mid_ds) (RecommendedMaster (mkBmcaMasterDecision M1 mid_ds)) is_PreMaster.
Definition portstate_master_to_pre_master_transition : Test :=
  leads_to (master_port high_ds) (RecommendedMaster (mkBmcaMasterDecision M1 high_ds))
    is_PreMaster.
(** Its name says that it panics; the test asserts the transition. *)
Definition portstate_pre_master_to_pre_master_illegal_transition_panics : Test :=
  leads_to (pre_master_port high_ds) (RecommendedMaster (mkBmcaMasterDecision M1 high_ds))
    is_PreMaster.
Definition portstate_uncalibrated_to_pre_master_transition : Test :=
  leads_to (uncalibrated_port mid_ds) (RecommendedMaster (mkBmcaMasterDecision M1 mid_ds))
    is_PreMaster.
Definition portstate_listening_to_listening_illegal_transition_panics : Test :=
  should_panic (applied (listening_port mid_ds) Initialized).
Definition portstate_slave_to_listening_illegal_transition_panics : Test :=
  should_panic (applied (slave_port mid_ds) Initialized).
Definition portstate_master_to_listening_illegal_transition_panics : Test :=
  should_panic (applied (master_port high_ds) Initialized).
Definition portstate_pre_master_to_listening_illegal_transition_panics : Test :=
  should_panic (applied (pre_master_port high_ds) Initialized).
Definition portstate_initializing_to_faulty_transition_panics : Test :=
  should_panic (applied (initializing_port mid_ds) FaultDetected).
Definition portstate_listening_to_faulty_transition : Test :=
  leads_to (listening_port mid_ds) FaultDetected is_Faulty.
Definition portstate_slave_to_faulty_transition : Test :=
  leads_to (slave_port mid_ds) FaultDetected is_Faulty.
Definition portstate_master_to_faulty_transition : Test :=
  leads_to (master_port high_ds) FaultDetected is_Faulty.

(** The master and the slave of the send-failure tests are built like the fixtures above, the
    slave without starting its timeouts; every send fails. *)
Definition assert_fault_detected
    (m : M Fakes (option StateDecision * PortState Records)) : Test :=
  '(transition, _) ← run_fakes m;
  assert_true (match transition with Some FaultDetected => true | _ => false end).

Definition portstate_master_enters_faulty_on_announce_send_failure : Test :=
  assert_fault_detected
    (master ← master_port high_ds;
     PortState_dispatch_system (F := FlagBits) (HE := FailingPort) SM_AnnounceSendTimeout master).
Definition portstate_master_enters_faulty_on_delay_response_send_failure : Test :=
  assert_fault_detected
    (master ← master_port high_ds;
     t ← lift (TimeStamp_new 0 0);
     PortState_dispatch_event (F := FlagBits) (HE := FailingPort)
       (DelayReq (mkDelayRequestMessage (SequenceId_new 0))) PortIdentity_fake t master).
Definition portstate_master_enters_faulty_on_follow_up_send_failure : Test :=
  assert_fault_detected
    (master ← master_port high_ds;
     t ← lift (TimeStamp_new 0 0);
     let sync_msg := mkTwoStepSyncMessage (SequenceId_new 0) (LogMessageInterval_new 0) in
     let ts_msg := mkTimestampMessage (TwoStepSync sync_msg) t in
     PortState_dispatch_system (F := FlagBits) (HE := FailingPort) (SM_Timestamp ts_msg) master).
Definition portstate_master_enters_faulty_on_sync_send_failure : Test :=
  assert_fault_detected
    (master ← master_port high_ds;
     PortState_dispatch_system (F := FlagBits) (HE := FailingPort) SM_SyncTimeout master).
Definition portstate_slave_enters_faulty_on_delay_request_send_failure : Test :=
  assert_fault_detected
    (receipt ← DomainPort_timeout SM_AnnounceReceiptTimeout port;
     receipt_interval ← lift (Duration_from_secs 10);
     delay_timeout ← DomainPort_timeout SM_DelayRequestTimeout port;
     interval ← lift (LogInterval_new 0);
     profile ← lift PortProfile_default;
     slave ← SlavePort_new port (mkParentTrackingBmca (parts mid_ds) fake_parent)
               (mkAnnounceReceiptTimeout receipt receipt_interval)
               (EndToEndDelayMechanism_new
                  (mkDelayCycle (SequenceId_new 0) delay_timeout interval))
               Servo_Stepping profile;
     PortState_dispatch_system (F := FlagBits) (HE := FailingPort) SM_DelayRequestTimeout
       (Slave slave)).

Definition portstate_pre_master_to_faulty_transition : Test :=
  leads_to (pre_master_port high_ds) FaultDetected is_Faulty.
Definition portstate_uncalibrated_to_faulty_transition : Test :=
  leads_to (uncalibrated_port mid_ds) FaultDetected is_Faulty.
Definition portstate_faulty_to_faulty_transition : Test :=
  leads_to (faulty_port high_ds) FaultDetected is_Faulty.
Definition portstate_faulty_to_initializing_on_fault_cleared : Test :=
  leads_to (faulty_port high_ds) FaultCleared is_Initializing.
Definition portstate_faulty_dispatch_system_fault_cleared_requests_transition : Test :=
  '(decision, _) ← run_fakes
     (faulty ← faulty_port high_ds;
      PortState_dispatch_system (F := FlagBits) SM_FaultCleared faulty);
  assert_true (match decision with Some FaultCleared => true | _ => false end).
Definition portstate_listening_to_passive_transition : Test :=
  leads_to (listening_port mid_ds) RecommendedPassive is_Passive.
Definition portstate_master_to_passive_transition : Test :=
  leads_to (master_port high_ds) RecommendedPassive is_Passive.
Definition portstate_pre_master_to_passive_transition : Test :=
  leads_to (pre_master_port high_ds) RecommendedPassive is_Passive.
Definition portstate_slave_to_passive_transition : Test :=
  leads_to (slave_port mid_ds) RecommendedPassive is_Passive.
Definition portstate_uncalibrated_to_passive_transition : Test :=
  leads_to (uncalibrated_port mid_ds) RecommendedPassive is_Passive.
Definition portstate_passive_to_pre_master_transition : Test :=
  leads_to (passive_port high_ds) (RecommendedMaster (mkBmcaMasterDecision M1 high_ds))
    is_PreMaster.
Definition portstate_passive_to_uncalibrated_transition : Test :=
  leads_to (passive_port mid_ds) (RecommendedSlave fake_parent) is_Uncalibrated.
Definition portstate_passive_to_master_transition : Test :=
  leads_to (passive_port high_ds) AnnounceReceiptTimeoutExpired is_Master.
Definition portstate_passive_to_faulty_transition : Test :=
  leads_to (passive_port mid_ds) FaultDetected is_Faulty.
Definition portstate_initializing_to_passive_illegal_transition_panics : Test :=
  should_panic (applied (initializing_port mid_ds) RecommendedPassive).
Definition portstate_faulty_to_passive_illegal_transition_panics : Test :=
  should_panic (applied (faulty_port mid_ds) RecommendedPassive).

End portstate.

(** ** port.rs *)
Module port.

(** [CapturePort] keeps events and general messages in one list. *)
Definition first_sent : M Fakes (list Z) :=
  tr ← get_trace;
  lift (unwrap (head (omap (λ e, match e with
    | E_SendEvent _ buf true | E_SendGeneral _ buf true => Some buf
    | _ => None
    end) tr))).

Definition assert_header (bytes : list Z) (p : DomainPort) : Test :=
  b4 ← index 4 bytes;
  _ ← assert_eq b4 (DomainNumber_as_u8 (dp_domain_number p));
  source ← index_range 20 30 bytes;
  wire ← PortIdentity_to_wire (dp_port_identity p);
  assert_eq source wire.

Definition port_sets_domain_and_identity_on_event : Test :=
  let identity := ClockIdentity_new [1; 2; 3; 4; 5; 6; 7; 8] in
  let p := mkDomainPort (PortIdentity_new identity (PortNumber_new 5)) (DomainNumber_new 3) in
  run_fakes
    (res ← DomainPort_send_event (F := FlagBits)
             (DelayReq (mkDelayRequestMessage (SequenceId_new 42))) p;
     _ ← lift (assert_true (match res with Ok _ => true | Err _ => false end));
     bytes ← first_sent;
     lift (assert_header bytes p)).
Definition port_sets_domain_and_identity_on_general : Test :=
  let identity := ClockIdentity_new [8; 7; 6; 5; 4; 3; 2; 1] in
  let p := mkDomainPort (PortIdentity_new identity (PortNumber_new 2)) (DomainNumber_new 9) in
  t ← TimeStamp_new 1 2;
  let follow := mkFollowUpMessage (SequenceId_new 7) (LogMessageInterval_new 3) t in
  run_fakes
    (_ ← DomainPort_send_general (F := FlagBits) (FollowUp follow) p;
     bytes ← first_sent;
     lift (assert_header bytes p)).
Definition port_enumeration_sequential_yields_1_to_n : Test :=
  e ← PortEnumeration_sequential 3;
  '(p1, e) ← PortEnumeration_next e;
  '(p2, e) ← PortEnumeration_next e;
  '(p3, e) ← PortEnumeration_next e;
  '(p4, e) ← PortEnumeration_next e;
  '(p5, e) ← PortEnumeration_next e;
  assert_eq [p1; p2; p3; p4; p5]
    [Some (PortNumber_new 1); Some (PortNumber_new 2); Some (PortNumber_new 3); None; None].
Definition port_enumeration_single_yields_one_then_none : Test :=
  e ← PortEnumeration_single;
  '(p1, e) ← PortEnumeration_next e;
  '(p2, e) ← PortEnumeration_next e;
  assert_eq [p1; p2] [Some (PortNumber_new 1); None].
Definition port_enumeration_sequential_zero_panics : Test :=
  should_panic (PortEnumeration_sequential 0).

End port.

(** ** initializing.rs *)
Module initializing.

Definition initializing_port_to_listening_transition : Test :=
  listening ← run_fakes
    (profile ← lift PortProfile_default;
     initializing ← InitializingPort_new (domain_port (fake_on 1)) (parts_on (fake_on 1) mid_ds [])
                      profile;
     InitializingPort_initialized initializing);
  assert_true (is_Listening listening).

End initializing.

(** ** listening.rs *)
Module listening.

Definition port_under_test (default_ds : ClockDS) : M Fakes (ListeningPort Records) :=
  let p := domain_port (fake_on 1) in
  t ← DomainPort_timeout SM_AnnounceReceiptTimeout p;
  interval ← lift (Duration_from_secs 5);
  profile ← lift PortProfile_default;
  ListeningPort_new p (mkListeningBmca (parts_on (fake_on 1) default_ds []))
    (mkAnnounceReceiptTimeout t interval) profile.

Definition listening_port_test_setup_is_side_effect_free : Test :=
  run_fakes
    (_ ← port_under_test high_ds;
     _ ← assert_no_timer;
     _ ← assert_nothing_sent;
     assert_events []).
Definition listening_port_to_master_transition_on_announce_receipt_timeout : Test :=
  master ← run_fakes
    (listening ← port_under_test high_ds;
     ListeningPort_announce_receipt_timeout_expired listening);
  assert_true (is_Master master).
Definition listening_port_triggers_state_decision_event_on_announce_receipt_timeout : Test :=
  run_fakes
    (listening ← port_under_test high_ds;
     _ ← ListeningPort_announce_receipt_timeout_expired listening;
     assert_events [(PortNumber_new 1, Empty)]).
Definition listening_port_stays_in_listening_on_single_announce : Test :=
  run_fakes
    (listening ← port_under_test mid_ds;
     _ ← hears ListeningPort_process_announce 0 mid_ds PortIdentity_fake 0 listening;
     _ ← assert_events [];
     assert_timer SM_AnnounceReceiptTimeout).
Definition listening_port_triggers_state_decision_event_on_two_announces : Test :=
  run_fakes
    (listening ← port_under_test high_ds;
     listening ← hears ListeningPort_process_announce 0 mid_ds PortIdentity_fake 0 listening;
     _ ← assert_events [];
     _ ← hears ListeningPort_process_announce 1 mid_ds PortIdentity_fake 1 listening;
     assert_events [(PortNumber_new 1, Qualified mid_ds PortIdentity_fake PortIdentity_fake)]).

End listening.

(** ** premaster.rs *)
Module premaster.

Definition port_under_test (default_ds : ClockDS) (records : list ForeignClockRecord)
    : M Fakes (PreMasterPort Records) :=
  let p := domain_port (own_port default_ds) in
  qualification_timeout ← DomainPort_timeout SM_QualificationTimeout p;
  profile ← lift PortProfile_default;
  PreMasterPort_new p
    (mkGrandMasterTrackingBmca (parts_on (own_port default_ds) default_ds records) default_ds)
    qualification_timeout profile.

Definition pre_master_port_test_setup_is_side_effect_free : Test :=
  run_fakes
    (_ ← port_under_test low_ds [];
     _ ← assert_no_timer;
     assert_nothing_sent).
Definition pre_master_port_to_master_on_qualified : Test :=
  master ← run_fakes (pre_master ← port_under_test high_ds []; PreMasterPort_qualified pre_master);
  assert_true (is_Master master).
Definition premaster_port_triggers_state_decision_event_when_better_foreign_qualifies : Test :=
  let foreign_port := own_port high_ds in
  run_fakes
    (pre_master ← port_under_test low_ds [];
     pre_master ← hears PreMasterPort_process_announce 42 high_ds foreign_port 0 pre_master;
     _ ← assert_events [];
     _ ← hears PreMasterPort_process_announce 43 high_ds foreign_port 1 pre_master;
     assert_events [(PortNumber_new 1, Qualified high_ds foreign_port (own_port low_ds))]).
Definition premaster_port_stays_premaster_on_unchanged_foreign : Test :=
  let foreign_port :=
    PortIdentity_new (ClockIdentity_new [0x00; 0x1A; 0xC5; 0xFF; 0xFE; 0x00; 0x00; 0x01])
      (PortNumber_new 1) in
  let foreign := TestClockDS_dataset
    (TestClockDS_with_priority1 (Priority1_new 1) TestClockDS_default_low_grade_slave_only) in
  prior_record ← qualified_record_at 0 foreign_port foreign;
  run_fakes
    (pre_master ← port_under_test gps_ds [prior_record];
     _ ← hears PreMasterPort_process_announce 1 foreign foreign_port 1 pre_master;
     assert_events []).

End premaster.

(** ** passive.rs *)
Module passive.

Definition port_under_test (default_ds : ClockDS) (records : list ForeignClockRecord)
    : M Fakes (PassivePort Records) :=
  let p := domain_port (own_port default_ds) in
  t ← DomainPort_timeout SM_AnnounceReceiptTimeout p;
  interval ← lift (Duration_from_secs 5);
  profile ← lift PortProfile_default;
  PassivePort_new p (mkPassiveBmca (parts_on (own_port default_ds) default_ds records))
    (mkAnnounceReceiptTimeout t interval) profile.

Definition passive_port_test_setup_is_side_effect_free : Test :=
  run_fakes
    (_ ← port_under_test high_ds [];
     _ ← assert_no_timer;
     assert_nothing_sent).
Definition passive_port_to_master_transition_on_announce_receipt_timeout : Test :=
  master ← run_fakes
    (passive ← port_under_test high_ds [];
     PassivePort_announce_receipt_timeout_expired passive);
  assert_true (is_Master master).
Definition passive_port_triggers_state_decision_event_on_announce_receipt_timeout : Test :=
  run_fakes
    (passive ← port_under_test high_ds [];
     _ ← PassivePort_announce_receipt_timeout_expired passive;
     assert_events [(PortNumber_new 1, Empty)]).
Definition passive_port_stays_passive_on_unchanged_foreign : Test :=
  let foreign_port := PortIdentity_fake in
  prior_record ← qualified_record_at 0 foreign_port mid_ds;
  run_fakes
    (passive ← port_under_test high_ds [prior_record];
     _ ← hears PassivePort_process_announce 1 mid_ds foreign_port 1 passive;
     assert_events []).
Definition passive_port_triggers_state_decision_event_when_foreign_qualifies : Test :=
  let foreign_port := PortIdentity_fake in
  run_fakes
    (passive ← port_under_test mid_ds [];
     passive ← hears PassivePort_process_announce 1 high_ds foreign_port 0 passive;
     _ ← assert_events [];
     _ ← hears PassivePort_process_announce 2 high_ds foreign_port 1 passive;
     assert_events [(PortNumber_new 1, Qualified high_ds foreign_port (own_port mid_ds))]).

End passive.

(** ** master.rs *)
Module master.

#[local] Instance AnnounceMessage_eq_dec : EqDecision AnnounceMessage.
Proof. solve_decision. Defined.
#[local] Instance SyncCycle_eq_dec : EqDecision SyncCycle.
Proof. solve_decision. Defined.

(** [MasterPortTestSetup]: the local dataset, the tracked one, and the prior records of port 1. *)
Definition port_under_test (default_ds tracked_ds : ClockDS) (records : list ForeignClockRecord)
    : M Fakes (MasterPort Records) :=
  let p := domain_port (fake_on 1) in
  interval ← lift (LogInterval_new 0);
  announce_timeout ← DomainPort_timeout SM_AnnounceSendTimeout p;
  sync_timeout ← DomainPort_timeout SM_SyncTimeout p;
  profile ← lift PortProfile_default;
  MasterPort_new p
    (mkGrandMasterTrackingBmca (parts_on (fake_on 1) default_ds records) tracked_ds)
    (mkAnnounceCycle (SequenceId_new 0) announce_timeout interval)
    (mkSyncCycle (SequenceId_new 0) sync_timeout interval) interval profile.

Definition master_port_test_setup_is_side_effect_free : Test :=
  run_fakes
    (_ ← port_under_test high_ds high_ds [];
     _ ← assert_no_timer;
     assert_nothing_sent).
Definition master_port_answers_delay_request_with_delay_response : Test :=
  run_fakes
    (master ← port_under_test high_ds high_ds [];
     t ← lift (TimeStamp_new 0 0);
     _ ← unwrap_sent (MasterPort_process_delay_request (F := FlagBits)
                        (mkDelayRequestMessage (SequenceId_new 0)) t PortIdentity_fake master);
     assert_sent_general
       (DelayResp (mkDelayResponseMessage (SequenceId_new 0) (LogMessageInterval_new 0) t
                     PortIdentity_fake))).
Definition master_port_sends_sync : Test :=
  run_fakes
    (master ← port_under_test high_ds high_ds [];
     _ ← unwrap_sent (MasterPort_send_sync (F := FlagBits) master);
     assert_sent_event
       (TwoStepSync (mkTwoStepSyncMessage (SequenceId_new 0) (LogMessageInterval_new 0)))).
Definition master_port_schedules_next_sync_timeout : Test :=
  run_fakes
    (master ← port_under_test high_ds high_ds [];
     _ ← unwrap_sent (MasterPort_send_sync (F := FlagBits) master);
     assert_timer SM_SyncTimeout).
Definition master_port_sends_follow_up : Test :=
  run_fakes
    (master ← port_under_test high_ds high_ds [];
     t ← lift (TimeStamp_new 0 0);
     _ ← unwrap_sent (MasterPort_send_follow_up (F := FlagBits)
                        (mkTwoStepSyncMessage (SequenceId_new 0) (LogMessageInterval_new 0)) t
                        master);
     assert_sent_general
       (FollowUp (mkFollowUpMessage (SequenceId_new 0) (LogMessageInterval_new 0) t))).
Definition master_port_schedules_next_announce : Test :=
  run_fakes
    (master ← port_under_test high_ds high_ds [];
     _ ← unwrap_sent (MasterPort_send_announce (F := FlagBits) master);
     assert_timer SM_AnnounceSendTimeout).

Definition first_announce (ds : ClockDS) : GeneralMessage :=
  Announce (mkAnnounceMessage (SequenceId_new 0) (LogMessageInterval_new 0) ds Ptp).

Definition master_port_sends_announce : Test :=
  run_fakes
    (master ← port_under_test high_ds high_ds [];
     _ ← unwrap_sent (MasterPort_send_announce (F := FlagBits) master);
     assert_sent_general (first_announce high_ds)).
Definition master_port_announces_tracked_dataset_not_local_default_dataset : Test :=
  let local_ds := mid_ds in
  let tracked_ds := gps_ds in
  _ ← assert_ne local_ds tracked_ds;
  run_fakes
    (master ← port_under_test local_ds tracked_ds [];
     _ ← unwrap_sent (MasterPort_send_announce (F := FlagBits) master);
     _ ← assert_sent_general (first_announce tracked_ds);
     b ← FakePort_contains_general_message (first_announce local_ds);
     lift (assert_true (negb b))).
Definition master_port_triggers_state_decision_event_when_foreign_qualifies : Test :=
  let foreign_port := PortIdentity_fake in
  run_fakes
    (master ← port_under_test mid_ds mid_ds [];
     master ← hears MasterPort_process_announce 42 high_ds foreign_port 0 master;
     _ ← assert_events [];
     _ ← hears MasterPort_process_announce 43 high_ds foreign_port 1 master;
     assert_events [(PortNumber_new 1, Qualified high_ds foreign_port PortIdentity_fake)]).
Definition master_port_stays_master_on_subsequent_announce : Test :=
  let foreign_port := PortIdentity_fake in
  prior_record ← qualified_record_at 0 foreign_port slave_only_ds;
  run_fakes
    (master ← port_under_test high_ds high_ds [prior_record];
     _ ← hears MasterPort_process_announce 42 slave_only_ds foreign_port 1 master;
     _ ← assert_events [];
     assert_no_timer).
Definition master_port_stays_master_single_new_announce : Test :=
  run_fakes
    (master ← port_under_test high_ds high_ds [];
     _ ← hears MasterPort_process_announce 42 slave_only_ds PortIdentity_fake 0 master;
     assert_events []).
Definition master_port_triggers_state_decision_event_when_foreign_dataset_changes : Test :=
  let parent_port := PortIdentity_fake in
  prior_record ← qualified_record_at 0 parent_port slave_only_ds;
  run_fakes
    (master ← port_under_test high_ds high_ds [prior_record];
     _ ← hears MasterPort_process_announce 42 mid_ds parent_port 1 master;
     events ← FakeStateDecisionEvent_take_events;
     lift (assert_eq (snd <$> events) [Qualified mid_ds parent_port PortIdentity_fake])).

Definition announce_cycle_produces_announce_messages_with_monotonic_sequence_ids : Test :=
  interval ← LogInterval_new 0;
  let cycle :=
    mkAnnounceCycle (SequenceId_new 0) (FakeTimeout_new SM_AnnounceSendTimeout) interval in
  let msg1 := AnnounceCycle_announce Ptp high_ds cycle in
  cycle ← run_fakes (AnnounceCycle_next cycle);
  let msg2 := AnnounceCycle_announce Ptp high_ds cycle in
  _ ← assert_eq msg1
        (mkAnnounceMessage (SequenceId_new 0) (LogInterval_log_message_interval interval)
           high_ds Ptp);
  assert_eq msg2
    (mkAnnounceMessage (SequenceId_new 1) (LogInterval_log_message_interval interval) high_ds Ptp).

Definition fake_sync_cycle (seq : Z) : outcome SyncCycle :=
  interval ← LogInterval_new 0;
  Done (mkSyncCycle (SequenceId_new seq) (FakeTimeout_new SM_SyncTimeout) interval).

Definition sync_cycle_message_produces_two_step_sync_message : Test :=
  sync_cycle ← fake_sync_cycle 0;
  assert_eq (SyncCycle_two_step_sync sync_cycle)
    (mkTwoStepSyncMessage (SequenceId_new 0) (LogMessageInterval_new 0)).
Definition sync_cycle_next : Test :=
  sync_cycle ← fake_sync_cycle 0;
  sync_cycle ← run_fakes (SyncCycle_next sync_cycle);
  expected ← fake_sync_cycle 1;
  assert_eq sync_cycle expected.
Definition sync_cycle_next_wraps : Test :=
  sync_cycle ← fake_sync_cycle 65535;
  sync_cycle ← run_fakes (SyncCycle_next sync_cycle);
  expected ← fake_sync_cycle 0;
  assert_eq sync_cycle expected.

End master.

(** ** Messages a slave and an uncalibrated port are fed

    The timestamps are whole seconds; [source] is the sender. A handler's decision is compared
    with [decision]. *)
Section exchange.
  Context {P : Type}.

Definition decides (decision : option StateDecision → bool)
    (m : M Fakes (option StateDecision * P)) : M Fakes P :=
  '(d, p) ← m; _ ← lift (assert_true (decision d)); mret p.
Definition ignored (m : M Fakes (option StateDecision * P)) : M Fakes P := '(_, p) ← m; mret p.

Definition feed_delay_request
    (process : DelayRequestMessage → TimeStamp → P → M Fakes (option StateDecision * P))
    (seq egress : Z) (p : P) : M Fakes (option StateDecision * P) :=
  t ← lift (TimeStamp_new egress 0);
  process (mkDelayRequestMessage (SequenceId_new seq)) t p.
Definition feed_delay_response
    (process : DelayResponseMessage → PortIdentity → P → M Fakes (option StateDecision * P))
    (seq receive : Z) (source : PortIdentity) (p : P) : M Fakes (option StateDecision * P) :=
  t ← lift (TimeStamp_new receive 0);
  process (mkDelayResponseMessage (SequenceId_new seq) (LogMessageInterval_new 2) t
             PortIdentity_fake) source p.
Definition feed_one_step_sync
    (process : OneStepSyncMessage → PortIdentity → TimeStamp → P →
               M Fakes (option StateDecision * P))
    (seq origin ingress : Z) (source : PortIdentity) (p : P)
    : M Fakes (option StateDecision * P) :=
  o ← lift (TimeStamp_new origin 0);
  t ← lift (TimeStamp_new ingress 0);
  process (mkOneStepSyncMessage (SequenceId_new seq) (LogMessageInterval_new 0) o) source t p.
Definition feed_two_step_sync
    (process : TwoStepSyncMessage → PortIdentity → TimeStamp → P →
               M Fakes (option StateDecision * P))
    (seq ingress : Z) (source : PortIdentity) (p : P) : M Fakes (option StateDecision * P) :=
  t ← lift (TimeStamp_new ingress 0);
  process (mkTwoStepSyncMessage (SequenceId_new seq) (LogMessageInterval_new 0)) source t p.
Definition feed_follow_up
    (process : FollowUpMessage → PortIdentity → P → M Fakes (option StateDecision * P))
    (seq origin : Z) (source : PortIdentity) (p : P) : M Fakes (option StateDecision * P) :=
  t ← lift (TimeStamp_new origin 0);
  process (mkFollowUpMessage (SequenceId_new seq) (LogMessageInterval_new 0) t) source p.
End exchange.

Definition no_decision (d : option StateDecision) : bool :=
  match d with None => true | Some _ => false end.

(** ** slave.rs *)
Module slave.

(** [SlavePortTestSetup]: its announce receipt timeout is not the timer host's. *)
Definition port_under_test (default_ds : ClockDS) (parent : PortIdentity)
    (records : list ForeignClockRecord) : M Fakes (SlavePort Records) :=
  let p := domain_port (own_port default_ds) in
  delay_request_timeout ← DomainPort_timeout SM_DelayRequestTimeout p;
  receipt_interval ← lift (Duration_from_secs 5);
  interval ← lift (LogInterval_new 0);
  profile ← lift PortProfile_default;
  SlavePort_new p
    (mkParentTrackingBmca (parts_on (own_port default_ds) default_ds records)
       (ParentPortIdentity_new parent))
    (mkAnnounceReceiptTimeout (FakeTimeout_new SM_AnnounceReceiptTimeout) receipt_interval)
    (EndToEndDelayMechanism_new
       (mkDelayCycle (SequenceId_new 0) delay_request_timeout interval))
    Servo_Stepping profile.

Definition delay_request := feed_delay_request (SlavePort_process_delay_request (R := Records)).
Definition delay_response :=
  feed_delay_response (SlavePort_process_delay_response (S := Fakes) (R := Records)).
Definition one_step_sync :=
  feed_one_step_sync (SlavePort_process_one_step_sync (S := Fakes) (R := Records)).
Definition two_step_sync :=
  feed_two_step_sync (SlavePort_process_two_step_sync (S := Fakes) (R := Records)).
Definition follow_up :=
  feed_follow_up (SlavePort_process_follow_up (S := Fakes) (R := Records)).

(** A port of the clocks 00:1B:19:FF:FE:x:x:x and 00:1A:C5:FF:FE:00:00:x. *)
Definition clock_1b19 (x : Z) : PortIdentity :=
  PortIdentity_new (ClockIdentity_new [0x00; 0x1B; 0x19; 0xFF; 0xFE; x; x; x]) (PortNumber_new 1).
Definition clock_1ac5 (x : Z) : PortIdentity :=
  PortIdentity_new (ClockIdentity_new [0x00; 0x1A; 0xC5; 0xFF; 0xFE; 0x00; 0x00; x])
    (PortNumber_new 1).

Definition slave_port_test_setup_is_side_effect_free : Test :=
  run_fakes
    (_ ← port_under_test mid_ds PortIdentity_fake [];
     _ ← assert_no_timer;
     assert_nothing_sent).
Definition slave_port_synchronizes_clock_with_two_step_sync : Test :=
  run_fakes
    (slave ← port_under_test mid_ds PortIdentity_fake [];
     slave ← ignored (delay_request 0 0 slave);
     slave ← ignored (delay_response 0 2 PortIdentity_fake slave);
     slave ← ignored (two_step_sync 0 1 PortIdentity_fake slave);
     _ ← ignored (follow_up 0 1 PortIdentity_fake slave);
     assert_now 2).
Definition slave_port_synchronizes_clock_with_one_step_sync : Test :=
  run_fakes
    (slave ← port_under_test mid_ds PortIdentity_fake [];
     slave ← ignored (delay_request 0 0 slave);
     slave ← ignored (delay_response 0 2 PortIdentity_fake slave);
     _ ← ignored (one_step_sync 0 1 1 PortIdentity_fake slave);
     assert_now 2).
Definition slave_port_schedules_next_delay_request_timeout : Test :=
  run_fakes
    (slave ← port_under_test mid_ds PortIdentity_fake [];
     _ ← unwrap_sent (SlavePort_send_delay_request (F := FlagBits) slave);
     assert_timer SM_DelayRequestTimeout).
Definition slave_port_sends_delay_request : Test :=
  run_fakes
    (slave ← port_under_test mid_ds PortIdentity_fake [];
     _ ← unwrap_sent (SlavePort_send_delay_request (F := FlagBits) slave);
     assert_sent_event (DelayReq (mkDelayRequestMessage (SequenceId_new 0)))).
Definition slave_port_to_master_transition_on_announce_receipt_timeout : Test :=
  master ← run_fakes
    (slave ← port_under_test mid_ds PortIdentity_fake [];
     SlavePort_announce_receipt_timeout_expired slave);
  assert_true (is_Master master).
Definition slave_port_triggers_state_decision_event_on_announce_receipt_timeout : Test :=
  run_fakes
    (slave ← port_under_test mid_ds PortIdentity_fake [];
     _ ← SlavePort_announce_receipt_timeout_expired slave;
     assert_events [(PortNumber_new 1, Empty)]).
Definition slave_port_ignores_general_messages_from_non_parent : Test :=
  let parent := clock_1b19 0xAA in
  let non_parent := clock_1b19 0xBB in
  run_fakes
    (slave ← port_under_test mid_ds parent [];
     slave ← decides no_decision (two_step_sync 1 2 parent slave);
     slave ← decides no_decision (delay_request 2 0 slave);
     slave ← decides no_decision (follow_up 1 1 non_parent slave);
     _ ← decides no_decision (delay_response 2 2 non_parent slave);
     assert_now 0).
Definition slave_port_ignores_event_messages_from_non_parent : Test :=
  let parent := clock_1b19 0xAA in
  let non_parent := clock_1b19 0xBB in
  run_fakes
    (slave ← port_under_test mid_ds parent [];
     slave ← decides no_decision (follow_up 1 1 parent slave);
     slave ← decides no_decision (two_step_sync 1 2 non_parent slave);
     slave ← decides no_decision (delay_request 2 0 slave);
     _ ← decides no_decision (delay_response 2 2 parent slave);
     assert_now 0).
Definition slave_port_disciplines_on_matching_conversation : Test :=
  let parent := clock_1b19 0xCC in
  run_fakes
    (slave ← port_under_test mid_ds parent [];
     slave ← decides no_decision (delay_request 43 0 slave);
     slave ← decides no_decision (delay_response 43 2 parent slave);
     slave ← decides no_decision (two_step_sync 42 1 parent slave);
     _ ← decides no_decision (follow_up 42 1 parent slave);
     assert_now 2).
Definition slave_port_triggers_state_decision_event_on_updated_parent : Test :=
  let parent_port := clock_1ac5 0x01 in
  prior_record ← qualified_record_at 0 parent_port mid_ds;
  run_fakes
    (slave ← port_under_test low_ds parent_port [prior_record];
     _ ← hears SlavePort_process_announce 42 high_ds parent_port 1 slave;
     assert_events [(PortNumber_new 1, Qualified high_ds parent_port (own_port low_ds))]).
Definition slave_port_triggers_state_decision_event_with_new_parent : Test :=
  let parent_port := clock_1ac5 0x01 in
  let new_parent := clock_1ac5 0x02 in
  prior_record ← qualified_record_at 0 parent_port mid_ds;
  run_fakes
    (slave ← port_under_test low_ds parent_port [prior_record];
     slave ← hears SlavePort_process_announce 42 high_ds new_parent 0 slave;
     _ ← assert_events [];
     _ ← hears SlavePort_process_announce 43 high_ds new_parent 1 slave;
     assert_events [(PortNumber_new 1, Qualified high_ds new_parent (own_port low_ds))]).
Definition slave_port_triggers_state_decision_event_on_worse_parent : Test :=
  let parent_port := clock_1ac5 0x01 in
  prior_record ← qualified_record_at 0 parent_port high_ds;
  run_fakes
    (slave ← port_under_test mid_ds parent_port [prior_record];
     _ ← hears SlavePort_process_announce 42 slave_only_ds parent_port 1 slave;
     assert_events [(PortNumber_new 1, Qualified slave_only_ds parent_port (own_port mid_ds))]).

End slave.

(** ** uncalibrated.rs *)
Module uncalibrated.

Definition port_under_test (default_ds : ClockDS) (parent_port : PortIdentity)
    (records : list ForeignClockRecord) : M Fakes (UncalibratedPort Records) :=
  let p := domain_port (own_port default_ds) in
  receipt ← DomainPort_timeout SM_AnnounceReceiptTimeout p;
  receipt_interval ← lift (Duration_from_secs 5);
  delay_timeout ← DomainPort_timeout SM_DelayRequestTimeout p;
  interval ← lift (LogInterval_new 0);
  profile ← lift PortProfile_default;
  UncalibratedPort_new p
    (mkParentTrackingBmca (parts_on (own_port default_ds) default_ds records)
       (ParentPortIdentity_new parent_port))
    (mkAnnounceReceiptTimeout receipt receipt_interval)
    (EndToEndDelayMechanism_new (mkDelayCycle (SequenceId_new 0) delay_timeout interval))
    Servo_Stepping profile.

Definition uncalibrated_port_test_setup_is_side_effect_free : Test :=
  run_fakes
    (_ ← port_under_test low_ds PortIdentity_fake [];
     _ ← assert_no_timer;
     assert_nothing_sent).
Definition uncalibrated_port_triggers_state_decision_event_with_new_parent : Test :=
  let parent_port := slave.clock_1ac5 0x01 in
  let new_parent := slave.clock_1ac5 0x02 in
  prior_record ← qualified_record_at 0 parent_port mid_ds;
  run_fakes
    (uncalibrated ← port_under_test low_ds parent_port [prior_record];
     uncalibrated ← hears UncalibratedPort_process_announce 42 high_ds new_parent 0 uncalibrated;
     _ ← assert_events [];
     _ ← hears UncalibratedPort_process_announce 43 high_ds new_parent 1 uncalibrated;
     assert_events [(PortNumber_new 1, Qualified high_ds new_parent (own_port low_ds))]).
Definition uncalibrated_port_becomes_slave_on_next_sync_from_parent : Test :=
  let parent_port := PortIdentity_fake in
  prior_record ← qualified_record_at 0 parent_port high_ds;
  run_fakes
    (uncalibrated ← port_under_test mid_ds parent_port [prior_record];
     uncalibrated ← decides no_decision
       (feed_delay_request UncalibratedPort_process_delay_request 42 1 uncalibrated);
     uncalibrated ← decides no_decision
       (feed_delay_response UncalibratedPort_process_delay_response 42 2 parent_port uncalibrated);
     _ ← decides (λ d, match d with Some (MasterClockSelected _) => true | _ => false end)
       (feed_one_step_sync UncalibratedPort_process_one_step_sync 0 1 1 parent_port uncalibrated);
     mret ()).
Definition uncalibrated_port_to_master_on_announce_receipt_timeout : Test :=
  master ← run_fakes
    (uncalibrated ← port_under_test high_ds PortIdentity_fake [];
     UncalibratedPort_announce_receipt_timeout_expired uncalibrated);
  assert_true (is_Master master).
Definition uncalibrated_port_triggers_state_decision_event_on_announce_receipt_timeout : Test :=
  run_fakes
    (uncalibrated ← port_under_test high_ds PortIdentity_fake [];
     _ ← UncalibratedPort_announce_receipt_timeout_expired uncalibrated;
     assert_events [(PortNumber_new 1, Empty)]).
Definition uncalibrated_port_triggers_state_decision_event_when_local_better_than_foreign
    : Test :=
  let foreign_port := own_port mid_ds in
  run_fakes
    (uncalibrated ← port_under_test gps_ds PortIdentity_fake [];
     uncalibrated ← hears UncalibratedPort_process_announce 42 mid_ds foreign_port 0 uncalibrated;
     _ ← assert_events [];
     _ ← hears UncalibratedPort_process_announce 43 mid_ds foreign_port 1 uncalibrated;
     assert_events [(PortNumber_new 1, Qualified mid_ds foreign_port (own_port gps_ds))]).
Definition uncalibrated_port_triggers_state_decision_event_when_non_gm_local_better_than_foreign
    : Test :=
  let foreign_port := own_port slave_only_ds in
  run_fakes
    (uncalibrated ← port_under_test mid_ds PortIdentity_fake [];
     uncalibrated ←
       hears UncalibratedPort_process_announce 42 slave_only_ds foreign_port 0 uncalibrated;
     _ ← assert_events [];
     _ ← hears UncalibratedPort_process_announce 43 slave_only_ds foreign_port 1 uncalibrated;
     assert_events [(PortNumber_new 1, Qualified slave_only_ds foreign_port (own_port mid_ds))]).

End uncalibrated.

(** ** All of them pass *)

Definition state_tests : list Test :=
  [ portstate.portstate_listening_to_master_transition;
    portstate.portstate_slave_to_master_transition;
    portstate.portstate_pre_master_to_master_transition;
    portstate.portstate_uncalibrated_to_master_transition;
    portstate.portstate_uncalibrated_to_slave_transition;
    portstate.portstate_listening_to_uncalibrated_transition;
    portstate.portstate_master_to_uncalibrated_transition;
    portstate.portstate_listening_to_pre_master_transition;
    portstate.portstate_initializing_to_listening_transition;
    portstate.portstate_initializing_to_master_illegal_transition_panics;
    portstate.portstate_master_to_master_illegal_transition_panics;
    portstate.portstate_initializing_to_slave_illegal_transition_panics;
    portstate.portstate_listening_to_slave_illegal_transition_panics;
    portstate.portstate_slave_to_slave_illegal_transition_panics;
    portstate.portstate_master_to_slave_illegal_transition_panics;
    portstate.portstate_pre_master_to_slave_illegal_transition_panics;
    portstate.portstate_initializing_to_uncalibrated_illegal_transition_panics;
    portstate.portstate_slave_to_uncalibrated_transition;
    portstate.portstate_pre_master_to_uncalibrated_transition;
    portstate.portstate_uncalibrated_to_uncalibrated_transition;
    portstate.portstate_initializing_to_pre_master_illegal_transition_goes_to_faulty;
    portstate.portstate_slave_to_pre_master_transition;
    portstate.portstate_master_to_pre_master_transition;
    portstate.portstate_pre_master_to_pre_master_illegal_transition_panics;
    portstate.portstate_uncalibrated_to_pre_master_transition;
    portstate.portstate_listening_to_listening_illegal_transition_panics;
    portstate.portstate_slave_to_listening_illegal_transition_panics;
    portstate.portstate_master_to_listening_illegal_transition_panics;
    portstate.portstate_pre_master_to_listening_illegal_transition_panics;
    portstate.portstate_initializing_to_faulty_transition_panics;
    portstate.portstate_listening_to_faulty_transition;
    portstate.portstate_slave_to_faulty_transition;
    portstate.portstate_master_to_faulty_transition;
    portstate.portstate_master_enters_faulty_on_announce_send_failure;
    portstate.portstate_master_enters_faulty_on_delay_response_send_failure;
    portstate.portstate_master_enters_faulty_on_follow_up_send_failure;
    portstate.portstate_master_enters_faulty_on_sync_send_failure;
    portstate.portstate_slave_enters_faulty_on_delay_request_send_failure;
    portstate.portstate_pre_master_to_faulty_transition;
    portstate.portstate_uncalibrated_to_faulty_transition;
    portstate.portstate_faulty_to_faulty_transition;
    portstate.portstate_faulty_to_initializing_on_fault_cleared;
    portstate.portstate_faulty_dispatch_system_fault_cleared_requests_transition;
    portstate.portstate_listening_to_passive_transition;
    portstate.portstate_master_to_passive_transition;
    portstate.portstate_pre_master_to_passive_transition;
    portstate.portstate_slave_to_passive_transition;
    portstate.portstate_uncalibrated_to_passive_transition;
    portstate.portstate_passive_to_pre_master_transition;
    portstate.portstate_passive_to_uncalibrated_transition;
    portstate.portstate_passive_to_master_transition;
    portstate.portstate_passive_to_faulty_transition;
    portstate.portstate_initializing_to_passive_illegal_transition_panics;
    portstate.portstate_faulty_to_passive_illegal_transition_panics;
    port.port_sets_domain_and_identity_on_event;
    port.port_sets_domain_and_identity_on_general;
    port.port_enumeration_sequential_yields_1_to_n;
    port.port_enumeration_single_yields_one_then_none;
    port.port_enumeration_sequential_zero_panics;
    initializing.initializing_port_to_listening_transition;
    listening.listening_port_test_setup_is_side_effect_free;
    listening.listening_port_to_master_transition_on_announce_receipt_timeout;
    listening.listening_port_triggers_state_decision_event_on_announce_receipt_timeout;
    listening.listening_port_stays_in_listening_on_single_announce;
    listening.listening_port_triggers_state_decision_event_on_two_announces;
    premaster.pre_master_port_test_setup_is_side_effect_free;
    premaster.pre_master_port_to_master_on_qualified;
    premaster.premaster_port_triggers_state_decision_event_when_better_foreign_qualifies;
    premaster.premaster_port_stays_premaster_on_unchanged_foreign;
    passive.passive_port_test_setup_is_side_effect_free;
    passive.passive_port_to_master_transition_on_announce_receipt_timeout;
    passive.passive_port_triggers_state_decision_event_on_announce_receipt_timeout;
    passive.passive_port_stays_passive_on_unchanged_foreign;
    passive.passive_port_triggers_state_decision_event_when_foreign_qualifies;
    master.master_port_test_setup_is_side_effect_free;
    master.master_port_answers_delay_request_with_delay_response;
    master.master_port_sends_sync;
    master.master_port_schedules_next_sync_timeout;
    master.master_port_sends_follow_up;
    master.master_port_schedules_next_announce;
    master.master_port_sends_announce;
    master.master_port_announces_tracked_dataset_not_local_default_dataset;
    master.master_port_triggers_state_decision_event_when_foreign_qualifies;
    master.master_port_stays_master_on_subsequent_announce;
    master.master_port_stays_master_single_new_announce;
    master.master_port_triggers_state_decision_event_when_foreign_dataset_changes;
    master.announce_cycle_produces_announce_messages_with_monotonic_sequence_ids;
    master.sync_cycle_message_produces_two_step_sync_message;
    master.sync_cycle_next;
    master.sync_cycle_next_wraps;
    slave.slave_port_test_setup_is_side_effect_free;
    slave.slave_port_synchronizes_clock_with_two_step_sync;
    slave.slave_port_synchronizes_clock_with_one_step_sync;
    slave.slave_port_schedules_next_delay_request_timeout;
    slave.slave_port_sends_delay_request;
    slave.slave_port_to_master_transition_on_announce_receipt_timeout;
    slave.slave_port_triggers_state_decision_event_on_announce_receipt_timeout;
    slave.slave_port_ignores_general_messages_from_non_parent;
    slave.slave_port_ignores_event_messages_from_non_parent;
    slave.slave_port_disciplines_on_matching_conversation;
    slave.slave_port_triggers_state_decision_event_on_updated_parent;
    slave.slave_port_triggers_state_decision_event_with_new_parent;
    slave.slave_port_triggers_state_decision_event_on_worse_parent;
    uncalibrated.uncalibrated_port_test_setup_is_side_effect_free;
    uncalibrated.uncalibrated_port_triggers_state_decision_event_with_new_parent;
    uncalibrated.uncalibrated_port_becomes_slave_on_next_sync_from_parent;
    uncalibrated.uncalibrated_port_to_master_on_announce_receipt_timeout;
    uncalibrated.uncalibrated_port_triggers_state_decision_event_on_announce_receipt_timeout;
    uncalibrated.uncalibrated_port_triggers_state_decision_event_when_local_better_than_foreign;
    uncalibrated.uncalibrated_port_triggers_state_decision_event_when_non_gm_local_better_than_foreign ].

Lemma state_tests_pass : Forall (λ t, t = Done ()) state_tests.
Proof. repeat constructor. Qed.
