(* ===== verification/TestsDaemon.v ===== *)
(** * The unit tests of the daemon (crates/rptp-daemon/src/node.rs, virtualclock.rs)

    Ports on the fakes of TestSupport.v and one ports loop, whose sent datagrams the tests count or
    which is given datagrams no port accepts. Time is the test's: it passes in steps, and the loop
    handles what is due at each. The tests that run in real time run under one such schedule. A test
    of the virtual clock takes the instants at which it reads the clock. *)

From S2P Require Import Prelude Errors Time Clock PortId DataSet Foreign Stores Wire Message.
From S2P Require Import Effects Servo E2e Bmca Profile Handlers PortState PortSafety Clocks System.
From S2P Require Import VirtualClock Daemon GrafanaDemo Texts TestSupport.

Open Scope Z_scope.

(** ** Fakes *)

(** The recorder of decision events keeps no timeouts. *)
#[export] Instance Fakes_handles : ClockHandles Fakes := λ _, [].

(** [FakeClock] as a node's clock. *)
Record FakeClock := mkFakeClock {
  fc_now : TimeStamp;
  fc_time_scale : TimeScale;
  fc_last_adjust : option f64;
}.
Definition FakeClock_new (now : TimeStamp) (time_scale : TimeScale) : FakeClock :=
  mkFakeClock now time_scale None.
Definition FakeClock_default : outcome FakeClock :=
  zero ← TimeStamp_new 0 0; Done (FakeClock_new zero Ptp).
Definition FakeClock_step (to : TimeStamp) (self : FakeClock) : FakeClock :=
  mkFakeClock to (fc_time_scale self) (fc_last_adjust self).
Definition FakeClock_adjust (rate : f64) (self : FakeClock) : FakeClock :=
  mkFakeClock (fc_now self) (fc_time_scale self) (Some rate).
#[export] Instance FakeClock_SystemClock : SystemClock FakeClock := {
  sc_now _ self := Done (fc_now self);
  sc_step _ := FakeClock_step;
  sc_adjust _ rate self := Done (FakeClock_adjust rate self);
}.

(** [FakeTimestamping]: nothing comes back for a transmission, and every ingress is at zero. *)
Definition FakeTimestamping_stamp_egress (msg : EventMessage) : option SystemMessage := None.
Definition FakeTimestamping_ingress_stamp : outcome TimeStamp := TimeStamp_new 0 0.
Definition FakeTimestamping {C} : Timestamping C := {|
  tm_stamp_egress _ msg _ := Done (FakeTimestamping_stamp_egress msg);
  tm_ingress_stamp _ _ := FakeTimestamping_ingress_stamp;
|}.

(** The clock's adapter for transmissions and the fake for receptions. *)
Definition MasterTimestamping {C} `{SystemClock C} : Timestamping C := {|
  tm_stamp_egress := ClockTxTimestamping_stamp_egress;
  tm_ingress_stamp _ _ := FakeTimestamping_ingress_stamp;
|}.

(** A socket's receiver: the datagrams it was given, unless the test has dropped it. *)
Record FakeNetworkSocket := mkFakeNetworkSocket { fs_sent : option (list (list Z)) }.
Definition FakeNetworkSocket_new : FakeNetworkSocket := mkFakeNetworkSocket (Some []).
Definition FakeNetworkSocket_try_send (bytes : list Z) (self : FakeNetworkSocket)
    : bool * FakeNetworkSocket :=
  match fs_sent self with
  | Some sent => (true, mkFakeNetworkSocket (Some (sent ++ [bytes])))
  | None => (false, self)
  end.

(** What sends return to a port: the result of [try_send] on the event or the general socket, which
    the type of the message, in the low half of its first byte, tells apart. *)
Definition is_event_datagram (bytes : list Z) : bool :=
  match bytes with b :: _ => Z.land b 15 <? 8 | [] => false end.
Definition socket_env (time_scale : TimeScale) (event_socket general_socket : FakeNetworkSocket)
    : Env := {|
  env_send_ok _ _ bytes :=
    fst (FakeNetworkSocket_try_send bytes
           (if is_event_datagram bytes then event_socket else general_socket));
  env_time_scale _ := time_scale;
|}.

(** [InjectingNetworkSocket]: a queue of datagrams to receive, cut to the buffer; [None] is where it
    waits for one. It takes every datagram, as [FakePort] does. *)
Definition InjectingNetworkSocket_recv (buf_len : nat) (queue : list (list Z))
    : option (list Z * list (list Z)) :=
  match queue with
  | msg :: queue => Some (take buf_len msg, queue)
  | [] => None
  end.

(** ** Runs *)

Section runs.
  Context {C : Type} `{HC : !SystemClock C} `{HT : !Timestamping C} `{HE : !Env}.

Abbreviation TestNode := (Node Fakes ForeignClockRecordsVec C).

(** The next event of a node with one loop and nothing to receive: what is queued, what is due, or
    the passing of time. *)
Definition node_next (until : Z) (n : TestNode) : option NodeEvent :=
  match nd_loops n with
  | [l] =>
      let armed := omap (λ e, (λ h, (e.1, h.1)) <$> tt_handle e.2) (tl_timeouts l) in
      match tl_status l, tl_system_rx l with
      | Starting, _ => Some (Ev_Start 0)
      | Stopped, _ => None
      | Running _, _ :: _ => Some (Ev_System 0)
      | Running _, [] =>
          match head (filter (λ td, td.2 <= nd_now n) armed) with
          | Some td => Some (Ev_Fire 0 td.1)
          | None =>
              let next := fold_left Z.min (snd <$> armed) until in
              if nd_now n <? next then Some (Ev_Elapse (next - nd_now n)) else None
          end
      end
  | _ => None
  end.

Definition node_eagerly : nat → Z → TestNode → option TestNode :=
  run_until (node_step (F := FlagBits)) node_next.

(** The test's loop: the time passes in steps of a tenth of a second until [enough] was sent or the
    ten seconds are over. *)
Fixpoint count_loop (enough : TestNode → bool) (steps : nat) (n : TestNode) : outcome TestNode :=
  match steps with
  | O => Done n
  | S steps =>
      match node_eagerly 1000 (nd_now n + 100000000) n with
      | None => Panic
      | Some n => if enough n then Done n else count_loop enough steps n
      end
  end.

(** The messages of a kind among what the sockets were given. *)
Definition count_sent {A} (decode : list Z → PR A) (P : A → bool) (bufs : list (list Z)) : Z :=
  Z.of_nat (length (filter (λ buf, match decode buf with Done (Ok a) => P a | _ => false end = true)
                      bufs)).

Definition sync_count (n : TestNode) : Z :=
  count_sent TestMessage_event (λ m, match m with TwoStepSync _ => true | _ => false end)
    (sent_events (w_trace (nd_world n))).
Definition follow_up_count (n : TestNode) : Z :=
  count_sent TestMessage_general (λ m, match m with FollowUp _ => true | _ => false end)
    (sent_generals (w_trace (nd_world n))).
Definition delay_request_count (n : TestNode) : Z :=
  count_sent TestMessage_event (λ m, match m with DelayReq _ => true | _ => false end)
    (sent_events (w_trace (nd_world n))).

(** A loop around a fixture's port. *)
Definition test_node (clock : C) (port_state : M Fakes (PortState ForeignClockRecordsVec))
    : outcome (option TestNode) :=
  add_loop (DomainNumber_new 0) (state ← port_state; mret (Some state))
    (mkNode [] (mkWorld [] (mkFakes [] [])) clock 0).

Definition unwrap_node (node : outcome (option TestNode)) : outcome TestNode :=
  node ← node; match node with Some n => Done n | None => Panic end.

(** The loop receives a datagram of the queue, twenty milliseconds pass, and it is shut down. *)
Definition run_with_datagrams (queue : list (list Z)) (n : TestNode) : Test :=
  match InjectingNetworkSocket_recv BUF_LEN queue with
  | None => Panic
  | Some (datagram, _) =>
      match node_run (F := FlagBits) [Ev_Start 0; Ev_RecvEvent 0 datagram] n with
      | Some (Done n) =>
          match node_eagerly 1000 (nd_now n + 20000000) n with
          | Some n =>
              match node_step (F := FlagBits) (Ev_Shutdown 0) n with
              | Some (Done _) => Done ()
              | _ => Panic
              end
          | None => Panic
          end
      | _ => Panic
      end
  end.
End runs.

(** ** Fixtures *)

Definition test_ds (last : Z) : ClockDS :=
  ClockDS_new (ClockIdentity_new [0x00; 0x1B; 0x19; 0xFF; 0xFE; 0x00; 0x00; last])
    (Priority1_new 127) (Priority2_new 127) (ClockQuality_new CC_Default CA_Within1ms 0xFFFF)
    (StepsRemoved_new 0).

Definition test_domain_port (default_ds : ClockDS) : DomainPort :=
  mkDomainPort (PortIdentity_new (cds_identity default_ds) (PortNumber_new 1)) (DomainNumber_new 0).

(** [MasterTestNode::new]. *)
Definition MasterTestNode_new (clock : FakeClock) (default_ds : ClockDS)
    : outcome (option (Node Fakes ForeignClockRecordsVec FakeClock)) :=
  profile ← PortProfile_default;
  test_node (HT := FakeTimestamping) clock
    (master_test_port (test_domain_port default_ds) default_ds ForeignClockRecordsVec_new profile).

(** The frames' runs of zeros are written as such. *)
Definition DOMAIN_SEVEN_SYNC : list Z :=
  [0x00; 0x02; 0x00; 0x2C; 0x07; 0x00; 0x02] ++ replicate 14 0x00
  ++ [0x01; 0x02; 0x03; 0x04; 0x05; 0x06; 0x07; 0x00; 0x01; 0x00; 0x01] ++ replicate 12 0x00.
Definition PTP_V1_SYNC : list Z :=
  [0x00; 0x01; 0x00; 0x2C; 0x00; 0x00; 0x02] ++ replicate 14 0x00
  ++ [0x01; 0x02; 0x03; 0x04; 0x05; 0x06; 0x07; 0x00; 0x01; 0x00; 0x02] ++ replicate 12 0x00.
Definition LENGTH_MISMATCH_SYNC : list Z :=
  [0x00; 0x02; 0x00; 0x2D; 0x00; 0x00; 0x02] ++ replicate 14 0x00
  ++ [0x01; 0x02; 0x03; 0x04; 0x05; 0x06; 0x07; 0x00; 0x01; 0x00; 0x0A] ++ replicate 12 0x00.
Definition SHORT_PAYLOAD_SYNC : list Z :=
  [0x00; 0x02; 0x00; 0x28] ++ replicate 17 0x00
  ++ [0x01; 0x02; 0x03; 0x04; 0x05; 0x06; 0x07; 0x00; 0x01; 0x00; 0x0B] ++ replicate 6 0x00
  ++ [0xAA; 0xBB].

(** ** The tests of node.rs *)

Definition master_node_sends_periodic_sync_follow_up : Test :=
  start ← TimeStamp_new 0 0;
  profile ← PortProfile_default;
  let virtual_clock := VirtualClock_new 0 start f64_one Arb in
  let default_ds := test_ds 0x01 in
  let env := socket_env Arb FakeNetworkSocket_new FakeNetworkSocket_new in
  n ← unwrap_node (test_node (HT := MasterTimestamping) virtual_clock
        (master_test_port (test_domain_port default_ds) default_ds ForeignClockRecordsVec_new
           profile));
  n ← count_loop (HT := MasterTimestamping) (HE := env)
        (λ n, (5 <=? sync_count n) && (5 <=? follow_up_count n)) 100 n;
  _ ← assert_eq (sync_count n) (follow_up_count n);
  assert_eq (sync_count n) 5.

(** The receiver of the general socket is dropped at once, so that general messages fail. *)
Definition slave_node_sends_periodic_delay_requests : Test :=
  let default_ds := test_ds 0x02 in
  let env := socket_env Ptp FakeNetworkSocket_new (mkFakeNetworkSocket None) in
  clock ← FakeClock_default;
  let parent_port_identity :=
    ParentPortIdentity_new
      (PortIdentity_new (ClockIdentity_new [0x00; 0x00; 0x00; 0x00; 0x00; 0x00; 0x00; 0x00])
         (PortNumber_new 1)) in
  minute ← Duration_from_secs 60;
  interval ← LogInterval_new 0;
  let profile := mkPortProfile minute interval interval interval SC_Stepping in
  n ← unwrap_node (test_node (HT := FakeTimestamping) clock
        (slave_test_port (test_domain_port default_ds) default_ds ForeignClockRecordsVec_new
           parent_port_identity profile));
  n ← count_loop (HT := FakeTimestamping) (HE := env) (λ n, 5 <=? delay_request_count n) 100 n;
  assert_true (5 <=? delay_request_count n).

Definition ports_loop_handles_unknown_domain_event_message : Test :=
  clock ← FakeClock_default;
  n ← unwrap_node (MasterTestNode_new clock (test_ds 0x03));
  run_with_datagrams (HT := FakeTimestamping) (HE := FakePort) [DOMAIN_SEVEN_SYNC] n.

Definition ports_loop_handles_unsupported_ptp_version_event_message : Test :=
  clock ← FakeClock_default;
  n ← unwrap_node (MasterTestNode_new clock (test_ds 0x04));
  run_with_datagrams (HT := FakeTimestamping) (HE := FakePort) [PTP_V1_SYNC] n.

Definition ports_loop_handles_header_too_short_event_message : Test :=
  clock ← FakeClock_default;
  n ← unwrap_node (MasterTestNode_new clock (test_ds 0x05));
  run_with_datagrams (HT := FakeTimestamping) (HE := FakePort) [replicate 10 0] n.

Definition ports_loop_handles_length_mismatch_event_message : Test :=
  clock ← FakeClock_default;
  n ← unwrap_node (MasterTestNode_new clock (test_ds 0x06));
  run_with_datagrams (HT := FakeTimestamping) (HE := FakePort) [LENGTH_MISMATCH_SYNC] n.

Definition ports_loop_handles_short_payload_event_message : Test :=
  clock ← FakeClock_default;
  n ← unwrap_node (MasterTestNode_new clock (test_ds 0x07));
  run_with_datagrams (HT := FakeTimestamping) (HE := FakePort) [SHORT_PAYLOAD_SYNC] n.

(** ** The tests of virtualclock.rs *)

Definition virtual_clock_is_monotonic_for_fixed_rate (at0 at1 at2 : Z) : Test :=
  start_ts ← TimeStamp_new 1 0;
  let clock := VirtualClock_new at0 start_ts f64_one Arb in
  t1 ← VirtualClock_now at1 clock;
  t2 ← VirtualClock_now at2 clock;
  assert_true (TimeStamp_leb t1 t2).

Definition virtual_clock_does_not_go_backwards_on_adjust (at0 at1 at2 at3 : Z) : Test :=
  start_ts ← TimeStamp_new 1 0;
  let clock := VirtualClock_new at0 start_ts f64_one Arb in
  t1 ← VirtualClock_now at1 clock;
  clock ← VirtualClock_adjust at2 (f64_div f64_one (f64_of_Z 2)) clock;
  t2 ← VirtualClock_now at3 clock;
  assert_true (TimeStamp_leb t1 t2).

Definition virtual_clock_step_sets_lower_bound (at0 at1 at2 : Z) : Test :=
  start_ts ← TimeStamp_new 0 0;
  five ← TimeStamp_new 5 0;
  let clock := VirtualClock_step at1 five (VirtualClock_new at0 start_ts f64_one Arb) in
  t ← VirtualClock_now at2 clock;
  assert_true (TimeStamp_leb five t).

(** ** The model passes them *)

Definition node_tests : list Test :=
  [master_node_sends_periodic_sync_follow_up; slave_node_sends_periodic_delay_requests;
   ports_loop_handles_unknown_domain_event_message;
   ports_loop_handles_unsupported_ptp_version_event_message;
   ports_loop_handles_header_too_short_event_message;
   ports_loop_handles_length_mismatch_event_message;
   ports_loop_handles_short_payload_event_message].

Lemma node_tests_pass : Forall (λ t, t = Done ()) node_tests.
Proof. repeat (apply Forall_cons; split; [vm_compute; reflexivity|]). apply Forall_nil_2. Qed.

(** The clock is read at instants that are nanoseconds to days apart. *)
Definition read_intervals : list Z := [0; 1; 37; 1000003; 1999999999; 86400000000001].

Definition virtual_clock_tests : list Test :=
  d1 ← read_intervals; d2 ← read_intervals;
  let at1 := 5 + d1 in let at2 := at1 + d2 in
  [virtual_clock_is_monotonic_for_fixed_rate 5 at1 at2;
   virtual_clock_does_not_go_backwards_on_adjust 5 at1 at2 (at2 + d1);
   virtual_clock_step_sets_lower_bound 5 at1 at2].

Lemma virtual_clock_tests_pass : Forall (λ t, t = Done ()) virtual_clock_tests.
Proof.
  assert (virtual_clock_tests = replicate 108 (Done ())) as -> by (vm_compute; reflexivity).
  by apply Forall_replicate.
Qed.

#[local] Existing Instance FakePort.

(** The line a ports loop writes about each of the datagrams no port accepts. *)
Definition event_line (datagram : list Z) : outcome (option RxLine) :=
  clock ← FakeClock_default;
  n ← unwrap_node (MasterTestNode_new clock (test_ds 0x03));
  timestamp ← FakeTimestamping_ingress_stamp;
  match tl_portmap <$> nd_loops n with
  | [ports] =>
      '(res, _, _) ← MessageIngress_receive_event (F := FlagBits)
                       (P := PortFsm ForeignClockRecordsVec) datagram timestamp ports (nd_world n);
      Done (rx_line "event" res)
  | _ => Panic
  end.

Lemma invalid_datagrams_lines :
  event_line DOMAIN_SEVEN_SYNC
  = Done (Some (mkRxLine TRACE "protocol error: PTP domain 7 not found"
                  "dropping event message for unknown domain")) ∧
  event_line PTP_V1_SYNC
  = Done (Some (mkRxLine TRACE "protocol error: unsupported PTP version 1"
                  "dropping event message with unsupported PTP version")) ∧
  event_line (replicate 10 0)
  = Done (Some (mkRxLine TRACE "parse error: message too short for PTP header: found 10 bytes"
                  "dropping event message with parse error")) ∧
  event_line LENGTH_MISMATCH_SYNC
  = Done (Some (mkRxLine TRACE "parse error: declared PTP length 45 does not match actual 44"
                  "dropping event message with parse error")) ∧
  event_line SHORT_PAYLOAD_SYNC
  = Done (Some (mkRxLine TRACE
                  "parse error: payload too short for field `Sync.origin_timestamp`: expected 10 bytes, found 6"
                  "dropping event message with parse error")).
Proof. vm_compute. split_and!; reflexivity. Qed.
