(* ===== verification/Conformance.v ===== *)
(** * The model passes the repository's tests

    The tests of the modules under crates/rptp/src, those of the daemon's node.rs and virtualclock.rs
    and the integration test of crates/rptp-daemon/tests, over the same definitions the theorems are about:
    what the tests assert of the program holds of its model. *)

From S2P Require Import Prelude Effects TestSupport.
From S2P Require Import TestsValues TestsRecords TestsMechanisms TestsWire TestsStates.
From S2P Require Import TestsDaemon BoundaryDemo.

Definition unit_tests : list Test :=
  time_tests ++ dataset_tests ++ record_tests ++ mechanism_tests ++ wire_tests ++ state_tests.

Definition daemon_tests : list Test :=
  node_tests ++ virtual_clock_tests ++ [time_propagates_through_two_port_boundary_clock].

(** The model passes the tests the repository tests its source with: each of the unit tests
    of time.rs, dataset.rs, foreign.rs, infra.rs, heapless.rs, bmca.rs, e2e.rs, servo.rs, wire.rs,
    message.rs, portstate.rs, port.rs and the files of the port states, fixtures and assertions
    included, those that expect a panic too, and the daemon's tests of its loop on valid and
    invalid datagrams, of its virtual clock and of the two-port boundary clock. *)
Theorem model_passes_tests : Forall (λ t, t = Done ()) (unit_tests ++ daemon_tests).
Proof.
  pose proof value_tests_pass as Hv. apply Forall_app in Hv as [Htime Hdataset].
  apply Forall_app; split.
  - repeat (apply Forall_app; split);
      eauto using record_tests_pass, mechanism_tests_pass, wire_tests_pass, state_tests_pass.
  - apply Forall_app. split; [exact node_tests_pass|].
    apply Forall_app. split; [exact virtual_clock_tests_pass|].
    apply Forall_singleton, boundary_test_passes.
Qed.
